(* ===== verification/_CoqProject ===== *)
-Q . S2P
Prelude.v
Rounding.v
Binary64.v
Milli.v
Accuracy.v
Util.v
Units.v
UnitsSpec.v
Ids.v
Clock.v
Budget.v
Ledger.v
BudgetSpec.v
Authority.v
WorkloadClass.v
Thermal.v
Policy.v
Energy.v
WindowSpec.v
WindowEnergy.v
Reservation.v
ReservationFacts.v
ReservationSpec.v
Index.v
PowerDomain.v
Backend.v
CudaBackend.v
DecisionEngine.v
DecisionSpec.v
Equality.v
Crc.v
Wire.v
Cursor.v
Protocol.v
Net.v
Sockets.v
Persistence.v
Governor.v
GovernorSpec.v
GovernorIndex.v
GovernorState.v
GovernorLoad.v
GovernorSave.v
GovernorReclaim.v
Scan.v
Strtod.v
Coordinator.v
CoordinatorSpec.v
Worker.v
WorkerSpec.v
Console.v
ConsoleSpec.v
Cli.v
CliSpec.v
Examples.v
Conformance.v
GovernorThreads.v
TestFramework.v
Rtx5090.v
Benchmarks.v
