(* ===== verification/Prelude.v ===== *)
(** * Power Governor: a verification library

    Power Governor decides how much power accelerators may draw.  It books power on a
    hierarchy of budgets, reads telemetry through a control backend, turns telemetry,
    policy and budgets into decisions, and is run by a coordinator that workers reach
    over framed messages.  This library models its C++ and CUDA code (under [src/],
    mostly the headers [src/include/powergovernor/*.hpp]) and proves it correct, down
    to the bits of the floating-point accounting.

    ** How the code is modelled

    A class is a Module of the same name, its members a Record [t] (or the named
    structure of the source), its methods Definitions of the same name over explicit
    state.  An operation that can throw, end the process or be undefined returns an
    [outcome] (this file): [Ret], [Throw], [Terminate], [Undefined].  Methods that
    change state and can throw are written in the monad [M] of this file, whose
    failing steps keep the state reached.  Integers are [Z], wrapped by [u32], [u64]
    and the like where the source wraps, and tested where it overflows.  A [double] is
    the kernel's binary64 number, so that every comparison, sum, product and
    conversion rounds as the hardware does.  The lock of a class that has one is the
    atomicity of its steps.

    ** The files, and the code they model

    Foundations.  [Prelude]: outcomes, the monad, machine integers, automation.
    [Rounding], [Binary64], [Milli]: rounding to 53 bits as a function on integers, and
    the operations on doubles as exact integer operations followed by that rounding;
    thousandths and truncation; [Accuracy] follows the relative error through a
    computation.  [Scan] and [Strtod]: reading integers and decimal numbers
    from text as the C library does.

    Values.  [Util] and [Crc] (util.hpp): digests, JSON, CRC-32 and what it detects.
    [Units] and [UnitsSpec] (units.hpp), [Ids] (ids.hpp), [Clock] (clock.hpp).  [WorkloadClass]
    (workload_class.hpp, perf_state.hpp), [Policy] (policy.hpp, freshness.hpp).

    Components.  [Budget] (budget.hpp) keeps reserved and used power on the chain of
    ancestors of a budget; [Ledger] is its specification with exact integer amounts, and
    [BudgetSpec] the refinement and the theorems.  [Reservation] (reservation.hpp) is the
    life cycle of reservations, written against the class [BudgetOps] and its laws
    [BudgetLaws]; [ReservationFacts] and [ReservationSpec] prove it and discharge the laws
    for the manager of [Budget].  [Authority] (authority.hpp) fences envelopes;
    [Thermal] (thermal.hpp) classifies temperatures; [Energy] (energy.hpp, burst.hpp)
    accounts energy, and [WindowSpec] and [WindowEnergy] are about its window of power
    readings; [Index] (index.hpp, change_history.hpp) files reservations;
    [PowerDomain] (power_domain.hpp) is the tree of domains.  [Backend] (backend.hpp) is
    the interface [ControlBackend], its laws and the synthetic backend, and
    [CudaBackend] (backend_cuda.hpp, nvidia_cuda_backend.cpp, pg_cuda_backend.cu) the
    one over NVML with the CUDA probe.  [DecisionEngine] and [DecisionSpec]
    (decision_engine.hpp) are the verdicts.  [Equality]: the comparisons of the headers'
    records.

    Formats.  [Wire] and [Protocol] (protocol.hpp): fields, frames and messages.  [Cursor]
    (protocol.hpp, persistence.hpp): the writer and reader classes with their buffer,
    pointer and position, which implement [Wire].  [Net] and [Sockets] (net.hpp): frames over
    a byte stream, and the opening and closing of sockets.  [Persistence] (persistence.hpp): envelopes and
    the atomic replacement of a file.

    The whole.  [Governor] (governor.hpp) composes the components, over any backend that
    keeps the laws; [GovernorSpec] and [GovernorIndex] prove what holds after any
    history of calls; [GovernorState] is its persisted form, [GovernorLoad] the safety of
    recovery from any file, [GovernorSave] the recovery of what was saved, and
    [GovernorReclaim] that of the reserved power.  [Coordinator] and [CoordinatorSpec]
    (tools/distributed.cpp) are the coordinator with its threads as a step relation, a step
    for each section that runs under a lock: a reservation has three (the fence, the
    planning, the booking) and a save two.  [Worker] and [WorkerSpec] are the workers,
    connected to it through the transport of [Net], with an arbitrary part of the other
    threads before each section.  [Console] and [ConsoleSpec]
    (tools/distributed.cpp) are the terminals of both programs, from the text of their input
    and their arguments; [Cli] and [CliSpec] (tools/main.cpp) the command line.

    Runs.  [Examples] computes what the example programs print, [Rtx5090]
    (examples/rtx5090.cpp) what the validation on the hardware does, over any answers of the
    CUDA runtime and of NVML.  [Conformance] computes the assertions of the test suite, among
    them the distributed proof with its coordinator, its operator and its workers;
    [GovernorThreads] is the test of concurrency as a theorem, [TestFramework]
    (test_framework.hpp, test_main.cpp, downstream/main.cpp) what runs the tests, and
    [Benchmarks] (benchmarks/bench_main.cpp) the benchmark with its threads.

    ** What the theorems show

    - Power is never overcommitted, as long as no budget is installed under itself or one of
      its descendants, nor re-issued with a lower maximum: by a budget manager
      ([BudgetSpec]), a governor ([GovernorSpec]), a governor recovered from any file
      ([GovernorLoad]), a coordinator under any interleaving of its sections and any bytes
      ([CoordinatorSpec]), whatever is typed at its terminal when each budget names a parent
      of a smaller number ([ConsoleSpec]); on amounts of the grid the accounting is exact and
      refines the ledger, and reservations account for all of it.
    - Threads that share a governor, in any interleaving of their calls, are never refused and
      leave the books exact, when the amounts are on the grid and the budgets have room for
      each of their reservations twice ([GovernorThreads]); they all finish.
    - Decisions: what an ALLOW means from the engine and end to end; stale telemetry only
      revalidates; the recommended limit is within every ceiling; the hysteresis.
    - Authority: what the gate and the fence accept, that an epoch once rolled stays
      fenced, that an honest worker is not fenced, that installing a policy never rolls the
      policy back (loading a file does).
    - Recovery: what a governor saves another loads, budgets, reservations, index and
      energies, and every reserved watt is booked again; from a file of any bytes, the
      budgets are a forest within their limits.
    - Formats: round trips of every frame, message and envelope, delivery over a stream cut
      anywhere, rejection of altered data, atomic replacement of files; the classes that
      read through a pointer never read out of bounds; an operator's script is understood
      as it was written.
    - The command line: the decision it prints, and that [recover] refuses what [save] wrote.
    - Energy: windows and bursts never overrun; the window of power readings holds exactly the
      recent ones, and its energy and average are the trapezoidal ones up to a rounding error
      proportional to the number of samples.
    - Components: quantities that keep the rules of their dimension, life cycles, thermal
      hysteresis, indexes, termination of the walk of ancestors, the limit in force in the
      driver, and what the probe verifies whatever its schedule and whichever of its calls
      fail.

    Lemmas named in the manifest's findings, near the code they are about, show where
    the program departs from what it means to do.

    ** Bounds and fuel

    The chain of a budget is cut where the code cuts it, at 65 budgets; the check of a
    loaded hierarchy at the code's 256 turns.  [PowerDomainTree.ancestors] has as fuel the
    number of nodes, and is proved never to use it up.  The loops over [recv] and [send]
    have as fuel the number of bytes left, of which each turn takes at least one.  The
    exact accounting is stated on multiples of [2^-28] W below [2^24] W; everywhere else
    amounts are arbitrary doubles, and the statements carry the tolerance [1e-9] of the
    code and the rounding error.  Counters of 64 bits wrap; the theorems that rely on
    fresh identifiers say that fewer than [2^64] were handed out.  The recovery theorems are
    about amounts that survive the three decimals of the format ([GovernorSave.stored]),
    which some doubles with three decimals do not.  The energy of a window is stated for
    powers that are zero or from [2^-40] to [2^40] W, so that no product is subnormal, and
    [2^47] samples.

    ** What is not modelled

    The clocks of the system, the calls of the socket library, of NVML, of the CUDA runtime
    and of the file system, and the allocation of memory: what they answer is an argument,
    with the laws it is relied on for.  The single-precision arithmetic of the CUDA probe is
    a parameter.  The translation of line ends in text mode, std::hash specialisations and
    the order of hash tables (the maps of the model have an order of their own, and the
    theorems about persistence hold for any).  A call of the governor that holds its lock
    throughout is one step, and is not broken into its instructions: what the references returned without it allow (governor.hpp,
    [reservation], [history], [domains], [budget_manager]) is outside the model.  Of the tests,
    the starting of processes. *)
From Stdlib Require Export ZArith Lia List Bool.
From stdpp Require Export base tactics list gmap strings fin_maps.
From Stdlib Require Export Floats.

(** ** Outcomes of C++ code

    A function of the program returns a value, throws an exception of the
    standard library, ends the process ([std::terminate], reached when an
    exception leaves a [noexcept] function or a thread), or has undefined
    behaviour (signed overflow, an out-of-range conversion). *)
Inductive exn : Type :=
| invalid_argument (msg : string)
| overflow_error (msg : string)
| out_of_range (msg : string)
| length_error (msg : string).

Inductive outcome (A : Type) : Type :=
| Ret (a : A)
| Throw (e : exn)
| Terminate
| Undefined.
Arguments Ret {A} _.
Arguments Throw {A} _.
Arguments Terminate {A}.
Arguments Undefined {A}.

Definition obind {A B : Type} (m : outcome A) (k : A -> outcome B) : outcome B :=
  match m with
  | Ret a => k a
  | Throw e => Throw e
  | Terminate => Terminate
  | Undefined => Undefined
  end.

(** What a [noexcept] boundary makes of an outcome. *)
Definition noexcept {A : Type} (m : outcome A) : outcome A :=
  match m with
  | Throw _ => Terminate
  | _ => m
  end.

Declare Scope pg_scope.
Delimit Scope pg_scope with pg.
Notation "'let!' x ':=' m 'in' k" := (obind m (fun x => k))
  (at level 10, x pattern, m at level 100, k at level 200,
   format "'[v' 'let!'  x  ':='  m  'in' '/' k ']'") : pg_scope.
Open Scope pg_scope.

Lemma obind_Ret {A B : Type} (m : outcome A) (k : A -> outcome B) (b : B) :
  obind m k = Ret b -> exists a, m = Ret a /\ k a = Ret b.
Proof. destruct m as [a|e| |]; simpl; intros H; try discriminate; eauto. Qed.

Lemma obind_assoc {A B C : Type} (m : outcome A) (k : A -> outcome B) (l : B -> outcome C) :
  obind (obind m k) l = obind m (fun a => obind (k a) l).
Proof. destruct m; reflexivity. Qed.

Lemma noexcept_Ret {A : Type} (m : outcome A) (a : A) : noexcept m = Ret a <-> m = Ret a.
Proof. destruct m; simpl; split; congruence. Qed.

(** ** State and exceptions

    Stateful code that can throw keeps the state it had reached: an exception
    does not undo the assignments made before it. *)
Definition M (S A : Type) : Type := S -> outcome A * S.

Definition sret {S A : Type} (a : A) : M S A := fun s => (Ret a, s).
Definition sbind {S A B : Type} (m : M S A) (k : A -> M S B) : M S B :=
  fun s => match m s with
           | (Ret a, s') => k a s'
           | (Throw e, s') => (Throw e, s')
           | (Terminate, s') => (Terminate, s')
           | (Undefined, s') => (Undefined, s')
           end.
Definition sget {S : Type} : M S S := fun s => (Ret s, s).
Definition sput {S : Type} (s : S) : M S unit := fun _ => (Ret tt, s).
Definition smodify {S : Type} (f : S -> S) : M S unit := fun s => (Ret tt, f s).
Definition slift {S A : Type} (o : outcome A) : M S A := fun s => (o, s).

Notation "'do!' x '<-' m ';' k" := (sbind m (fun x => k))
  (at level 10, x pattern, m at level 100, k at level 200,
   format "'[v' 'do!'  x  '<-'  m ';' '/' k ']'") : pg_scope.
Lemma sbind_Ret {S A B : Type} (m : M S A) (k : A -> M S B) (s s' : S) (b : B) :
  sbind m k s = (Ret b, s') -> exists a s1, m s = (Ret a, s1) /\ k a s1 = (Ret b, s').
Proof. unfold sbind. destruct (m s) as [[a|e| |] s1]; intros H; try discriminate; eauto. Qed.

(** Run one step of a stateful sequence. *)
Lemma sbind_step {S A B : Type} (m : M S A) (k : A -> M S B) (s s' : S) (a : A) :
  m s = (Ret a, s') -> sbind m k s = k a s'.
Proof. unfold sbind. intros ->. reflexivity. Qed.

Lemma sbind_sget {S B : Type} (k : S -> M S B) (s : S) : sbind sget k s = k s s.
Proof. reflexivity. Qed.
Lemma sbind_sput {S B : Type} (x : S) (k : unit -> M S B) (s : S) : sbind (sput x) k s = k tt x.
Proof. reflexivity. Qed.
Lemma sbind_lift {S A B : Type} (a : A) (k : A -> M S B) (s : S) : sbind (slift (Ret a)) k s = k a s.
Proof. reflexivity. Qed.

(** A component's code run on its part of a larger state. *)
Definition zoom {S T A : Type} (get : S -> T) (put : T -> S -> S) (m : M T A) : M S A :=
  fun s => let '(o, t) := m (get s) in (o, put t s).

Lemma zoom_eq {S T A : Type} (get : S -> T) (put : T -> S -> S) (m : M T A) (s : S) :
  zoom get put m s = ((m (get s)).1, put (m (get s)).2 s).
Proof. unfold zoom. destruct (m (get s)). reflexivity. Qed.

Lemma zoom_step {S T A : Type} (get : S -> T) (put : T -> S -> S) (m : M T A) (s : S) (t : T) (a : A) :
  m (get s) = (Ret a, t) -> zoom get put m s = (Ret a, put t s).
Proof. unfold zoom. intros ->. reflexivity. Qed.

(** *** What code leaves alone

    [Keeps f m]: running [m] does not change the part [f] of the state, however it
    ends. *)
Class Keeps {S A B : Type} (f : S -> B) (m : M S A) : Prop := keeps : forall s, f (m s).2 = f s.

Section Keeps.
Context {S B : Type} (f : S -> B).

#[export] Instance keeps_ret {A : Type} (a : A) : Keeps f (sret a).
Proof. intros s. reflexivity. Qed.
#[export] Instance keeps_get : Keeps f sget.
Proof. intros s. reflexivity. Qed.
#[export] Instance keeps_lift {A : Type} (o : outcome A) : Keeps f (slift o).
Proof. intros s. reflexivity. Qed.
#[export] Instance keeps_bind {A C : Type} (m : M S A) (k : A -> M S C) :
  Keeps f m -> (forall a, Keeps f (k a)) -> Keeps f (sbind m k).
Proof.
  intros Hm Hk s. unfold sbind. specialize (Hm s). destruct (m s) as [[a|e| |] s']; cbn [snd] in *; try assumption.
  rewrite Hk. exact Hm.
Qed.
Lemma keeps_modify (u : S -> S) : (forall s, f (u s) = f s) -> Keeps f (smodify u).
Proof. intros H s. apply H. Qed.
Lemma keeps_zoom {T A : Type} (get : S -> T) (put : T -> S -> S) (m : M T A) :
  (forall t s, f (put t s) = f s) -> Keeps f (zoom get put m).
Proof. intros H s. rewrite zoom_eq. apply H. Qed.
End Keeps.

(** A component's step, followed by code that leaves the component alone. *)
Lemma zoom_bind_state {S T A C : Type} (get : S -> T) (put : T -> S -> S) (m : M T A) (k : A -> M S C) (s : S) :
  (forall t s, get (put t s) = t) -> (forall a, Keeps get (k a)) ->
  get (sbind (zoom get put m) k s).2 = (m (get s)).2.
Proof.
  intros Hp Hk. unfold sbind. rewrite zoom_eq. destruct (m (get s)) as [[a|e| |] t]; cbn [fst snd]; try apply Hp.
  rewrite (Hk a). apply Hp.
Qed.

(** Solve [Keeps f m] for code that writes to other parts only. *)
Ltac solve_keeps :=
  repeat first
    [ apply keeps_ret | apply keeps_get | apply keeps_lift
    | apply keeps_modify; intros; solve [auto] | apply keeps_zoom; intros; solve [auto]
    | apply keeps_bind; [|intros ?]
    | assumption
    | match goal with
      | |- Keeps _ (if ?b then _ else _) => destruct b
      | |- Keeps _ (match ?x with _ => _ end) => destruct x
      end ].

(** ** Machine integers *)
Definition wrap (w z : Z) : Z := z mod 2 ^ w.
Definition u64 (z : Z) : Z := wrap 64 z.
Definition u32 (z : Z) : Z := wrap 32 z.
Definition u8 (z : Z) : Z := wrap 8 z.

Definition in_u (w z : Z) : Prop := (0 <= z < 2 ^ w)%Z.
Definition in_i64 (z : Z) : Prop := (- 2 ^ 63 <= z < 2 ^ 63)%Z.
Definition in_i64b (z : Z) : bool := ((- 2 ^ 63 <=? z) && (z <? 2 ^ 63))%Z.

(** A signed 64-bit result: undefined behaviour when it overflows. *)
Definition i64_checked (z : Z) : outcome Z := if in_i64b z then Ret z else Undefined.

Lemma wrap_small (w z : Z) : in_u w z -> wrap w z = z.
Proof. unfold wrap, in_u. intros H. apply Z.mod_small. exact H. Qed.

Lemma wrap_range (w z : Z) : (0 <= w)%Z -> in_u w (wrap w z).
Proof. intros Hw. unfold in_u, wrap. apply Z.mod_pos_bound. apply Z.pow_pos_nonneg; lia. Qed.

Lemma in_i64b_spec (z : Z) : in_i64b z = true <-> in_i64 z.
Proof. unfold in_i64b, in_i64. lia. Qed.

(** ** Tactics of the development *)

(** Case analysis on every [match] and [if] scrutinee of the goal. *)
Ltac split_match :=
  match goal with
  | |- context [match ?x with _ => _ end] =>
      lazymatch x with
      | context [match _ with _ => _ end] => fail
      | _ => destruct x eqn:?
      end
  end.

(** The same on a hypothesis. *)
Ltac split_match_in H :=
  match type of H with
  | context [match ?x with _ => _ end] =>
      lazymatch x with
      | context [match _ with _ => _ end] => fail
      | _ => destruct x eqn:?
      end
  end.

(** Turn boolean connectives in the hypotheses into propositions. *)
Ltac bool_hyps :=
  repeat match goal with
  | H : andb _ _ = true |- _ => apply andb_prop in H; destruct H
  | H : orb _ _ = false |- _ => apply orb_false_elim in H; destruct H
  | H : negb _ = true |- _ => apply negb_true_iff in H
  | H : negb _ = false |- _ => apply negb_false_iff in H
  end.

(** ** Updating a map along a list of keys *)
Lemma foldl_alter_lookup `{Countable K} {A : Type} (f : A -> A) (l : list K) (m : gmap K A) (k : K) :
  NoDup l -> foldl (fun m k => alter f k m) m l !! k = if decide (k ∈ l) then f <$> m !! k else m !! k.
Proof.
  intros Hl. revert m. induction Hl as [|c l Hc Hl IH]; intros m; cbn [foldl].
  { rewrite decide_False by apply not_elem_of_nil. reflexivity. }
  rewrite IH, lookup_alter. destruct (decide (c = k)) as [->|Hne].
  - rewrite decide_False by assumption. rewrite decide_True by left. reflexivity.
  - destruct (decide (k ∈ l)) as [Hin|Hin].
    + rewrite decide_True by (right; assumption). reflexivity.
    + rewrite decide_False by (rewrite elem_of_cons; intuition congruence). reflexivity.
Qed.

Lemma forallb_pointwise {A : Type} (f g : A -> bool) (l : list A) :
  (forall a, f a = g a) -> forallb f l = forallb g l.
Proof. intros H. induction l as [|a l IH]; simpl; [reflexivity|]. rewrite H, IH. reflexivity. Qed.

Create HintDb pg.
#[export] Hint Resolve wrap_range : pg.
