(* ===== verification/Rounding.v ===== *)
(** * Rounding to nearest, ties to even, on integers

    The value of a finite binary64 number is an integer multiple of
    [2^-1074].  Counting in that unit, addition and subtraction are integer
    addition and subtraction followed by [rnd], the rounding of an integer to
    53 significant bits.  This file defines [rnd] and proves what the
    accounting proofs use: monotonicity, the error bound, exactness on
    representable integers. *)
From Stdlib Require Import ZArith Lia Bool SpecFloat.
Local Open Scope Z_scope.

(** ** Powers of two and binary digits *)
Lemma pow2_pos (k : Z) : 0 <= k -> 0 < 2 ^ k.
Proof. intros H. apply Z.pow_pos_nonneg; lia. Qed.

Lemma pow2_add (a b : Z) : 0 <= a -> 0 <= b -> 2 ^ (a + b) = 2 ^ a * 2 ^ b.
Proof. intros. apply Z.pow_add_r; assumption. Qed.

Lemma pow2_le (a b : Z) : 0 <= a <= b -> 2 ^ a <= 2 ^ b.
Proof. intros. apply Z.pow_le_mono_r; lia. Qed.

Lemma pow2_succ (k : Z) : 0 <= k -> 2 ^ (k + 1) = 2 * 2 ^ k.
Proof. intros. rewrite pow2_add by lia. change (2 ^ 1) with 2. ring. Qed.

Lemma digits2_pos_spec (p : positive) :
  2 ^ (Z.pos (digits2_pos p) - 1) <= Z.pos p < 2 ^ Z.pos (digits2_pos p).
Proof.
  induction p as [p IH|p IH|]; cbn [digits2_pos]; [| |split; reflexivity];
  rewrite Pos2Z.inj_succ; set (d := Z.pos (digits2_pos p)) in *;
  assert (0 < d) by (unfold d; lia);
  replace (Z.succ d - 1) with d by lia;
  (replace (2 ^ d) with (2 * 2 ^ (d - 1)) in * by (rewrite <- pow2_succ by lia; f_equal; lia));
  change (Z.succ d) with (d + 1);
  (replace (2 ^ (d + 1)) with (2 * (2 * 2 ^ (d - 1)))
     by (rewrite pow2_succ by lia; f_equal; rewrite <- pow2_succ by lia; f_equal; lia));
  lia.
Qed.

Lemma Zdigits2_spec (n : Z) : 0 < n -> 2 ^ (Zdigits2 n - 1) <= n < 2 ^ Zdigits2 n.
Proof. destruct n as [|p|p]; intros; try lia. apply digits2_pos_spec. Qed.

Lemma Zdigits2_pos (n : Z) : 0 < n -> 0 < Zdigits2 n.
Proof. destruct n; simpl; lia. Qed.

Lemma Zdigits2_nonneg (n : Z) : 0 <= Zdigits2 n.
Proof. destruct n; simpl; lia. Qed.

Lemma Zdigits2_unique (n d : Z) : 0 < d -> 2 ^ (d - 1) <= n < 2 ^ d -> Zdigits2 n = d.
Proof.
  intros Hd [Hlo Hhi].
  assert (Hn : 0 < n) by (pose proof (pow2_pos (d - 1)); lia).
  pose proof (Zdigits2_spec n Hn) as [Hlo' Hhi']. pose proof (Zdigits2_pos n Hn).
  destruct (Z.lt_trichotomy (Zdigits2 n) d) as [H'|[H'|H']]; [|assumption|].
  - pose proof (pow2_le (Zdigits2 n) (d - 1)). lia.
  - pose proof (pow2_le d (Zdigits2 n - 1)). lia.
Qed.

Lemma Zdigits2_mul_pow2 (n j : Z) : 0 < n -> 0 <= j -> Zdigits2 (n * 2 ^ j) = Zdigits2 n + j.
Proof.
  intros Hn Hj. pose proof (Zdigits2_spec n Hn) as [Hlo Hhi].
  pose proof (Zdigits2_pos n Hn) as Hd. pose proof (pow2_pos j Hj).
  apply Zdigits2_unique; [lia|].
  replace (Zdigits2 n + j - 1) with ((Zdigits2 n - 1) + j) by lia.
  rewrite !pow2_add by lia. nia.
Qed.

Lemma Zdigits2_le (a b : Z) : 0 <= a <= b -> Zdigits2 a <= Zdigits2 b.
Proof.
  intros H. destruct (Z.eq_dec a 0) as [->|Ha]; [simpl; apply Zdigits2_nonneg|].
  pose proof (Zdigits2_spec a ltac:(lia)) as [Ha1 _].
  pose proof (Zdigits2_spec b ltac:(lia)) as [_ Hb2].
  destruct (Z.le_gt_cases (Zdigits2 a) (Zdigits2 b)) as [|Hgt]; [assumption|].
  pose proof (Zdigits2_nonneg b).
  pose proof (pow2_le (Zdigits2 b) (Zdigits2 a - 1)). lia.
Qed.

(** ** Nearest-even quotient by a power of two *)
Definition rne (m k : Z) : Z :=
  let q := m / 2 ^ k in
  match 2 * (m mod 2 ^ k) ?= 2 ^ k with
  | Lt => q
  | Eq => if Z.even q then q else q + 1
  | Gt => q + 1
  end.

Lemma div_mod_pow2 (m k : Z) : 0 <= k ->
  m = m / 2 ^ k * 2 ^ k + m mod 2 ^ k /\ 0 <= m mod 2 ^ k < 2 ^ k.
Proof.
  intros Hk. pose proof (pow2_pos k Hk). split.
  - rewrite Z.mul_comm. apply Z.div_mod. lia.
  - apply Z.mod_pos_bound. assumption.
Qed.

Lemma rne_bounds (m k : Z) : m / 2 ^ k <= rne m k <= m / 2 ^ k + 1.
Proof. unfold rne. destruct (_ ?= _); [destruct (Z.even _)| |]; lia. Qed.

Lemma rne_error (m k : Z) : 0 <= k -> 2 * Z.abs (rne m k * 2 ^ k - m) <= 2 ^ k.
Proof.
  intros Hk. destruct (div_mod_pow2 m k Hk) as [Hm Hr]. unfold rne.
  set (q := m / 2 ^ k) in *. set (r := m mod 2 ^ k) in *. set (P := 2 ^ k) in *.
  destruct (Z.compare_spec (2 * r) P); [destruct (Z.even q)| |]; nia.
Qed.

Lemma rne_exact (q k : Z) : 0 <= k -> rne (q * 2 ^ k) k = q.
Proof.
  intros Hk. pose proof (pow2_pos k Hk). unfold rne.
  rewrite Z.mod_mul, Z.div_mul by lia.
  destruct (Z.compare_spec (2 * 0) (2 ^ k)); lia.
Qed.

Lemma rne_0_r (m : Z) : rne m 0 = m.
Proof. rewrite <- (Z.mul_1_r m) at 1. change 1 with (2 ^ 0). apply rne_exact. lia. Qed.

Lemma rne_mono (m m' k : Z) : 0 <= k -> m <= m' -> rne m k <= rne m' k.
Proof.
  intros Hk Hle. destruct (div_mod_pow2 m k Hk) as [Hm Hr].
  destruct (div_mod_pow2 m' k Hk) as [Hm' Hr'].
  pose proof (rne_bounds m k). pose proof (rne_bounds m' k).
  assert (m / 2 ^ k <= m' / 2 ^ k) by (apply Z.div_le_mono; [apply pow2_pos|]; assumption).
  destruct (Z.eq_dec (m / 2 ^ k) (m' / 2 ^ k)) as [He|Hne]; [|lia].
  unfold rne. rewrite <- He in *. set (q := m / 2 ^ k) in *.
  destruct (Z.compare_spec (2 * (m mod 2 ^ k)) (2 ^ k));
  destruct (Z.compare_spec (2 * (m' mod 2 ^ k)) (2 ^ k));
  try destruct (Z.even q); lia.
Qed.

Lemma rne_scale (m k j : Z) : 0 <= k -> 0 <= j -> rne (m * 2 ^ j) (k + j) = rne m k.
Proof.
  intros Hk Hj. pose proof (pow2_pos j Hj). pose proof (pow2_pos k Hk).
  unfold rne. rewrite pow2_add by assumption.
  rewrite Z.div_mul_cancel_r, Z.mul_mod_distr_r by lia.
  replace (2 * (m mod 2 ^ k * 2 ^ j)) with (2 * (m mod 2 ^ k) * 2 ^ j) by ring.
  rewrite Z.mul_comm, (Z.mul_comm (2 ^ k)).
  rewrite <- Zmult_compare_compat_l by lia. reflexivity.
Qed.

(** ** Rounding an integer to 53 significant bits *)
Definition excess (n : Z) : Z := Z.max (Zdigits2 n - 53) 0.

Definition rnd_pos (n : Z) : Z := rne n (excess n) * 2 ^ excess n.

Definition rnd (n : Z) : Z := Z.sgn n * rnd_pos (Z.abs n).

Lemma excess_nonneg (n : Z) : 0 <= excess n.
Proof. unfold excess. lia. Qed.

Lemma excess_pos_digits (n : Z) : 0 < excess n -> Zdigits2 n = excess n + 53.
Proof. unfold excess. lia. Qed.

(** A number of [d] bits is rounded to a number between [2^(d-1)] and [2^d]. *)
Lemma rnd_pos_bounds (n : Z) : 0 < n ->
  2 ^ (Zdigits2 n - 1) <= rnd_pos n <= 2 ^ Zdigits2 n.
Proof.
  intros Hn. pose proof (Zdigits2_spec n Hn) as [Hlo Hhi].
  pose proof (excess_nonneg n) as Hk. unfold rnd_pos.
  destruct (Z.eq_dec (excess n) 0) as [He|He].
  { rewrite He, rne_0_r, Z.mul_1_r. lia. }
  pose proof (excess_pos_digits n ltac:(lia)) as Hd. rewrite Hd in *.
  set (k := excess n) in *. set (d1 := k + 53 - 1) in *.
  replace d1 with (52 + k) in * by (unfold d1; lia). clear d1.
  replace (k + 53) with (53 + k) in * by lia.
  assert (Hq1 : rne (2 ^ 52 * 2 ^ k) k <= rne n k)
    by (apply rne_mono; [|rewrite <- pow2_add]; lia).
  assert (Hq2 : rne n k <= rne (2 ^ 53 * 2 ^ k) k)
    by (apply rne_mono; [|rewrite <- pow2_add]; lia).
  rewrite rne_exact in Hq1, Hq2 by lia. rewrite !pow2_add by lia.
  pose proof (pow2_pos k). nia.
Qed.

Lemma rnd_pos_nonneg (n : Z) : 0 <= n -> 0 <= rnd_pos n.
Proof.
  intros Hn. destruct (Z.eq_dec n 0) as [->|]; [reflexivity|].
  pose proof (rnd_pos_bounds n ltac:(lia)). pose proof (Zdigits2_pos n ltac:(lia)).
  pose proof (pow2_pos (Zdigits2 n - 1)). lia.
Qed.

Lemma rnd_pos_mono (a b : Z) : 0 <= a <= b -> rnd_pos a <= rnd_pos b.
Proof.
  intros H. destruct (Z.eq_dec a 0) as [->|Ha].
  { change (rnd_pos 0) with 0. apply rnd_pos_nonneg. lia. }
  pose proof (rnd_pos_bounds a ltac:(lia)) as [_ Hua].
  pose proof (rnd_pos_bounds b ltac:(lia)) as [Hlb _].
  pose proof (Zdigits2_le a b ltac:(lia)). pose proof (Zdigits2_pos a ltac:(lia)).
  destruct (Z.eq_dec (Zdigits2 a) (Zdigits2 b)) as [Hd|Hd].
  - unfold rnd_pos. assert (excess a = excess b) as -> by (unfold excess; lia).
    apply Z.mul_le_mono_nonneg_r; [apply Z.lt_le_incl, pow2_pos, excess_nonneg|].
    apply rne_mono; [apply excess_nonneg|lia].
  - pose proof (pow2_le (Zdigits2 a) (Zdigits2 b - 1)). lia.
Qed.

(** Relative error of at most [2^-53]. *)
Lemma rnd_pos_error (n : Z) : 0 <= n -> 2 ^ 53 * Z.abs (rnd_pos n - n) <= n.
Proof.
  intros Hn. destruct (Z.eq_dec n 0) as [->|]; [reflexivity|].
  unfold rnd_pos. pose proof (rne_error n (excess n) (excess_nonneg n)) as He.
  destruct (Z.eq_dec (excess n) 0) as [H0|H0].
  { rewrite H0, rne_0_r, Z.mul_1_r, Z.sub_diag. simpl. lia. }
  pose proof (excess_nonneg n). pose proof (excess_pos_digits n ltac:(lia)) as Hd.
  pose proof (Zdigits2_spec n ltac:(lia)) as [Hlo _]. rewrite Hd in Hlo.
  replace (excess n + 53 - 1) with (52 + excess n) in Hlo by lia.
  rewrite pow2_add in Hlo by lia.
  change (2 ^ 53) with (2 ^ 52 * 2). nia.
Qed.

Lemma rnd_pos_exact (m j : Z) : 0 <= m <= 2 ^ 53 -> 0 <= j -> rnd_pos (m * 2 ^ j) = m * 2 ^ j.
Proof.
  intros Hm Hj. pose proof (pow2_pos j Hj).
  destruct (Z.eq_dec m 0) as [->|Hm0]; [reflexivity|].
  unfold rnd_pos. rewrite (Z.mul_comm (rne _ _)).
  assert (Hx : exists q, m * 2 ^ j = q * 2 ^ excess (m * 2 ^ j)).
  { unfold excess. rewrite Zdigits2_mul_pow2 by lia.
    destruct (Z.eq_dec m (2 ^ 53)) as [->|Hm53].
    - change (Zdigits2 (2 ^ 53)) with 54. rewrite Z.max_l by lia.
      exists (2 ^ 52). replace (54 + j - 53) with (1 + j) by lia. rewrite pow2_add by lia.
      change (2 ^ 53) with (2 ^ 52 * 2 ^ 1). ring.
    - pose proof (Zdigits2_le m (2 ^ 53 - 1) ltac:(lia)) as Hd.
      change (Zdigits2 (2 ^ 53 - 1)) with 53 in Hd.
      exists (m * 2 ^ (j - Z.max (Zdigits2 m + j - 53) 0)).
      rewrite <- Z.mul_assoc, <- pow2_add by lia. do 2 f_equal. lia. }
  destruct Hx as [q Hq]. rewrite Hq at 2. rewrite rne_exact by apply excess_nonneg.
  rewrite Z.mul_comm. congruence.
Qed.

Lemma rnd_nonneg_eq (n : Z) : 0 <= n -> rnd n = rnd_pos n.
Proof.
  intros H. unfold rnd. destruct (Z.eq_dec n 0) as [->|]; [reflexivity|].
  rewrite Z.sgn_pos, Z.abs_eq by lia. ring.
Qed.

Lemma rnd_opp (n : Z) : rnd (- n) = - rnd n.
Proof. unfold rnd. rewrite Z.sgn_opp, Z.abs_opp. ring. Qed.

Lemma rnd_0 : rnd 0 = 0.
Proof. reflexivity. Qed.

Lemma rnd_mono (a b : Z) : a <= b -> rnd a <= rnd b.
Proof.
  intros H. destruct (Z.le_gt_cases 0 a) as [Ha|Ha].
  { rewrite !rnd_nonneg_eq by lia. apply rnd_pos_mono. lia. }
  replace a with (- (- a)) in * by lia. rewrite rnd_opp, (rnd_nonneg_eq (- a)) by lia.
  pose proof (rnd_pos_nonneg (- a) ltac:(lia)).
  destruct (Z.le_gt_cases 0 b) as [Hb|Hb].
  { rewrite (rnd_nonneg_eq b) by lia. pose proof (rnd_pos_nonneg b ltac:(lia)). lia. }
  replace b with (- (- b)) by lia. rewrite rnd_opp, (rnd_nonneg_eq (- b)) by lia.
  pose proof (rnd_pos_mono (- b) (- a) ltac:(lia)). lia.
Qed.

Lemma rnd_error (n : Z) : 2 ^ 53 * Z.abs (rnd n - n) <= Z.abs n.
Proof.
  destruct (Z.le_gt_cases 0 n) as [Hn|Hn].
  - rewrite rnd_nonneg_eq by lia. pose proof (rnd_pos_error n Hn). lia.
  - replace n with (- (- n)) by lia. rewrite rnd_opp, rnd_nonneg_eq by lia.
    pose proof (rnd_pos_error (- n) ltac:(lia)). lia.
Qed.

Lemma rnd_nonneg (n : Z) : 0 <= n -> 0 <= rnd n.
Proof. intros H. rewrite <- rnd_0. apply rnd_mono. assumption. Qed.

Lemma rnd_nonpos (n : Z) : n <= 0 -> rnd n <= 0.
Proof. intros H. rewrite <- rnd_0. apply rnd_mono. assumption. Qed.

(** ** Representable integers *)
Definition representable (n : Z) : Prop := exists m j, n = m * 2 ^ j /\ Z.abs m <= 2 ^ 53 /\ 0 <= j.

Lemma rnd_representable (n : Z) : representable n -> rnd n = n.
Proof.
  intros (m & j & -> & Hm & Hj). pose proof (pow2_pos j Hj).
  destruct (Z.le_gt_cases 0 m) as [H0|H0].
  - rewrite rnd_nonneg_eq by nia. apply rnd_pos_exact; lia.
  - replace (m * 2 ^ j) with (- (- m * 2 ^ j)) by ring.
    rewrite rnd_opp, rnd_nonneg_eq by nia. rewrite rnd_pos_exact by lia. reflexivity.
Qed.

Lemma representable_opp (n : Z) : representable n -> representable (- n).
Proof. intros (m & j & -> & Hm & Hj). exists (- m), j. split; [ring|lia]. Qed.

(** Multiples of a common power of two whose magnitude stays below
    [2^(53+g)]: a grid on which sums and differences are exact. *)
Definition on_grid (g n : Z) : Prop := exists k, n = k * 2 ^ g /\ Z.abs k <= 2 ^ 53.

Lemma on_grid_rnd (g n : Z) : 0 <= g -> on_grid g n -> rnd n = n.
Proof. intros Hg (k & -> & Hk). apply rnd_representable. exists k, g. auto. Qed.
