(* ===== verification/Binary64.v ===== *)
(** * IEEE-754 binary64 arithmetic: the [double] of the program

    [double] is the kernel's binary64 type, whose operations round to nearest
    even, as the hardware does.  [val x] is the exact value of a finite double
    counted in units of [2^-1074] (every finite double is an integer multiple
    of it), so the exact value of a sum or difference of doubles is an integer
    and the rounded one is [rnd] of it (file Rounding). *)
From Stdlib Require Import ZArith Lia Bool Floats SpecFloat.
From S2P Require Import Rounding.
Local Open Scope Z_scope.
#[local] Set Warnings "-inexact-float".
#[local] Arguments Z.mul : simpl never.
#[local] Arguments Z.add : simpl never.
#[local] Arguments Z.pow : simpl never.

Definition double := float.
Bind Scope float_scope with double.

Definition sf_val (x : spec_float) : Z :=
  match x with
  | S754_finite s m e => cond_Zopp s (Z.pos m * 2 ^ (e + 1074))
  | _ => 0
  end.

Definition sf_finite (x : spec_float) : bool :=
  match x with S754_zero _ | S754_finite _ _ _ => true | _ => false end.

Definition val (x : double) : Z := sf_val (Prim2SF x).

(** [std::isfinite] *)
Definition isfinite (x : double) : bool := PrimFloat.is_finite x.

(** First value past the largest finite double. *)
Definition val_limit : Z := 2 ^ 2098.

(** ** Shape of valid doubles *)
Lemma valid_finite (s : bool) (m : positive) (e : Z) :
  FloatAxioms.valid_binary (S754_finite s m e) = true ->
  -1074 <= e <= 971 /\ Z.pos m < 2 ^ 53 /\ (-1074 < e -> 2 ^ 52 <= Z.pos m).
Proof.
  unfold FloatAxioms.valid_binary, SpecFloat.valid_binary, bounded, canonical_mantissa, fexp, SpecFloat.emin, prec, emax.
  intros H. apply andb_prop in H as [H1 H2]. apply Z.eqb_eq in H1. apply Z.leb_le in H2.
  pose proof (digits2_pos_spec m) as [Hlo Hhi].
  set (d := Z.pos (digits2_pos m)) in *.
  assert (Hd : 0 < d <= 53) by (unfold d; lia).
  split; [lia|]. split.
  - pose proof (pow2_le d 53). lia.
  - intros He. assert (d = 53) as Hd53 by lia. rewrite Hd53 in Hlo. exact Hlo.
Qed.

Lemma prim_valid_finite (x : double) (s : bool) (m : positive) (e : Z) :
  Prim2SF x = S754_finite s m e ->
  -1074 <= e <= 971 /\ Z.pos m < 2 ^ 53 /\ (-1074 < e -> 2 ^ 52 <= Z.pos m).
Proof. intros H. apply (valid_finite s). rewrite <- H. apply Prim2SF_valid. Qed.

Lemma isfinite_sf (x : double) : isfinite x = sf_finite (Prim2SF x).
Proof.
  unfold isfinite, is_finite, is_nan, is_infinity. rewrite !eqb_spec, abs_spec.
  change (Prim2SF infinity) with (S754_infinity false).
  destruct (Prim2SF x) as [[]|[]| |[] m e]; try reflexivity;
  unfold SFeqb, SFcompare; rewrite Z.compare_refl;
  change (Pos.compare_cont Eq m m) with (Pos.compare m m); rewrite Pos.compare_refl; reflexivity.
Qed.

Lemma val_opp (x : double) : val (- x)%float = - val x.
Proof.
  unfold val. rewrite opp_spec. destruct (Prim2SF x) as [| | |[] m e]; simpl; lia.
Qed.

(** Every value is representable, below the limit. *)
Lemma sf_val_bound (s : bool) (m : positive) (e : Z) :
  -1074 <= e <= 971 -> Z.pos m < 2 ^ 53 ->
  representable (sf_val (S754_finite s m e)) /\ Z.abs (sf_val (S754_finite s m e)) < val_limit.
Proof.
  intros He Hm. simpl. set (P := 2 ^ (e + 1074)).
  assert (HP : 0 < P) by (apply pow2_pos; lia). split.
  - assert (R : representable (Z.pos m * P)) by (exists (Z.pos m), (e + 1074); repeat split; lia).
    destruct s; simpl; [apply (representable_opp _ R)|exact R].
  - assert (Z.pos m * P < val_limit).
    { unfold val_limit. replace 2098 with (53 + 2045) by lia. rewrite pow2_add by lia.
      apply Z.lt_le_trans with (2 ^ 53 * P).
      - apply Z.mul_lt_mono_pos_r; assumption.
      - apply Z.mul_le_mono_nonneg_l; [lia|]. apply pow2_le. lia. }
    assert (0 < Z.pos m * P) by nia.
    destruct s; cbn [cond_Zopp]; lia.
Qed.

Lemma val_representable (x : double) : representable (val x).
Proof.
  unfold val. destruct (Prim2SF x) as [s|s| |s m e] eqn:E;
    try (exists 0, 0; simpl; lia).
  destruct (prim_valid_finite x s m e E) as (? & ? & _).
  destruct (sf_val_bound s m e ltac:(lia) ltac:(lia)) as [R _]. exact R.
Qed.

Lemma val_bound (x : double) : Z.abs (val x) < val_limit.
Proof.
  unfold val. destruct (Prim2SF x) as [s|s| |s m e] eqn:E; try reflexivity.
  destruct (prim_valid_finite x s m e E) as (? & ? & _).
  destruct (sf_val_bound s m e ltac:(lia) ltac:(lia)) as [_ R]. exact R.
Qed.

Lemma rnd_val (x : double) : rnd (val x) = val x.
Proof. apply rnd_representable, val_representable. Qed.

(** ** Comparison *)
Lemma sf_val_sign (m : positive) (e : Z) : -1074 <= e -> 0 < Z.pos m * 2 ^ (e + 1074).
Proof. intros. pose proof (pow2_pos (e + 1074)). nia. Qed.

Lemma exponent_order (m1 m2 : positive) (e1 e2 : Z) :
  -1074 <= e1 -> Z.pos m1 < 2 ^ 53 -> 2 ^ 52 <= Z.pos m2 -> e1 < e2 ->
  Z.pos m1 * 2 ^ (e1 + 1074) < Z.pos m2 * 2 ^ (e2 + 1074).
Proof.
  intros He H1 H2 Hlt.
  pose proof (pow2_le (e1 + 1074 + 1) (e2 + 1074) ltac:(lia)) as Hp.
  rewrite pow2_succ in Hp by lia. pose proof (pow2_pos (e1 + 1074) ltac:(lia)). nia.
Qed.

Lemma finite_compare (m1 m2 : positive) (e1 e2 : Z) :
  -1074 <= e1 -> Z.pos m1 < 2 ^ 53 -> (-1074 < e1 -> 2 ^ 52 <= Z.pos m1) ->
  -1074 <= e2 -> Z.pos m2 < 2 ^ 53 -> (-1074 < e2 -> 2 ^ 52 <= Z.pos m2) ->
  match Z.compare e1 e2 with Lt => Lt | Gt => Gt | Eq => Pos.compare_cont Eq m1 m2 end
  = (Z.pos m1 * 2 ^ (e1 + 1074) ?= Z.pos m2 * 2 ^ (e2 + 1074)).
Proof.
  intros. destruct (Z.compare_spec e1 e2) as [->|Hlt|Hgt].
  - pose proof (pow2_pos (e2 + 1074) ltac:(lia)).
    rewrite (Z.mul_comm (Z.pos m1)), (Z.mul_comm (Z.pos m2)).
    rewrite <- Zmult_compare_compat_l by lia. reflexivity.
  - symmetry. apply Z.compare_lt_iff. apply exponent_order; lia.
  - symmetry. apply Z.compare_gt_iff. apply exponent_order; lia.
Qed.

Lemma compare_val (x y : double) : isfinite x = true -> isfinite y = true ->
  SFcompare (Prim2SF x) (Prim2SF y) = Some (val x ?= val y).
Proof.
  rewrite !isfinite_sf. unfold val.
  destruct (Prim2SF x) as [s|s| |s m e] eqn:E1; try discriminate;
  destruct (Prim2SF y) as [s'|s'| |s' m' e'] eqn:E2; try discriminate; intros _ _;
  cbn [SFcompare sf_val].
  - reflexivity.
  - destruct (prim_valid_finite y _ _ _ E2) as (? & ? & ?). pose proof (sf_val_sign m' e').
    destruct s'; cbn [cond_Zopp]; f_equal; symmetry; [apply Z.compare_gt_iff|apply Z.compare_lt_iff]; lia.
  - destruct (prim_valid_finite x _ _ _ E1) as (? & ? & ?). pose proof (sf_val_sign m e).
    destruct s; cbn [cond_Zopp]; f_equal; symmetry; [apply Z.compare_lt_iff|apply Z.compare_gt_iff]; lia.
  - destruct (prim_valid_finite x _ _ _ E1) as (? & ? & ?).
    destruct (prim_valid_finite y _ _ _ E2) as (? & ? & ?).
    pose proof (sf_val_sign m e). pose proof (sf_val_sign m' e').
    pose proof (finite_compare m m' e e' ltac:(lia) ltac:(lia) ltac:(lia) ltac:(lia) ltac:(lia) ltac:(lia)) as Hc.
    destruct s, s'; cbn [cond_Zopp]; f_equal.
    + rewrite Z.compare_opp, (Z.compare_antisym (Z.pos m * _)), <- Hc.
      destruct (Z.compare e e'); reflexivity.
    + symmetry. apply Z.compare_lt_iff. lia.
    + symmetry. apply Z.compare_gt_iff. lia.
    + exact Hc.
Qed.

Lemma ltb_val (x y : double) : isfinite x = true -> isfinite y = true ->
  (x <? y)%float = (val x <? val y).
Proof.
  intros. rewrite ltb_spec. unfold SFltb, Z.ltb. rewrite compare_val by assumption. reflexivity.
Qed.

Lemma leb_val (x y : double) : isfinite x = true -> isfinite y = true ->
  (x <=? y)%float = (val x <=? val y).
Proof.
  intros. rewrite leb_spec. unfold SFleb, Z.leb. rewrite compare_val by assumption.
  destruct (val x ?= val y); reflexivity.
Qed.

Lemma eqb_val (x y : double) : isfinite x = true -> isfinite y = true ->
  (x =? y)%float = (val x =? val y).
Proof.
  intros. rewrite eqb_spec. unfold SFeqb. rewrite compare_val by assumption.
  rewrite Z.eqb_compare. reflexivity.
Qed.

(** ** Rounding of a mantissa and exponent

    [binary_round_aux] shifts the mantissa right until it fits in 53 bits (or
    the exponent reaches its minimum), keeping the bits shifted out as a round
    bit and a sticky bit: together they say where the exact value lies, which
    is what [rne] decides on. *)
Definition shifted (m k : Z) (r : shr_record) : Prop :=
  exists rem, m = shr_m r * 2 ^ k + rem /\ 0 <= shr_m r /\
    match shr_r r, shr_s r with
    | false, false => rem = 0
    | false, true => 0 < rem /\ 2 * rem < 2 ^ k
    | true, false => 2 * rem = 2 ^ k
    | true, true => 2 ^ k < 2 * rem /\ rem < 2 ^ k
    end.

Lemma shifted_step (m k : Z) (r : shr_record) : 0 <= k ->
  shifted m k r -> shifted m (k + 1) (shr_1 r).
Proof.
  intros Hk (rem & Hm & Hq & Hrs). destruct r as [q r s]. cbn [shr_m shr_r shr_s] in *.
  pose proof (pow2_pos k Hk) as HP. unfold shifted. rewrite pow2_succ by assumption.
  set (P := 2 ^ k) in *. clearbody P.
  destruct q as [|[p|p|]|p]; [| | | |lia]; cbn [shr_1 shr_m shr_r shr_s].
  - exists rem. destruct r, s; cbn [orb]; lia.
  - exists (P + rem). rewrite Pos2Z.inj_xI in Hm. destruct r, s; cbn [orb]; nia.
  - exists rem. rewrite Pos2Z.inj_xO in Hm. destruct r, s; cbn [orb]; nia.
  - exists (P + rem). destruct r, s; cbn [orb]; lia.
Qed.

Lemma shifted_iter (m : Z) (p : positive) : forall k r, 0 <= k ->
  shifted m k r -> shifted m (k + Z.pos p) (iter_pos shr_1 p r).
Proof.
  induction p as [p IH|p IH|]; intros k r Hk H; cbn [iter_pos].
  - rewrite Pos2Z.inj_xI. replace (k + (2 * Z.pos p + 1)) with (k + 1 + Z.pos p + Z.pos p) by lia.
    apply IH; [lia|]. apply IH; [lia|]. apply shifted_step; assumption.
  - rewrite Pos2Z.inj_xO. replace (k + 2 * Z.pos p) with (k + Z.pos p + Z.pos p) by lia.
    apply IH; [lia|]. apply IH; assumption.
  - apply shifted_step; assumption.
Qed.

Lemma shifted_rne (m k : Z) (r : shr_record) : 0 <= k -> shifted m k r ->
  round_nearest_even (shr_m r) (loc_of_shr_record r) = rne m k.
Proof.
  intros Hk (rem & Hm & Hq & Hrs). destruct r as [q r s]. cbn [shr_m shr_r shr_s] in *.
  pose proof (pow2_pos k Hk) as HP.
  assert (Hrem : 0 <= rem < 2 ^ k) by (destruct r, s; lia).
  assert (Hdiv : m / 2 ^ k = q) by (symmetry; apply (Z.div_unique m (2 ^ k) q rem); lia).
  assert (Hmod : m mod 2 ^ k = rem) by (symmetry; apply (Z.mod_unique m (2 ^ k) q rem); lia).
  unfold rne. rewrite Hdiv, Hmod. destruct r, s; cbn [loc_of_shr_record round_nearest_even].
  - rewrite (proj2 (Z.compare_gt_iff _ _)) by lia. reflexivity.
  - rewrite (proj2 (Z.compare_eq_iff _ _)) by lia. reflexivity.
  - rewrite (proj2 (Z.compare_lt_iff _ _)) by lia. reflexivity.
  - rewrite (proj2 (Z.compare_lt_iff _ _)) by lia. reflexivity.
Qed.

(** The exponent of the result for a mantissa [m] at exponent [e]. *)
Definition target (m e : Z) : Z := Z.max (Zdigits2 m + e - 53) (-1074).

Lemma fexp_target (m e : Z) : fexp prec emax (Zdigits2 m + e) = target m e.
Proof. reflexivity. Qed.

(** What a sign, a rounded mantissa and its exponent become: the mantissa may
    have grown to [2^53], and the exponent may overflow. *)
Definition pack (s : bool) (q e : Z) : spec_float :=
  if q =? 0 then S754_zero s
  else if q =? 2 ^ 53 then
    if e + 1 <=? 971 then S754_finite s (2 ^ 52) (e + 1) else S754_infinity s
  else if e <=? 971 then S754_finite s (Z.to_pos q) e else S754_infinity s.

Lemma shr_exact (m e : Z) (p : positive) (q : Z) : 0 <= q -> m = q * 2 ^ Z.pos p ->
  shr (shr_record_of_loc m loc_Exact) e (Z.pos p) = (iter_pos shr_1 p (shr_record_of_loc m loc_Exact), e + Z.pos p)
  /\ shr_m (iter_pos shr_1 p (shr_record_of_loc m loc_Exact)) = q.
Proof.
  intros Hq Hm. split; [reflexivity|].
  destruct (shifted_iter m p 0 (shr_record_of_loc m loc_Exact) ltac:(lia)) as (rem & Hm' & Hq' & Hrs).
  { exists 0. cbn. change (2 ^ 0) with 1. pose proof (pow2_pos (Z.pos p)). split; [lia|]. split; [nia|reflexivity]. }
  rewrite Z.add_0_l in *. set (r := iter_pos _ _ _) in *.
  pose proof (pow2_pos (Z.pos p) ltac:(lia)).
  assert (0 <= rem < 2 ^ Z.pos p) by (destruct (shr_r r), (shr_s r); lia). nia.
Qed.

Lemma shr_nonpos (r : shr_record) (e n : Z) : n <= 0 -> shr r e n = (r, e).
Proof. destruct n; try reflexivity; lia. Qed.

Lemma rne_target_bounds (m e : Z) : 0 < m -> e <= target m e ->
  0 <= rne m (target m e - e) <= 2 ^ 53 /\
  (-1074 < target m e -> 2 ^ 52 <= rne m (target m e - e)).
Proof.
  intros Hm He. pose proof (Zdigits2_spec m Hm) as [Hlo Hhi]. pose proof (Zdigits2_pos m Hm).
  set (k := target m e - e) in *. assert (Hk : 0 <= k) by lia.
  assert (Hd : Zdigits2 m <= 53 + k) by (unfold k, target; lia).
  assert (H53 : m <= 2 ^ 53 * 2 ^ k).
  { rewrite <- pow2_add by lia. pose proof (pow2_le (Zdigits2 m) (53 + k)). lia. }
  pose proof (rne_mono 0 m k Hk ltac:(lia)) as H0.
  pose proof (rne_mono m _ k Hk H53) as H1.
  replace 0 with (0 * 2 ^ k) in H0 by ring. rewrite rne_exact in H0, H1 by lia.
  split; [lia|]. intros Ht.
  assert (Hd' : Zdigits2 m = 53 + k) by (unfold k, target in *; lia).
  rewrite Hd' in Hlo. replace (53 + k - 1) with (52 + k) in Hlo by lia.
  rewrite pow2_add in Hlo by lia.
  pose proof (rne_mono _ m k Hk Hlo) as H2. rewrite rne_exact in H2 by lia. exact H2.
Qed.

Lemma shr_fexp_rne (m e : Z) : 0 < m -> e <= target m e ->
  let '(r, e') := shr_fexp prec emax m e loc_Exact in
  round_nearest_even (shr_m r) (loc_of_shr_record r) = rne m (target m e - e)
  /\ e' = target m e.
Proof.
  intros Hm He. unfold shr_fexp. rewrite fexp_target.
  destruct (target m e - e) as [|p|p] eqn:Ek; [| |lia]; cbn [shr].
  - split; [|lia]. rewrite rne_0_r. reflexivity.
  - split; [|lia]. apply (shifted_rne m (Z.pos p)); [lia|].
    apply (shifted_iter m p 0); [lia|]. exists 0. cbn. change (2 ^ 0) with 1. lia.
Qed.

Lemma shr_fexp_pack (q e : Z) : 0 <= q <= 2 ^ 53 -> -1074 <= e ->
  let '(r, e') := shr_fexp prec emax q e loc_Exact in
  (if q =? 2 ^ 53 then shr_m r = 2 ^ 52 /\ e' = e + 1 else shr_m r = q /\ e' = e).
Proof.
  intros Hq He. unfold shr_fexp. rewrite fexp_target.
  destruct (Z.eqb_spec q (2 ^ 53)) as [->|Hne].
  - assert (target (2 ^ 53) e - e = 1) as ->
      by (unfold target; change (Zdigits2 (2 ^ 53)) with 54; lia).
    split; reflexivity.
  - rewrite shr_nonpos; [split; reflexivity|].
    pose proof (Zdigits2_le q (2 ^ 53 - 1) ltac:(lia)) as Hd.
    change (Zdigits2 (2 ^ 53 - 1)) with 53 in Hd. unfold target. lia.
Qed.

Lemma binary_round_aux_pack (s : bool) (m e : Z) : 0 < m -> e <= target m e ->
  binary_round_aux prec emax s m e loc_Exact = pack s (rne m (target m e - e)) (target m e).
Proof.
  intros Hm He. unfold binary_round_aux.
  pose proof (shr_fexp_rne m e Hm He) as H1.
  destruct (shr_fexp prec emax m e loc_Exact) as [r1 e1]. destruct H1 as [-> ->].
  destruct (rne_target_bounds m e Hm He) as [Hq _].
  pose proof (shr_fexp_pack (rne m (target m e - e)) (target m e) Hq ltac:(unfold target; lia)) as H2.
  destruct (shr_fexp prec emax _ (target m e) loc_Exact) as [r2 e2].
  set (q := rne m (target m e - e)) in *. unfold pack.
  change (emax - prec) with 971.
  destruct (Z.eqb_spec q (2 ^ 53)) as [E|E]; destruct H2 as [-> ->].
  - rewrite E. reflexivity.
  - destruct (Z.eqb_spec q 0) as [->|E0]; [reflexivity|].
    destruct q as [|p|p]; try lia. reflexivity.
Qed.

Lemma shl_align_spec (p : positive) (e e' : Z) :
  let '(p', f) := shl_align p e e' in
  f = Z.min e e' /\ Z.pos p' = Z.pos p * 2 ^ (e - f).
Proof.
  unfold shl_align. destruct (e' - e) as [|d|d] eqn:E.
  - split; [lia|]. rewrite Z.sub_diag. change (2 ^ 0) with 1. lia.
  - split; [lia|]. rewrite Z.sub_diag. change (2 ^ 0) with 1. lia.
  - split; [lia|]. replace (e - e') with (Z.pos d) by lia.
    clear. revert p. induction d as [|d IH] using Pos.peano_ind; intros p.
    + change (2 ^ 1) with 2. simpl. lia.
    + rewrite Pos.iter_succ, Pos2Z.inj_succ. rewrite Pos2Z.inj_xO, IH.
      unfold Z.succ. rewrite pow2_succ by lia. ring.
Qed.

(** [binary_round] computes [rnd] of the value. *)
Lemma binary_round_pack (s : bool) (p : positive) (e : Z) : -1074 <= e ->
  let N := Z.pos p * 2 ^ (e + 1074) in
  binary_round prec emax s p e = pack s (rne N (excess N)) (excess N - 1074).
Proof.
  intros He N. pose proof (pow2_pos (e + 1074) ltac:(lia)).
  assert (HN : excess N = target (Z.pos p) e + 1074).
  { unfold excess, N. rewrite Zdigits2_mul_pow2 by lia. unfold target. lia. }
  set (t := target (Z.pos p) e) in *.
  assert (Ht : -1074 <= t) by (unfold t, target; lia).
  rewrite HN. replace (t + 1074 - 1074) with t by lia.
  unfold binary_round. change (Z.pos (digits2_pos p)) with (Zdigits2 (Z.pos p)).
  rewrite fexp_target. fold t.
  pose proof (shl_align_spec p e t) as Ha. destruct (shl_align p e t) as [p' f].
  destruct Ha as [-> Hp'].
  assert (HT : target (Z.pos p') (Z.min e t) = t).
  { unfold target. rewrite Hp', Zdigits2_mul_pow2 by lia. unfold t, target. lia. }
  rewrite binary_round_aux_pack by (rewrite ?HT; lia). rewrite HT. f_equal.
  rewrite <- (rne_scale (Z.pos p') _ (Z.min e t + 1074)) by lia. f_equal; [|lia].
  unfold N. rewrite Hp', <- Z.mul_assoc, <- pow2_add by lia. do 2 f_equal. lia.
Qed.

Lemma pack_val (s : bool) (N : Z) : 0 < N ->
  let x := pack s (rne N (excess N)) (excess N - 1074) in
  if rnd_pos N <? val_limit
  then sf_finite x = true /\ sf_val x = cond_Zopp s (rnd_pos N)
  else x = S754_infinity s.
Proof.
  intros HN x. unfold x, rnd_pos, pack. clear x.
  pose proof (excess_nonneg N) as Hk. set (k := excess N) in *.
  assert (Hq : 0 <= rne N k <= 2 ^ 53 /\ (0 < k -> 2 ^ 52 <= rne N k)).
  { pose proof (rne_target_bounds N (-1074) HN) as Hb.
    replace (target N (-1074)) with (k - 1074) in Hb by (unfold k, excess, target; lia).
    replace (k - 1074 - -1074) with k in Hb by lia. destruct Hb as [Hb1 Hb2]; [lia|].
    split; [exact Hb1|]. intros. apply Hb2. lia. }
  destruct Hq as [Hq Hn]. set (q := rne N k) in *. pose proof (pow2_pos k Hk) as HP.
  assert (HL : val_limit = 2 ^ 53 * 2 ^ 2045) by (unfold val_limit; rewrite <- pow2_add by lia; reflexivity).
  assert (HL' : val_limit = 2 ^ 52 * 2 ^ 2046) by (unfold val_limit; rewrite <- pow2_add by lia; reflexivity).
  destruct (Z.eqb_spec q 0) as [E0|E0].
  { rewrite E0, Z.mul_0_l. replace (0 <? val_limit) with true by reflexivity. destruct s; auto. }
  destruct (Z.eqb_spec q (2 ^ 53)) as [E1|E1].
  - rewrite E1. destruct (Z.leb_spec (k - 1074 + 1) 971) as [Hle|Hgt].
    + rewrite (proj2 (Z.ltb_lt _ _)).
      * split; [reflexivity|]. cbn [sf_val]. replace (k - 1074 + 1 + 1074) with (k + 1) by lia.
        rewrite pow2_succ by lia. f_equal. change (2 ^ 53) with (2 ^ 52 * 2).
        change (Z.pos (2 ^ 52)) with (2 ^ 52). ring.
      * rewrite HL. apply Z.mul_lt_mono_pos_l; [lia|]. apply Z.pow_lt_mono_r; lia.
    + rewrite (proj2 (Z.ltb_ge _ _)); [reflexivity|].
      rewrite HL. apply Z.mul_le_mono_nonneg_l; [lia|]. apply pow2_le. lia.
  - destruct (Z.leb_spec (k - 1074) 971) as [Hle|Hgt].
    + rewrite (proj2 (Z.ltb_lt _ _)).
      * split; [reflexivity|]. cbn [sf_val]. rewrite Z2Pos.id by lia. do 2 f_equal. f_equal. lia.
      * rewrite HL. apply Z.lt_le_trans with (2 ^ 53 * 2 ^ k); [apply Z.mul_lt_mono_pos_r; lia|].
        apply Z.mul_le_mono_nonneg_l; [lia|]. apply pow2_le. lia.
    + rewrite (proj2 (Z.ltb_ge _ _)); [reflexivity|].
      rewrite HL'. apply Z.le_trans with (2 ^ 52 * 2 ^ k).
      * apply Z.mul_le_mono_nonneg_l; [lia|]. apply pow2_le. lia.
      * apply Z.mul_le_mono_nonneg_r; [lia|]. apply Hn. lia.
Qed.

(** The rounded value of an exact one, or the infinity of its sign. *)
Definition rounds_to (x : spec_float) (N : Z) : Prop :=
  if Z.abs (rnd N) <? val_limit
  then sf_finite x = true /\ sf_val x = rnd N
  else x = S754_infinity (N <? 0).

Lemma binary_normalize_rounds (n e : Z) (z : bool) : -1074 <= e ->
  rounds_to (binary_normalize prec emax n e z) (n * 2 ^ (e + 1074)).
Proof.
  intros He. pose proof (pow2_pos (e + 1074) ltac:(lia)) as HP. unfold rounds_to.
  destruct n as [|p|p]; cbn [binary_normalize].
  - rewrite Z.mul_0_l. split; reflexivity.
  - pose proof (binary_round_pack false p e He) as ->.
    pose proof (pack_val false (Z.pos p * 2 ^ (e + 1074)) ltac:(lia)) as H.
    set (N := Z.pos p * 2 ^ (e + 1074)) in *. assert (0 < N) by (unfold N; lia).
    rewrite rnd_nonneg_eq by lia. pose proof (rnd_pos_nonneg N ltac:(lia)).
    rewrite Z.abs_eq by lia. destruct (rnd_pos N <? val_limit); [exact H|].
    rewrite (proj2 (Z.ltb_ge _ _)) by lia. exact H.
  - pose proof (binary_round_pack true p e He) as ->.
    pose proof (pack_val true (Z.pos p * 2 ^ (e + 1074)) ltac:(lia)) as H.
    replace (Z.neg p * 2 ^ (e + 1074)) with (- (Z.pos p * 2 ^ (e + 1074)))
      by (rewrite <- Z.mul_opp_l; reflexivity).
    set (N := Z.pos p * 2 ^ (e + 1074)) in *. assert (0 < N) by (unfold N; lia).
    rewrite rnd_opp, rnd_nonneg_eq, Z.abs_opp by lia. pose proof (rnd_pos_nonneg N ltac:(lia)).
    rewrite Z.abs_eq by lia. destruct (rnd_pos N <? val_limit); [exact H|].
    rewrite (proj2 (Z.ltb_lt _ _)) by lia. exact H.
Qed.

Lemma rounds_to_self (x : double) (N : Z) : isfinite x = true -> N = val x -> rounds_to (Prim2SF x) N.
Proof.
  rewrite isfinite_sf. intros Hf ->. unfold rounds_to. rewrite rnd_val.
  rewrite (proj2 (Z.ltb_lt _ _)) by apply val_bound. auto.
Qed.

Lemma rounds_to_zero (s : bool) : rounds_to (S754_zero s) 0.
Proof. split; reflexivity. Qed.

Lemma align_val (s : bool) (m : positive) (e ez : Z) : -1074 <= ez -> ez <= e ->
  cond_Zopp s (Z.pos (fst (shl_align m e ez))) * 2 ^ (ez + 1074) = sf_val (S754_finite s m e).
Proof.
  intros Hz He. pose proof (shl_align_spec m e ez) as Ha. destruct (shl_align m e ez) as [p f].
  destruct Ha as [-> Hp]. rewrite Z.min_r in Hp by lia. cbn [fst sf_val].
  assert (HV : Z.pos p * 2 ^ (ez + 1074) = Z.pos m * 2 ^ (e + 1074)).
  { rewrite Hp, <- Z.mul_assoc, <- pow2_add by lia. do 2 f_equal. lia. }
  destruct s; cbn [cond_Zopp]; lia.
Qed.

(** Addition and subtraction round the exact result. *)
Lemma add_rounds (x y : double) : isfinite x = true -> isfinite y = true ->
  rounds_to (Prim2SF (x + y)) (val x + val y).
Proof.
  intros Hx Hy. pose proof Hx as Hx'. pose proof Hy as Hy'. rewrite isfinite_sf in Hx', Hy'.
  rewrite add_spec. unfold SF64add, SFadd.
  destruct (Prim2SF x) as [s|s| |s m e] eqn:E1; try discriminate;
  destruct (Prim2SF y) as [s'|s'| |s' m' e'] eqn:E2; try discriminate.
  - unfold val. rewrite E1, E2. destruct s, s'; apply rounds_to_zero.
  - rewrite <- E2. apply rounds_to_self; [assumption|]. unfold val. rewrite E1. reflexivity.
  - rewrite <- E1. apply rounds_to_self; [assumption|]. unfold val at 2. rewrite E2. cbn [sf_val]. lia.
  - destruct (prim_valid_finite x _ _ _ E1) as (? & ? & ?).
    destruct (prim_valid_finite y _ _ _ E2) as (? & ? & ?).
    cbv zeta. unfold val. rewrite E1, E2.
    rewrite <- (align_val s m e (Z.min e e')), <- (align_val s' m' e' (Z.min e e')) by lia.
    rewrite <- Z.mul_add_distr_r. apply binary_normalize_rounds. lia.
Qed.

Lemma sub_rounds (x y : double) : isfinite x = true -> isfinite y = true ->
  rounds_to (Prim2SF (x - y)) (val x - val y).
Proof.
  intros Hx Hy. pose proof Hx as Hx'. pose proof Hy as Hy'. rewrite isfinite_sf in Hx', Hy'.
  rewrite sub_spec. unfold SF64sub, SFsub.
  destruct (Prim2SF x) as [s|s| |s m e] eqn:E1; try discriminate;
  destruct (Prim2SF y) as [s'|s'| |s' m' e'] eqn:E2; try discriminate.
  - unfold val. rewrite E1, E2. destruct s, s'; apply rounds_to_zero.
  - assert (S754_finite (negb s') m' e' = Prim2SF (- y)) as -> by (rewrite opp_spec, E2; reflexivity).
    apply rounds_to_self; [|rewrite val_opp; unfold val at 1; rewrite E1; reflexivity].
    rewrite isfinite_sf, opp_spec, E2. reflexivity.
  - rewrite <- E1. apply rounds_to_self; [assumption|]. unfold val at 2. rewrite E2. cbn [sf_val]. lia.
  - destruct (prim_valid_finite x _ _ _ E1) as (? & ? & ?).
    destruct (prim_valid_finite y _ _ _ E2) as (? & ? & ?).
    cbv zeta. unfold val. rewrite E1, E2.
    rewrite <- (align_val s m e (Z.min e e')), <- (align_val s' m' e' (Z.min e e')) by lia.
    rewrite <- Z.mul_sub_distr_r. apply binary_normalize_rounds. lia.
Qed.

(** ** Division *)

(** The location of a remainder, in quarters of the last place. *)
Definition quarter (l : location) : Z :=
  match l with
  | loc_Exact => 0
  | loc_Inexact Lt => 1
  | loc_Inexact Eq => 2
  | loc_Inexact Gt => 3
  end.

Lemma shifted_quarter (q : Z) (l : location) : 0 <= q -> shifted (4 * q + quarter l) 2 (shr_record_of_loc q l).
Proof. intros Hq. exists (quarter l). change (2 ^ 2) with 4. destruct l as [|[| |]]; cbn; lia. Qed.

Lemma digits_quarter (q : Z) (l : location) : 0 < q -> Zdigits2 (4 * q + quarter l) = Zdigits2 q + 2.
Proof.
  intros Hq. pose proof (Zdigits2_pos q Hq) as Hd. destruct (Zdigits2_spec q Hq) as [Hlo Hhi].
  apply Zdigits2_unique; [lia|].
  replace (Zdigits2 q + 2 - 1) with (Zdigits2 q - 1 + 2) by lia. rewrite !pow2_add by lia. change (2 ^ 2) with 4.
  assert (0 <= quarter l <= 3) by (destruct l as [|[| |]]; cbn; lia). lia.
Qed.

(** An inexact mantissa rounds as the exact mantissa with its quarters. *)
Lemma binary_round_aux_loc (s : bool) (q e : Z) (l : location) : 0 < q -> e <= target q e ->
  let m := 4 * q + quarter l in
  binary_round_aux prec emax s q e l = pack s (rne m (target m (e - 2) - (e - 2))) (target m (e - 2)).
Proof.
  intros Hq He m. assert (Hm : 0 < m) by (unfold m; destruct l as [|[| |]]; cbn; lia).
  assert (HT : target m (e - 2) = target q e).
  { unfold target, m. rewrite digits_quarter by assumption. lia. }
  rewrite HT. destruct (rne_target_bounds m (e - 2) Hm ltac:(lia)) as [Hb _]. rewrite HT in Hb.
  unfold binary_round_aux.
  assert (H1 : let '(r, e') := shr_fexp prec emax q e l in
    round_nearest_even (shr_m r) (loc_of_shr_record r) = rne m (target q e - (e - 2)) /\ e' = target q e).
  { unfold shr_fexp. rewrite fexp_target.
    destruct (target q e - e) as [|p|p] eqn:Ek; [| |lia]; cbn [shr].
    - split; [|lia]. replace (target q e - (e - 2)) with 2 by lia.
      apply shifted_rne; [lia|]. apply shifted_quarter. lia.
    - split; [|lia]. replace (target q e - (e - 2)) with (2 + Z.pos p) by lia.
      apply shifted_rne; [lia|]. apply shifted_iter; [lia|]. apply shifted_quarter. lia. }
  destruct (shr_fexp prec emax q e l) as [r1 e1]. destruct H1 as [-> ->].
  pose proof (shr_fexp_pack (rne m (target q e - (e - 2))) (target q e) Hb ltac:(unfold target; lia)) as H2.
  destruct (shr_fexp prec emax _ (target q e) loc_Exact) as [r2 e2].
  set (n := rne m (target q e - (e - 2))) in *. unfold pack.
  change (emax - prec) with 971.
  destruct (Z.eqb_spec n (2 ^ 53)) as [E|E]; destruct H2 as [-> ->].
  - rewrite E. reflexivity.
  - destruct (Z.eqb_spec n 0) as [->|E0]; [reflexivity|].
    destruct n as [|p|p]; try lia. reflexivity.
Qed.

Lemma round_loc_rounds (q e : Z) (l : location) : 0 < q -> -1072 <= e -> e <= target q e ->
  rounds_to (binary_round_aux prec emax false q e l) ((4 * q + quarter l) * 2 ^ (e + 1072)).
Proof.
  intros Hq He Ht. rewrite binary_round_aux_loc by assumption. set (m := 4 * q + quarter l).
  assert (Hm : 0 < m) by (unfold m; destruct l as [|[| |]]; cbn; lia).
  pose proof (pow2_pos (e + 1072) ltac:(lia)) as HP. set (N := m * 2 ^ (e + 1072)).
  assert (HN : 0 < N) by (unfold N; lia).
  assert (HE : excess N = target m (e - 2) + 1074).
  { unfold excess, N. rewrite Zdigits2_mul_pow2 by lia. unfold target. lia. }
  assert (HT : e - 2 <= target m (e - 2)).
  { unfold target, m in *. rewrite digits_quarter by assumption. lia. }
  replace (rne m (target m (e - 2) - (e - 2))) with (rne N (excess N)).
  - replace (target m (e - 2)) with (excess N - 1074) by lia. pose proof (pack_val false N HN) as Hv.
    unfold rounds_to. rewrite rnd_nonneg_eq by lia. pose proof (rnd_pos_nonneg N ltac:(lia)).
    rewrite Z.abs_eq by lia. destruct (rnd_pos N <? val_limit); [exact Hv|].
    rewrite (proj2 (Z.ltb_ge _ _)) by lia. exact Hv.
  - rewrite HE. unfold N. rewrite <- (rne_scale m (target m (e - 2) - (e - 2)) (e + 1072)) by lia. f_equal. lia.
Qed.

Lemma new_location_quarter (m2 r : Z) : 0 < m2 -> 0 <= r < m2 ->
  Z.abs (quarter (new_location m2 r) * m2 - 4 * r) < m2.
Proof.
  intros Hm Hr. unfold new_location. destruct (Z.even m2) eqn:Ev;
    unfold new_location_even, new_location_odd; destruct (Z.eqb_spec r 0) as [->|Hr0];
    [cbn [quarter]; lia| |cbn [quarter]; lia|].
  - destruct (Z.compare_spec (2 * r) m2); cbn [quarter]; lia.
  - assert (Hodd : m2 <> 2 * r) by (intros ->; rewrite Z.even_mul in Ev; discriminate).
    destruct (Z.compare_spec (2 * r + 1) m2); cbn [quarter]; lia.
Qed.

(** Dividing a number from [2^-800] up by a positive number up to [2^64]: the result is the
    rounding of a number within a relative [2^-50] of the exact quotient. *)
Lemma div_core (m1 m2 e1 e2 : Z) : 0 < m1 -> 0 < m2 -> -853 < e1 -> e2 <= 64 -> -800 < Zdigits2 m1 + e1 ->
  Zdigits2 m2 + e2 <= 65 ->
  let '(q, e, l) := SFdiv_core_binary prec emax m1 e1 m2 e2 in
  let s := e1 - e2 - e in
  2 ^ 52 <= q /\ -1072 <= e /\ e <= target q e /\ 0 <= s /\
  2 ^ 52 * m2 <= m1 * 2 ^ s /\ Z.abs ((4 * q + quarter l) * m2 - 4 * (m1 * 2 ^ s)) < m2.
Proof.
  intros Hm1 Hm2 He1 He2 Hx Hy. unfold SFdiv_core_binary.
  destruct (Zdigits2_spec m1 Hm1) as [Hlo1 Hhi1]. destruct (Zdigits2_spec m2 Hm2) as [Hlo2 Hhi2].
  pose proof (Zdigits2_pos m1 Hm1). pose proof (Zdigits2_pos m2 Hm2).
  set (d1 := Zdigits2 m1) in *. set (d2 := Zdigits2 m2) in *. cbv zeta.
  set (e := Z.min (fexp prec emax (d1 + e1 - (d2 + e2))) (e1 - e2)).
  assert (Hf : fexp prec emax (d1 + e1 - (d2 + e2)) = Z.max (d1 + e1 - (d2 + e2) - 53) (-1074)) by reflexivity.
  assert (He : -1072 <= e /\ e <= e1 - e2 /\ e <= d1 + e1 - (d2 + e2) - 53) by (unfold e; lia).
  set (s := e1 - e2 - e). assert (Hs : 0 <= s) by (unfold s; lia).
  replace (match s with | 0 => m1 | Z.pos _ => Z.shiftl m1 s | Z.neg _ => 0 end) with (m1 * 2 ^ s)
    by (destruct s as [|p|p]; [change (2 ^ 0) with 1; lia|rewrite Z.shiftl_mul_pow2 by lia; reflexivity|lia]).
  set (m' := m1 * 2 ^ s). pose proof (pow2_pos s Hs).
  assert (Hbig : 2 ^ 52 * m2 <= m').
  { apply Z.le_trans with (2 ^ 52 * 2 ^ d2); [lia|].
    apply Z.le_trans with (2 ^ (d1 - 1) * 2 ^ s); [|apply Z.mul_le_mono_nonneg_r; lia].
    rewrite <- !pow2_add by lia. apply pow2_le. unfold s. lia. }
  pose proof (Z_div_mod m' m2 ltac:(lia)) as Hqr. destruct (Z.div_eucl m' m2) as [q r]. destruct Hqr as [Hq Hr].
  assert (Hq52 : 2 ^ 52 <= q) by nia.
  pose proof (new_location_quarter m2 r Hm2 Hr) as Hc.
  split; [assumption|]. split; [lia|]. split.
  { unfold target. pose proof (Zdigits2_le (2 ^ 52) q ltac:(lia)) as Hd. change (Zdigits2 (2 ^ 52)) with 53 in Hd. lia. }
  split; [assumption|]. split; [assumption|].
  fold s. fold m'. rewrite Hq.
  replace ((4 * q + quarter (new_location m2 r)) * m2 - 4 * (m2 * q + r)) with (quarter (new_location m2 r) * m2 - 4 * r)
    by ring.
  exact Hc.
Qed.

Lemma div_rounds_small (x y : double) : isfinite x = true -> isfinite y = true ->
  2 ^ 274 <= val x -> 0 < val y <= 2 ^ 1138 ->
  exists N, rounds_to (Prim2SF (x / y)) N /\ 0 < N /\
    2 ^ 50 * Z.abs (N * val y - val x * 2 ^ 1074) <= val x * 2 ^ 1074.
Proof.
  intros Hx Hy. pose proof Hx as Hx'. pose proof Hy as Hy'. rewrite isfinite_sf in Hx', Hy'.
  rewrite div_spec. unfold SF64div, SFdiv, val.
  destruct (Prim2SF x) as [s|s| |s m1 e1] eqn:E1; try discriminate; [cbn [sf_val]; lia|].
  destruct (Prim2SF y) as [s'|s'| |s' m2 e2] eqn:E2; try discriminate; [cbn [sf_val]; lia|].
  destruct (prim_valid_finite x _ _ _ E1) as (He1 & Hm1 & _).
  destruct (prim_valid_finite y _ _ _ E2) as (He2 & Hm2 & _).
  cbn [sf_val]. pose proof (pow2_pos (e1 + 1074) ltac:(lia)) as HP1. pose proof (pow2_pos (e2 + 1074) ltac:(lia)) as HP2.
  destruct s; [cbn [cond_Zopp]; lia|]. destruct s'; [cbn [cond_Zopp]; lia|]. cbn [cond_Zopp]. intros H1 [_ H2].
  pose proof (Zdigits2_spec (Z.pos m1) ltac:(lia)) as [_ Hhi1]. pose proof (Zdigits2_spec (Z.pos m2) ltac:(lia)) as [Hlo2 _].
  pose proof (Zdigits2_pos (Z.pos m1) ltac:(lia)) as Hd1. pose proof (Zdigits2_pos (Z.pos m2) ltac:(lia)) as Hd2.
  assert (Hd53 : Zdigits2 (Z.pos m1) <= 53).
  { pose proof (Zdigits2_le (Z.pos m1) (2 ^ 53 - 1) ltac:(lia)) as Hd.
    change (Zdigits2 (2 ^ 53 - 1)) with 53 in Hd. lia. }
  assert (Hx0 : -800 < Zdigits2 (Z.pos m1) + e1).
  { destruct (Z.le_gt_cases (Zdigits2 (Z.pos m1) + e1) (-800)) as [Hle|]; [|lia].
    assert (Z.pos m1 * 2 ^ (e1 + 1074) < 2 ^ Zdigits2 (Z.pos m1) * 2 ^ (e1 + 1074)) by (apply Z.mul_lt_mono_pos_r; lia).
    rewrite <- pow2_add in * by lia. pose proof (pow2_le (Zdigits2 (Z.pos m1) + (e1 + 1074)) 274 ltac:(lia)). lia. }
  assert (Hy0 : Zdigits2 (Z.pos m2) + e2 <= 65).
  { destruct (Z.le_gt_cases (Zdigits2 (Z.pos m2) + e2) 65) as [|Hgt]; [lia|].
    assert (2 ^ (Zdigits2 (Z.pos m2) - 1) * 2 ^ (e2 + 1074) <= Z.pos m2 * 2 ^ (e2 + 1074))
      by (apply Z.mul_le_mono_nonneg_r; lia).
    rewrite <- pow2_add in * by lia.
    assert (2 ^ 1138 < 2 ^ (Zdigits2 (Z.pos m2) - 1 + (e2 + 1074))) by (apply Z.pow_lt_mono_r; lia). lia. }
  pose proof (div_core (Z.pos m1) (Z.pos m2) e1 e2 ltac:(lia) ltac:(lia) ltac:(lia) ltac:(lia) Hx0 Hy0) as Hc.
  destruct (SFdiv_core_binary _ _ _ _ _ _) as [[q e] l]. cbv zeta in Hc.
  destruct Hc as (Hq & He & Ht & Hs & Hbig & Hc). cbn [xorb].
  pose proof (pow2_pos (e + 1072) ltac:(lia)) as HP.
  assert (Hl : 0 <= quarter l) by (destruct l as [|[| |]]; cbn [quarter]; lia).
  exists ((4 * q + quarter l) * 2 ^ (e + 1072)). split; [apply round_loc_rounds; lia|]. split; [nia|].
  set (c := 4 * q + quarter l) in *. set (m' := Z.pos m1 * 2 ^ (e1 - e2 - e)) in *.
  assert (HP3 : 0 < 2 ^ (e + e2 + 2146)) by (apply pow2_pos; lia).
  assert (EN : c * 2 ^ (e + 1072) * (Z.pos m2 * 2 ^ (e2 + 1074)) = c * Z.pos m2 * 2 ^ (e + e2 + 2146)).
  { replace (e + e2 + 2146) with ((e + 1072) + (e2 + 1074)) by lia. rewrite (pow2_add (e + 1072)) by lia. ring. }
  assert (EX : Z.pos m1 * 2 ^ (e1 + 1074) * 2 ^ 1074 = 4 * m' * 2 ^ (e + e2 + 2146)).
  { unfold m'. change 4 with (2 ^ 2). rewrite <- Z.mul_assoc, <- pow2_add by lia.
    replace (2 ^ 2 * (Z.pos m1 * 2 ^ (e1 - e2 - e)) * 2 ^ (e + e2 + 2146))
      with (Z.pos m1 * (2 ^ 2 * 2 ^ (e1 - e2 - e) * 2 ^ (e + e2 + 2146))) by ring.
    rewrite <- !pow2_add by lia. do 2 f_equal. lia. }
  rewrite EN, EX, <- Z.mul_sub_distr_r, Z.abs_mul, (Z.abs_eq (2 ^ _)) by lia. rewrite Z.mul_assoc.
  apply Z.mul_le_mono_nonneg_r; lia.
Qed.

Lemma div_rounds (x y : double) : isfinite x = true -> isfinite y = true ->
  2 ^ 1074 <= val x -> 0 < val y <= 2 ^ 1138 ->
  exists N, rounds_to (Prim2SF (x / y)) N /\ 0 < N /\
    2 ^ 50 * Z.abs (N * val y - val x * 2 ^ 1074) <= val x * 2 ^ 1074.
Proof. intros Hx Hy Hv. apply div_rounds_small; try assumption. pose proof (pow2_le 274 1074). lia. Qed.

(** ** Conversions from integers *)

(** [static_cast<double>] of an integer. *)
Definition double_of_Z (z : Z) : double := SF2Prim (binary_normalize prec emax z 0 false).

(** [static_cast<std::int64_t>] of a double truncates toward zero; the
    conversion of a value outside the type is undefined behaviour. *)
Definition truncate (x : double) : option Z :=
  match Prim2SF x with
  | S754_zero _ => Some 0
  | S754_finite s m e =>
      Some (cond_Zopp s (if 0 <=? e then Z.pos m * 2 ^ e else Z.pos m / 2 ^ (- e)))
  | _ => None
  end.

(** ** Working lemmas *)
Definition nonneg (x : double) : Prop := isfinite x = true /\ 0 <= val x.

Lemma rounds_to_cases (x : double) (N : Z) : rounds_to (Prim2SF x) N ->
  (isfinite x = true /\ val x = rnd N /\ Z.abs (rnd N) < val_limit) \/
  (isfinite x = false /\ Prim2SF x = S754_infinity (N <? 0) /\ val_limit <= Z.abs (rnd N)).
Proof.
  unfold rounds_to, val. rewrite isfinite_sf.
  destruct (Z.ltb_spec (Z.abs (rnd N)) val_limit); intros H'; [left|right].
  - destruct H' as [-> ->]. auto.
  - rewrite H'. auto.
Qed.

Lemma add_cases (x y : double) : isfinite x = true -> isfinite y = true ->
  (isfinite (x + y) = true /\ val (x + y) = rnd (val x + val y) /\
     Z.abs (rnd (val x + val y)) < val_limit) \/
  (isfinite (x + y) = false /\ Prim2SF (x + y) = S754_infinity (val x + val y <? 0) /\
     val_limit <= Z.abs (rnd (val x + val y))).
Proof. intros. apply rounds_to_cases, add_rounds; assumption. Qed.

Lemma sub_cases (x y : double) : isfinite x = true -> isfinite y = true ->
  (isfinite (x - y) = true /\ val (x - y) = rnd (val x - val y) /\
     Z.abs (rnd (val x - val y)) < val_limit) \/
  (isfinite (x - y) = false /\ Prim2SF (x - y) = S754_infinity (val x - val y <? 0) /\
     val_limit <= Z.abs (rnd (val x - val y))).
Proof. intros. apply rounds_to_cases, sub_rounds; assumption. Qed.

(** The difference of two nonnegative finite doubles never overflows. *)
Lemma sub_nonneg_val (x y : double) : nonneg x -> nonneg y ->
  isfinite (x - y) = true /\ val (x - y) = rnd (val x - val y).
Proof.
  intros [Hx Hx0] [Hy Hy0]. destruct (sub_cases x y Hx Hy) as [(H & E & _)|(_ & _ & Habs)]; [auto|].
  exfalso. pose proof (val_bound x). pose proof (val_bound y).
  pose proof (rnd_mono (val x - val y) (val x) ltac:(lia)).
  pose proof (rnd_mono (- val y) (val x - val y) ltac:(lia)).
  rewrite rnd_opp, !rnd_val in *. lia.
Qed.

Lemma infinity_ltb (s : bool) (x y : double) : Prim2SF x = S754_infinity s -> isfinite y = true ->
  (x <? y)%float = s.
Proof.
  rewrite isfinite_sf, ltb_spec. unfold SFltb. intros ->.
  destruct (Prim2SF y) as [|[]| |]; try discriminate; destruct s; reflexivity.
Qed.

Lemma leb_infinity (s : bool) (x y : double) : Prim2SF x = S754_infinity s -> isfinite y = true ->
  (y <=? x)%float = negb s.
Proof.
  rewrite isfinite_sf, leb_spec. unfold SFleb. intros ->.
  destruct (Prim2SF y) as [|[]| |[]]; try discriminate; destruct s; reflexivity.
Qed.

(** The tests of the energy windows: [z <= x + y]. *)
Lemma add_leb (x y z : double) : isfinite x = true -> isfinite y = true -> isfinite z = true ->
  0 <= val x -> 0 <= val y -> (z <=? x + y)%float = (val z <=? rnd (val x + val y)).
Proof.
  intros Hx Hy Hz Hx0 Hy0. destruct (add_cases x y Hx Hy) as [(Hf & E & _)|(_ & E & Habs)].
  - rewrite leb_val, E by assumption. reflexivity.
  - rewrite (leb_infinity _ _ _ E Hz). pose proof (val_bound z).
    pose proof (rnd_nonneg (val x + val y) ltac:(lia)). lia.
Qed.

(** The capacity tests of the program: [x + y < z] is false only when [z] is at
    most the rounded sum. *)
Lemma add_ltb_false (x y z : double) : isfinite x = true -> isfinite y = true -> isfinite z = true ->
  (x + y <? z)%float = false -> val z <= rnd (val x + val y).
Proof.
  intros Hx Hy Hz Hlt. destruct (add_cases x y Hx Hy) as [(Hf & E & _)|(_ & E & Habs)].
  - rewrite ltb_val, E in Hlt by assumption. lia.
  - rewrite (infinity_ltb _ _ _ E Hz) in Hlt. apply Z.ltb_ge in Hlt.
    pose proof (val_bound z). pose proof (rnd_nonneg _ Hlt). lia.
Qed.

Lemma add_ltb_true (x y z : double) : isfinite x = true -> isfinite y = true -> isfinite z = true ->
  rnd (val x + val y) < val z -> (x + y <? z)%float = true.
Proof.
  intros Hx Hy Hz Hlt. destruct (x + y <? z)%float eqn:E; [reflexivity|].
  pose proof (add_ltb_false x y z Hx Hy Hz E). lia.
Qed.

Lemma add_ltb_false_intro (x y z : double) : isfinite x = true -> isfinite y = true -> isfinite z = true ->
  0 <= val x -> 0 <= val y -> val z <= rnd (val x + val y) -> (x + y <? z)%float = false.
Proof.
  intros Hx Hy Hz Hx0 Hy0 Hle. destruct (add_cases x y Hx Hy) as [(Hf & E & _)|(_ & E & Habs)].
  - rewrite ltb_val, E by assumption. lia.
  - rewrite (infinity_ltb _ _ _ E Hz). lia.
Qed.

(** [Quantity::clamped] on plain doubles: a finite nonnegative value is kept,
    anything else becomes zero. *)
Definition clamp (v : double) : double :=
  if isfinite v && (0 <=? v)%float then v else 0%float.

Lemma val_zero : val 0 = 0.
Proof. reflexivity. Qed.

Lemma isfinite_zero : isfinite 0 = true.
Proof. reflexivity. Qed.

Lemma clamp_nonneg (v : double) : nonneg (clamp v).
Proof.
  unfold clamp, nonneg. destruct (isfinite v) eqn:Hf; simpl; [|split; reflexivity].
  destruct (0 <=? v)%float eqn:Hle; [|split; reflexivity].
  rewrite leb_val in Hle by auto. rewrite val_zero in Hle. split; [assumption|lia].
Qed.

Lemma clamp_finite_val (v : double) : isfinite v = true -> val (clamp v) = Z.max 0 (val v).
Proof.
  intros Hf. unfold clamp. rewrite Hf. simpl. rewrite leb_val by auto. rewrite val_zero.
  destruct (Z.leb_spec 0 (val v)); [lia|]. rewrite val_zero. lia.
Qed.

Lemma clamp_id (v : double) : nonneg v -> clamp v = v.
Proof.
  intros [Hf Hv]. unfold clamp. rewrite Hf. simpl. rewrite leb_val by auto. rewrite val_zero.
  destruct (Z.leb_spec 0 (val v)); [reflexivity|lia].
Qed.

Lemma clamp_sub_val (x y : double) : nonneg x -> nonneg y ->
  val (clamp (x - y)) = Z.max 0 (rnd (val x - val y)).
Proof.
  intros Hx Hy. destruct (sub_nonneg_val x y Hx Hy) as [Hf E].
  rewrite clamp_finite_val, E by assumption. reflexivity.
Qed.

Lemma clamp_add_le (x y : double) : nonneg x -> nonneg y ->
  val (clamp (x + y)) <= rnd (val x + val y).
Proof.
  intros [Hx Hx0] [Hy Hy0]. destruct (add_cases x y Hx Hy) as [(Hf & E & _)|(Hf & _ & _)].
  - rewrite clamp_finite_val, E by assumption. pose proof (rnd_nonneg (val x + val y)). lia.
  - unfold clamp. rewrite Hf. simpl. rewrite val_zero. apply rnd_nonneg. lia.
Qed.

Lemma clamp_add_val (x y : double) : nonneg x -> nonneg y ->
  rnd (val x + val y) < val_limit -> val (clamp (x + y)) = rnd (val x + val y).
Proof.
  intros [Hx Hx0] [Hy Hy0] Hlim. pose proof (rnd_nonneg (val x + val y) ltac:(lia)).
  destruct (add_cases x y Hx Hy) as [(Hf & E & _)|(_ & _ & Habs)]; [|lia].
  rewrite clamp_finite_val, E by assumption. lia.
Qed.

(** A finite double is determined by its value, up to the sign of zero. *)
Lemma val_eqb (x y : double) : isfinite x = true -> isfinite y = true ->
  val x = val y -> (x =? y)%float = true.
Proof. intros. rewrite eqb_val by assumption. lia. Qed.

(** ** The tolerance [1e-9] of the capacity tests *)
Definition eps : double := 1e-9%float.

Lemma eps_finite : isfinite eps = true.
Proof. reflexivity. Qed.

Lemma val_eps_pos : 0 < val eps.
Proof. reflexivity. Qed.

(** Grid values: sums and differences are exact. *)
Lemma grid_add_exact (g : Z) (x y : double) : 0 <= g -> nonneg x -> nonneg y ->
  on_grid g (val x + val y) -> val x + val y < val_limit -> val (clamp (x + y)) = val x + val y.
Proof.
  intros Hg Hx Hy Hgr Hl. rewrite clamp_add_val; rewrite ?(on_grid_rnd g) by assumption; auto.
Qed.

Lemma grid_sub_exact (g : Z) (x y : double) : 0 <= g -> nonneg x -> nonneg y ->
  on_grid g (val x - val y) -> 0 <= val x - val y -> val (clamp (x - y)) = val x - val y.
Proof.
  intros Hg Hx Hy Hgr Hl. rewrite clamp_sub_val by assumption.
  rewrite (on_grid_rnd g) by assumption. lia.
Qed.

Create HintDb f64.
#[export] Hint Resolve clamp_nonneg eps_finite isfinite_zero val_eps_pos : f64.

(** ** Thousandths

    The files and messages store a quantity as an integer number of thousandths. *)
Definition of_millis (z : Z) : double := (double_of_Z z / 1000)%float.

Lemma pack_valid (s : bool) (N : Z) : 0 < N ->
  valid_binary prec emax (pack s (rne N (excess N)) (excess N - 1074)) = true.
Proof.
  intros HN. pose proof (rne_target_bounds N (-1074) HN) as Hb.
  replace (target N (-1074)) with (excess N - 1074) in Hb by (unfold excess, target; lia).
  replace (excess N - 1074 - -1074) with (excess N) in Hb by lia.
  pose proof (excess_nonneg N). destruct Hb as [Hq Hn]; [lia|].
  set (q := rne N (excess N)) in *. set (e := excess N - 1074) in *. unfold pack.
  destruct (Z.eqb_spec q 0); [reflexivity|].
  assert (Hcan : forall (m : positive) (e : Z), target (Z.pos m) e = e -> e <= 971 ->
    valid_binary prec emax (S754_finite s m e) = true).
  { intros m e' Ht He. cbn. unfold bounded, canonical_mantissa. change (Z.pos (digits2_pos m)) with (Zdigits2 (Z.pos m)).
    rewrite fexp_target, Ht, Z.eqb_refl. apply Z.leb_le. exact He. }
  destruct (Z.eqb_spec q (2 ^ 53)).
  - destruct (Z.leb_spec (e + 1) 971); [|reflexivity]. apply Hcan; [|assumption].
    unfold target. change (Zdigits2 (Z.pos (2 ^ 52))) with 53. lia.
  - destruct (Z.leb_spec e 971); [|reflexivity]. apply Hcan; [|assumption].
    rewrite Z2Pos.id by lia. unfold target. pose proof (Zdigits2_le q (2 ^ 53 - 1) ltac:(lia)) as Hd.
    change (Zdigits2 (2 ^ 53 - 1)) with 53 in Hd. destruct (Z.eq_dec e (-1074)) as [E|E]; [lia|].
    pose proof (Zdigits2_le (2 ^ 52) q ltac:(lia)) as Hd'. change (Zdigits2 (2 ^ 52)) with 53 in Hd'. lia.
Qed.

Lemma double_of_Z_rounds (z : Z) : rounds_to (Prim2SF (double_of_Z z)) (z * 2 ^ 1074).
Proof.
  unfold double_of_Z. rewrite Prim2SF_SF2Prim; [apply (binary_normalize_rounds z 0 false); lia|].
  destruct z as [|p|p]; [reflexivity| |]; cbn [binary_normalize];
    rewrite binary_round_pack by lia; apply pack_valid; pose proof (pow2_pos (0 + 1074)); lia.
Qed.

(** The result of a division of a negative number by a positive one is not positive. *)
Lemma round_negative (q e : Z) (l : location) : sf_val (binary_round_aux prec emax true q e l) <= 0.
Proof.
  unfold binary_round_aux. destruct (shr_fexp prec emax q e l) as [r e1].
  destruct (shr_fexp prec emax _ e1 loc_Exact) as [r2 e2].
  destruct (shr_m r2) as [|p|p]; cbn [sf_val]; try lia.
  destruct (e2 <=? emax - prec); cbn [sf_val cond_Zopp]; lia.
Qed.

(** A nonnegative quantity read from a file or a message is zero or well above the tolerance. *)
Lemma of_millis_real (z : Z) : - 2 ^ 63 <= z < 2 ^ 63 -> nonneg (of_millis z) ->
  val (of_millis z) = 0 \/ val eps < val (of_millis z).
Proof.
  intros Hz [Hf Hv]. unfold of_millis in *. destruct (Z.lt_trichotomy z 0) as [Hneg|[->|Hpos]].
  - left. enough (val (double_of_Z z / 1000) <= 0) by lia. clear Hf Hv.
    assert (Hs : Prim2SF (double_of_Z z) = binary_normalize prec emax z 0 false).
    { unfold double_of_Z. apply Prim2SF_SF2Prim. destruct z as [|p|p]; try lia. cbn [binary_normalize].
      rewrite binary_round_pack by lia. apply pack_valid. pose proof (pow2_pos (0 + 1074)). lia. }
    unfold val. rewrite div_spec. unfold SF64div, SFdiv. rewrite Hs.
    destruct z as [|p|p]; try lia. cbn [binary_normalize]. unfold binary_round.
    destruct (shl_align p 0 _) as [p' f]. unfold binary_round_aux.
    destruct (shr_fexp prec emax _ f loc_Exact) as [r e1]. destruct (shr_fexp prec emax _ e1 loc_Exact) as [r2 e2].
    change (Prim2SF 1000) with (S754_finite false 8796093022208000 (-43)).
    destruct (shr_m r2) as [|m|m]; cbn [sf_val]; try lia.
    destruct (e2 <=? emax - prec); cbn [sf_val xorb]; try lia.
    destruct (SFdiv_core_binary _ _ _ _ _ _) as [[q e] l]. apply round_negative.
  - left. reflexivity.
  - right. pose proof (double_of_Z_rounds z) as Hx. apply rounds_to_cases in Hx.
    assert (HB : 0 < 2 ^ 1074) by (apply pow2_pos; lia).
    assert (Hrep : rnd (2 ^ 1074) = 2 ^ 1074).
    { apply rnd_representable. exists 1, 1074. lia. }
    pose proof (rnd_mono (2 ^ 1074) (z * 2 ^ 1074) ltac:(nia)) as Hm. rewrite Hrep in Hm.
    pose proof (rnd_error (z * 2 ^ 1074)) as He. 
    destruct Hx as [(Hxf & Hxv & _)|(_ & _ & Hbig)].
    2:{ exfalso. unfold val_limit in Hbig. assert (2 ^ 2098 = 2 ^ 1024 * 2 ^ 1074) by (rewrite <- pow2_add by lia; reflexivity).
        assert (2 ^ 1074 * 2 ^ 64 < 2 ^ 1024 * 2 ^ 1074).
        { rewrite (Z.mul_comm (2 ^ 1024)). apply Z.mul_lt_mono_pos_l; [assumption|]. apply Z.pow_lt_mono_r; lia. }
        nia. }
    assert (Hk : val 1000 = 1000 * 2 ^ 1074) by reflexivity.
    assert (Hkf : isfinite 1000 = true) by reflexivity.
    destruct (div_rounds (double_of_Z z) 1000 Hxf Hkf ltac:(lia)) as (N & HN & HN0 & HE).
    { rewrite Hk. replace (2 ^ 1138) with (2 ^ 64 * 2 ^ 1074) by (rewrite <- pow2_add by lia; reflexivity). lia. }
    rewrite Hk in HE. apply rounds_to_cases in HN as [(_ & HNv & _)|(HNf & _)]; [|congruence].
    rewrite HNv. pose proof (rnd_error N) as He2.
    assert (Heps : 10 ^ 8 * val eps < 2 ^ 1074) by reflexivity.
    assert (HN1 : 2 ^ 1074 < 1001 * N) by (clear - HE HB HN0 Hm Hxv; nia).
    lia.
Qed.

(** ** Multiplication by one is exact *)
Lemma shr_exact_52 (m : positive) (e : Z) : canonical_mantissa prec emax m e = true ->
  shr_fexp prec emax (Z.pos (m * 4503599627370496)) (e + -52) loc_Exact = (Build_shr_record (Z.pos m) false false, e).
Proof.
  intros Hc. rewrite Pos.mul_comm. change (4503599627370496 * m)%positive with (Nat.iter 52 xO m). unfold Nat.iter; cbn [nat_rect]. unfold shr_fexp. cbn [Zdigits2 digits2_pos].
  apply Z.eqb_eq in Hc. rewrite !Pos2Z.inj_succ.
  match goal with |- context [fexp prec emax ?a - ?b] => replace (fexp prec emax a - b) with 52 end.
  2: { match goal with |- context [fexp prec emax ?a] => replace a with (Z.pos (digits2_pos m) + e) by lia end. rewrite Hc. lia. }
  cbn. f_equal. lia.
Qed.

Lemma mul_one (x : double) : isfinite x = true -> (x * 1)%float = x.
Proof.
  intros Hf. apply Prim2SF_inj. rewrite mul_spec. pose proof (Prim2SF_valid x) as Hv. rewrite isfinite_sf in Hf.
  change (Prim2SF 1) with (S754_finite false 4503599627370496 (-52)).
  destruct (Prim2SF x) as [s|s| |s m e]; try discriminate; cbn [SF64mul SFmul]; rewrite xorb_false_r; [reflexivity|].
  cbn in Hv. unfold bounded in Hv. apply andb_prop in Hv as [Hc He]. unfold binary_round_aux.
  rewrite shr_exact_52 by exact Hc. cbn [shr_m loc_of_shr_record round_nearest_even].
  unfold shr_fexp. cbn [Zdigits2]. apply Z.eqb_eq in Hc. rewrite Hc, Z.sub_diag. cbn [shr shr_record_of_loc shr_m].
  rewrite He. reflexivity.
Qed.
