(* ===== verification/Milli.v ===== *)
(** * Doubles and thousandths: multiplication, truncation, small integers

    What the conversions between watts and the integer milliwatts of drivers and
    files need: the product of two doubles from one up is the rounding of the exact
    product, truncation is the integer part, and small integers convert exactly. *)
From Stdlib Require Import ZArith Lia Bool SpecFloat Floats.
From S2P Require Import Rounding Binary64.
Local Open Scope Z_scope.
#[local] Set Warnings "-inexact-float".

Lemma one_pos : 0 < 2 ^ 1074.
Proof. apply pow2_pos. lia. Qed.

(** A double from [2^-400] up is normal. *)
Lemma small_normal (x : double) (s : bool) (m : positive) (e : Z) :
  Prim2SF x = S754_finite s m e -> 2 ^ 674 <= val x ->
  s = false /\ -452 <= e /\ 2 ^ 52 <= Z.pos m < 2 ^ 53 /\ val x = Z.pos m * 2 ^ (e + 1074).
Proof.
  intros E Hx. destruct (prim_valid_finite x s m e E) as (He & Hm & Hn). unfold val in *. rewrite E in *. cbn [sf_val] in *.
  pose proof (pow2_pos (e + 1074) ltac:(lia)) as HP. pose proof (pow2_pos 674 ltac:(lia)).
  destruct s; cbn [cond_Zopp] in *; [lia|].
  assert (He2 : -452 <= e).
  { destruct (Z.le_gt_cases (-452) e); [assumption|exfalso].
    assert (Z.pos m * 2 ^ (e + 1074) < 2 ^ 53 * 2 ^ (e + 1074)) by (apply Z.mul_lt_mono_pos_r; lia).
    rewrite <- pow2_add in * by lia. pose proof (pow2_le (53 + (e + 1074)) 674 ltac:(lia)). lia. }
  split; [reflexivity|]. split; [exact He2|]. split; [split; [apply Hn; lia|exact Hm]|reflexivity].
Qed.

(** The product of two doubles from [2^-400] up, in units of [2^-1074]. *)
Lemma mul_rounds_small (x y : double) : isfinite x = true -> isfinite y = true -> 2 ^ 674 <= val x -> 2 ^ 674 <= val y ->
  exists N, rounds_to (Prim2SF (x * y)) N /\ N * 2 ^ 1074 = val x * val y.
Proof.
  intros Hx Hy Hvx Hvy. rewrite isfinite_sf in Hx, Hy. pose proof (pow2_pos 674 ltac:(lia)).
  rewrite mul_spec. unfold SF64mul, SFmul.
  destruct (Prim2SF x) as [s|s| |s m1 e1] eqn:E1; try discriminate; [unfold val in Hvx; rewrite E1 in Hvx; cbn in Hvx; lia|].
  destruct (Prim2SF y) as [s'|s'| |s' m2 e2] eqn:E2; try discriminate; [unfold val in Hvy; rewrite E2 in Hvy; cbn in Hvy; lia|].
  destruct (small_normal x _ _ _ E1 Hvx) as (-> & He1 & Hm1 & Ev1).
  destruct (small_normal y _ _ _ E2 Hvy) as (-> & He2 & Hm2 & Ev2). cbn [xorb].
  exists (4 * Z.pos (m1 * m2) * 2 ^ (e1 + e2 + 1072)). split.
  - replace (4 * Z.pos (m1 * m2)) with (4 * Z.pos (m1 * m2) + quarter loc_Exact) by (cbn [quarter]; lia).
    apply round_loc_rounds; [lia|lia|]. unfold target.
    pose proof (Zdigits2_le (2 ^ 104) (Z.pos (m1 * m2)) ltac:(rewrite Pos2Z.inj_mul; nia)) as Hd.
    change (Zdigits2 (2 ^ 104)) with 105 in Hd. lia.
  - rewrite Ev1, Ev2, Pos2Z.inj_mul.
    replace (Z.pos m1 * 2 ^ (e1 + 1074) * (Z.pos m2 * 2 ^ (e2 + 1074)))
      with (Z.pos m1 * Z.pos m2 * (2 ^ (e1 + 1074) * 2 ^ (e2 + 1074))) by ring.
    replace (4 * (Z.pos m1 * Z.pos m2) * 2 ^ (e1 + e2 + 1072) * 2 ^ 1074)
      with (Z.pos m1 * Z.pos m2 * (2 ^ 2 * 2 ^ (e1 + e2 + 1072) * 2 ^ 1074)) by (change (2 ^ 2) with 4; ring).
    rewrite <- !pow2_add by lia. do 2 f_equal. lia.
Qed.

Lemma mul_rounds (x y : double) : isfinite x = true -> isfinite y = true -> 2 ^ 1074 <= val x -> 2 ^ 1074 <= val y ->
  exists N, rounds_to (Prim2SF (x * y)) N /\ N * 2 ^ 1074 = val x * val y.
Proof. intros Hx Hy Hvx Hvy. pose proof (pow2_le 674 1074). apply mul_rounds_small; try assumption; lia. Qed.

(** Zero times a finite double, and zero divided by a positive one. *)
Lemma finite_zero (x : double) : isfinite x = true -> val x = 0 -> exists s, Prim2SF x = S754_zero s.
Proof.
  intros Hf Hv. rewrite isfinite_sf in Hf. unfold val in Hv. destruct (Prim2SF x) as [s|s| |s m e] eqn:E; try discriminate; [eauto|exfalso].
  destruct (prim_valid_finite x s m e E) as (He & _ & _). pose proof (pow2_pos (e + 1074) ltac:(lia)).
  cbn [sf_val] in Hv. destruct s; cbn [cond_Zopp] in Hv; nia.
Qed.

Lemma mul_zero (x y : double) : isfinite x = true -> isfinite y = true -> val x = 0 \/ val y = 0 ->
  isfinite (x * y) = true /\ val (x * y) = 0.
Proof.
  intros Hx Hy [H|H]; [destruct (finite_zero x Hx H) as [s E]|destruct (finite_zero y Hy H) as [s E]];
    rewrite isfinite_sf in *; unfold val; rewrite mul_spec, E.
  - destruct (Prim2SF y); try discriminate; auto.
  - destruct (Prim2SF x); try discriminate; auto.
Qed.

Lemma div_zero (x y : double) : isfinite x = true -> isfinite y = true -> val x = 0 -> 0 < val y ->
  isfinite (x / y) = true /\ val (x / y) = 0.
Proof.
  intros Hx Hy H Hp. destruct (finite_zero x Hx H) as [s E]. rewrite isfinite_sf in *. unfold val in *. rewrite div_spec, E.
  destruct (Prim2SF y); try discriminate; auto.
Qed.

(** Truncation of a nonnegative double is its integer part. *)
Lemma truncate_floor (x : double) : isfinite x = true -> 0 <= val x -> truncate x = Some (val x / 2 ^ 1074).
Proof.
  intros Hx Hv. rewrite isfinite_sf in Hx. unfold truncate, val in *. pose proof one_pos.
  destruct (Prim2SF x) as [s|s| |s m e] eqn:E; try discriminate; [reflexivity|].
  destruct (prim_valid_finite x _ _ _ E) as (He & _ & _). pose proof (pow2_pos (e + 1074) ltac:(lia)) as HP.
  cbn [sf_val] in *. destruct s; cbn [cond_Zopp] in *; [lia|]. f_equal. destruct (Z.leb_spec 0 e).
  - rewrite (pow2_add e 1074) by lia. rewrite Z.mul_assoc, Z.div_mul by (apply Z.neq_sym, Z.lt_neq, one_pos). reflexivity.
  - assert (Ep : 2 ^ 1074 = 2 ^ (- e) * 2 ^ (e + 1074)) by (rewrite <- pow2_add by lia; f_equal; lia).
    rewrite Ep, Z.div_mul_cancel_r; [reflexivity| |lia]. apply Z.neq_sym, Z.lt_neq, pow2_pos. lia.
Qed.

(** Integers up to [2^53] convert exactly. *)
Lemma double_of_Z_exact (z : Z) : Z.abs z <= 2 ^ 53 -> isfinite (double_of_Z z) = true /\ val (double_of_Z z) = z * 2 ^ 1074.
Proof.
  intros Hz. assert (E : rnd (z * 2 ^ 1074) = z * 2 ^ 1074).
  { apply rnd_representable. exists z, 1074. lia. }
  pose proof (rounds_to_cases _ _ (double_of_Z_rounds z)) as H. rewrite E in H. destruct H as [(Hf & Hv & _)|(_ & _ & Hbig)]; [auto|].
  exfalso. unfold val_limit in Hbig. rewrite Z.abs_mul, (Z.abs_eq (2 ^ 1074)) in Hbig by (pose proof one_pos; lia).
  replace (2 ^ 2098) with (2 ^ 1024 * 2 ^ 1074) in Hbig by (rewrite <- pow2_add by lia; reflexivity).
  apply Z.mul_le_mono_pos_r in Hbig; [|apply one_pos]. assert (2 ^ 53 < 2 ^ 1024) by reflexivity. lia.
Qed.

(** Dividing a small nonnegative integer by a constant from one to [2^64] stays finite
    and nonnegative. *)
Lemma div_small_nonneg (z : Z) (c : double) (k : Z) : 0 <= z < 2 ^ 32 -> isfinite c = true -> val c = k * 2 ^ 1074 ->
  1 <= k <= 2 ^ 32 -> nonneg (double_of_Z z / c).
Proof.
  intros Hz Hc Hvc Hk. pose proof one_pos as H1. destruct (double_of_Z_exact z ltac:(lia)) as [Hf Hv].
  destruct (Z.eq_dec z 0) as [->|Hz0].
  - destruct (div_zero (double_of_Z 0) c Hf Hc Hv ltac:(nia)) as [H H0]. split; [exact H|lia].
  - destruct (div_rounds (double_of_Z z) c Hf Hc) as (N & HN & HN0 & HE); [rewrite Hv; nia| |].
    { rewrite Hvc. replace (2 ^ 1138) with (2 ^ 64 * 2 ^ 1074) by (rewrite <- pow2_add by lia; reflexivity). nia. }
    rewrite Hv, Hvc in HE. apply rounds_to_cases in HN. pose proof (rnd_nonneg N ltac:(lia)) as Hr.
    destruct HN as [(HNf & HNv & _)|(_ & _ & Hbig)]; [split; [exact HNf|lia]|]. exfalso.
    assert (HNb : N <= 2 ^ 33 * 2 ^ 1074).
    { apply (Z.mul_le_mono_pos_r _ _ (2 ^ 1074)); [exact H1|]. nia. }
    pose proof (rnd_mono N (2 ^ 33 * 2 ^ 1074) HNb) as Hm.
    rewrite (rnd_representable (2 ^ 33 * 2 ^ 1074)) in Hm by (exists (2 ^ 33), 1074; lia).
    unfold val_limit in Hbig. replace (2 ^ 2098) with (2 ^ 1024 * 2 ^ 1074) in Hbig by (rewrite <- pow2_add by lia; reflexivity).
    assert (2 ^ 33 * 2 ^ 1074 < 2 ^ 1024 * 2 ^ 1074) by (apply Z.mul_lt_mono_pos_r; [exact H1|reflexivity]). lia.
Qed.

(** A number of watts between two integers, in whole milliwatts. *)
Lemma truncated_milliwatts (w : double) (hi : Z) : isfinite w = true -> 2 ^ 1074 <= val w <= hi * 2 ^ 1074 -> hi <= 2 ^ 32 ->
  exists mw, truncate (w * 1000) = Some mw /\ 1000 <= mw <= hi * 1000.
Proof.
  intros Hf Hw Hhi. pose proof one_pos as H1.
  destruct (mul_rounds w 1000 Hf eq_refl ltac:(lia)) as (N & HN & HE).
  { change (val 1000) with (1000 * 2 ^ 1074). lia. }
  change (val 1000) with (1000 * 2 ^ 1074) in HE. rewrite Z.mul_assoc in HE. apply Z.mul_reg_r in HE; [|lia]. subst N.
  apply rounds_to_cases in HN. assert (Hlo : rnd (1000 * 2 ^ 1074) = 1000 * 2 ^ 1074).
  { apply rnd_representable. exists 1000, 1074. lia. }
  assert (Hup : rnd (hi * 1000 * 2 ^ 1074) = hi * 1000 * 2 ^ 1074).
  { apply rnd_representable. exists (hi * 1000), 1074. nia. }
  pose proof (rnd_mono (1000 * 2 ^ 1074) (val w * 1000) ltac:(lia)).
  pose proof (rnd_mono (val w * 1000) (hi * 1000 * 2 ^ 1074) ltac:(lia)).
  destruct HN as [(HNf & HNv & _)|(_ & _ & Hbig)].
  - exists (val (w * 1000) / 2 ^ 1074). split; [apply truncate_floor; [exact HNf|lia]|].
    rewrite HNv. split; [apply Z.div_le_lower_bound; lia|].
    apply Z.div_le_upper_bound; lia.
  - exfalso. unfold val_limit in Hbig. replace (2 ^ 2098) with (2 ^ 1024 * 2 ^ 1074) in Hbig by (rewrite <- pow2_add by lia; reflexivity).
    assert (hi * 1000 * 2 ^ 1074 < 2 ^ 1024 * 2 ^ 1074) by (apply Z.mul_lt_mono_pos_r; [exact H1|]; apply Z.le_lt_trans with (2 ^ 32 * 1000); [lia|reflexivity]).
    lia.
Qed.
