(* ===== verification/Accuracy.v ===== *)
(** * Relative errors

    How far a value computed with doubles is from the exact one: [near k v a b] says that
    [v] is the fraction [a / b] up to [k] relative errors of [2^-50] each.  A rounding adds
    one, a sum of nonnegative terms keeps the larger, a product adds them up; at the end
    [k] of them are an error of at most [k * 2^-49]. *)
From S2P Require Import Prelude Rounding Binary64 Milli.
Local Open Scope Z_scope.
#[local] Arguments Z.mul : simpl never.
#[local] Arguments Z.add : simpl never.
#[local] Arguments Z.pow : simpl never.

Definition ulps : Z := 2 ^ 50.

Definition near (k : nat) (v a b : Z) : Prop :=
  0 < b /\ a * (ulps - 1) ^ Z.of_nat k <= v * b * ulps ^ Z.of_nat k <= a * (ulps + 1) ^ Z.of_nat k.

Lemma ulps_pos : 1 < ulps.
Proof. reflexivity. Qed.
#[local] Opaque ulps.

Lemma power_pos (x : Z) (k : nat) : 0 < x -> 0 < x ^ Z.of_nat k.
Proof. intros. apply Z.pow_pos_nonneg; lia. Qed.

Lemma power_succ (x : Z) (k : nat) : x ^ Z.of_nat (S k) = x * x ^ Z.of_nat k.
Proof. rewrite Nat2Z.inj_succ, Z.pow_succ_r by lia. reflexivity. Qed.

Lemma power_add (x : Z) (k j : nat) : x ^ Z.of_nat (k + j) = x ^ Z.of_nat k * x ^ Z.of_nat j.
Proof. rewrite Nat2Z.inj_add, Z.pow_add_r by lia. reflexivity. Qed.

Lemma near_exact (v b : Z) : 0 < b -> near 0 v (v * b) b.
Proof. intros Hb. split; [exact Hb|]. change (Z.of_nat 0) with 0. rewrite !Z.pow_0_r. lia. Qed.

(** One more relative error. *)
Lemma near_step (k : nat) (v v' a b : Z) : 0 <= v -> ulps * Z.abs (v' - v) <= v -> near k v a b -> near (S k) v' a b.
Proof.
  intros Hv He (Hb & Hlo & Hhi). split; [exact Hb|]. pose proof ulps_pos. rewrite !power_succ.
  pose proof (power_pos ulps k ltac:(lia)) as HP. set (P := ulps ^ Z.of_nat k) in *.
  assert (H1 : v * (ulps - 1) <= v' * ulps <= v * (ulps + 1)) by lia.
  assert (H2 : 0 < b * P) by nia. split.
  - transitivity ((ulps - 1) * (v * b * P)); [|nia].
    replace (a * ((ulps - 1) * (ulps - 1) ^ Z.of_nat k)) with ((ulps - 1) * (a * (ulps - 1) ^ Z.of_nat k)) by ring. nia.
  - transitivity ((ulps + 1) * (v * b * P)); [nia|].
    replace (a * ((ulps + 1) * (ulps + 1) ^ Z.of_nat k)) with ((ulps + 1) * (a * (ulps + 1) ^ Z.of_nat k)) by ring. nia.
Qed.

Lemma near_nonneg (k : nat) (v a b : Z) : 0 <= a -> near k v a b -> 0 <= v.
Proof.
  intros Ha (Hb & Hlo & _). pose proof ulps_pos. pose proof (power_pos ulps k ltac:(lia)). pose proof (power_pos (ulps - 1) k ltac:(lia)).
  assert (0 <= v * (b * ulps ^ Z.of_nat k)) by nia. nia.
Qed.

(** More errors are allowed for. *)
Lemma near_weaken (k j : nat) (v a b : Z) : (k <= j)%nat -> 0 <= a -> near k v a b -> near j v a b.
Proof.
  intros Hkj Ha H. induction Hkj as [|j Hkj IH]; [exact H|]. apply (near_step j v v); [eapply near_nonneg; eassumption| |exact IH].
  rewrite Z.sub_diag. apply (near_nonneg k) in H; [lia|exact Ha].
Qed.

Lemma near_rnd (k : nat) (v a b : Z) : 0 <= a -> near k v a b -> near (S k) (rnd v) a b.
Proof.
  intros Ha H. pose proof (near_nonneg _ _ _ _ Ha H) as Hv. apply (near_step k v); [exact Hv| |exact H].
  pose proof (rnd_error v) as He. rewrite (Z.abs_eq v) in He by exact Hv. change ulps with (2 ^ 50).
  change (2 ^ 53) with (8 * 2 ^ 50) in He. pose proof (Z.abs_nonneg (rnd v - v)). lia.
Qed.

Lemma near_add (k : nat) (v w a c b : Z) : near k v a b -> near k w c b -> near k (v + w) (a + c) b.
Proof. intros (Hb & H1 & H2) (_ & H3 & H4). split; [exact Hb|]. rewrite !Z.mul_add_distr_r. lia. Qed.

Lemma near_mul (k j : nat) (v w a b c d : Z) : 0 <= a -> 0 <= c -> near k v a b -> near j w c d ->
  near (k + j) (v * w) (a * c) (b * d).
Proof.
  intros Ha Hc Hv Hw. pose proof (near_nonneg _ _ _ _ Ha Hv) as Hv0. pose proof (near_nonneg _ _ _ _ Hc Hw) as Hw0.
  destruct Hv as (Hb & H1 & H2), Hw as (Hd & H3 & H4). split; [nia|]. pose proof ulps_pos. rewrite !power_add.
  pose proof (power_pos (ulps - 1) k ltac:(lia)). pose proof (power_pos (ulps - 1) j ltac:(lia)).
  pose proof (power_pos ulps k ltac:(lia)). pose proof (power_pos ulps j ltac:(lia)).
  replace (v * w * (b * d) * (ulps ^ Z.of_nat k * ulps ^ Z.of_nat j))
    with ((v * b * ulps ^ Z.of_nat k) * (w * d * ulps ^ Z.of_nat j)) by ring.
  split.
  - replace (a * c * ((ulps - 1) ^ Z.of_nat k * (ulps - 1) ^ Z.of_nat j))
      with ((a * (ulps - 1) ^ Z.of_nat k) * (c * (ulps - 1) ^ Z.of_nat j)) by ring.
    apply Z.mul_le_mono_nonneg; nia.
  - replace (a * c * ((ulps + 1) ^ Z.of_nat k * (ulps + 1) ^ Z.of_nat j))
      with ((a * (ulps + 1) ^ Z.of_nat k) * (c * (ulps + 1) ^ Z.of_nat j)) by ring.
    apply Z.mul_le_mono_nonneg; nia.
Qed.

(** A common factor. *)
Lemma near_scale (k : nat) (v a b c : Z) : 0 < c -> near k v (a * c) (b * c) <-> near k v a b.
Proof.
  intros Hc. unfold near. split; intros (Hb & H1 & H2).
  - split; [nia|]. split; apply (Z.mul_le_mono_pos_r _ _ c Hc); nia.
  - split; [nia|]. split; [apply (Z.mul_le_mono_pos_r _ _ c Hc) in H1|apply (Z.mul_le_mono_pos_r _ _ c Hc) in H2]; nia.
Qed.
(** A factor of the value is a divisor of the fraction. *)
Lemma near_shift (k : nat) (v a b c : Z) : 0 < c -> near k (v * c) a b <-> near k v a (b * c).
Proof.
  intros Hc. unfold near. replace (v * c * b) with (v * (b * c)) by ring.
  split; intros (Hb & H); (split; [nia|exact H]).
Qed.

(** ** The error at the end *)
Lemma power_above (k : nat) : 2 * Z.of_nat k <= ulps -> (ulps + 1) ^ Z.of_nat k * ulps <= ulps ^ Z.of_nat k * (ulps + 2 * Z.of_nat k).
Proof.
  induction k as [|k IH]; intros Hk; [change (Z.of_nat 0) with 0; rewrite !Z.pow_0_r; lia|].
  specialize (IH ltac:(lia)). rewrite !power_succ, Nat2Z.inj_succ. pose proof ulps_pos. pose proof (power_pos ulps k ltac:(lia)).
  set (P := ulps ^ Z.of_nat k) in *. set (Q := (ulps + 1) ^ Z.of_nat k) in *. unfold Z.succ.
  transitivity ((ulps + 1) * (P * (ulps + 2 * Z.of_nat k))); [nia|].
  replace (ulps * P * (ulps + 2 * (Z.of_nat k + 1))) with (P * (ulps * (ulps + 2 * (Z.of_nat k + 1)))) by ring.
  replace ((ulps + 1) * (P * (ulps + 2 * Z.of_nat k))) with (P * ((ulps + 1) * (ulps + 2 * Z.of_nat k))) by ring.
  apply Z.mul_le_mono_nonneg_l; [lia|]. nia.
Qed.

Lemma power_below (k : nat) : ulps ^ Z.of_nat k * (ulps - Z.of_nat k) <= (ulps - 1) ^ Z.of_nat k * ulps.
Proof.
  induction k as [|k IH]; [change (Z.of_nat 0) with 0; rewrite !Z.pow_0_r; lia|].
  rewrite !power_succ, Nat2Z.inj_succ. pose proof ulps_pos. pose proof (power_pos ulps k ltac:(lia)).
  set (P := ulps ^ Z.of_nat k) in *. set (Q := (ulps - 1) ^ Z.of_nat k) in *. unfold Z.succ.
  transitivity ((ulps - 1) * (P * (ulps - Z.of_nat k))); [|nia].
  replace (ulps * P * (ulps - (Z.of_nat k + 1))) with (P * (ulps * (ulps - (Z.of_nat k + 1)))) by ring.
  replace ((ulps - 1) * (P * (ulps - Z.of_nat k))) with (P * ((ulps - 1) * (ulps - Z.of_nat k))) by ring.
  apply Z.mul_le_mono_nonneg_l; [lia|]. nia.
Qed.

Lemma near_error (k : nat) (v a b : Z) : 0 <= a -> 2 * Z.of_nat k <= 2 ^ 50 -> near k v a b ->
  2 ^ 49 * Z.abs (v * b - a) <= Z.of_nat k * a.
Proof.
  intros Ha Hk (Hb & H1 & H2). change (2 ^ 50) with ulps in Hk. pose proof ulps_pos as Hu. pose proof (power_pos ulps k ltac:(lia)) as HP.
  pose proof (power_above k Hk) as Hhi. pose proof (power_below k) as Hlo.
  set (P := ulps ^ Z.of_nat k) in *.
  assert (Hup : v * b * ulps <= a * (ulps + 2 * Z.of_nat k)).
  { apply (Z.mul_le_mono_pos_r _ _ P HP). nia. }
  assert (Hdown : a * (ulps - Z.of_nat k) <= v * b * ulps).
  { apply (Z.mul_le_mono_pos_r _ _ P HP). nia. }
  assert (E : ulps = 2 * 2 ^ 49) by reflexivity. pose proof (Zle_0_nat k). rewrite E in *. clear E.
  assert (2 ^ 49 = 562949953421312) as E by reflexivity. rewrite E in *. nia.
Qed.

(** The value of a fraction that is near, for a test of its size. *)
Lemma near_upper (k : nat) (v a b : Z) : 0 <= a -> 2 * Z.of_nat k <= 2 ^ 50 -> near k v a b -> v * b <= 2 * a.
Proof.
  intros Ha Hk H. pose proof (near_error k v a b Ha Hk H) as He. change (2 ^ 50) with (2 * 2 ^ 49) in Hk.
  pose proof (Z.abs_nonneg (v * b - a)). assert (Z.of_nat k * a <= 2 ^ 49 * a) by (apply Z.mul_le_mono_nonneg_r; lia).
  assert (0 < 2 ^ 49) by reflexivity. nia.
Qed.

(** A quotient: [q] is within one error of [v * c / w]. *)
Lemma power_between (j : nat) :
  ulps ^ Z.of_nat (j + j + j) <= (ulps - 1) ^ Z.of_nat j * (ulps + 1) ^ Z.of_nat (j + j) /\
  (ulps + 1) ^ Z.of_nat j * (ulps - 1) ^ Z.of_nat j <= ulps ^ Z.of_nat (j + j).
Proof.
  pose proof ulps_pos. rewrite !power_add, <- !Z.pow_mul_l. split; apply Z.pow_le_mono_l; nia.
Qed.

Lemma near_div (k j : nat) (v w q a b c d : Z) : 0 <= a -> 0 < c -> 0 < w -> 0 <= q ->
  ulps * Z.abs (q * w - v) <= v -> near k v a b -> near j w c d -> near (S (k + (j + j))) q (a * d) (b * c).
Proof.
  intros Ha Hc Hw Hq He Hv Hwn. pose proof (near_nonneg _ _ _ _ Ha Hv) as Hv0.
  pose proof (near_step k v (q * w) a b Hv0 He Hv) as Hqw.
  destruct Hqw as (Hb & H1 & H2), Hwn as (Hd & H3 & H4). split; [nia|]. pose proof ulps_pos as Hu.
  destruct (power_between j) as [Hp1 Hp2]. change (S (k + (j + j))) with (S k + (j + j))%nat. rewrite !(power_add _ (S k)).
  pose proof (power_pos ulps j ltac:(lia)). pose proof (power_pos ulps (j + j) ltac:(lia)). pose proof (power_pos ulps (S k) ltac:(lia)).
  pose proof (power_pos (ulps - 1) j ltac:(lia)). pose proof (power_pos (ulps - 1) (S k) ltac:(lia)).
  pose proof (power_pos (ulps + 1) j ltac:(lia)). pose proof (power_pos (ulps + 1) (S k) ltac:(lia)).
  pose proof (power_pos (ulps + 1) (j + j) ltac:(lia)). pose proof (power_pos (ulps - 1) (j + j) ltac:(lia)).
  rewrite (power_add ulps (j + j) j) in Hp1.
  assert (Hm : (ulps - 1) ^ Z.of_nat (j + j) <= (ulps - 1) ^ Z.of_nat j * ulps ^ Z.of_nat j).
  { rewrite power_add. apply Z.mul_le_mono_nonneg_l; [lia|]. apply Z.pow_le_mono_l. lia. }
  set (U := ulps ^ Z.of_nat j) in *. set (U2 := ulps ^ Z.of_nat (j + j)) in *. set (K := ulps ^ Z.of_nat (S k)) in *.
  set (L := (ulps - 1) ^ Z.of_nat j) in *. set (L2 := (ulps - 1) ^ Z.of_nat (j + j)) in *. set (LK := (ulps - 1) ^ Z.of_nat (S k)) in *.
  set (T := (ulps + 1) ^ Z.of_nat j) in *. set (T2 := (ulps + 1) ^ Z.of_nat (j + j)) in *. set (TK := (ulps + 1) ^ Z.of_nat (S k)) in *.
  assert (HUd : 0 < U * d) by nia. assert (HbK : 0 <= q * b * K) by nia. split.
  - transitivity (a * d * (LK * (L * U))); [apply Z.mul_le_mono_nonneg_l; [nia|apply Z.mul_le_mono_nonneg_l; lia]|].
    transitivity (q * b * K * (c * (T * L))); [|replace (q * (b * c) * (K * U2)) with (q * b * K * (c * U2)) by ring;
      apply Z.mul_le_mono_nonneg_l; [lia|apply Z.mul_le_mono_nonneg_l; lia]].
    transitivity (q * b * K * ((w * d * U) * L)); [|apply Z.mul_le_mono_nonneg_l; [lia|rewrite Z.mul_assoc; apply Z.mul_le_mono_nonneg_r; lia]].
    replace (q * b * K * (w * d * U * L)) with (q * w * b * K * (d * U * L)) by ring.
    replace (a * d * (LK * (L * U))) with (a * LK * (d * U * L)) by ring. apply Z.mul_le_mono_nonneg_r; [nia|lia].
  - apply (Z.mul_le_mono_pos_r _ _ U ltac:(lia)).
    transitivity (q * b * K * (c * (L * T2))); [replace (q * (b * c) * (K * U2) * U) with (q * b * K * (c * (U2 * U))) by ring;
      apply Z.mul_le_mono_nonneg_l; [lia|apply Z.mul_le_mono_nonneg_l; lia]|].
    transitivity (q * b * K * ((w * d * U) * T2)); [apply Z.mul_le_mono_nonneg_l; [lia|rewrite Z.mul_assoc; apply Z.mul_le_mono_nonneg_r; lia]|].
    replace (q * b * K * (w * d * U * T2)) with (q * w * b * K * (d * U * T2)) by ring.
    replace (a * d * (TK * T2) * U) with (a * TK * (d * U * T2)) by ring. apply Z.mul_le_mono_nonneg_r; [nia|lia].
Qed.

(** ** Computations with doubles *)
Definition approx (k : nat) (x : double) (a b : Z) : Prop := isfinite x = true /\ near k (val x) a b.

(** Zero, or large enough for a product or a quotient to be normal: a fraction from
    [2^-399]; and small enough for its double to be finite. *)
Definition sizable (a b : Z) : Prop := a = 0 \/ 2 ^ 675 * b <= a.
Definition finite_size (a b : Z) : Prop := 2 * a < 2 ^ 2098 * b.

Lemma near_zero (k : nat) (v b : Z) : near k v 0 b -> v = 0.
Proof.
  intros (Hb & H1 & H2). pose proof (power_pos ulps k ltac:(pose proof ulps_pos; lia)). rewrite !Z.mul_0_l in *.
  assert (v * (b * ulps ^ Z.of_nat k) = 0) by lia. nia.
Qed.

Lemma near_lower (k : nat) (v a b : Z) : 0 <= a -> 2 * Z.of_nat k <= 2 ^ 49 -> near k v a b -> a <= 2 * (v * b).
Proof.
  intros Ha Hk H. assert (Hk' : 2 * Z.of_nat k <= 2 ^ 50) by (change (2 ^ 50) with (2 * 2 ^ 49); lia).
  pose proof (near_error k v a b Ha Hk' H) as He. assert (Z.of_nat k * a * 2 <= 2 ^ 49 * a).
  { replace (Z.of_nat k * a * 2) with ((2 * Z.of_nat k) * a) by ring. apply Z.mul_le_mono_nonneg_r; lia. }
  pose proof (Z.abs_nonneg (v * b - a)). assert (E : 2 ^ 49 = 562949953421312) by reflexivity. rewrite E in *. lia.
Qed.

Lemma sizable_val (k : nat) (x : double) (a b : Z) : 2 * Z.of_nat k <= 2 ^ 49 -> 0 <= a -> approx k x a b -> sizable a b ->
  val x = 0 \/ 2 ^ 674 <= val x.
Proof.
  intros Hk Ha [_ H] [->|Hs]; [left; apply (near_zero _ _ _ H)|right].
  pose proof (near_lower _ _ _ _ Ha Hk H) as Hl. destruct H as [Hb _]. replace (2 ^ 675) with (2 * 2 ^ 674) in Hs by (rewrite <- (pow2_add 1) by lia; reflexivity). nia.
Qed.

(** What is finite after the rounding. *)
Lemma rounded_approx (k : nat) (x : double) (n a b : Z) : 2 * Z.of_nat (S k) <= 2 ^ 50 -> 0 <= a -> finite_size a b ->
  near k n a b -> rounds_to (Prim2SF x) n -> approx (S k) x a b.
Proof.
  intros Hk Ha Hfin H Hr. pose proof (near_rnd k n a b Ha H) as Hn.
  destruct (rounds_to_cases x n Hr) as [(Hf & Ev & _)|(_ & _ & Hbig)]; [split; [exact Hf|rewrite Ev; exact Hn]|exfalso].
  pose proof (near_nonneg _ _ _ _ Ha Hn) as Hpos. pose proof (near_upper _ _ _ _ Ha Hk Hn) as Hup. destruct Hn as [Hb _].
  rewrite Z.abs_eq in Hbig by exact Hpos. unfold val_limit, finite_size in *. nia.
Qed.

Lemma approx_exact (x : double) : isfinite x = true -> approx 0 x (val x) 1.
Proof. intros Hf. split; [exact Hf|]. pose proof (near_exact (val x) 1 ltac:(lia)) as H. rewrite Z.mul_1_r in H. exact H. Qed.

Lemma approx_weaken (k j : nat) (x : double) (a b : Z) : (k <= j)%nat -> 0 <= a -> approx k x a b -> approx j x a b.
Proof. intros Hkj Ha [Hf H]. split; [exact Hf|]. apply (near_weaken k j); assumption. Qed.

Lemma approx_zero (k : nat) (x : double) (b : Z) : 0 < b -> isfinite x = true -> val x = 0 -> approx k x 0 b.
Proof.
  intros Hb Hf Hv. split; [exact Hf|]. rewrite Hv. apply (near_weaken 0 k); [lia|lia|].
  pose proof (near_exact 0 b Hb) as H. rewrite Z.mul_0_l in H. exact H.
Qed.

Lemma approx_scale (k : nat) (x : double) (a b c : Z) : 0 < c -> approx k x (a * c) (b * c) <-> approx k x a b.
Proof. intros Hc. unfold approx. rewrite (near_scale k (val x) a b c Hc). reflexivity. Qed.

Lemma approx_nonneg (k : nat) (x : double) (a b : Z) : 0 <= a -> approx k x a b -> nonneg x.
Proof. intros Ha [Hf H]. split; [exact Hf|]. apply (near_nonneg k _ a b Ha H). Qed.

Lemma approx_add (k : nat) (x y : double) (a c b : Z) : 2 * Z.of_nat (S k) <= 2 ^ 50 -> 0 <= a -> 0 <= c -> finite_size (a + c) b ->
  approx k x a b -> approx k y c b -> approx (S k) (x + y)%float (a + c) b.
Proof.
  intros Hk Ha Hc Hfin [Hx H1] [Hy H2]. apply (rounded_approx k _ (val x + val y)); [exact Hk|lia|exact Hfin| |apply add_rounds; assumption].
  apply near_add; assumption.
Qed.

Lemma approx_mul (k j : nat) (x y : double) (a b c d : Z) : 2 * Z.of_nat (S (k + j)) <= 2 ^ 49 -> 0 <= a -> 0 <= c ->
  sizable a b -> sizable c d -> finite_size (a * c) (b * d * 2 ^ 1074) ->
  approx k x a b -> approx j y c d -> approx (S (k + j)) (x * y)%float (a * c) (b * d * 2 ^ 1074).
Proof.
  intros Hk Ha Hc Hsa Hsc Hfin Hx Hy. pose proof one_pos as H1.
  pose proof (sizable_val k x a b ltac:(lia) Ha Hx Hsa) as Hvx. pose proof (sizable_val j y c d ltac:(lia) Hc Hy Hsc) as Hvy.
  destruct Hx as [Hxf Hx], Hy as [Hyf Hy]. pose proof (near_mul k j _ _ _ _ _ _ Ha Hc Hx Hy) as Hm.
  assert (Hbd : 0 < b * d) by apply Hm.
  assert (Hz : val x = 0 \/ val y = 0 -> approx (S (k + j)) (x * y)%float (a * c) (b * d * 2 ^ 1074)).
  { intros Hz. destruct (mul_zero x y Hxf Hyf Hz) as [Hf Hv]. split; [exact Hf|]. rewrite Hv. apply (near_step _ 0); [lia|cbn; lia|].
    apply (proj1 (near_shift _ 0 _ _ (2 ^ 1074) H1)).
    replace (0 * 2 ^ 1074) with (val x * val y) by (destruct Hz as [-> | ->]; ring). exact Hm. }
  destruct Hvx as [Hvx|Hvx]; [auto|]. destruct Hvy as [Hvy|Hvy]; [auto|].
  destruct (mul_rounds_small x y Hxf Hyf Hvx Hvy) as (n & Hr & En).
  assert (E50 : 2 ^ 50 = 2 * 2 ^ 49) by reflexivity.
  apply (rounded_approx (k + j) _ n); [lia|nia|exact Hfin| |exact Hr].
  rewrite <- En in Hm. apply (proj1 (near_shift _ n _ _ (2 ^ 1074) H1)). exact Hm.
Qed.

Lemma approx_div (k j : nat) (x y : double) (a b c d : Z) : 2 * Z.of_nat (S (S (k + (j + j)))) <= 2 ^ 49 -> 0 <= a -> 0 < c ->
  sizable a b -> sizable c d -> c <= 2 ^ 1137 * d -> finite_size (a * d * 2 ^ 1074) (b * c) ->
  approx k x a b -> approx j y c d -> approx (S (S (k + (j + j)))) (x / y)%float (a * d * 2 ^ 1074) (b * c).
Proof.
  intros Hk Ha Hc Hsa Hsc Hmax Hfin Hx Hy. pose proof one_pos as H1. assert (E50 : 2 ^ 50 = 2 * 2 ^ 49) by reflexivity.
  pose proof (sizable_val k x a b ltac:(lia) Ha Hx Hsa) as Hvx. pose proof (sizable_val j y c d ltac:(lia) ltac:(lia) Hy Hsc) as Hvy.
  destruct Hx as [Hxf Hx], Hy as [Hyf Hy].
  pose proof (near_lower j _ c d ltac:(lia) ltac:(lia) Hy) as Hlow. pose proof (near_upper j _ c d ltac:(lia) ltac:(lia) Hy) as Hup.
  assert (Hb : 0 < b) by apply Hx. assert (Hd : 0 < d) by apply Hy.
  assert (Hy0 : 0 < val y) by (destruct Hvy as [E|]; [rewrite E in Hlow; lia|pose proof (pow2_pos 674); lia]).
  assert (Hy1 : val y <= 2 ^ 1138) by (replace (2 ^ 1138) with (2 * 2 ^ 1137) by (rewrite <- (pow2_add 1) by lia; reflexivity); nia).
  assert (Hx' : near k (val x * 2 ^ 1074) (a * 2 ^ 1074) b).
  { apply (proj2 (near_shift k (val x) _ b _ H1)), (proj2 (near_scale k (val x) a b _ H1)), Hx. }
  destruct Hvx as [Hvx|Hvx].
  - destruct (div_zero x y Hxf Hyf Hvx Hy0) as [Hf Hv]. split; [exact Hf|]. rewrite Hv. apply (near_step _ 0); [lia|cbn; lia|].
    replace (a * d * 2 ^ 1074) with (a * 2 ^ 1074 * d) by ring. apply (near_div k j (val x * 2 ^ 1074) (val y)); try assumption; try nia.
  - destruct (div_rounds_small x y Hxf Hyf) as (n & Hr & Hn & He); [pose proof (pow2_le 274 674); lia|lia|].
    apply (rounded_approx (S (k + (j + j))) _ n); [lia|nia|exact Hfin| |exact Hr].
    replace (a * d * 2 ^ 1074) with (a * 2 ^ 1074 * d) by ring. apply (near_div k j (val x * 2 ^ 1074) (val y)); try assumption; try nia.
Qed.
