(* ===== verification/Util.v ===== *)
(** * Serialization utilities (util.hpp)

    The FNV-1a digest and its hexadecimal rendering, the CRC-32 of the wire and
    persistence formats, the JSON writer, and the decimal renderings of the
    C++ standard library ([std::to_string]) that the program uses. *)
From Stdlib Require Import Ascii.
From S2P Require Import Prelude Rounding Binary64.
From stdpp Require Import pretty.
Local Open Scope Z_scope.

(** ** Bytes of a [std::string] *)
Definition byte_of_char (c : Ascii.ascii) : Z := Z.of_N (Ascii.N_of_ascii c).
Definition char_of_byte (b : Z) : Ascii.ascii := Ascii.ascii_of_N (Z.to_N b).
Definition bytes_of_string (s : string) : list Z := byte_of_char <$> String.list_ascii_of_string s.
Definition string_of_bytes (l : list Z) : string := String.string_of_list_ascii (char_of_byte <$> l).

Lemma char_of_byte_of_char (c : Ascii.ascii) : char_of_byte (byte_of_char c) = c.
Proof. unfold char_of_byte, byte_of_char. rewrite N2Z.id. apply Ascii.ascii_N_embedding. Qed.

Lemma byte_of_char_range (c : Ascii.ascii) : in_u 8 (byte_of_char c).
Proof. unfold in_u, byte_of_char. pose proof (Ascii.N_ascii_bounded c). lia. Qed.

Lemma byte_of_char_of_byte (b : Z) : in_u 8 b -> byte_of_char (char_of_byte b) = b.
Proof.
  unfold in_u. intros H. unfold char_of_byte, byte_of_char.
  rewrite Ascii.N_ascii_embedding by lia. lia.
Qed.

Lemma string_of_bytes_of_string (s : string) : string_of_bytes (bytes_of_string s) = s.
Proof.
  unfold string_of_bytes, bytes_of_string. rewrite <- list_fmap_compose.
  rewrite (list_fmap_ext _ id), list_fmap_id.
  - apply String.string_of_list_ascii_of_string.
  - intros i c _. apply char_of_byte_of_char.
Qed.

Lemma bytes_of_string_range (s : string) : Forall (in_u 8) (bytes_of_string s).
Proof.
  unfold bytes_of_string. induction (String.list_ascii_of_string s) as [|c l IH]; constructor; auto.
  apply byte_of_char_range.
Qed.

(** ** FNV-1a *)
Definition fnv_offset : Z := 1469598103934665603.
Definition fnv_prime : Z := 1099511628211.

Definition fnv1a_64 (s : string) : Z :=
  foldl (fun h b => u64 (Z.lxor h b * fnv_prime)) fnv_offset (bytes_of_string s).

(** ** Hexadecimal *)
Definition hex_digit (n : Z) : Ascii.ascii :=
  match n with
  | 0 => "0" | 1 => "1" | 2 => "2" | 3 => "3" | 4 => "4" | 5 => "5" | 6 => "6" | 7 => "7"
  | 8 => "8" | 9 => "9" | 10 => "a" | 11 => "b" | 12 => "c" | 13 => "d" | 14 => "e" | _ => "f"
  end%char.

(** The loop fills the 16 characters from the last to the first. *)
Fixpoint to_hex_loop (n : nat) (v : Z) (out : string) : string :=
  match n with
  | O => out
  | S n => to_hex_loop n (Z.shiftr v 4) (String (hex_digit (Z.land v 15)) out)
  end.
Definition to_hex (v : Z) : string := to_hex_loop 16 v EmptyString.

Definition digest_hex (s : string) : string := to_hex (fnv1a_64 s).

(** ** CRC-32 (IEEE 802.3, reflected) *)
Definition crc_poly : Z := 0xEDB88320.

(** One bit: [(crc >> 1) ^ (0xEDB88320 & (0 - (crc & 1)))]. *)
Definition crc32_bit (crc : Z) : Z :=
  Z.lxor (Z.shiftr crc 1) (Z.land crc_poly (u32 (0 - Z.land crc 1))).

Fixpoint crc32_bits (k : nat) (crc : Z) : Z :=
  match k with O => crc | S k => crc32_bits k (crc32_bit crc) end.

Definition crc32_update (crc : Z) (data : list Z) : Z :=
  foldl (fun crc b => crc32_bits 8 (Z.lxor crc b)) crc data.

Definition crc32 (data : list Z) : Z := Z.lxor (crc32_update 0xFFFFFFFF data) 0xFFFFFFFF.

(** ** [std::to_string] *)
Definition to_string_int (z : Z) : string := pretty z.

Fixpoint zeros (n : nat) : string :=
  match n with O => EmptyString | S n => String "0" (zeros n) end.

Definition pad_left (w : nat) (s : string) : string := (zeros (w - String.length s) +:+ s)%string.

(** The conversion [%.<k>f], for [k > 0]: [k] decimals of the exact binary value, rounded
    to nearest, ties to even. *)
Definition fixed (k : nat) (m e : Z) : string :=
  let p := 10 ^ Z.of_nat k in
  let scaled := if 0 <=? e then m * 2 ^ e * p else rne (m * p) (- e) in
  (pretty (scaled / p) +:+ "." +:+ pad_left k (pretty (scaled mod p)))%string.

Definition printf_f (k : nat) (x : double) : string :=
  match Prim2SF x with
  | S754_zero s => ((if s then "-0." else "0.") +:+ zeros k)%string
  | S754_infinity s => if s then "-inf" else "inf"
  | S754_nan => "nan"
  | S754_finite s m e => ((if s then "-" else EmptyString) +:+ fixed k (Z.pos m) e)%string
  end.

(** [std::to_string] is [%f], with six decimals. *)

Definition to_string_double (x : double) : string := printf_f 6 x.

(** ** JSON *)
Definition dquote : Ascii.ascii := Ascii.ascii_of_nat 34.
Definition quoted (s : string) : string := (String dquote s +:+ String dquote EmptyString)%string.

(** The escapes the source writes: the literals for a double quote and for a
    backslash are one character each, so neither is escaped. *)
Definition json_escape_char (c : Ascii.ascii) : string :=
  let n := byte_of_char c in
  if n =? 34 then String dquote EmptyString
  else if n =? 92 then "\"
  else if n =? 10 then "\n"
  else if n =? 13 then "\r"
  else if n =? 9 then "\t"
  else if n <? 32 then
    ("\u00" +:+ String (hex_digit (Z.shiftr n 4)) (String (hex_digit (Z.land n 15)) EmptyString))%string
  else String c EmptyString.

Fixpoint json_escape (s : string) : string :=
  match s with
  | EmptyString => EmptyString
  | String c s => (json_escape_char c +:+ json_escape s)%string
  end.

(** [JsonWriter]: the text written so far, whether the next element is the first
    of its container, and whether a [raw_key] awaits its value. *)
Record JsonWriter := mkJsonWriter { buf : string; first : bool; value_pending : bool }.

Definition json_init : JsonWriter := mkJsonWriter EmptyString true false.
Definition json_open (c : Ascii.ascii) (w : JsonWriter) : JsonWriter :=
  mkJsonWriter (buf w +:+ String c EmptyString) true false.
Definition json_close (c : Ascii.ascii) (w : JsonWriter) : JsonWriter :=
  mkJsonWriter (buf w +:+ String c EmptyString) (first w) false.
Definition begin_object : JsonWriter -> JsonWriter := json_open "{".
Definition end_object : JsonWriter -> JsonWriter := json_close "}".
Definition begin_array : JsonWriter -> JsonWriter := json_open "[".
Definition end_array : JsonWriter -> JsonWriter := json_close "]".
Definition json_comma (w : JsonWriter) : JsonWriter :=
  mkJsonWriter (if first w then buf w else buf w +:+ ",")%string false (value_pending w).
Definition json_append (s : string) (w : JsonWriter) : JsonWriter :=
  mkJsonWriter (buf w +:+ s) (first w) (value_pending w).
Definition append_string (s : string) : JsonWriter -> JsonWriter := json_append (quoted (json_escape s)).

(** The argument types [append_value] is used at. *)
Inductive JsonValue := JString (s : string) | JInt (z : Z) | JBool (b : bool).
Definition append_value (v : JsonValue) (w : JsonWriter) : JsonWriter :=
  match v with
  | JString s => append_string s w
  | JInt z => json_append (to_string_int z) w
  | JBool b => json_append (if b then "true" else "false") w
  end.

Definition json_key (k : string) (v : JsonValue) (w : JsonWriter) : JsonWriter :=
  append_value v (json_append ":" (append_string k (json_comma w))).
Definition json_value (v : JsonValue) (w : JsonWriter) : JsonWriter := append_value v (json_comma w).
Definition raw_key (k : string) (w : JsonWriter) : JsonWriter :=
  let w := json_append ":" (append_string k (json_comma w)) in
  mkJsonWriter (buf w) (first w) true.
Definition raw_value (raw : string) (w : JsonWriter) : JsonWriter :=
  if value_pending w then mkJsonWriter (buf w +:+ raw) (first w) false
  else json_append raw (json_comma w).
