(* ===== verification/Units.v ===== *)
(** * Typed physical quantities and durations (units.hpp)

    A [Quantity Tag] is a double whose construction validates it: the class
    invariant [valid_quantity] is what every constructor establishes.  A
    [Duration] is a nonnegative number of nanoseconds of at most [kMaxNs]. *)
From S2P Require Import Prelude Rounding Binary64 Util.
Local Open Scope Z_scope.

(** ** Dimensions and units *)
Inductive Dimension := Power | Energy | Temperature | Time | Frequency | UtilizationDim | Efficiency.

#[export] Instance Dimension_eq_dec : EqDecision Dimension.
Proof. solve_decision. Defined.

Inductive WattsTag : Set :=.
Inductive MilliwattsTag : Set :=.
Inductive JoulesTag : Set :=.
Inductive MillijoulesTag : Set :=.
Inductive CelsiusTag : Set :=.
Inductive MillisecondsTag : Set :=.
Inductive SecondsTag : Set :=.
Inductive UtilizationTag : Set :=.
Inductive FrequencyMhzTag : Set :=.
Inductive MemoryFrequencyMhzTag : Set :=.
Inductive EnergyPerTokenTag : Set :=.
Inductive EnergyPerRequestTag : Set :=.
Inductive PowerEfficiencyTag : Set :=.

Class UnitTraits (Tag : Set) := {
  dim : Dimension;
  scale_to_base : double;
  unit_name : string }.
Arguments dim Tag {_}.
Arguments scale_to_base Tag {_}.
Arguments unit_name Tag {_}.

#[local] Set Warnings "-inexact-float".
#[export] Instance Watts_traits : UnitTraits WattsTag := {| dim := Power; scale_to_base := 1; unit_name := "W" |}.
#[export] Instance Milliwatts_traits : UnitTraits MilliwattsTag := {| dim := Power; scale_to_base := 0.001; unit_name := "mW" |}.
#[export] Instance Joules_traits : UnitTraits JoulesTag := {| dim := Energy; scale_to_base := 1; unit_name := "J" |}.
#[export] Instance Millijoules_traits : UnitTraits MillijoulesTag := {| dim := Energy; scale_to_base := 0.001; unit_name := "mJ" |}.
#[export] Instance Celsius_traits : UnitTraits CelsiusTag := {| dim := Temperature; scale_to_base := 1; unit_name := "C" |}.
#[export] Instance Milliseconds_traits : UnitTraits MillisecondsTag := {| dim := Time; scale_to_base := 0.001; unit_name := "ms" |}.
#[export] Instance Seconds_traits : UnitTraits SecondsTag := {| dim := Time; scale_to_base := 1; unit_name := "s" |}.
#[export] Instance Utilization_traits : UnitTraits UtilizationTag := {| dim := UtilizationDim; scale_to_base := 1; unit_name := "frac" |}.
#[export] Instance FrequencyMhz_traits : UnitTraits FrequencyMhzTag := {| dim := Frequency; scale_to_base := 1.0e6; unit_name := "MHz" |}.
#[export] Instance MemoryFrequencyMhz_traits : UnitTraits MemoryFrequencyMhzTag := {| dim := Frequency; scale_to_base := 1.0e6; unit_name := "MHz" |}.
#[export] Instance EnergyPerToken_traits : UnitTraits EnergyPerTokenTag := {| dim := Efficiency; scale_to_base := 1; unit_name := "J/token" |}.
#[export] Instance EnergyPerRequest_traits : UnitTraits EnergyPerRequestTag := {| dim := Efficiency; scale_to_base := 1; unit_name := "J/req" |}.
#[export] Instance PowerEfficiency_traits : UnitTraits PowerEfficiencyTag := {| dim := Efficiency; scale_to_base := 1; unit_name := "work/W" |}.

(** ** Quantities *)
Record Quantity (Tag : Set) := mkQ { value : double }.
Arguments mkQ {Tag} _.
Arguments value {Tag} _.

Abbreviation Watts := (Quantity WattsTag).
Abbreviation Milliwatts := (Quantity MilliwattsTag).
Abbreviation Joules := (Quantity JoulesTag).
Abbreviation Celsius := (Quantity CelsiusTag).
Abbreviation Utilization := (Quantity UtilizationTag).
Abbreviation FrequencyMhz := (Quantity FrequencyMhzTag).

Section Quantities.
Context {Tag : Set} `{UnitTraits Tag}.

Definition reject_non_finite (v : double) (unit : string) : outcome () :=
  if negb (isfinite v)
  then Throw (invalid_argument ("pg: " +:+ unit +:+ " quantity must be finite (got NaN/Inf)"))
  else Ret tt.

Definition validate_unit (v : double) : outcome () :=
  let! _ := reject_non_finite v (unit_name Tag) in
  match dim Tag with
  | UtilizationDim =>
      if ((v <? 0) || (1 <? v))%float
      then Throw (invalid_argument "pg: utilization must be in [0,1]") else Ret tt
  | Temperature =>
      if (v <? -273.15)%float
      then Throw (invalid_argument "pg: temperature below absolute zero") else Ret tt
  | Power | Energy | Efficiency =>
      if (v <? 0)%float
      then Throw (invalid_argument ("pg: " +:+ unit_name Tag +:+ " must not be negative")) else Ret tt
  | Time | Frequency => Ret tt
  end.

(** [explicit Quantity(double v)] *)
Definition quantity (v : double) : outcome (Quantity Tag) :=
  let! _ := validate_unit v in Ret (mkQ v).

(** The class invariant. *)
Definition valid_quantity (q : Quantity Tag) : Prop := validate_unit (value q) = Ret tt.

Definition as_base (q : Quantity Tag) : double := (value q * scale_to_base Tag)%float.

(** The arithmetic operators construct their result, and are [noexcept]. *)
Definition q_add (a b : Quantity Tag) : outcome (Quantity Tag) := noexcept (quantity (value a + value b)).
Definition q_sub (a b : Quantity Tag) : outcome (Quantity Tag) := noexcept (quantity (value a - value b)).
Definition q_scale (a : Quantity Tag) (f : double) : outcome (Quantity Tag) := noexcept (quantity (value a * f)).
Definition q_div (a : Quantity Tag) (f : double) : outcome (Quantity Tag) := noexcept (quantity (value a / f)).

(** [+=] and [-=] assign the member without validating it. *)
Definition q_add_assign (a b : Quantity Tag) : Quantity Tag := mkQ (value a + value b).
Definition q_sub_assign (a b : Quantity Tag) : Quantity Tag := mkQ (value a - value b).

Definition is_zero (q : Quantity Tag) : bool := (value q =? 0)%float.
Definition is_positive (q : Quantity Tag) : bool := (0 <? value q)%float.
Definition is_non_negative (q : Quantity Tag) : bool := (0 <=? value q)%float.

Definition q_eqb (a b : Quantity Tag) : bool := (value a =? value b)%float.

(** [clamped] is [noexcept] and constructs its result through the validating
    constructor. *)
Definition clamped_checked (v : double) : outcome (Quantity Tag) := noexcept (quantity (clamp v)).
Definition clamped (v : double) : Quantity Tag := mkQ (clamp v).

Definition q_to_string (q : Quantity Tag) : string := to_string_double (value q) +:+ unit_name Tag.
End Quantities.
Arguments quantity {Tag _} v.
Arguments valid_quantity {Tag _} q.

(** [to<Other>()]: through the base unit of the dimension, [noexcept]. *)
Definition q_to {Tag : Set} `{UnitTraits Tag} (Other : Set) `{UnitTraits Other} (q : Quantity Tag)
  : outcome (Quantity Other) :=
  noexcept (quantity (as_base q / scale_to_base Other)).

Definition W0 : Watts := mkQ 0.
Definition J0 : Joules := mkQ 0.

(** *** Facts about construction *)
Lemma fltb_nonneg (v : double) : isfinite v = true -> (v <? 0)%float = false -> nonneg v.
Proof.
  intros Hf Hlt. split; [assumption|]. rewrite ltb_val in Hlt by auto.
  rewrite val_zero in Hlt. lia.
Qed.

Lemma nonneg_fltb (v : double) : nonneg v -> (v <? 0)%float = false.
Proof. intros [Hf Hv]. rewrite ltb_val by auto. rewrite val_zero. lia. Qed.

(** Tags whose quantities are the nonnegative finite doubles. *)
Definition nonneg_dim (Tag : Set) `{UnitTraits Tag} : Prop :=
  dim Tag = Power \/ dim Tag = Energy \/ dim Tag = Efficiency.

Lemma valid_nonneg {Tag : Set} `{UnitTraits Tag} (q : Quantity Tag) :
  nonneg_dim Tag -> valid_quantity q <-> nonneg (value q).
Proof.
  intros Hd. unfold valid_quantity, validate_unit, reject_non_finite.
  destruct (isfinite (value q)) eqn:Hf; simpl.
  - assert (Hlt : (value q <? 0)%float = false <-> nonneg (value q))
      by (split; [apply fltb_nonneg; assumption|apply nonneg_fltb]).
    destruct Hd as [-> | [-> | ->]]; destruct (value q <? 0)%float; intuition discriminate.
  - split; [discriminate|]. intros [Hf' _]. congruence.
Qed.

Lemma quantity_valid {Tag : Set} `{UnitTraits Tag} (v : double) (q : Quantity Tag) :
  quantity v = Ret q -> value q = v /\ valid_quantity q.
Proof.
  unfold quantity. intros Hq. apply obind_Ret in Hq as ([] & Hv & [= <-]). auto.
Qed.

Lemma valid_quantity_make {Tag : Set} `{UnitTraits Tag} (q : Quantity Tag) :
  valid_quantity q -> quantity (value q) = Ret q.
Proof. unfold valid_quantity, quantity. intros ->. destruct q. reflexivity. Qed.

(** For power, energy and efficiency, [clamped] never terminates the program. *)
Lemma clamped_checked_total {Tag : Set} `{UnitTraits Tag} (v : double) :
  nonneg_dim Tag -> clamped_checked v = Ret (clamped (Tag := Tag) v).
Proof.
  intros Hd. unfold clamped_checked. change (clamp v) with (value (clamped (Tag := Tag) v)).
  rewrite valid_quantity_make; [reflexivity|]. apply valid_nonneg; [assumption|]. apply clamp_nonneg.
Qed.

Lemma nonneg_Watts : nonneg_dim WattsTag.
Proof. left. reflexivity. Qed.

Lemma nonneg_Joules : nonneg_dim JoulesTag.
Proof. right. left. reflexivity. Qed.
#[export] Hint Resolve nonneg_Watts nonneg_Joules : pg.

(** ** Durations *)
Record Duration := mkDuration { ns : Z }.

Definition kMaxNs : Z := 4611686018427387903.

Definition duration_validate (n : Z) : outcome () :=
  if n <? 0 then Throw (invalid_argument "pg: duration must be non-negative")
  else if kMaxNs <? n then Throw (overflow_error "pg::Duration overflow")
  else Ret tt.

(** [explicit Duration(std::int64_t ns)], also [Duration::nanoseconds]. *)
Definition duration (n : Z) : outcome Duration :=
  let! _ := duration_validate n in Ret (mkDuration n).

Definition check_mul (a b : Z) : outcome Z :=
  if (a =? 0) || (b =? 0) then Ret 0
  else if (0 <? a) && (0 <? b) && (Z.quot kMaxNs b <? a) then Throw (overflow_error "pg::Duration overflow")
  else if a <? 0 then Throw (invalid_argument "pg: negative duration")
  else i64_checked (a * b).

Definition duration_microseconds (us : Z) : outcome Duration := let! n := check_mul us 1000 in duration n.
Definition duration_milliseconds (ms : Z) : outcome Duration := let! n := check_mul ms 1000000 in duration n.
Definition duration_seconds (s : Z) : outcome Duration := let! n := check_mul s 1000000000 in duration n.

Definition seconds_f (d : Duration) : double := (double_of_Z (ns d) / 1.0e9)%float.

Definition duration_add (a b : Duration) : outcome Duration :=
  let! n := i64_checked (ns a + ns b) in duration n.
Definition duration_sub (a b : Duration) : outcome Duration :=
  let! n := i64_checked (ns a - ns b) in duration n.
(** The conversion of the scaled value back to an integer truncates. *)
Definition duration_scale (a : Duration) (f : double) : outcome Duration :=
  match truncate (double_of_Z (ns a) * f) with
  | Some n => let! n := i64_checked n in duration n
  | None => Undefined
  end.

Definition duration_ltb (a b : Duration) : bool := ns a <? ns b.
Definition duration_leb (a b : Duration) : bool := ns a <=? ns b.
Definition duration_is_zero (a : Duration) : bool := ns a =? 0.
Definition duration_zero : Duration := mkDuration 0.

Definition duration_to_string (d : Duration) : string :=
  to_string_double (double_of_Z (ns d) / 1.0e9) +:+ "s".

Definition valid_duration (d : Duration) : Prop := 0 <= ns d <= kMaxNs.

Lemma duration_spec (n : Z) (d : Duration) :
  duration n = Ret d <-> d = mkDuration n /\ 0 <= n <= kMaxNs.
Proof.
  unfold duration, duration_validate.
  destruct (Z.ltb_spec n 0); [|destruct (Z.ltb_spec kMaxNs n)]; simpl;
    (split; [intros [=]|intros [-> ?]]); subst; auto; try lia.
Qed.

Lemma duration_ok (n : Z) : 0 <= n <= kMaxNs -> duration n = Ret (mkDuration n).
Proof. intros Hn. apply duration_spec. auto. Qed.

Lemma duration_outcomes (n : Z) :
  (exists d, duration n = Ret d) \/ (exists e, duration n = Throw e).
Proof.
  unfold duration, duration_validate.
  destruct (n <? 0); [|destruct (kMaxNs <? n)]; simpl; eauto.
Qed.
