(* ===== verification/UnitsSpec.v ===== *)
(** * Quantities keep their type (units.hpp)

    Expressions over quantities, as a program composes them from the constructors and
    operators of [Quantity]: whatever they are, a value that comes out satisfies the rules
    of its dimension.  Durations are exact or refused. *)
From S2P Require Import Prelude Rounding Binary64 Util Units.
Local Open Scope Z_scope.
#[local] Set Warnings "-inexact-float".

(** ** Expressions *)

(** The conversion is well-formed for units of one dimension only: the [static_assert] of
    [to]. *)
Inductive expr : forall Tag : Set, UnitTraits Tag -> Type :=
| Make {Tag : Set} {U : UnitTraits Tag} (v : double) : expr Tag U
| Add {Tag : Set} {U : UnitTraits Tag} (a b : expr Tag U) : expr Tag U
| Sub {Tag : Set} {U : UnitTraits Tag} (a b : expr Tag U) : expr Tag U
| Scale {Tag : Set} {U : UnitTraits Tag} (a : expr Tag U) (f : double) : expr Tag U
| Div {Tag : Set} {U : UnitTraits Tag} (a : expr Tag U) (f : double) : expr Tag U
| Clamped {Tag : Set} {U : UnitTraits Tag} (v : double) : expr Tag U
| To {Tag Other : Set} {U : UnitTraits Tag} {V : UnitTraits Other} (same : dim Tag = dim Other) (a : expr Tag U) : expr Other V.

Fixpoint eval {Tag : Set} {U : UnitTraits Tag} (e : expr Tag U) : outcome (Quantity Tag) :=
  match e with
  | Make v => quantity v
  | Add a b => let! x := eval a in let! y := eval b in q_add x y
  | Sub a b => let! x := eval a in let! y := eval b in q_sub x y
  | Scale a f => let! x := eval a in q_scale x f
  | Div a f => let! x := eval a in q_div x f
  | Clamped v => clamped_checked v
  | @To _ Other _ _ _ a => let! x := eval a in q_to Other x
  end.

(** The same arithmetic on bare doubles. *)
Fixpoint raw {Tag : Set} {U : UnitTraits Tag} (e : expr Tag U) : double :=
  match e with
  | Make v => v
  | Add a b => (raw a + raw b)%float
  | Sub a b => (raw a - raw b)%float
  | Scale a f => (raw a * f)%float
  | Div a f => (raw a / f)%float
  | Clamped v => clamp v
  | @To Tag Other _ _ _ a => (raw a * scale_to_base Tag / scale_to_base Other)%float
  end.

(** The rules of the dimensions. *)
Definition obeys (d : Dimension) (v : double) : Prop :=
  isfinite v = true /\
  match d with
  | UtilizationDim => (v <? 0)%float = false /\ (1 <? v)%float = false
  | Temperature => (v <? -273.15)%float = false
  | Power | Energy | Efficiency => (v <? 0)%float = false
  | Time | Frequency => True
  end.

(** The expression and all its parts obey the rules of their dimensions. *)
Fixpoint obeyed {Tag : Set} {U : UnitTraits Tag} (e : expr Tag U) : Prop :=
  obeys (dim Tag) (raw e) /\
  match e with
  | Add a b | Sub a b => obeyed a /\ obeyed b
  | Scale a _ | Div a _ | To _ a => obeyed a
  | Make _ | Clamped _ => True
  end.

(** Some constructor of the expression has an argument that breaks the rules. *)
Fixpoint rejected {Tag : Set} {U : UnitTraits Tag} (e : expr Tag U) : Prop :=
  match e with
  | @Make Tag _ v => ~ obeys (dim Tag) v
  | Add a b | Sub a b => rejected a \/ rejected b
  | Scale a _ | Div a _ | To _ a => rejected a
  | Clamped _ => False
  end.

(** Some operator, between operands that obey the rules, has a result that breaks them. *)
Fixpoint broken {Tag : Set} {U : UnitTraits Tag} (e : expr Tag U) : Prop :=
  match e with
  | Make _ => False
  | Add a b | Sub a b => broken a \/ broken b \/ (obeyed a /\ obeyed b /\ ~ obeys (dim Tag) (raw e))
  | Scale a _ | Div a _ | To _ a => broken a \/ (obeyed a /\ ~ obeys (dim Tag) (raw e))
  | Clamped _ => ~ obeys (dim Tag) (raw e)
  end.

Lemma valid_obeys {Tag : Set} {U : UnitTraits Tag} (q : Quantity Tag) : valid_quantity q <-> obeys (dim Tag) (value q).
Proof.
  unfold valid_quantity, validate_unit, reject_non_finite, obeys. destruct (isfinite (value q)); cbn [negb obind].
  2: { split; [discriminate|intros [H _]; discriminate]. }
  destruct (dim Tag); repeat destruct (_ <? _)%float; cbn; intuition discriminate.
Qed.

(** [quantity] returns a value that obeys, and throws for any other. *)
Lemma quantity_outcomes {Tag : Set} {U : UnitTraits Tag} (v : double) :
  (obeys (dim Tag) v /\ quantity (Tag := Tag) v = Ret (mkQ v)) \/
  (~ obeys (dim Tag) v /\ exists x, quantity (Tag := Tag) v = Throw x).
Proof.
  unfold quantity, validate_unit, reject_non_finite, obeys. destruct (isfinite v); cbn [negb obind].
  2: { right. split; [intros [H _]; discriminate|eauto]. }
  destruct (dim Tag); repeat destruct (_ <? _)%float; cbn;
    first [left; repeat split; reflexivity|right; split; [intuition discriminate|eauto]].
Qed.

Lemma obeyed_obeys {Tag : Set} {U : UnitTraits Tag} (e : expr Tag U) : obeyed e -> obeys (dim Tag) (raw e).
Proof. destruct e; intros [H _]; exact H. Qed.

Lemma obeyed_unbroken {Tag : Set} {U : UnitTraits Tag} (e : expr Tag U) : obeyed e -> ~ rejected e /\ ~ broken e.
Proof. induction e; cbn [obeyed rejected broken]; tauto. Qed.

(** What evaluating [e] comes to. *)
Definition sound {Tag : Set} {U : UnitTraits Tag} (e : expr Tag U) : Prop :=
  match eval e with
  | Ret q => value q = raw e /\ obeyed e
  | Throw _ => rejected e
  | Terminate => broken e
  | Undefined => False
  end.

Lemma sound_unary {Tag Other : Set} {U : UnitTraits Tag} {V : UnitTraits Other} (e : expr Other V) (a : expr Tag U)
    (k : Quantity Tag -> double) :
  eval e = (let! x := eval a in noexcept (quantity (k x))) -> (forall x, value x = raw a -> k x = raw e) ->
  (obeyed e <-> obeys (dim Other) (raw e) /\ obeyed a) -> (rejected e <-> rejected a) ->
  (broken e <-> broken a \/ (obeyed a /\ ~ obeys (dim Other) (raw e))) -> sound a -> sound e.
Proof.
  unfold sound. intros -> Hk Ho Hr Hb Ha. destruct (eval a) as [x|t| |]; cbn; try tauto. destruct Ha as [Hx Ha].
  rewrite (Hk x Hx). destruct (quantity_outcomes (Tag := Other) (raw e)) as [[Hv E]|[Hv [t E]]]; rewrite E; cbn; tauto.
Qed.

Lemma sound_binary {Tag : Set} {U : UnitTraits Tag} (e a b : expr Tag U) (k : Quantity Tag -> Quantity Tag -> double) :
  eval e = (let! x := eval a in let! y := eval b in noexcept (quantity (k x y))) ->
  (forall x y, value x = raw a -> value y = raw b -> k x y = raw e) ->
  (obeyed e <-> obeys (dim Tag) (raw e) /\ obeyed a /\ obeyed b) -> (rejected e <-> rejected a \/ rejected b) ->
  (broken e <-> broken a \/ broken b \/ (obeyed a /\ obeyed b /\ ~ obeys (dim Tag) (raw e))) -> sound a -> sound b -> sound e.
Proof.
  unfold sound. intros -> Hk Ho Hr Hb Ha Hb'. destruct (eval a) as [x|t| |]; cbn; try tauto. destruct Ha as [Hx Ha].
  destruct (eval b) as [y|t| |]; cbn; try tauto. destruct Hb' as [Hy Hb'].
  rewrite (Hk x y Hx Hy). destruct (quantity_outcomes (Tag := Tag) (raw e)) as [[Hv E]|[Hv [t E]]]; rewrite E; cbn; tauto.
Qed.

Lemma expression_sound {Tag : Set} {U : UnitTraits Tag} (e : expr Tag U) : sound e.
Proof.
  induction e as [Tag U v|Tag U a IHa b IHb|Tag U a IHa b IHb|Tag U a IHa f|Tag U a IHa f|Tag U v|Tag Other U V same a IHa].
  - unfold sound. cbn [eval raw rejected obeyed].
    destruct (quantity_outcomes (Tag := Tag) v) as [[Hv E]|[Hv [x E]]]; rewrite E; auto.
  - apply (sound_binary _ a b (fun x y => (value x + value y)%float)); cbn; try tauto. intros x y -> ->. reflexivity.
  - apply (sound_binary _ a b (fun x y => (value x - value y)%float)); cbn; try tauto. intros x y -> ->. reflexivity.
  - apply (sound_unary _ a (fun x => (value x * f)%float)); cbn; try tauto. intros x ->. reflexivity.
  - apply (sound_unary _ a (fun x => (value x / f)%float)); cbn; try tauto. intros x ->. reflexivity.
  - unfold sound. cbn [eval raw rejected obeyed broken]. unfold clamped_checked.
    destruct (quantity_outcomes (Tag := Tag) (clamp v)) as [[Hv E]|[Hv [x E]]]; rewrite E; cbn; auto.
  - apply (sound_unary _ a (fun x => (as_base x / scale_to_base Other)%float)); unfold as_base; cbn; try tauto. intros x ->. reflexivity.
Qed.

(** C32: quantities keep their type.  An expression built from the constructors, the
    arithmetic operators, [clamped] and the conversions of [Quantity], in any units, comes
    to a quantity exactly when every constructor argument and every result of an operator
    in it obeys the rules of its dimension; the quantity is then the value of the same
    arithmetic on bare doubles.  Otherwise it comes to the exception of a constructor, and
    then some constructor's argument breaks the rules; or to the end of the program, and
    then some operator, between operands that obey the rules, has a result that breaks
    them.  It is never undefined. *)
Theorem quantities_keep_their_type (Tag : Set) (U : UnitTraits Tag) (e : expr Tag U) :
  (obeyed e <-> exists q, eval e = Ret q) /\
  match eval e with
  | Ret q => value q = raw e /\ obeys (dim Tag) (value q)
  | Throw _ => rejected e
  | Terminate => broken e
  | Undefined => False
  end.
Proof.
  pose proof (expression_sound e) as Hs. unfold sound in Hs. split.
  - split; [intros Ho; destruct (obeyed_unbroken e Ho); destruct (eval e); [eauto|contradiction..]|].
    intros [q E]. rewrite E in Hs. apply Hs.
  - destruct (eval e) as [q|x| |]; try exact Hs. destruct Hs as [Hv Hq]. split; [exact Hv|].
    rewrite Hv. apply obeyed_obeys, Hq.
Qed.

(** 60 W and 250 mW, less a quarter of a watt, in milliwatts. *)
Definition watts (v : double) : expr WattsTag Watts_traits := Make v.
Definition milliwatts (v : double) : expr MilliwattsTag Milliwatts_traits := Make v.
Definition sample : expr MilliwattsTag Milliwatts_traits :=
  @To _ _ Watts_traits Milliwatts_traits eq_refl
    (Sub (Add (watts 60) (@To _ _ Milliwatts_traits Watts_traits eq_refl (milliwatts 250))) (watts 0.25)).

Lemma quantities_keep_their_type_witness : eval sample = Ret (mkQ 60000) /\ obeyed sample.
Proof.
  split; [vm_compute; reflexivity|]. apply (quantities_keep_their_type MilliwattsTag Milliwatts_traits sample).
  exists (mkQ 60000). vm_compute. reflexivity.
Defined.

(** A difference below zero ends the program; a negative argument throws. *)
Example difference_ends : eval (Sub (watts 1) (watts 2)) = Terminate /\
  eval (Sub (watts 1) (watts (-2))) = Throw (invalid_argument "pg: W must not be negative").
Proof. vm_compute. split; reflexivity. Qed.

(** The assigning operators check nothing: both operands are valid and the result is not. *)
Lemma assignment_escapes :
  eval (Make 1 : expr WattsTag Watts_traits) = Ret (mkQ 1) /\ eval (Make 2 : expr WattsTag Watts_traits) = Ret (mkQ 2) /\
  q_sub (mkQ 1 : Watts) (mkQ 2) = Terminate /\ ~ obeys Power (value (q_sub_assign (mkQ 1 : Watts) (mkQ 2))) /\
  valid_quantity (mkQ 0x1.fp1023 : Watts) /\ isfinite (value (q_add_assign (mkQ 0x1.fp1023 : Watts) (mkQ 0x1.fp1023))) = false.
Proof.
  split_and!; try (vm_compute; reflexivity). intros [_ H]. vm_compute in H. discriminate.
Qed.

(** ** Durations *)
Lemma check_mul_exact (a b : Z) :
  0 < b -> check_mul a b = (if (0 <=? a) && (a * b <=? kMaxNs) then Ret (a * b)
                            else if a <? 0 then Throw (invalid_argument "pg: negative duration")
                            else Throw (overflow_error "pg::Duration overflow")).
Proof.
  intros Hb. unfold check_mul. replace (b =? 0) with false by lia. rewrite orb_false_r.
  destruct (Z.eqb_spec a 0) as [->|Ha]; [reflexivity|]. replace (0 <? b) with true by lia. rewrite andb_true_r.
  destruct (Z.ltb_spec 0 a) as [Hp|Hp]; cbn [andb].
  - replace (0 <=? a) with true by lia. replace (a <? 0) with false by lia. cbn [andb].
    assert (Hq : Z.quot kMaxNs b < a <-> kMaxNs < a * b).
    { rewrite Z.quot_div_nonneg by (unfold kMaxNs; lia). pose proof (Z.div_mod kMaxNs b ltac:(lia)).
      pose proof (Z.mod_pos_bound kMaxNs b Hb). nia. }
    destruct (Z.ltb_spec (Z.quot kMaxNs b) a); destruct (Z.leb_spec (a * b) kMaxNs); try (exfalso; lia); [reflexivity|].
    unfold i64_checked. replace (in_i64b (a * b)) with true; [reflexivity|]. symmetry. apply in_i64b_spec.
    unfold in_i64, kMaxNs in *. nia.
  - replace (0 <=? a) with false by lia. replace (a <? 0) with true by lia. reflexivity.
Qed.

(** A number of seconds, milliseconds or microseconds is converted exactly, or refused. *)
Lemma duration_units_exact (a b : Z) (d : Duration) :
  0 < b -> (let! n := check_mul a b in duration n) = Ret d <-> d = mkDuration (a * b) /\ 0 <= a * b <= kMaxNs.
Proof.
  intros Hb. rewrite check_mul_exact by exact Hb.
  destruct (Z.leb_spec 0 a); destruct (Z.leb_spec (a * b) kMaxNs); cbn [andb obind].
  - apply duration_spec.
  - replace (a <? 0) with false by lia. split; [discriminate|]. lia.
  - replace (a <? 0) with true by lia. split; [discriminate|]. nia.
  - replace (a <? 0) with true by lia. split; [discriminate|]. lia.
Qed.

(** Sums and differences of durations never overflow the machine: they are exact or refused. *)
Lemma duration_sums_exact (a b : Duration) :
  valid_duration a -> valid_duration b ->
  duration_add a b = duration (ns a + ns b) /\ duration_sub a b = duration (ns a - ns b).
Proof.
  intros Ha Hb. unfold duration_add, duration_sub, i64_checked, valid_duration, kMaxNs in *.
  split; [replace (in_i64b (ns a + ns b)) with true|replace (in_i64b (ns a - ns b)) with true]; try reflexivity;
    symmetry; apply in_i64b_spec; unfold in_i64; lia.
Qed.
