(* ===== verification/Ids.v ===== *)
(** * Identities and generations (ids.hpp)

    A strong identifier and a generation are tagged 64-bit unsigned values, 0
    being the null value; the tag is a phantom type, so that the identifiers of
    different domains do not mix.  Uuid is the 128-bit device identity. *)
From Stdlib Require Import Ascii.
From S2P Require Import Prelude Util.
Local Open Scope Z_scope.

(** ** Strong identifiers *)
Record StrongId (Tag : Set) := mkId { id_raw : Z }.
Arguments mkId {Tag} _.
Arguments id_raw {Tag} _.

(** ** Generations *)
Record Generation (Tag : Set) := mkGen { gen_raw : Z }.
Arguments mkGen {Tag} _.
Arguments gen_raw {Tag} _.

Section Identifiers.
Context {Tag : Set}.

Definition is_valid (i : StrongId Tag) : bool := negb (id_raw i =? 0).
Definition invalid_id : StrongId Tag := mkId 0.
Definition id_eqb (a b : StrongId Tag) : bool := id_raw a =? id_raw b.
Definition id_ltb (a b : StrongId Tag) : bool := id_raw a <? id_raw b.

(** The per-type allocator: [next_.fetch_add(1)] returns the counter and leaves
    it incremented, modulo [2^64]. *)
Definition allocate (next : Z) : StrongId Tag * Z := (mkId next, u64 (next + 1)).

#[global] Instance StrongId_eq_dec : EqDecision (StrongId Tag).
Proof. solve_decision. Defined.

#[global] Instance StrongId_countable : Countable (StrongId Tag).
Proof. apply (inj_countable' id_raw mkId). intros []. reflexivity. Defined.

Lemma id_eqb_eq (a b : StrongId Tag) : id_eqb a b = true <-> a = b.
Proof. unfold id_eqb. destruct a, b. simpl. rewrite Z.eqb_eq. split; [intros ->|intros [=]]; auto. Qed.

Definition gen_null : Generation Tag := mkGen 0.
Definition gen_first : Generation Tag := mkGen 1.
Definition is_null (g : Generation Tag) : bool := gen_raw g =? 0.
Definition gen_next (g : Generation Tag) : Generation Tag := mkGen (u64 (gen_raw g + 1)).
Definition gen_eqb (a b : Generation Tag) : bool := gen_raw a =? gen_raw b.
Definition gen_ltb (a b : Generation Tag) : bool := gen_raw a <? gen_raw b.
Definition gen_leb (a b : Generation Tag) : bool := gen_raw a <=? gen_raw b.

#[global] Instance Generation_eq_dec : EqDecision (Generation Tag).
Proof. solve_decision. Defined.

Lemma gen_eqb_eq (a b : Generation Tag) : gen_eqb a b = true <-> a = b.
Proof. unfold gen_eqb. destruct a, b. simpl. rewrite Z.eqb_eq. split; [intros ->|intros [=]]; auto. Qed.

Lemma gen_eqb_neq (a b : Generation Tag) : gen_eqb a b = false <-> a <> b.
Proof. rewrite <- gen_eqb_eq. symmetry. apply not_true_iff_false. Qed.

(** Short of the last value, [next] is strictly larger and not null. *)
Lemma gen_next_lt (g : Generation Tag) : 0 <= gen_raw g < 2 ^ 64 - 1 ->
  gen_raw (gen_next g) = gen_raw g + 1.
Proof. intros Hg. unfold gen_next. simpl. apply wrap_small. unfold in_u. lia. Qed.
End Identifiers.

(** ** The tags of the program *)
Inductive GovernorIdTag : Set :=.
Inductive NodeIdTag : Set :=.
Inductive AcceleratorIdTag : Set :=.
Inductive WorkerIdTag : Set :=.
Inductive WorkerBootIdTag : Set :=.
Inductive WorkloadIdTag : Set :=.
Inductive RequestClassIdTag : Set :=.
Inductive BudgetIdTag : Set :=.
Inductive PolicyIdTag : Set :=.
Inductive ObservationIdTag : Set :=.
Inductive DecisionIdTag : Set :=.
Inductive PowerDomainIdTag : Set :=.
Inductive ThermalDomainIdTag : Set :=.
Inductive ReservationIdTag : Set :=.
Inductive CoordinatorEpochTag : Set :=.
Inductive PolicyGenerationTag : Set :=.
Inductive DeviceGenerationTag : Set :=.
Inductive ObservationGenerationTag : Set :=.
Inductive BudgetGenerationTag : Set :=.
Inductive DecisionGenerationTag : Set :=.
Inductive ReservationGenerationTag : Set :=.
Inductive ThermalGenerationTag : Set :=.

Abbreviation GovernorId := (StrongId GovernorIdTag).
Abbreviation NodeId := (StrongId NodeIdTag).
Abbreviation AcceleratorId := (StrongId AcceleratorIdTag).
Abbreviation WorkerId := (StrongId WorkerIdTag).
Abbreviation WorkerBootId := (StrongId WorkerBootIdTag).
Abbreviation WorkloadId := (StrongId WorkloadIdTag).
Abbreviation RequestClassId := (StrongId RequestClassIdTag).
Abbreviation BudgetId := (StrongId BudgetIdTag).
Abbreviation PolicyId := (StrongId PolicyIdTag).
Abbreviation ObservationId := (StrongId ObservationIdTag).
Abbreviation DecisionId := (StrongId DecisionIdTag).
Abbreviation PowerDomainId := (StrongId PowerDomainIdTag).
Abbreviation ThermalDomainId := (StrongId ThermalDomainIdTag).
Abbreviation ReservationId := (StrongId ReservationIdTag).
Abbreviation CoordinatorEpoch := (Generation CoordinatorEpochTag).
Abbreviation PolicyGeneration := (Generation PolicyGenerationTag).
Abbreviation DeviceGeneration := (Generation DeviceGenerationTag).
Abbreviation ObservationGeneration := (Generation ObservationGenerationTag).
Abbreviation BudgetGeneration := (Generation BudgetGenerationTag).
Abbreviation DecisionGeneration := (Generation DecisionGenerationTag).
Abbreviation ReservationGeneration := (Generation ReservationGenerationTag).
Abbreviation ThermalGeneration := (Generation ThermalGenerationTag).

(** ** Uuid: sixteen bytes *)
Module Uuid.
Definition t := list Z.
Definition zero : t := replicate 16 0.
Definition valid (u : t) : Prop := length u = 16%nat /\ Forall (in_u 8) u.

(** [from_counter]: the low eight bytes of the counter, then 1 to 8. *)
Definition from_counter (n : Z) : t :=
  ((fun i => Z.land (Z.shiftr n (Z.of_nat i * 8)) 0xFF) <$> seq 0 8)
    ++ ((fun i => Z.land (Z.of_nat i + 1) 0xFF) <$> seq 0 8).

Definition all_zero (u : t) : bool := forallb (fun b => b =? 0) u.

Definition hash (u : t) : Z :=
  foldl (fun h b => u64 (Z.lxor h b * fnv_prime)) fnv_offset u.

(** The value of a hexadecimal digit, [None] for another character. *)
Definition nibble (c : ascii) : option Z :=
  let n := byte_of_char c in
  if (48 <=? n) && (n <=? 57) then Some (n - 48)
  else if (97 <=? n) && (n <=? 102) then Some (n - 97 + 10)
  else if (65 <=? n) && (n <=? 70) then Some (n - 65 + 10)
  else None.

Definition is_separator (c : ascii) : bool := Ascii.eqb c "-" || Ascii.eqb c ":".

(** The parsing loop: [u] and [nibbles] are the loop's state. *)
Fixpoint from_hex_loop (s : string) (u : t) (nibbles : nat) : outcome (t * nat) :=
  match s with
  | EmptyString => Ret (u, nibbles)
  | String c s =>
      match nibble c with
      | Some v =>
          if (32 <=? nibbles)%nat
          then Throw (invalid_argument "pg::Uuid::from_hex: too many hex digits")
          else
            let byte := (nibbles / 2)%nat in
            let shift := if Nat.even nibbles then 4 else 0 in
            from_hex_loop s (alter (fun b => u8 (Z.lor b (Z.shiftl v shift))) byte u) (S nibbles)
      | None =>
          if is_separator c then from_hex_loop s u nibbles
          else Throw (invalid_argument "pg::Uuid::from_hex: invalid character")
      end
  end.

Definition from_hex (s : string) : outcome t :=
  let! (u, nibbles) := from_hex_loop s zero 0 in
  if (nibbles =? 32)%nat then Ret u
  else Throw (invalid_argument "pg::Uuid::from_hex: expected 32 hex digits").

Fixpoint to_hex_from (i : nat) (u : t) : string :=
  match u with
  | [] => EmptyString
  | b :: u =>
      let digits := String (hex_digit (Z.shiftr b 4)) (String (hex_digit (Z.land b 15)) (to_hex_from (S i) u)) in
      if bool_decide (i ∈ [4; 6; 8; 10]%nat) then String "-" digits else digits
  end.
Definition to_hex (u : t) : string := to_hex_from 0 u.
End Uuid.

Lemma hex_digit_nibble (v : Z) : 0 <= v < 16 -> Uuid.nibble (hex_digit v) = Some v.
Proof.
  intros Hv.
  assert (Hc : forall n : nat, (n < 16)%nat -> Uuid.nibble (hex_digit (Z.of_nat n)) = Some (Z.of_nat n)).
  { intros n Hn. do 16 (destruct n as [|n]; [reflexivity|]). lia. }
  rewrite <- (Z2Nat.id v) by lia. apply Hc. lia.
Qed.

Lemma hex_digits_byte (b : Z) : in_u 8 b ->
  0 <= Z.shiftr b 4 < 16 /\ 0 <= Z.land b 15 < 16 /\
  u8 (Z.lor (u8 (Z.lor 0 (Z.shiftl (Z.shiftr b 4) 4))) (Z.shiftl (Z.land b 15) 0)) = b.
Proof.
  unfold in_u. intros Hb.
  assert (Hc : forall n : nat, (n < 256)%nat ->
    (fun b => (0 <=? Z.shiftr b 4) && (Z.shiftr b 4 <? 16) && (0 <=? Z.land b 15) && (Z.land b 15 <? 16)
     && (u8 (Z.lor (u8 (Z.lor 0 (Z.shiftl (Z.shiftr b 4) 4))) (Z.shiftl (Z.land b 15) 0)) =? b)) (Z.of_nat n) = true).
  { intros n Hn. assert (Hall : forallb (fun n => (fun b => (0 <=? Z.shiftr b 4) && (Z.shiftr b 4 <? 16) && (0 <=? Z.land b 15) && (Z.land b 15 <? 16)
     && (u8 (Z.lor (u8 (Z.lor 0 (Z.shiftl (Z.shiftr b 4) 4))) (Z.shiftl (Z.land b 15) 0)) =? b)) (Z.of_nat n)) (seq 0 256) = true) by (vm_compute; reflexivity).
    rewrite forallb_forall in Hall. apply Hall. apply in_seq. lia. }
  specialize (Hc (Z.to_nat b) ltac:(lia)). rewrite Z2Nat.id in Hc by lia. cbv beta in Hc.
  bool_hyps. lia.
Qed.

(** ** The round trip of the device identity *)
Module UuidFacts.
Import Uuid.

Lemma loop_digit (v : Z) (s : string) (u : t) (n : nat) : 0 <= v < 16 -> (n < 32)%nat ->
  from_hex_loop (String (hex_digit v) s) u n =
  from_hex_loop s (alter (fun b => u8 (Z.lor b (Z.shiftl v (if Nat.even n then 4 else 0)))) (n / 2)%nat u) (S n).
Proof.
  intros Hv Hn. cbn [from_hex_loop]. rewrite hex_digit_nibble by assumption.
  destruct (Nat.leb_spec 32 n); [lia|]. reflexivity.
Qed.

Lemma loop_dash (s : string) (u : t) (n : nat) : from_hex_loop (String "-" s) u n = from_hex_loop s u n.
Proof. reflexivity. Qed.

Lemma alter_middle (f : Z -> Z) (pre rest : list Z) (x : Z) :
  alter f (length pre) (pre ++ x :: rest) = pre ++ f x :: rest.
Proof. induction pre as [|y pre IH]; cbn; [reflexivity|]. f_equal. exact IH. Qed.

(** The two digits of a byte. *)
Lemma loop_byte (b : Z) (s : string) (pre rest : list Z) : in_u 8 b -> (length pre < 16)%nat ->
  from_hex_loop (String (hex_digit (Z.shiftr b 4)) (String (hex_digit (Z.land b 15)) s))
    (pre ++ 0 :: rest) (2 * length pre)
  = from_hex_loop s (pre ++ b :: rest) (2 * S (length pre)).
Proof.
  intros Hb Hpre. destruct (hex_digits_byte b Hb) as (Hhi & Hlo & Hjoin).
  assert (E1 : (2 * length pre / 2 = length pre)%nat) by (rewrite Nat.mul_comm; apply Nat.div_mul; lia).
  assert (E2 : (S (2 * length pre) / 2 = length pre)%nat).
  { change (S (2 * length pre)) with (1 + 2 * length pre)%nat. rewrite Nat.mul_comm, Nat.div_add by lia. reflexivity. }
  rewrite loop_digit, E1, Nat.even_even, alter_middle by lia.
  rewrite loop_digit, E2, Nat.even_succ, <- Nat.negb_even, Nat.even_even, alter_middle by lia. cbn [negb].
  rewrite Hjoin. f_equal. lia.
Qed.

Lemma loop_to_hex (rest pre : list Z) : Forall (in_u 8) rest -> (length pre + length rest <= 16)%nat ->
  from_hex_loop (to_hex_from (length pre) rest) (pre ++ replicate (length rest) 0) (2 * length pre)
  = Ret (pre ++ rest, 2 * (length pre + length rest))%nat.
Proof.
  intros Hr. revert pre. induction Hr as [|b rest Hb Hr IH]; intros pre Hlen.
  { cbn [to_hex_from from_hex_loop length replicate]. rewrite Nat.add_0_r. reflexivity. }
  cbn [to_hex_from length replicate] in *.
  assert (Hdig : from_hex_loop (String (hex_digit (Z.shiftr b 4)) (String (hex_digit (Z.land b 15)) (to_hex_from (S (length pre)) rest)))
      (pre ++ 0 :: replicate (length rest) 0) (2 * length pre)
    = Ret (pre ++ b :: rest, 2 * (length pre + S (length rest)))%nat).
  { rewrite loop_byte by (assumption || lia).
    replace (S (length pre)) with (length (pre ++ [b])) by (rewrite length_app; cbn; lia).
    replace (pre ++ b :: replicate (length rest) 0) with ((pre ++ [b]) ++ replicate (length rest) 0)
      by (rewrite <- app_assoc; reflexivity).
    rewrite IH by (rewrite length_app; cbn; lia). rewrite <- app_assoc, length_app. cbn. do 2 f_equal. lia. }
  destruct (bool_decide _); [rewrite loop_dash|]; exact Hdig.
Qed.
End UuidFacts.

(** Parsing the canonical rendering of a device identity gives it back. *)
Theorem uuid_roundtrip (u : Uuid.t) : Uuid.valid u -> Uuid.from_hex (Uuid.to_hex u) = Ret u.
Proof.
  intros [Hlen Hu]. unfold Uuid.from_hex, Uuid.to_hex.
  pose proof (UuidFacts.loop_to_hex u [] Hu) as H. cbn [length app] in H. rewrite Hlen in H.
  change (2 * 0)%nat with 0%nat in H. unfold Uuid.zero. rewrite H by lia. reflexivity.
Qed.

Lemma uuid_roundtrip_witness : Uuid.from_hex (Uuid.to_hex (Uuid.from_counter 0x1234)) = Ret (Uuid.from_counter 0x1234).
Proof. apply (uuid_roundtrip (Uuid.from_counter 0x1234)). split; [reflexivity|]. repeat constructor; vm_compute; discriminate. Defined.
