(* ===== verification/Clock.v ===== *)
(** * Timestamps and clocks (clock.hpp) *)
From S2P Require Import Prelude Binary64 Util Units.
Local Open Scope Z_scope.

(** Nanoseconds since the epoch, a signed 64-bit integer; 0 means never. *)
Record Timestamp := mkTime { time_ns : Z }.

#[export] Instance Timestamp_eq_dec : EqDecision Timestamp.
Proof. solve_decision. Defined.

Definition never : Timestamp := mkTime 0.
Definition time_is_zero (t : Timestamp) : bool := time_ns t =? 0.

(** [elapsed_since]: the difference is computed in [int64_t] and validated by
    the [Duration] constructor; the future counts as no time. *)
Definition elapsed_since (t a : Timestamp) : outcome Duration :=
  let! n := (if time_ns a <? time_ns t then i64_checked (time_ns t - time_ns a) else Ret 0) in
  duration n.

Definition time_add (t : Timestamp) (d : Duration) : outcome Timestamp :=
  let! n := i64_checked (time_ns t + ns d) in Ret (mkTime n).
Definition time_sub (t : Timestamp) (d : Duration) : outcome Timestamp :=
  let! n := i64_checked (time_ns t - ns d) in Ret (mkTime n).

Definition time_ltb (a b : Timestamp) : bool := time_ns a <? time_ns b.

(** Timestamps whose differences a [Duration] can hold: between the epoch and
    146 years after it. *)
Definition valid_time (t : Timestamp) : Prop := 0 <= time_ns t <= kMaxNs.

Lemma elapsed_since_valid (t a : Timestamp) : valid_time t -> valid_time a ->
  elapsed_since t a = Ret (mkDuration (Z.max 0 (time_ns t - time_ns a))).
Proof.
  unfold valid_time, kMaxNs. intros Ht Ha. unfold elapsed_since, i64_checked.
  destruct (Z.ltb_spec (time_ns a) (time_ns t)).
  - rewrite (proj2 (in_i64b_spec _)) by (unfold in_i64; lia). cbn [obind].
    rewrite duration_ok by (unfold kMaxNs; lia). do 2 f_equal. lia.
  - cbn [obind]. rewrite duration_ok by (unfold kMaxNs; lia). do 2 f_equal. lia.
Qed.

Definition time_to_string (t : Timestamp) : string :=
  if time_ns t =? 0 then "never" else to_string_int (time_ns t) +:+ "ns".

(** The system's clock: [count] ticks of [period] nanoseconds since the epoch, which the
    standard library's [system_clock] answers, converted to nanoseconds in 64 bits. *)
Module SystemClock.
Definition now (count period : Z) : outcome Timestamp := let! n := i64_checked (count * period) in Ret (mkTime n).

(** It goes on when [system_clock] does, and back when that is set back. *)
Lemma now_order (a b period : Z) (ta tb : Timestamp) :
  0 < period -> now a period = Ret ta -> now b period = Ret tb -> time_ltb ta tb = (a <? b).
Proof.
  unfold now, time_ltb, i64_checked. intros Hp. destruct (in_i64b _); [|discriminate]. destruct (in_i64b _); [|discriminate].
  cbn [obind]. intros [= <-] [= <-]. cbn [time_ns]. destruct (Z.ltb_spec a b), (Z.ltb_spec (a * period) (b * period)); try reflexivity; nia.
Qed.
End SystemClock.

(** The deterministic test clock: time moves only when told to. *)
Module TestClock.
Record t := mk { now : Timestamp }.
Definition set (c : t) (x : Timestamp) : t := mk x.
(** [advance] is [noexcept]. *)
Definition advance (c : t) (d : Duration) : outcome t :=
  noexcept (let! x := time_add (now c) d in Ret (mk x)).
End TestClock.
