(* ===== verification/Budget.v ===== *)
(** * Hierarchical power budgets (budget.hpp)

    [PowerBudget.t] is the configuration of a budget, [BudgetManager] the
    accounting: a map from budget ids to a configuration with the power
    reserved and used under it.  The operations walk the chain of ancestors of
    a budget, check every budget of the chain, and only then update them. *)
From S2P Require Import Prelude Rounding Binary64 Util Units Ids.
Local Open Scope Z_scope.

Module PowerBudget.
Record t := mk {
  id : BudgetId;
  generation : BudgetGeneration;
  domain : PowerDomainId;
  policy_generation : PolicyGeneration;
  parent : option BudgetId;
  name : string;
  hard_max : Watts;
  soft_target : Watts;
  min_reserve : Watts;
  burst_allowance : Watts;
  burst_window : Duration;
  recovery : Duration;
  priority : Z;
  authoritative : bool }.

(** The default member initialisers. *)
Definition default : t :=
  mk invalid_id gen_null invalid_id gen_null None EmptyString W0 W0 W0 W0
     duration_zero (mkDuration 500000000) 50 true.
End PowerBudget.

(** The walk up the ancestors: [look b] is the parent recorded for an installed
    budget.  At most [fuel] budgets are listed. *)
Fixpoint chain_loop (look : BudgetId -> option (option BudgetId)) (fuel : nat)
    (cur : option BudgetId) : list BudgetId :=
  match fuel with
  | O => []
  | S fuel =>
      match cur with
      | Some c =>
          if is_valid c
          then c :: match look c with
                    | Some p => chain_loop look fuel p
                    | None => []
                    end
          else []
      | None => []
      end
  end.

(** The guard of the loop stops it after its 65th iteration. *)
Definition chain_limit : nat := 65.

Module BudgetManager.
Record State := mkState {
  cfg : PowerBudget.t;
  reserved_ : Watts;
  used_ : Watts }.

Abbreviation t := (gmap BudgetId State).

Definition has (m : t) (id : BudgetId) : bool := bool_decide (is_Some (m !! id)).

Definition contains (m : t) (id : BudgetId) : bool := has m id.
Definition size (m : t) : nat := map_size m.
Definition clear (m : t) : t := ∅.

Definition get (m : t) (id : BudgetId) : outcome PowerBudget.t :=
  match m !! id with
  | Some st => Ret (cfg st)
  | None => Throw (out_of_range "pg: unknown budget id")
  end.

Definition install (m : t) (b : PowerBudget.t) : bool * t :=
  match m !! PowerBudget.id b with
  | None => (true, <[PowerBudget.id b := mkState b W0 W0]> m)
  | Some st =>
      if gen_leb (PowerBudget.generation b) (PowerBudget.generation (cfg st))
      then (false, m)
      else (true, <[PowerBudget.id b := mkState b (reserved_ st) (used_ st)]> m)
  end.

Definition parent_of (m : t) (b : BudgetId) : option (option BudgetId) :=
  (fun st => PowerBudget.parent (cfg st)) <$> m !! b.

Definition chain (m : t) (id : BudgetId) : list BudgetId :=
  chain_loop (parent_of m) chain_limit (Some id).

Definition own_available (st : State) : Watts :=
  clamped (value (PowerBudget.hard_max (cfg st)) - value (reserved_ st) - value (used_ st)).

(** The test of one budget of the chain. *)
Definition has_room (m : t) (amount : Watts) (b : BudgetId) : bool :=
  match m !! b with
  | None => false
  | Some st => negb (value (own_available st) + eps <? value amount)%float
  end.

Definition chain_has_capacity (m : t) (id : BudgetId) (amount : Watts) : bool :=
  forallb (has_room m amount) (chain m id).

Definition bad_amount (amount : Watts) : bool :=
  (value amount <? 0)%float || negb (isfinite (value amount)).

(** The update loops over the chain. *)
Definition set_reserved (f : double -> double) (st : State) : State :=
  mkState (cfg st) (clamped (f (value (reserved_ st)))) (used_ st).
Definition set_used (f : double -> double) (st : State) : State :=
  mkState (cfg st) (reserved_ st) (clamped (f (value (used_ st)))).

Definition update_chain (f : State -> State) (l : list BudgetId) (m : t) : t :=
  foldl (fun m b => alter f b m) m l.

Definition reserve (m : t) (id : BudgetId) (amount : Watts) (rid : ReservationId)
    (budget_gen : BudgetGeneration) : bool * t :=
  match m !! id with
  | None => (false, m)
  | Some st =>
      if negb (gen_eqb (PowerBudget.generation (cfg st)) budget_gen) then (false, m)
      else if negb (PowerBudget.authoritative (cfg st)) then (false, m)
      else if bad_amount amount then (false, m)
      else if negb (chain_has_capacity m id amount) then (false, m)
      else (true, update_chain (set_reserved (fun r => (r + value amount)%float)) (chain m id) m)
  end.

(** The checks of [release] and [deactivate]: what is booked covers the amount. *)
Definition covers (sel : State -> Watts) (m : t) (amount : Watts) (b : BudgetId) : bool :=
  match m !! b with
  | None => false
  | Some st => negb (value (sel st) + eps <? value amount)%float
  end.

Definition release (m : t) (id : BudgetId) (amount : Watts) (rid : ReservationId)
    (budget_gen : BudgetGeneration) : bool * t :=
  match m !! id with
  | None => (false, m)
  | Some st =>
      if negb (gen_eqb (PowerBudget.generation (cfg st)) budget_gen) then (false, m)
      else if bad_amount amount then (false, m)
      else if negb (forallb (covers reserved_ m amount) (chain m id)) then (false, m)
      else (true, update_chain (set_reserved (fun r => (r - value amount)%float)) (chain m id) m)
  end.

Definition activate (m : t) (id : BudgetId) (amount : Watts) (rid : ReservationId)
    (budget_gen : BudgetGeneration) : bool * t :=
  match m !! id with
  | None => (false, m)
  | Some st =>
      if negb (gen_eqb (PowerBudget.generation (cfg st)) budget_gen) then (false, m)
      else if bad_amount amount then (false, m)
      else if negb (chain_has_capacity m id amount) then (false, m)
      else (true, update_chain (set_used (fun u => (u + value amount)%float)) (chain m id) m)
  end.

Definition deactivate (m : t) (id : BudgetId) (amount : Watts) (rid : ReservationId)
    (budget_gen : BudgetGeneration) : bool * t :=
  match m !! id with
  | None => (false, m)
  | Some st =>
      if negb (gen_eqb (PowerBudget.generation (cfg st)) budget_gen) then (false, m)
      else if bad_amount amount then (false, m)
      else if negb (forallb (covers used_ m amount) (chain m id)) then (false, m)
      else (true, update_chain (set_used (fun u => (u - value amount)%float)) (chain m id) m)
  end.

(** [std::min] on doubles. *)
Definition fmin (a b : double) : double := if (b <? a)%float then b else a.

(** The loop of [available]: it returns zero on a missing ancestor. *)
Fixpoint available_loop (m : t) (l : list BudgetId) (avail : Watts) : outcome Watts :=
  match l with
  | [] => Ret avail
  | b :: l =>
      match m !! b with
      | None => quantity 0
      | Some st =>
          let! avail := quantity (fmin (value avail) (value (own_available st))) in
          available_loop m l avail
      end
  end.

Definition available (m : t) (id : BudgetId) : outcome Watts :=
  match m !! id with
  | None => quantity 0
  | Some st => available_loop m (chain m id) (own_available st)
  end.

Definition reserved (m : t) (id : BudgetId) : Watts := default W0 (reserved_ <$> m !! id).
Definition used (m : t) (id : BudgetId) : Watts := default W0 (used_ <$> m !! id).
Definition hard_max (m : t) (id : BudgetId) : Watts :=
  default W0 ((fun st => PowerBudget.hard_max (cfg st)) <$> m !! id).

(** [booked + 1e-9 > hard_max] makes a budget inconsistent. *)
Definition state_consistent (st : State) : bool :=
  negb (value (PowerBudget.hard_max (cfg st)) <? (value (reserved_ st) + value (used_ st)) + eps)%float.

Definition accounting_consistent (m : t) : bool :=
  forallb (fun p => state_consistent p.2) (map_to_list m).

(** The installed configurations; the iteration order of the hash map is left
    to the map. *)
Definition snapshots (m : t) : list PowerBudget.t := (fun p => cfg p.2) <$> map_to_list m.
End BudgetManager.

(** ** The chain of ancestors *)
Lemma chain_loop_ext (look look' : BudgetId -> option (option BudgetId)) :
  (forall b, look b = look' b) -> forall fuel cur, chain_loop look fuel cur = chain_loop look' fuel cur.
Proof.
  intros H fuel. induction fuel as [|fuel IH]; intros [c|]; simpl; auto.
  destruct (is_valid c); [|reflexivity]. rewrite H. destruct (look' c); [rewrite IH|]; reflexivity.
Qed.

Lemma chain_loop_length (look : BudgetId -> option (option BudgetId)) :
  forall fuel cur, (length (chain_loop look fuel cur) <= fuel)%nat.
Proof.
  induction fuel as [|fuel IH]; intros [c|]; simpl; try lia.
  destruct (is_valid c); simpl; [|lia]. destruct (look c) as [p|]; simpl; [specialize (IH p)|]; lia.
Qed.

(** Every budget listed before the last is installed. *)
Lemma chain_loop_head (look : BudgetId -> option (option BudgetId)) (fuel : nat) (c : BudgetId) :
  is_valid c = true -> c ∈ chain_loop look (S fuel) (Some c).
Proof. intros Hc. simpl. rewrite Hc. left. Qed.

(** A longer walk lists more. *)
Lemma chain_loop_mono (look : BudgetId -> option (option BudgetId)) (f f' : nat) (cur : option BudgetId) (x : BudgetId) :
  (f <= f')%nat -> x ∈ chain_loop look f cur -> x ∈ chain_loop look f' cur.
Proof.
  revert f' cur. induction f as [|f IH]; intros [|f'] cur Hf; cbn [chain_loop]; try lia; try (intros H; inversion H; fail).
  destruct cur as [c|]; [|tauto]. destruct (is_valid c); [|tauto]. rewrite !elem_of_cons. intros [->|Hx]; [auto|right].
  destruct (look c); [apply IH; [lia|exact Hx]|exact Hx].
Qed.

Lemma chain_loop_shorter (look : BudgetId -> option (option BudgetId)) (f n : nat) (cur : option BudgetId) :
  (f <= n)%nat -> NoDup (chain_loop look n cur) -> NoDup (chain_loop look f cur).
Proof.
  revert f cur. induction n as [|n IH]; intros [|f] cur Hle Hn; try constructor; [lia|]. cbn [chain_loop] in Hn |- *.
  destruct cur as [c|]; [|constructor]. destruct (is_valid c); [|constructor]. apply NoDup_cons in Hn as [Hc Hn].
  apply NoDup_cons. destruct (look c) as [p|]; [|split; [exact Hc|constructor]].
  split; [intros Hin; apply Hc, (chain_loop_mono look f n); [lia|exact Hin]|apply IH; [lia|exact Hn]].
Qed.

(** Two walks, the second from a budget of the first. *)
Lemma chain_loop_trans (look : BudgetId -> option (option BudgetId)) (f g : nat) (cur : option BudgetId) (x y : BudgetId) :
  x ∈ chain_loop look f cur -> y ∈ chain_loop look g (Some x) -> y ∈ chain_loop look (f + g) cur.
Proof.
  revert cur. induction f as [|f IH]; intros [c|]; cbn [chain_loop Nat.add]; try (intros H; inversion H; fail).
  destruct (is_valid c) eqn:Ec; [|intros H; inversion H]. rewrite elem_of_cons. intros [->|Hx] Hy.
  - apply (chain_loop_mono look g (S (f + g)) (Some c) y ltac:(lia)) in Hy. cbn [chain_loop] in Hy. rewrite Ec in Hy. exact Hy.
  - apply elem_of_cons. right. destruct (look c); [apply IH; assumption|inversion Hx].
Qed.

(** Linking the budget [id] to another parent: the walk is the old one up to [id], and
    then that from the new parent. *)
Section Relink.
Context (look look' : BudgetId -> option (option BudgetId)) (id : BudgetId).
Hypothesis Hsame : forall c, c <> id -> look' c = look c.

Lemma chain_loop_away (f : nat) (cur : option BudgetId) :
  id ∉ chain_loop look f cur -> chain_loop look' f cur = chain_loop look f cur.
Proof.
  revert cur. induction f as [|f IH]; intros [c|]; cbn [chain_loop]; try reflexivity.
  destruct (is_valid c); [|reflexivity]. rewrite not_elem_of_cons. intros [Hc Hr]. rewrite Hsame by congruence.
  f_equal. destruct (look c); [apply IH, Hr|reflexivity].
Qed.

Lemma chain_loop_split (f : nat) (cur : option BudgetId) :
  id ∈ chain_loop look f cur -> exists k, (k < f)%nat /\ id ∈ chain_loop look (S k) cur /\
    forall x, x ∈ chain_loop look' f cur -> x ∈ chain_loop look (S k) cur \/
      exists p, look' id = Some p /\ x ∈ chain_loop look' (f - S k) p.
Proof.
  revert cur. induction f as [|f IH]; intros [c|] Hid; try (inversion Hid; fail). cbn [chain_loop] in Hid |- *.
  destruct (is_valid c) eqn:Ec; [|inversion Hid]. destruct (decide (c = id)) as [->|Hne].
  - exists 0%nat. split; [lia|]. split; [left|]. intros x. rewrite elem_of_cons. intros [->|Hx]; [left; left|right].
    destruct (look' id) as [p|]; [|inversion Hx]. exists p. split; [reflexivity|]. replace (S f - 1)%nat with f by lia. exact Hx.
  - apply elem_of_cons in Hid as [?|Hid]; [congruence|]. rewrite Hsame by exact Hne.
    destruct (look c) as [p|]; [|inversion Hid]. destruct (IH p Hid) as (k & Hk & Hin & Hall).
    exists (S k). split; [lia|]. split; [right; exact Hin|]. intros x. rewrite elem_of_cons. intros [->|Hx]; [left; left|].
    destruct (Hall x Hx) as [H|(q & Hq & H)]; [left; right; exact H|right; exists q; split; [exact Hq|exact H]].
Qed.

(** No walk of up to [n] budgets gets a cycle, when [id] is not on that from its parent. *)
Lemma chain_loop_relink (n : nat) : (forall p, look' id = Some (Some p) -> id ∉ chain_loop look n (Some p)) ->
  (forall c, NoDup (chain_loop look n (Some c))) ->
  forall f cur, (f <= n)%nat -> NoDup (chain_loop look f cur) -> NoDup (chain_loop look' f cur).
Proof.
  intros Hp Hn. assert (Haway : forall f p, (f <= n)%nat -> look' id = Some (Some p) -> id ∉ chain_loop look f (Some p))
    by (intros f p Hf E Hin; apply (Hp p E), (chain_loop_mono look f n); assumption).
  induction f as [|f IH]; intros [c|] Hf Hold; try constructor. cbn [chain_loop] in Hold |- *.
  destruct (is_valid c) eqn:Ec; [|constructor]. apply NoDup_cons in Hold as [Hc Hold]. destruct (decide (c = id)) as [->|Hne].
  - destruct (look' id) as [[p|]|] eqn:E; [|destruct f; apply NoDup_singleton|apply NoDup_singleton].
    rewrite chain_loop_away by (apply Haway; [lia|reflexivity]). apply NoDup_cons. split; [apply Haway; [lia|reflexivity]|].
    apply (chain_loop_shorter look f n); [lia|apply Hn].
  - rewrite Hsame by exact Hne. destruct (look c) as [q|] eqn:Eq; [|apply NoDup_singleton].
    apply NoDup_cons. split; [|apply IH; [lia|exact Hold]]. intros Hin.
    destruct (decide (id ∈ chain_loop look f q)) as [Hid|Hid]; [|rewrite chain_loop_away in Hin by exact Hid; contradiction].
    destruct (chain_loop_split f q Hid) as (k & Hk & Hlast & Hall). destruct (Hall c Hin) as [H|(p & E & H)].
    + apply Hc, (chain_loop_mono look (S k) f); [lia|exact H].
    + destruct p as [p|]; [|destruct (f - S k)%nat; inversion H].
      rewrite chain_loop_away in H by (apply Haway; [lia|exact E]).
      apply (Haway (f - S k + S (S k))%nat p); [lia|exact E|]. apply (chain_loop_trans look _ _ _ c); [exact H|].
      cbn [chain_loop]. rewrite Ec, Eq. right. exact Hlast.
Qed.
End Relink.

Module BudgetFacts.
Import BudgetManager.

(** Updates that keep the configuration keep the chains. *)
Definition keeps_cfg (f : State -> State) : Prop := forall st, cfg (f st) = cfg st.

Lemma set_reserved_keeps (f : double -> double) : keeps_cfg (set_reserved f).
Proof. intros []. reflexivity. Qed.

Lemma set_used_keeps (f : double -> double) : keeps_cfg (set_used f).
Proof. intros []. reflexivity. Qed.

Lemma update_chain_parent_of (f : State -> State) (l : list BudgetId) (m : t) (b : BudgetId) :
  keeps_cfg f -> parent_of (update_chain f l m) b = parent_of m b.
Proof.
  intros Hf. unfold update_chain. revert m. induction l as [|c l IH]; intros m; simpl; [reflexivity|].
  rewrite IH. unfold parent_of. rewrite lookup_alter. case_decide; [subst|reflexivity].
  destruct (m !! b) as [st|]; simpl; [rewrite Hf|]; reflexivity.
Qed.

Lemma chain_update_chain (f : State -> State) (l : list BudgetId) (m : t) (id : BudgetId) :
  keeps_cfg f -> chain (update_chain f l m) id = chain m id.
Proof. intros Hf. apply chain_loop_ext. intros b. apply update_chain_parent_of, Hf. Qed.

Lemma update_chain_lookup (f : State -> State) (l : list BudgetId) (m : t) (b : BudgetId) :
  NoDup l -> update_chain f l m !! b = if decide (b ∈ l) then f <$> m !! b else m !! b.
Proof. apply foldl_alter_lookup. Qed.

(** ** Well-formed states *)
Definition wf_state (st : State) : Prop :=
  nonneg (value (PowerBudget.hard_max (cfg st))) /\ nonneg (value (reserved_ st)) /\ nonneg (value (used_ st)).

Definition wf (m : t) : Prop := forall b st, m !! b = Some st -> wf_state st.

(** The budgets form a forest: no chain meets a budget twice. *)
Definition acyclic (m : t) : Prop := forall id, NoDup (chain m id).

Lemma update_chain_forall (P : State -> Prop) (f : State -> State) (l : list BudgetId) (m : t) :
  (forall st, P st -> P (f st)) -> (forall b st, m !! b = Some st -> P st) ->
  forall b st, update_chain f l m !! b = Some st -> P st.
Proof.
  intros Hf. unfold update_chain. revert m. induction l as [|c l IH]; intros m Hm; simpl; [exact Hm|].
  apply IH. intros b st. rewrite lookup_alter_Some. intros [(-> & st' & Hst & ->)|[_ Hst]]; eauto.
Qed.

Lemma set_reserved_wf (f : double -> double) (st : State) : wf_state st -> wf_state (set_reserved f st).
Proof. intros (Hh & Hr & Hu). repeat split; try apply Hh; try apply Hu; apply clamp_nonneg. Qed.

Lemma set_used_wf (f : double -> double) (st : State) : wf_state st -> wf_state (set_used f st).
Proof. intros (Hh & Hr & Hu). repeat split; try apply Hh; try apply Hr; apply clamp_nonneg. Qed.

Lemma bad_amount_nonneg (amount : Watts) : bad_amount amount = false <-> nonneg (value amount).
Proof.
  unfold bad_amount. split.
  - intros H. apply orb_false_elim in H as [Hlt Hf]. apply negb_false_iff in Hf.
    apply fltb_nonneg; assumption.
  - intros H. rewrite (nonneg_fltb _ H). destruct H as [-> _]. reflexivity.
Qed.

(** ** What the operations do, when they succeed *)
Definition current (m : t) (id : BudgetId) (g : BudgetGeneration) : Prop :=
  exists st, m !! id = Some st /\ PowerBudget.generation (cfg st) = g.

Lemma reserve_true (m m' : t) (id : BudgetId) (amount : Watts) (rid : ReservationId) (g : BudgetGeneration) :
  reserve m id amount rid g = (true, m') ->
  current m id g /\ nonneg (value amount) /\ chain_has_capacity m id amount = true /\
  m' = update_chain (set_reserved (fun r => (r + value amount)%float)) (chain m id) m.
Proof.
  unfold reserve, current. destruct (m !! id) as [st|] eqn:E; [|discriminate].
  destruct (gen_eqb _ _) eqn:Hg; [|discriminate]. apply gen_eqb_eq in Hg.
  destruct (PowerBudget.authoritative _); [|discriminate].
  destruct (bad_amount amount) eqn:Hb; [discriminate|]. apply bad_amount_nonneg in Hb.
  destruct (chain_has_capacity m id amount); [|discriminate]. intros [= <-]. eauto 6.
Qed.

Lemma activate_true (m m' : t) (id : BudgetId) (amount : Watts) (rid : ReservationId) (g : BudgetGeneration) :
  activate m id amount rid g = (true, m') ->
  current m id g /\ nonneg (value amount) /\ chain_has_capacity m id amount = true /\
  m' = update_chain (set_used (fun r => (r + value amount)%float)) (chain m id) m.
Proof.
  unfold activate, current. destruct (m !! id) as [st|] eqn:E; [|discriminate].
  destruct (gen_eqb _ _) eqn:Hg; [|discriminate]. apply gen_eqb_eq in Hg.
  destruct (bad_amount amount) eqn:Hb; [discriminate|]. apply bad_amount_nonneg in Hb.
  destruct (chain_has_capacity m id amount); [|discriminate]. intros [= <-]. eauto 6.
Qed.

Lemma release_true (m m' : t) (id : BudgetId) (amount : Watts) (rid : ReservationId) (g : BudgetGeneration) :
  release m id amount rid g = (true, m') ->
  current m id g /\ nonneg (value amount) /\ forallb (covers reserved_ m amount) (chain m id) = true /\
  m' = update_chain (set_reserved (fun r => (r - value amount)%float)) (chain m id) m.
Proof.
  unfold release, current. destruct (m !! id) as [st|] eqn:E; [|discriminate].
  destruct (gen_eqb _ _) eqn:Hg; [|discriminate]. apply gen_eqb_eq in Hg.
  destruct (bad_amount amount) eqn:Hb; [discriminate|]. apply bad_amount_nonneg in Hb.
  destruct (forallb _ _); [|discriminate]. intros [= <-]. eauto 6.
Qed.

Lemma deactivate_true (m m' : t) (id : BudgetId) (amount : Watts) (rid : ReservationId) (g : BudgetGeneration) :
  deactivate m id amount rid g = (true, m') ->
  current m id g /\ nonneg (value amount) /\ forallb (covers used_ m amount) (chain m id) = true /\
  m' = update_chain (set_used (fun r => (r - value amount)%float)) (chain m id) m.
Proof.
  unfold deactivate, current. destruct (m !! id) as [st|] eqn:E; [|discriminate].
  destruct (gen_eqb _ _) eqn:Hg; [|discriminate]. apply gen_eqb_eq in Hg.
  destruct (bad_amount amount) eqn:Hb; [discriminate|]. apply bad_amount_nonneg in Hb.
  destruct (forallb _ _); [|discriminate]. intros [= <-]. eauto 6.
Qed.

(** A rejected operation changes nothing. *)
Lemma reserve_false (m m' : t) (id : BudgetId) (amount : Watts) (rid : ReservationId) (g : BudgetGeneration) :
  reserve m id amount rid g = (false, m') -> m' = m.
Proof. unfold reserve. repeat split_match; congruence. Qed.

Lemma activate_false (m m' : t) (id : BudgetId) (amount : Watts) (rid : ReservationId) (g : BudgetGeneration) :
  activate m id amount rid g = (false, m') -> m' = m.
Proof. unfold activate. repeat split_match; congruence. Qed.

Lemma release_false (m m' : t) (id : BudgetId) (amount : Watts) (rid : ReservationId) (g : BudgetGeneration) :
  release m id amount rid g = (false, m') -> m' = m.
Proof. unfold release. repeat split_match; congruence. Qed.

Lemma deactivate_false (m m' : t) (id : BudgetId) (amount : Watts) (rid : ReservationId) (g : BudgetGeneration) :
  deactivate m id amount rid g = (false, m') -> m' = m.
Proof. unfold deactivate. repeat split_match; congruence. Qed.
(** ** The capacity test in exact arithmetic

    An amount above the tolerance passes the test only when the budget has a
    positive exact room, and then the amount exceeds the room by the tolerance
    and a relative rounding error of at most [2^-50]. *)
Lemma room_bound (H R U A : double) :
  nonneg H -> nonneg R -> nonneg U -> nonneg A ->
  (clamp (H - R - U) + eps <? A)%float = false -> val eps < val A ->
  2 ^ 52 * (val R + val U + val A) <= (2 ^ 52 + 3) * (val H + val eps) /\ val R <= val H /\ val A <= 2 * (val H + val eps).
Proof.
  intros HH HR HU HA Htest Hbig.
  pose proof (clamp_nonneg (H - R - U)) as [Hcf Hc0].
  apply add_ltb_false in Htest; [|assumption|apply eps_finite|apply HA].
  destruct (sub_nonneg_val H R HH HR) as [Ht1f Ht1].
  assert (Hc : val (clamp (H - R - U)) = Z.max 0 (rnd (val (H - R) - val U)) \/ val (clamp (H - R - U)) = 0).
  { destruct (sub_cases (H - R) U Ht1f (proj1 HU)) as [(Hf & E & _)|(Hf & _)].
    - left. rewrite clamp_finite_val, E by assumption. reflexivity.
    - right. unfold clamp. rewrite Hf. reflexivity. }
  set (c := val (clamp (H - R - U))) in *.
  assert (Hcpos : 0 < c).
  { destruct (Z.eq_dec c 0) as [E|]; [|lia]. rewrite E, Z.add_0_l, rnd_val in Htest. lia. }
  destruct HH as [_ HH], HR as [_ HR], HU as [_ HU], HA as [_ HA].
  assert (Hc' : c = rnd (val (H - R) - val U)) by lia.
  assert (H1 : 0 < val (H - R) - val U).
  { destruct (Z.le_gt_cases (val (H - R) - val U) 0) as [Hle|]; [|lia].
    apply rnd_nonpos in Hle. lia. }
  assert (H2 : 0 < val H - val R).
  { destruct (Z.le_gt_cases (val H - val R) 0) as [Hle|]; [|lia].
    apply rnd_nonpos in Hle. lia. }
  pose proof (rnd_error (val H - val R)) as E1. rewrite <- Ht1 in E1.
  pose proof (rnd_error (val (H - R) - val U)) as E2. rewrite <- Hc' in E2.
  pose proof (rnd_error (c + val eps)) as E3. pose proof val_eps_pos.
  lia.
Qed.

(** The value booked on a budget after a successful reservation or usage. *)
Definition within (h booked : Z) : Prop := 2 ^ 50 * booked <= (2 ^ 50 + 1) * (h + val eps).

Lemma booking_bound (H R U A : double) :
  nonneg H -> nonneg R -> nonneg U -> nonneg A ->
  (clamp (H - R - U) + eps <? A)%float = false -> val eps < val A ->
  within (val H) (val (clamp (R + A)) + val U) /\ within (val H) (val R + val (clamp (U + A))).
Proof.
  intros HH HR HU HA Htest Hbig.
  destruct (room_bound H R U A HH HR HU HA Htest Hbig) as (Hb & HRH & HAH).
  pose proof (clamp_add_le R A HR HA) as C1. pose proof (clamp_add_le U A HU HA) as C2.
  pose proof (rnd_error (val R + val A)) as E1. pose proof (rnd_error (val U + val A)) as E2.
  destruct HH as [_ HH], HR as [_ HR], HU as [_ HU], HA as [_ HA]. pose proof val_eps_pos.
  unfold within. split; lia.
Qed.

Lemma clamp_sub_le (R A : double) : nonneg R -> nonneg A -> val (clamp (R - A)) <= val R.
Proof.
  intros HR HA. rewrite clamp_sub_val by assumption. destruct HR as [_ HR], HA as [_ HA].
  pose proof (rnd_mono (val R - val A) (val R) ltac:(lia)). rewrite rnd_val in *. lia.
Qed.

Lemma clamp_add_zero (R A : double) : nonneg R -> nonneg A -> val A = 0 -> val (clamp (R + A)) = val R.
Proof.
  intros HR HA E. rewrite clamp_add_val by (rewrite ?E, ?Z.add_0_r, ?rnd_val; auto;
    destruct HR; pose proof (val_bound R); lia).
  rewrite E, Z.add_0_r. apply rnd_val.
Qed.

Definition booked_ok (st : State) : Prop :=
  within (val (value (PowerBudget.hard_max (cfg st)))) (val (value (reserved_ st)) + val (value (used_ st))).

Definition state_ok (st : State) : Prop := wf_state st /\ booked_ok st.

Lemma has_room_state (m : t) (amount : Watts) (b : BudgetId) (st : State) :
  m !! b = Some st -> has_room m amount b = true ->
  (value (own_available st) + eps <? value amount)%float = false.
Proof. unfold has_room. intros ->. apply negb_true_iff. Qed.

Lemma reserve_state_ok (amount : Watts) (st : State) : state_ok st -> nonneg (value amount) ->
  val (value amount) = 0 \/ val eps < val (value amount) ->
  (value (own_available st) + eps <? value amount)%float = false ->
  state_ok (set_reserved (fun r => (r + value amount)%float) st) /\
  state_ok (set_used (fun r => (r + value amount)%float) st).
Proof.
  intros [(HH & HR & HU) Hb] HA Hamt Hroom.
  assert (Hbooked : booked_ok (set_reserved (fun r => (r + value amount)%float) st) /\
                    booked_ok (set_used (fun r => (r + value amount)%float) st)).
  { unfold booked_ok in *. simpl. destruct Hamt as [H0|Hbig].
    - rewrite !clamp_add_zero by assumption. auto.
    - apply booking_bound; assumption. }
  destruct Hbooked. split; split; auto; [apply set_reserved_wf|apply set_used_wf]; repeat split;
    solve [apply HH | apply HR | apply HU].
Qed.

Lemma release_state_ok (amount : Watts) (st : State) : state_ok st -> nonneg (value amount) ->
  state_ok (set_reserved (fun r => (r - value amount)%float) st) /\
  state_ok (set_used (fun r => (r - value amount)%float) st).
Proof.
  intros [(HH & HR & HU) Hb] HA.
  pose proof (clamp_sub_le _ _ HR HA). pose proof (clamp_sub_le _ _ HU HA).
  unfold state_ok, booked_ok, within in *. simpl.
  repeat split; try apply HH; try apply HR; try apply HU; try apply clamp_nonneg; lia.
Qed.

(** ** Histories of a manager

    A step is one successful call.  The callers respect the contract of the
    class, which it does not check: a budget is not installed at or above its own
    parent, a re-issue does not lower the hard maximum below what was promised, and
    amounts are zero or above the tolerance. *)
Definition valid_budget (b : PowerBudget.t) : Prop := nonneg (value (PowerBudget.hard_max b)).

Definition real_amount (amount : Watts) : Prop :=
  val (value amount) = 0 \/ val eps < val (value amount).

Definition not_lowered (m : t) (b : PowerBudget.t) : Prop :=
  forall st, m !! PowerBudget.id b = Some st ->
    val (value (PowerBudget.hard_max (cfg st))) <= val (value (PowerBudget.hard_max b)).

Definition not_above (m : t) (b : PowerBudget.t) : Prop :=
  forall p, PowerBudget.parent b = Some p -> PowerBudget.id b ∉ chain m p.

Inductive step (m m' : t) : Prop :=
| step_install b : valid_budget b -> not_lowered m b -> not_above m b ->
    install m b = (true, m') -> step m m'
| step_reserve id amount rid g : real_amount amount ->
    reserve m id amount rid g = (true, m') -> step m m'
| step_release id amount rid g : release m id amount rid g = (true, m') -> step m m'
| step_activate id amount rid g : real_amount amount ->
    activate m id amount rid g = (true, m') -> step m m'
| step_deactivate id amount rid g : deactivate m id amount rid g = (true, m') -> step m m'.

Inductive reachable : t -> Prop :=
| reachable_empty : reachable ∅
| reachable_step m m' : reachable m -> step m m' -> reachable m'.

Definition manager_ok (m : t) : Prop := acyclic m /\ forall b st, m !! b = Some st -> state_ok st.

Lemma update_chain_ok (f : State -> State) (m : t) (id : BudgetId) :
  keeps_cfg f -> manager_ok m ->
  (forall b st, b ∈ chain m id -> m !! b = Some st -> state_ok st -> state_ok (f st)) ->
  manager_ok (update_chain f (chain m id) m).
Proof.
  intros Hf [Hac Hok] Hup. split.
  - intros id'. rewrite chain_update_chain by assumption. apply Hac.
  - intros b st. rewrite update_chain_lookup by apply Hac.
    destruct (decide (b ∈ chain m id)) as [Hin|Hin]; [|apply Hok].
    intros Hst. apply fmap_Some in Hst as (st' & Hst' & ->). eauto.
Qed.

Lemma chain_room (m : t) (id b : BudgetId) (amount : Watts) (st : State) :
  chain_has_capacity m id amount = true -> b ∈ chain m id -> m !! b = Some st ->
  (value (own_available st) + eps <? value amount)%float = false.
Proof.
  unfold chain_has_capacity. rewrite forallb_forall. intros H Hin Hst.
  apply (has_room_state m amount b); [assumption|]. apply H, list_elem_of_In, Hin.
Qed.

(** The forest stays one. *)
Lemma install_acyclic (m : t) (b : PowerBudget.t) : acyclic m -> not_above m b -> acyclic (install m b).2.
Proof.
  intros Hac Hb. assert (H : forall r u, acyclic (<[PowerBudget.id b := mkState b r u]> m)).
  { intros r u id. apply (chain_loop_relink (parent_of m) _ (PowerBudget.id b)) with (n := chain_limit); try apply Hac.
    - intros c Hc. unfold parent_of. rewrite lookup_insert_ne by congruence. reflexivity.
    - intros p. unfold parent_of. rewrite lookup_insert_eq. cbn. intros [= E]. apply Hb, E.
    - reflexivity. }
  unfold install. destruct (m !! PowerBudget.id b); [|apply H]. destruct (gen_leb _ _); [exact Hac|apply H].
Qed.

Lemma install_ok (m m' : t) (b : PowerBudget.t) :
  manager_ok m -> valid_budget b -> not_lowered m b -> not_above m b -> install m b = (true, m') -> manager_ok m'.
Proof.
  intros [Hac Hok] Hb Hlow Hup Hin. split; [change m' with (true, m').2; rewrite <- Hin; apply install_acyclic; assumption|].
  intros b' st.
  unfold install in Hin. destruct (m !! PowerBudget.id b) as [st0|] eqn:E.
  - destruct (gen_leb _ _); [discriminate|]. injection Hin as <-.
    rewrite lookup_insert_Some. intros [[<- <-]|[_ Hst]]; [|eauto].
    destruct (Hok _ _ E) as [(HH & HR & HU) Hbk]. specialize (Hlow _ E).
    repeat split; try apply Hb; try apply HR; try apply HU.
    unfold booked_ok, within in *. simpl. lia.
  - injection Hin as <-. rewrite lookup_insert_Some. intros [[<- <-]|[_ Hst]]; [|eauto].
    repeat split; try apply Hb; try apply isfinite_zero; simpl; rewrite ?val_zero; try lia.
    unfold booked_ok, within. simpl. rewrite val_zero. pose proof val_eps_pos.
    destruct Hb as [_ Hb]. lia.
Qed.

Lemma step_ok (m m' : t) : manager_ok m -> step m m' -> manager_ok m'.
Proof.
  intros Hok Hstep. destruct Hstep as [b Hb Hlow Hup Hin|id a rid g Ha Hr|id a rid g Hr|id a rid g Ha Hr|id a rid g Hr].
  - eapply install_ok; eauto.
  - apply reserve_true in Hr as (_ & Ha' & Hc & ->). apply update_chain_ok; auto using set_reserved_keeps.
    intros b st Hin Hst Hs. eapply reserve_state_ok; eauto using chain_room.
  - apply release_true in Hr as (_ & Ha' & Hc & ->). apply update_chain_ok; auto using set_reserved_keeps.
    intros b st Hin Hst Hs. apply release_state_ok; assumption.
  - apply activate_true in Hr as (_ & Ha' & Hc & ->). apply update_chain_ok; auto using set_used_keeps.
    intros b st Hin Hst Hs. eapply reserve_state_ok; eauto using chain_room.
  - apply deactivate_true in Hr as (_ & Ha' & Hc & ->). apply update_chain_ok; auto using set_used_keeps.
    intros b st Hin Hst Hs. apply release_state_ok; assumption.
Qed.

Lemma empty_ok : manager_ok ∅.
Proof.
  split; [|intros b st; rewrite lookup_empty; discriminate].
  intros id. unfold chain, chain_limit. cbn [chain_loop]. destruct (is_valid id); [|constructor].
  unfold parent_of. rewrite lookup_empty. apply NoDup_singleton.
Qed.

Lemma reachable_ok (m : t) : reachable m -> manager_ok m.
Proof. induction 1; eauto using empty_ok, step_ok. Qed.
End BudgetFacts.
