(* ===== verification/Ledger.v ===== *)
(** * The abstract ledger, and the budget manager as its refinement

    [Ledger] is what the class promises: a table of accounts with exact integer
    amounts, where booking is allowed when it fits under the capacity of every
    account up the chain.  There is no rounding and no tolerance in it.  On
    amounts that are multiples of [2^-28] W below [2^24] W, the manager's
    floating-point tests and updates are exact, and the manager refines the
    ledger operation by operation ([Refinement.run_refines]). *)
From S2P Require Import Prelude Rounding Binary64 Util Units Ids Budget.
Local Open Scope Z_scope.
#[local] Arguments Z.mul : simpl never.
#[local] Arguments Z.add : simpl never.
#[local] Arguments Z.pow : simpl never.

Module Ledger.
Record account := mkAccount {
  acc_generation : BudgetGeneration;
  acc_parent : option BudgetId;
  acc_authoritative : bool;
  capacity : Z;
  held : Z;
  spent : Z }.

Abbreviation t := (gmap BudgetId account).

Definition parent_of (l : t) (b : BudgetId) : option (option BudgetId) := acc_parent <$> l !! b.
Definition chain (l : t) (id : BudgetId) : list BudgetId := chain_loop (parent_of l) chain_limit (Some id).

Definition add_held (z : Z) (a : account) : account :=
  mkAccount (acc_generation a) (acc_parent a) (acc_authoritative a) (capacity a) (held a + z) (spent a).
Definition add_spent (z : Z) (a : account) : account :=
  mkAccount (acc_generation a) (acc_parent a) (acc_authoritative a) (capacity a) (held a) (spent a + z).

Definition fits (z : Z) (a : account) : bool := z <=? capacity a - held a - spent a.

(** Book on every account of the chain, when every one of them passes [test]. *)
Definition book (test : account -> bool) (f : account -> account) (l : t) (id : BudgetId) : bool * t :=
  if forallb (fun b => match l !! b with Some a => test a | None => false end) (chain l id)
  then (true, foldl (fun l b => alter f b l) l (chain l id))
  else (false, l).

Definition at_generation (l : t) (id : BudgetId) (g : BudgetGeneration) (k : account -> bool * t) : bool * t :=
  match l !! id with
  | Some a => if gen_eqb (acc_generation a) g then k a else (false, l)
  | None => (false, l)
  end.

(** The operations of the contract. *)
Inductive op :=
| OpInstall (id : BudgetId) (g : BudgetGeneration) (p : option BudgetId) (auth : bool) (cap : Z)
| OpReserve (id : BudgetId) (z : Z) (g : BudgetGeneration)
| OpRelease (id : BudgetId) (z : Z) (g : BudgetGeneration)
| OpActivate (id : BudgetId) (z : Z) (g : BudgetGeneration)
| OpDeactivate (id : BudgetId) (z : Z) (g : BudgetGeneration).

Definition install (l : t) (id : BudgetId) (g : BudgetGeneration) (p : option BudgetId) (auth : bool) (cap : Z)
  : bool * t :=
  match l !! id with
  | None => (true, <[id := mkAccount g p auth cap 0 0]> l)
  | Some a =>
      if gen_leb g (acc_generation a) then (false, l)
      else (true, <[id := mkAccount g p auth cap (held a) (spent a)]> l)
  end.

Definition run (o : op) (l : t) : bool * t :=
  match o with
  | OpInstall id g p auth cap => install l id g p auth cap
  | OpReserve id z g =>
      at_generation l id g (fun a =>
        if acc_authoritative a then book (fits z) (add_held z) l id else (false, l))
  | OpRelease id z g => at_generation l id g (fun _ => book (fun a => z <=? held a) (add_held (- z)) l id)
  | OpActivate id z g => at_generation l id g (fun _ => book (fits z) (add_spent z) l id)
  | OpDeactivate id z g => at_generation l id g (fun _ => book (fun a => z <=? spent a) (add_spent (- z)) l id)
  end.

(** The invariant: nothing is booked beyond a capacity, and budgets form a
    forest. *)
Definition account_ok (a : account) : Prop :=
  0 <= held a /\ 0 <= spent a /\ held a + spent a <= capacity a < 2 ^ 52.
Definition ok (l : t) : Prop :=
  (forall id, NoDup (chain l id)) /\ forall b a, l !! b = Some a -> account_ok a.
End Ledger.

(** ** Amounts on the grid *)
Definition step_bits : Z := 1046.
Definition grid (x : double) : Prop :=
  isfinite x = true /\ exists k, val x = k * 2 ^ step_bits /\ 0 <= k < 2 ^ 52.
Definition steps (x : double) : Z := val x / 2 ^ step_bits.

Module Refinement.
Import BudgetManager BudgetFacts.

Lemma step_pos : 0 < 2 ^ step_bits.
Proof. apply pow2_pos. unfold step_bits. lia. Qed.

Lemma grid_steps (x : double) : grid x ->
  nonneg x /\ val x = steps x * 2 ^ step_bits /\ 0 <= steps x < 2 ^ 52.
Proof.
  intros (Hf & k & Hk & Hb). pose proof step_pos. unfold steps. rewrite Hk, Z.div_mul by lia.
  unfold nonneg. rewrite Hk. split_and!; try assumption; nia || lia.
Qed.

Lemma grid_intro (x : double) (k : Z) : isfinite x = true -> val x = k * 2 ^ step_bits -> 0 <= k < 2 ^ 52 ->
  grid x /\ steps x = k.
Proof.
  intros Hf Hk Hb. pose proof step_pos. split; [split; eauto|].
  unfold steps. rewrite Hk. apply Z.div_mul. lia.
Qed.

Lemma grid_limit (k : Z) : k <= 2 ^ 53 -> k * 2 ^ step_bits < val_limit.
Proof.
  intros Hk. pose proof step_pos.
  assert (2 ^ 53 * 2 ^ step_bits < val_limit) by reflexivity. nia.
Qed.

Lemma grid_on_grid (k : Z) : Z.abs k <= 2 ^ 53 -> on_grid step_bits (k * 2 ^ step_bits).
Proof. intros Hk. exists k. auto. Qed.

(** Exact updates. *)
Lemma grid_add (x y : double) : grid x -> grid y -> steps x + steps y < 2 ^ 52 ->
  grid (clamp (x + y)) /\ steps (clamp (x + y)) = steps x + steps y.
Proof.
  intros Hx Hy Hlt. apply grid_steps in Hx as (Hx & Ex & Bx). apply grid_steps in Hy as (Hy & Ey & By).
  apply grid_intro; [apply clamp_nonneg| |lia].
  assert (E : val x + val y = (steps x + steps y) * 2 ^ step_bits) by lia.
  rewrite (grid_add_exact step_bits) by (assumption || (unfold step_bits; lia) ||
    (rewrite E; solve [apply grid_on_grid; lia | apply grid_limit; lia])).
  exact E.
Qed.

Lemma grid_sub (x y : double) : grid x -> grid y -> steps y <= steps x ->
  grid (clamp (x - y)) /\ steps (clamp (x - y)) = steps x - steps y.
Proof.
  intros Hx Hy Hlt. apply grid_steps in Hx as (Hx & Ex & Bx). apply grid_steps in Hy as (Hy & Ey & By).
  apply grid_intro; [apply clamp_nonneg| |lia].
  assert (E : val x - val y = (steps x - steps y) * 2 ^ step_bits) by lia. pose proof step_pos.
  rewrite (grid_sub_exact step_bits); try assumption; try (unfold step_bits; lia); try nia.
  rewrite E. apply grid_on_grid. lia.
Qed.

(** The tolerance is less than half a step: the test is exact. *)
Lemma eps_half_step : 2 * val eps < 2 ^ step_bits.
Proof. reflexivity. Qed.

Lemma grid_test (c a : double) : grid c -> grid a -> (c + eps <? a)%float = (steps c <? steps a).
Proof.
  intros Hc Ha. apply grid_steps in Hc as (Hc & Ec & Bc). apply grid_steps in Ha as (Ha & Ea & Ba).
  pose proof eps_half_step as Heps. pose proof val_eps_pos. pose proof step_pos as Hs.
  set (s := 2 ^ step_bits) in *.
  destruct (Z.ltb_spec (steps c) (steps a)) as [Hlt|Hge].
  - destruct (c + eps <? a)%float eqn:E; [reflexivity|].
    apply add_ltb_false in E; [|apply Hc|apply eps_finite|apply Ha].
    assert (Hm : rnd (val c + val eps) <= rnd ((2 * steps c + 1) * 2 ^ (step_bits - 1))).
    { apply rnd_mono. assert (s = 2 * 2 ^ (step_bits - 1)) by reflexivity. lia. }
    rewrite (on_grid_rnd (step_bits - 1) ((2 * steps c + 1) * 2 ^ (step_bits - 1))) in Hm; [|unfold step_bits; lia|exists (2 * steps c + 1); split; [reflexivity|lia]].
    assert (s = 2 * 2 ^ (step_bits - 1)) by reflexivity. nia.
  - apply add_ltb_false_intro; try apply Hc; try apply Ha; try apply eps_finite; try apply val_eps_pos; [lia|].
    transitivity (val c); [nia|]. rewrite <- (rnd_val c) at 1. apply rnd_mono. lia.
Qed.

(** ** The abstraction *)
Definition abs_state (st : State) : Ledger.account :=
  Ledger.mkAccount (PowerBudget.generation (cfg st)) (PowerBudget.parent (cfg st))
    (PowerBudget.authoritative (cfg st)) (steps (value (PowerBudget.hard_max (cfg st))))
    (steps (value (reserved_ st))) (steps (value (used_ st))).

Definition abs (m : t) : Ledger.t := abs_state <$> m.

Definition grid_state (st : State) : Prop :=
  grid (value (PowerBudget.hard_max (cfg st))) /\ grid (value (reserved_ st)) /\ grid (value (used_ st)).

(** The simulation invariant. *)
Definition gridded (m : t) : Prop := (forall b st, m !! b = Some st -> grid_state st) /\ Ledger.ok (abs m).

Inductive call :=
| Install (b : PowerBudget.t)
| Reserve (id : BudgetId) (amount : Watts) (rid : ReservationId) (g : BudgetGeneration)
| Release (id : BudgetId) (amount : Watts) (rid : ReservationId) (g : BudgetGeneration)
| Activate (id : BudgetId) (amount : Watts) (rid : ReservationId) (g : BudgetGeneration)
| Deactivate (id : BudgetId) (amount : Watts) (rid : ReservationId) (g : BudgetGeneration).

Definition run (c : call) (m : t) : bool * t :=
  match c with
  | Install b => install m b
  | Reserve id a rid g => reserve m id a rid g
  | Release id a rid g => release m id a rid g
  | Activate id a rid g => activate m id a rid g
  | Deactivate id a rid g => deactivate m id a rid g
  end.

Definition abs_call (c : call) : Ledger.op :=
  match c with
  | Install b => Ledger.OpInstall (PowerBudget.id b) (PowerBudget.generation b) (PowerBudget.parent b)
                   (PowerBudget.authoritative b) (steps (value (PowerBudget.hard_max b)))
  | Reserve id a _ g => Ledger.OpReserve id (steps (value a)) g
  | Release id a _ g => Ledger.OpRelease id (steps (value a)) g
  | Activate id a _ g => Ledger.OpActivate id (steps (value a)) g
  | Deactivate id a _ g => Ledger.OpDeactivate id (steps (value a)) g
  end.

(** What the callers respect: amounts on the grid, and installations of a budget that
    is not at or above its own parent, with a maximum that is not below what is booked. *)
Definition room_kept (m : t) (b : PowerBudget.t) : Prop :=
  forall st, m !! PowerBudget.id b = Some st ->
    steps (value (reserved_ st)) + steps (value (used_ st)) <= steps (value (PowerBudget.hard_max b)).
Definition call_ok (m : t) (c : call) : Prop :=
  match c with
  | Install b => grid (value (PowerBudget.hard_max b)) /\ not_above m b /\ room_kept m b
  | Reserve _ a _ _ | Release _ a _ _ | Activate _ a _ _ | Deactivate _ a _ _ => grid (value a)
  end.

Lemma abs_lookup (m : t) (b : BudgetId) : abs m !! b = abs_state <$> m !! b.
Proof. apply lookup_fmap. Qed.

Lemma chain_abs (m : t) (id : BudgetId) : Ledger.chain (abs m) id = chain m id.
Proof.
  apply chain_loop_ext. intros b. unfold Ledger.parent_of, parent_of. rewrite abs_lookup.
  destruct (m !! b); reflexivity.
Qed.

Lemma book_chain (test : Ledger.account -> bool) (f : Ledger.account -> Ledger.account) (l : Ledger.t) (id id' : BudgetId) :
  (forall a, Ledger.acc_parent (f a) = Ledger.acc_parent a) ->
  Ledger.chain (Ledger.book test f l id).2 id' = Ledger.chain l id'.
Proof.
  intros Hf. unfold Ledger.book. destruct (forallb _ _); [|reflexivity]. cbn [snd]. apply chain_loop_ext. intros b.
  generalize (Ledger.chain l id). intros c. revert l. induction c as [|x c IH]; intros l; simpl; [reflexivity|].
  rewrite IH. unfold Ledger.parent_of. rewrite lookup_alter. case_decide; [subst|reflexivity].
  destruct (l !! b); simpl; rewrite ?Hf; reflexivity.
Qed.

(** Booking on the manager and on the ledger agree when the tests and the
    updates of one account do. *)
Section Book.
Context (testm : t -> BudgetId -> bool) (fm : State -> State).
Context (testl : Ledger.account -> bool) (fl : Ledger.account -> Ledger.account).
Hypothesis Hparent : forall a, Ledger.acc_parent (fl a) = Ledger.acc_parent a.
Hypothesis Htest : forall m b, testm m b =
  match m !! b with Some st => testm {[b := st]} b | None => false end.
Hypothesis Hagree : forall b st, grid_state st -> Ledger.account_ok (abs_state st) ->
  testm {[b := st]} b = testl (abs_state st).
Hypothesis Hupdate : forall st, grid_state st -> Ledger.account_ok (abs_state st) -> testl (abs_state st) = true ->
  grid_state (fm st) /\ abs_state (fm st) = fl (abs_state st) /\ Ledger.account_ok (fl (abs_state st)).

Lemma book_refines (m : t) (id : BudgetId) : gridded m ->
  let r := if forallb (testm m) (chain m id) then (true, update_chain fm (chain m id) m) else (false, m) in
  Ledger.book testl fl (abs m) id = (r.1, abs r.2) /\ gridded r.2.
Proof.
  intros (Hgrid & Hok & Hacc).
  assert (Hst : forall b st, m !! b = Some st -> grid_state st /\ Ledger.account_ok (abs_state st)).
  { intros b st E. split; [eauto|]. apply (Hacc b). rewrite abs_lookup, E. reflexivity. }
  assert (Hsame : forall b, testm m b = match abs m !! b with Some a => testl a | None => false end).
  { intros b. rewrite Htest, abs_lookup. destruct (m !! b) as [st|] eqn:E; simpl; [|reflexivity].
    apply Hagree; apply (Hst b st E). }
  pose proof (book_chain testl fl (abs m) id) as Hbc. specialize (Hok id) as Hnd. rewrite chain_abs in Hnd.
  unfold Ledger.book in *. rewrite chain_abs in *. rewrite <- (forallb_pointwise _ _ (chain m id) Hsame) in *.
  destruct (forallb (testm m) (chain m id)) eqn:Hall; cbn [fst snd] in *; [|split; [reflexivity|]; split; [exact Hgrid|split; assumption]].
  rewrite forallb_forall in Hall.
  assert (Hin : forall b st, b ∈ chain m id -> m !! b = Some st -> testl (abs_state st) = true).
  { intros b st Hb E. apply list_elem_of_In, Hall in Hb. rewrite Hsame, abs_lookup, E in Hb. exact Hb. }
  assert (Habs : foldl (fun l b => alter fl b l) (abs m) (chain m id) = abs (update_chain fm (chain m id) m)).
  { apply map_eq. intros b. rewrite foldl_alter_lookup, !abs_lookup, update_chain_lookup by assumption.
    destruct (decide (b ∈ chain m id)); [|reflexivity].
    destruct (m !! b) as [st|] eqn:E; simpl; [|reflexivity]. f_equal. symmetry.
    apply Hupdate; try apply (Hst b st E). eauto. }
  rewrite Habs in *. split; [reflexivity|]. split; [|split].
  - intros b st. rewrite update_chain_lookup by assumption.
    destruct (decide (b ∈ chain m id)) as [Hb|]; [|apply Hst].
    intros E. apply fmap_Some in E as (st' & E & ->). destruct (Hst _ _ E) as [Hg Ha]. apply (Hupdate _ Hg Ha (Hin _ _ Hb E)).
  - intros id'. rewrite Hbc by assumption. apply Hok.
  - intros b a. rewrite abs_lookup, update_chain_lookup by assumption.
    destruct (decide (b ∈ chain m id)) as [Hb|].
    + intros E. apply fmap_Some in E as (st & E & ->). apply fmap_Some in E as (st' & E & ->).
      destruct (Hst _ _ E) as [Hg Ha]. destruct (Hupdate _ Hg Ha (Hin _ _ Hb E)) as (_ & -> & Hok'). exact Hok'.
    + rewrite <- abs_lookup. apply Hacc.
Qed.
End Book.

(** ** The four bookings *)
Lemma has_room_single (m : t) (amount : Watts) (b : BudgetId) :
  has_room m amount b = match m !! b with Some st => has_room {[b := st]} amount b | None => false end.
Proof. unfold has_room. destruct (m !! b); [rewrite lookup_singleton_eq|]; reflexivity. Qed.

Lemma covers_single (sel : State -> Watts) (m : t) (amount : Watts) (b : BudgetId) :
  covers sel m amount b = match m !! b with Some st => covers sel {[b := st]} amount b | None => false end.
Proof. unfold covers. destruct (m !! b); [rewrite lookup_singleton_eq|]; reflexivity. Qed.

Lemma own_available_grid (st : State) : grid_state st -> Ledger.account_ok (abs_state st) ->
  grid (value (own_available st)) /\
  steps (value (own_available st)) =
    Ledger.capacity (abs_state st) - Ledger.held (abs_state st) - Ledger.spent (abs_state st).
Proof.
  intros (Hh & Hr & Hu) (Hr0 & Hu0 & Hle). simpl in *.
  destruct (grid_sub _ _ Hh Hr ltac:(lia)) as [G1 E1]. unfold own_available. cbn [value clamped].
  (* the intermediate difference is not clamped, and is nonnegative *)
  assert (Hc : clamp (value (PowerBudget.hard_max (cfg st)) - value (reserved_ st)) =
               (value (PowerBudget.hard_max (cfg st)) - value (reserved_ st))%float).
  { apply clamp_id. apply grid_steps in Hh as (Hh & Eh & Bh). apply grid_steps in Hr as (Hr & Er & Br).
    destruct (sub_nonneg_val _ _ Hh Hr) as [Hf E]. split; [assumption|]. rewrite E. apply rnd_nonneg.
    pose proof step_pos. nia. }
  rewrite Hc in *. destruct (grid_sub _ _ G1 Hu ltac:(lia)) as [G2 E2]. split; [assumption|]. lia.
Qed.

Lemma room_agrees (amount : Watts) (b : BudgetId) (st : State) :
  grid (value amount) -> grid_state st -> Ledger.account_ok (abs_state st) ->
  has_room {[b := st]} amount b = Ledger.fits (steps (value amount)) (abs_state st).
Proof.
  intros Ha Hst Hok. unfold has_room. rewrite lookup_singleton_eq.
  destruct (own_available_grid st Hst Hok) as [Hg E]. rewrite grid_test by assumption.
  rewrite E. unfold Ledger.fits. lia.
Qed.

Lemma covers_agrees (sel : State -> Watts) (amount : Watts) (b : BudgetId) (st : State) :
  grid (value amount) -> grid (value (sel st)) ->
  covers sel {[b := st]} amount b = (steps (value amount) <=? steps (value (sel st))).
Proof.
  intros Ha Hst. unfold covers. rewrite lookup_singleton_eq, grid_test by assumption. lia.
Qed.

Lemma grid_not_bad (amount : Watts) : grid (value amount) -> bad_amount amount = false.
Proof. intros H. apply bad_amount_nonneg, grid_steps, H. Qed.

Section Bookings.
Context (amount : Watts) (Ha : grid (value amount)).

Lemma reserve_refines (m : t) (id : BudgetId) : gridded m ->
  let r := if chain_has_capacity m id amount
           then (true, update_chain (set_reserved (fun r => (r + value amount)%float)) (chain m id) m) else (false, m) in
  Ledger.book (Ledger.fits (steps (value amount))) (Ledger.add_held (steps (value amount))) (abs m) id = (r.1, abs r.2) /\ gridded r.2.
Proof.
  intros Hm. apply (book_refines (fun m => has_room m amount)); try assumption; try reflexivity.
  - intros. apply has_room_single.
  - intros. apply room_agrees; assumption.
  - intros st (Hh & Hr & Hu) (H1 & H2 & H3) Hfit. unfold Ledger.fits in Hfit. simpl in *.
    pose proof (grid_steps _ Ha). destruct (grid_add _ _ Hr Ha ltac:(lia)) as [G E].
    split; [split_and!; assumption|]. unfold abs_state, Ledger.add_held, Ledger.account_ok. simpl. rewrite E.
    split; [reflexivity|lia].
Qed.

Lemma activate_refines (m : t) (id : BudgetId) : gridded m ->
  let r := if chain_has_capacity m id amount
           then (true, update_chain (set_used (fun r => (r + value amount)%float)) (chain m id) m) else (false, m) in
  Ledger.book (Ledger.fits (steps (value amount))) (Ledger.add_spent (steps (value amount))) (abs m) id = (r.1, abs r.2) /\ gridded r.2.
Proof.
  intros Hm. apply (book_refines (fun m => has_room m amount)); try assumption; try reflexivity.
  - intros. apply has_room_single.
  - intros. apply room_agrees; assumption.
  - intros st (Hh & Hr & Hu) (H1 & H2 & H3) Hfit. unfold Ledger.fits in Hfit. simpl in *.
    pose proof (grid_steps _ Ha). destruct (grid_add _ _ Hu Ha ltac:(lia)) as [G E].
    split; [split_and!; assumption|]. unfold abs_state, Ledger.add_spent, Ledger.account_ok. simpl. rewrite E.
    split; [reflexivity|lia].
Qed.

Lemma release_refines (m : t) (id : BudgetId) : gridded m ->
  let r := if forallb (covers reserved_ m amount) (chain m id)
           then (true, update_chain (set_reserved (fun r => (r - value amount)%float)) (chain m id) m) else (false, m) in
  Ledger.book (fun a => steps (value amount) <=? Ledger.held a) (Ledger.add_held (- steps (value amount))) (abs m) id = (r.1, abs r.2) /\ gridded r.2.
Proof.
  intros Hm. apply (book_refines (fun m => covers reserved_ m amount)); try assumption; try reflexivity.
  - intros. apply covers_single.
  - intros b st (Hh & Hr & Hu) _. apply covers_agrees; assumption.
  - intros st (Hh & Hr & Hu) (H1 & H2 & H3) Hfit. simpl in *.
    pose proof (grid_steps _ Ha). destruct (grid_sub _ _ Hr Ha ltac:(lia)) as [G E].
    split; [split_and!; assumption|]. unfold abs_state, Ledger.add_held, Ledger.account_ok. simpl. rewrite E.
    split; [f_equal; lia|lia].
Qed.

Lemma deactivate_refines (m : t) (id : BudgetId) : gridded m ->
  let r := if forallb (covers used_ m amount) (chain m id)
           then (true, update_chain (set_used (fun r => (r - value amount)%float)) (chain m id) m) else (false, m) in
  Ledger.book (fun a => steps (value amount) <=? Ledger.spent a) (Ledger.add_spent (- steps (value amount))) (abs m) id = (r.1, abs r.2) /\ gridded r.2.
Proof.
  intros Hm. apply (book_refines (fun m => covers used_ m amount)); try assumption; try reflexivity.
  - intros. apply covers_single.
  - intros b st (Hh & Hr & Hu) _. apply covers_agrees; assumption.
  - intros st (Hh & Hr & Hu) (H1 & H2 & H3) Hfit. simpl in *.
    pose proof (grid_steps _ Ha). destruct (grid_sub _ _ Hu Ha ltac:(lia)) as [G E].
    split; [split_and!; assumption|]. unfold abs_state, Ledger.add_spent, Ledger.account_ok. simpl. rewrite E.
    split; [f_equal; lia|lia].
Qed.
End Bookings.

Lemma steps_zero : steps 0 = 0 /\ grid 0.
Proof. split; [reflexivity|]. split; [reflexivity|]. exists 0. split; [reflexivity|lia]. Qed.

Lemma gridded_acyclic (m : t) : gridded m -> acyclic m.
Proof. intros [_ [Hnd _]] id. rewrite <- chain_abs. apply Hnd. Qed.

Lemma install_gridded (m : t) (b : PowerBudget.t) : gridded m -> call_ok m (Install b) -> gridded (install m b).2.
Proof.
  intros Hm (Hb & Hup & Hroom). assert (Hac := install_acyclic m b (gridded_acyclic m Hm) Hup).
  destruct Hm as [Hg [_ Hok]]. destruct steps_zero as [Hz Hgz]. pose proof (grid_steps _ Hb) as (_ & _ & Hcap).
  assert (H : forall b' st, (install m b).2 !! b' = Some st -> grid_state st /\ Ledger.account_ok (abs_state st)).
  { intros b' st. assert (Hold : m !! b' = Some st -> grid_state st /\ Ledger.account_ok (abs_state st)).
    { intros E. split; [apply (Hg b'), E|apply (Hok b'); rewrite abs_lookup, E; reflexivity]. }
    unfold install. destruct (m !! PowerBudget.id b) as [st0|] eqn:E; [destruct (gen_leb _ _); [exact Hold|]|];
      cbn [snd]; rewrite lookup_insert_Some; intros [[_ <-]|[_ Hst]]; try exact (Hold Hst).
    - destruct (Hg _ _ E) as (_ & Hr & Hu). specialize (Hroom _ E). split; [split_and!; assumption|].
      destruct (Hok (PowerBudget.id b) (abs_state st0)) as (H1 & H2 & _); [rewrite abs_lookup, E; reflexivity|].
      unfold Ledger.account_ok. simpl in *. lia.
    - split; [split_and!; assumption|]. unfold Ledger.account_ok. simpl. rewrite Hz. lia. }
  split; [intros b' st E; apply (H b' st E)|]. split; [intros id; rewrite chain_abs; apply Hac|].
  intros b' a. rewrite abs_lookup. intros (st & E & ->)%fmap_Some. apply (H b' st E).
Qed.

Lemma install_refines (m : t) (b : PowerBudget.t) : gridded m -> call_ok m (Install b) ->
  Ledger.run (abs_call (Install b)) (abs m) = ((install m b).1, abs (install m b).2) /\ gridded (install m b).2.
Proof.
  intros Hm Hc. split; [|apply install_gridded; assumption]. cbn [abs_call Ledger.run].
  unfold Ledger.install, install. rewrite abs_lookup.
  destruct (m !! PowerBudget.id b) as [st|]; simpl; [destruct (gen_leb _ _); [reflexivity|]|]; unfold abs at 2; simpl; unfold abs; rewrite fmap_insert;
    unfold abs_state at 2; simpl; rewrite ?(proj1 steps_zero); reflexivity.
Qed.

Lemma run_refines (m : t) (c : call) : gridded m -> call_ok m c ->
  Ledger.run (abs_call c) (abs m) = ((run c m).1, abs (run c m).2) /\ gridded (run c m).2.
Proof.
  intros Hm Hc. destruct c as [b|id a rid g|id a rid g|id a rid g|id a rid g]; [apply install_refines; assumption| | | |];
    simpl in Hc; cbn [abs_call Ledger.run run]; unfold Ledger.at_generation;
    rewrite abs_lookup; unfold reserve, release, activate, deactivate;
    destruct (m !! id) as [st|] eqn:E; try (split; [reflexivity|exact Hm]);
    cbn [fmap option_fmap option_map abs_state Ledger.acc_generation Ledger.acc_authoritative];
    destruct (gen_eqb _ g); try (split; [reflexivity|exact Hm]); cbn [negb];
    rewrite (grid_not_bad a Hc); rewrite !if_negb.
  - destruct (PowerBudget.authoritative _); cbn [negb]; [|split; [reflexivity|exact Hm]].
    apply reserve_refines; assumption.
  - apply release_refines; assumption.
  - apply activate_refines; assumption.
  - apply deactivate_refines; assumption.
Qed.

(** A history of calls, and the ledger's history of the same operations. *)
Fixpoint runs (l : list call) (m : t) : t :=
  match l with [] => m | c :: l => runs l (run c m).2 end.

Fixpoint calls_ok (l : list call) (m : t) : Prop :=
  match l with [] => True | c :: l => call_ok m c /\ calls_ok l (run c m).2 end.

Lemma gridded_empty : gridded ∅.
Proof.
  split; [intros b st; rewrite lookup_empty; discriminate|]. unfold abs. rewrite fmap_empty.
  split; [|intros b a; rewrite lookup_empty; discriminate]. intros id.
  unfold Ledger.chain, chain_limit. cbn [chain_loop]. destruct (is_valid id); [|constructor].
  unfold Ledger.parent_of. rewrite lookup_empty. apply NoDup_singleton.
Qed.

Lemma runs_gridded (l : list call) (m : t) : gridded m -> calls_ok l m -> gridded (runs l m).
Proof.
  revert m. induction l as [|c l IH]; intros m Hm; simpl; [trivial|]. intros [Hc Hl].
  apply IH; [|assumption]. apply run_refines; assumption.
Qed.
End Refinement.
