(* ===== verification/BudgetSpec.v ===== *)
(** * Properties of the budget manager

    The theorems about [Budget.BudgetManager]: no history overcommits a budget,
    what each operation checks and changes, the refinement of the exact ledger
    and its consequences, and where the accounting query and the activation
    depart from what they are meant to check. *)
From S2P Require Import Prelude Rounding Binary64 Util Units Ids Budget Ledger.
Local Open Scope Z_scope.
#[local] Arguments Z.mul : simpl never.
#[local] Arguments Z.add : simpl never.
#[local] Arguments Z.pow : simpl never.
#[local] Set Warnings "-inexact-float".
Import BudgetManager BudgetFacts.

(** ** Deciding the side conditions on concrete managers *)
Definition acyclicb (m : t) : bool := forallb (fun p => bool_decide (NoDup (chain m p.1))) (map_to_list m).

Lemma acyclicb_spec (m : t) : acyclicb m = true -> acyclic m.
Proof.
  unfold acyclicb. rewrite forallb_forall. intros H id. destruct (m !! id) as [st|] eqn:E.
  - specialize (H (id, st)). apply bool_decide_eq_true in H; [exact H|].
    apply list_elem_of_In, elem_of_map_to_list, E.
  - unfold chain, chain_limit. cbn [chain_loop]. destruct (is_valid id); [|constructor].
    unfold parent_of at 1. rewrite E. apply NoDup_singleton.
Qed.

Definition not_aboveb (m : t) (b : PowerBudget.t) : bool :=
  match PowerBudget.parent b with Some p => bool_decide (PowerBudget.id b ∉ chain m p) | None => true end.

Lemma not_aboveb_spec (m : t) (b : PowerBudget.t) : not_aboveb m b = true -> not_above m b.
Proof. unfold not_aboveb. intros H p E. rewrite E in H. apply bool_decide_eq_true in H. exact H. Qed.

Definition room_keptb (m : t) (b : PowerBudget.t) : bool :=
  match m !! PowerBudget.id b with
  | Some st => steps (value (reserved_ st)) + steps (value (used_ st)) <=? steps (value (PowerBudget.hard_max b))
  | None => true
  end.

Lemma room_keptb_spec (m : t) (b : PowerBudget.t) : room_keptb m b = true -> Refinement.room_kept m b.
Proof. unfold room_keptb. intros H st E. rewrite E in H. lia. Qed.

Definition gridb (x : double) : bool :=
  isfinite x && (0 <=? val x) && (val x mod 2 ^ step_bits =? 0) && (val x / 2 ^ step_bits <? 2 ^ 52).

Lemma gridb_spec (x : double) : gridb x = true -> grid x.
Proof.
  unfold gridb, grid. intros H. bool_hyps. split; [assumption|]. exists (val x / 2 ^ step_bits).
  pose proof Refinement.step_pos. split; [|split; [apply Z.div_pos; lia|lia]].
  rewrite Z.mul_comm. apply Z_div_exact_full_2; lia.
Qed.

Definition ledger_okb (l : Ledger.t) : bool :=
  forallb (fun p => bool_decide (NoDup (Ledger.chain l p.1)) && (0 <=? Ledger.held p.2) && (0 <=? Ledger.spent p.2)
    && (Ledger.held p.2 + Ledger.spent p.2 <=? Ledger.capacity p.2) && (Ledger.capacity p.2 <? 2 ^ 52)) (map_to_list l).

Lemma ledger_okb_spec (l : Ledger.t) : ledger_okb l = true -> Ledger.ok l.
Proof.
  unfold ledger_okb. rewrite forallb_forall. intros H.
  assert (Hin : forall b a, l !! b = Some a -> NoDup (Ledger.chain l b) /\ Ledger.account_ok a).
  { intros b a E. specialize (H (b, a)). cbn [fst snd] in H.
    assert (Hi : List.In (b, a) (map_to_list l)) by (apply list_elem_of_In, elem_of_map_to_list, E).
    specialize (H Hi). bool_hyps. unfold Ledger.account_ok.
    split; [apply (bool_decide_eq_true_1 _ ltac:(eassumption))|lia]. }
  split; [|intros b a E; apply (Hin b a E)]. intros id. destruct (l !! id) as [a|] eqn:E; [apply (Hin _ _ E)|].
  unfold Ledger.chain, chain_limit. cbn [chain_loop]. destruct (is_valid id); [|constructor].
  unfold Ledger.parent_of at 1. rewrite E. apply NoDup_singleton.
Qed.

(** ** A small hierarchy *)
Definition watts_budget (id : Z) (p : option BudgetId) (max : double) : PowerBudget.t :=
  PowerBudget.mk (mkId id) gen_first (mkId 1) gen_first p "b" (mkQ max) W0 W0 W0
    duration_zero duration_zero 50 true.
Definition root_id : BudgetId := mkId 1.
Definition leaf_id : BudgetId := mkId 2.
Definition rack : PowerBudget.t := watts_budget 1 None 100.
Definition node : PowerBudget.t := watts_budget 2 (Some root_id) 60.
Definition two_levels : t := (install (install ∅ rack).2 node).2.
Definition rid1 : ReservationId := mkId 7.

(** ** Safety *)

(** C1: in every history of successful calls from the empty manager whose callers respect
    what the class does not check, the tree of budgets stays acyclic, and each budget's
    reserved and used power are finite, nonnegative, and together at most the hard maximum,
    up to the tolerance [1e-9] and a relative error of [2^-50].  What the callers respect:
    the maximum of an installed budget is finite and not negative, and not lower than that
    of the budget it replaces, if any; the budget is not itself its parent or an ancestor
    of its parent; and what is reserved or activated is zero or above [1e-9] W. *)
Theorem budget_never_overcommitted (m : t) (b : BudgetId) (st : State) :
  reachable m -> m !! b = Some st ->
  acyclic m /\ nonneg (value (reserved_ st)) /\ nonneg (value (used_ st)) /\
  2 ^ 50 * (val (value (reserved_ st)) + val (value (used_ st)))
    <= (2 ^ 50 + 1) * (val (value (PowerBudget.hard_max (cfg st))) + val eps).
Proof.
  intros Hr E. destruct (reachable_ok m Hr) as [Hac Hok].
  destruct (Hok b st E) as [(_ & HR & HU) Hb]. split_and!; assumption.
Qed.

Lemma valid_budgetb (b : PowerBudget.t) : gridb (value (PowerBudget.hard_max b)) = true -> valid_budget b.
Proof. intros H. apply Refinement.grid_steps, gridb_spec, H. Qed.

Lemma two_levels_reachable : reachable two_levels.
Proof.
  apply (reachable_step (install ∅ rack).2).
  - apply (reachable_step ∅); [constructor|].
    apply (step_install _ _ rack); [apply valid_budgetb; vm_compute; reflexivity| | |reflexivity].
    + intros st. rewrite lookup_empty. discriminate.
    + apply not_aboveb_spec. vm_compute. reflexivity.
  - apply (step_install _ _ node); [apply valid_budgetb; vm_compute; reflexivity| | |reflexivity].
    + intros st E. vm_compute in E. discriminate E.
    + apply not_aboveb_spec. vm_compute. reflexivity.
Qed.

Definition leaf_booked : t := (reserve two_levels leaf_id (mkQ 25) rid1 gen_first).2.

Lemma leaf_booked_reachable : reachable leaf_booked.
Proof.
  apply (reachable_step two_levels); [apply two_levels_reachable|].
  apply (step_reserve _ _ leaf_id (mkQ 25) rid1 gen_first); [right|]; vm_compute; reflexivity.
Qed.

Lemma budget_never_overcommitted_witness :
  acyclic leaf_booked /\ nonneg 25 /\ nonneg 0 /\
  2 ^ 50 * (val 25 + val 0) <= (2 ^ 50 + 1) * (val 60 + val eps).
Proof.
  apply (budget_never_overcommitted leaf_booked leaf_id (mkState node (mkQ 25) W0));
    [apply leaf_booked_reachable|vm_compute; reflexivity].
Defined.

(** C13: on amounts of the grid, one call of the manager does what the exact
    ledger does on the abstraction of its state: the same answer, and the
    abstraction of the new state; and the new state is again on the grid, a forest, and
    booked within its maxima.  The state before is on the grid, a forest and booked within
    its maxima; the amount of the call is on the grid (multiples of [2^-28] W below
    [2^24] W); and a budget that is installed is not itself its parent or an ancestor of
    its parent, and has a maximum that is not below what it has booked. *)
Theorem manager_refines_ledger (m : t) (c : Refinement.call) :
  Refinement.gridded m -> Refinement.call_ok m c ->
  Ledger.run (Refinement.abs_call c) (Refinement.abs m)
    = ((Refinement.run c m).1, Refinement.abs (Refinement.run c m).2)
  /\ Refinement.gridded (Refinement.run c m).2.
Proof. apply Refinement.run_refines. Qed.

Lemma griddedb (m : t) :
  forallb (fun p => gridb (value (PowerBudget.hard_max (cfg p.2))) && gridb (value (reserved_ p.2))
    && gridb (value (used_ p.2))) (map_to_list m) = true ->
  ledger_okb (Refinement.abs m) = true -> Refinement.gridded m.
Proof.
  rewrite forallb_forall. intros Hg Hl. split; [|apply ledger_okb_spec, Hl]. intros b st E.
  assert (Hi : List.In (b, st) (map_to_list m)) by (apply list_elem_of_In, elem_of_map_to_list, E).
  specialize (Hg _ Hi). cbn [snd] in Hg. bool_hyps. split_and!; apply gridb_spec; assumption.
Qed.

Lemma leaf_booked_gridded : Refinement.gridded leaf_booked.
Proof. apply griddedb; vm_compute; reflexivity. Qed.

Lemma manager_refines_ledger_witness :
  let c := Refinement.Activate leaf_id (mkQ 12.5) rid1 gen_first in
  (Refinement.run c leaf_booked).1 = true /\
  Ledger.run (Refinement.abs_call c) (Refinement.abs leaf_booked)
    = ((Refinement.run c leaf_booked).1, Refinement.abs (Refinement.run c leaf_booked).2)
  /\ Refinement.gridded (Refinement.run c leaf_booked).2.
Proof.
  intros c. split; [vm_compute; reflexivity|].
  apply (manager_refines_ledger leaf_booked c); [apply leaf_booked_gridded|].
  apply gridb_spec. vm_compute. reflexivity.
Defined.

(** In every history of calls on the grid from the empty manager, answered
    yes or no, reserved plus used power of every budget is at most its hard
    maximum, exactly. *)
Theorem grid_accounting_exact (calls : list Refinement.call) (b : BudgetId) (st : State) :
  Refinement.calls_ok calls ∅ -> Refinement.runs calls ∅ !! b = Some st ->
  val (value (reserved_ st)) + val (value (used_ st)) <= val (value (PowerBudget.hard_max (cfg st))).
Proof.
  intros Hc E. destruct (Refinement.runs_gridded calls ∅ Refinement.gridded_empty Hc) as [Hg [_ Hok]].
  destruct (Hg b st E) as (Hh & Hr & Hu). specialize (Hok b (Refinement.abs_state st)).
  rewrite Refinement.abs_lookup, E in Hok. destruct (Hok eq_refl) as (H1 & H2 & H3). simpl in *.
  apply Refinement.grid_steps in Hh as (_ & -> & _), Hr as (_ & -> & _), Hu as (_ & -> & _).
  pose proof Refinement.step_pos. nia.
Qed.

Definition call_okb (m : t) (c : Refinement.call) : bool :=
  match c with
  | Refinement.Install b =>
      gridb (value (PowerBudget.hard_max b)) && not_aboveb m b && room_keptb m b
  | Refinement.Reserve _ a _ _ | Refinement.Release _ a _ _
  | Refinement.Activate _ a _ _ | Refinement.Deactivate _ a _ _ => gridb (value a)
  end.

Fixpoint calls_okb (l : list Refinement.call) (m : t) : bool :=
  match l with [] => true | c :: l => call_okb m c && calls_okb l (Refinement.run c m).2 end.

Lemma calls_okb_spec (l : list Refinement.call) (m : t) : calls_okb l m = true -> Refinement.calls_ok l m.
Proof.
  revert m. induction l as [|c l IH]; intros m H; [exact I|].
  cbn [calls_okb] in H. apply andb_prop in H as [Hc Hl]. split; [|apply IH, Hl].
  destruct c; cbn [call_okb] in Hc; try (apply gridb_spec; exact Hc).
  bool_hyps. split_and!; [apply gridb_spec|apply not_aboveb_spec|apply room_keptb_spec]; assumption.
Qed.

Definition sample_calls : list Refinement.call :=
  [Refinement.Install rack; Refinement.Install node;
   Refinement.Reserve leaf_id (mkQ 40) rid1 gen_first; Refinement.Reserve root_id (mkQ 60) rid1 gen_first;
   Refinement.Reserve leaf_id (mkQ 10) rid1 gen_first].

Lemma grid_accounting_exact_witness : val 40 + val 0 <= val 60.
Proof.
  apply (grid_accounting_exact sample_calls leaf_id (mkState node (mkQ 40) W0)); [|vm_compute; reflexivity].
  apply calls_okb_spec. vm_compute. reflexivity.
Defined.

(** ** What one call checks and changes *)

(** C14: on a forest, [reserve] answers yes exactly when the budget is installed
    under the generation given, is authoritative, the amount is finite and not
    negative, and every budget of the chain is installed with room for it; then
    it books the amount on every budget of the chain and on no other. *)
Theorem reserve_functional (m m' : t) (id : BudgetId) (a : Watts) (rid : ReservationId) (g : BudgetGeneration) :
  acyclic m ->
  reserve m id a rid g = (true, m') <->
  (exists st, m !! id = Some st /\ PowerBudget.generation (cfg st) = g /\ PowerBudget.authoritative (cfg st) = true) /\
  nonneg (value a) /\
  (forall b, b ∈ chain m id -> exists st, m !! b = Some st /\ (value (own_available st) + eps <? value a)%float = false) /\
  (forall b, m' !! b = if decide (b ∈ chain m id)
     then (fun st => mkState (cfg st) (clamped (value (reserved_ st) + value a)) (used_ st)) <$> m !! b
     else m !! b).
Proof.
  intros Hac. split.
  - intros H. pose proof (reserve_true _ _ _ _ _ _ H) as (_ & Ha & Hc & ->).
    split; [|split; [assumption|split]].
    + unfold reserve in H. destruct (m !! id) as [st|]; [|discriminate]. exists st.
      destruct (gen_eqb _ g) eqn:Hg; [|discriminate]. apply gen_eqb_eq in Hg.
      destruct (PowerBudget.authoritative _) eqn:Hauth; [auto|discriminate].
    + intros b Hb. unfold chain_has_capacity in Hc. rewrite forallb_forall in Hc.
      apply list_elem_of_In, Hc in Hb. unfold has_room in Hb. destruct (m !! b) as [st|]; [|discriminate].
      exists st. split; [reflexivity|]. apply negb_true_iff, Hb.
    + intros b. apply update_chain_lookup, Hac.
  - intros ((st & E & Hg & Hauth) & Ha & Hroom & Hm'). unfold reserve.
    rewrite E, Hg, Hauth, (proj2 (gen_eqb_eq g g) eq_refl), (proj2 (bad_amount_nonneg a) Ha). cbn [negb].
    assert (Hc : chain_has_capacity m id a = true).
    { apply forallb_forall. intros b Hb. apply list_elem_of_In in Hb. destruct (Hroom b Hb) as (st' & E' & Ht).
      unfold has_room. rewrite E', Ht. reflexivity. }
    rewrite Hc. cbn [negb]. f_equal. apply map_eq. intros b. rewrite Hm', update_chain_lookup by apply Hac. reflexivity.
Qed.

Lemma two_levels_acyclic : acyclic two_levels.
Proof. apply acyclicb_spec. vm_compute. reflexivity. Qed.

Lemma reserve_functional_witness :
  nonneg (value (mkQ (Tag := WattsTag) 25)) /\
  forall b, leaf_booked !! b = if decide (b ∈ chain two_levels leaf_id)
     then (fun st => mkState (cfg st) (clamped (value (reserved_ st) + 25)) (used_ st)) <$> two_levels !! b
     else two_levels !! b.
Proof.
  destruct (proj1 (reserve_functional two_levels leaf_booked leaf_id (mkQ 25) rid1 gen_first two_levels_acyclic)
    ltac:(vm_compute; reflexivity)) as (_ & Ha & _ & Hm). split; assumption.
Defined.

(** [install] accepts a configuration exactly when its identity is new or
    its generation is strictly newer; it then keeps the power reserved and used
    under that identity, and touches no other budget. *)
Theorem install_functional (m m' : t) (b : PowerBudget.t) (ok : bool) :
  install m b = (ok, m') <->
  (ok = true /\ m !! PowerBudget.id b = None /\ m' = <[PowerBudget.id b := mkState b W0 W0]> m) \/
  (exists st, m !! PowerBudget.id b = Some st /\
     ((ok = true /\ gen_raw (PowerBudget.generation (cfg st)) < gen_raw (PowerBudget.generation b) /\
       m' = <[PowerBudget.id b := mkState b (reserved_ st) (used_ st)]> m) \/
      (ok = false /\ gen_raw (PowerBudget.generation b) <= gen_raw (PowerBudget.generation (cfg st)) /\ m' = m))).
Proof.
  unfold install, gen_leb. destruct (m !! PowerBudget.id b) as [st|] eqn:E.
  - destruct (Z.leb_spec (gen_raw (PowerBudget.generation b)) (gen_raw (PowerBudget.generation (cfg st)))); split.
    + intros [= <- <-]. right. exists st. auto.
    + intros [(_ & [=] & _)|(st' & [= <-] & [(_ & ? & _)|(-> & _ & ->)])]; [lia|reflexivity].
    + intros [= <- <-]. right. exists st. auto.
    + intros [(_ & [=] & _)|(st' & [= <-] & [(-> & ? & ->)|(_ & ? & _)])]; [reflexivity|lia].
  - split; [intros [= <- <-]; left; auto|].
    intros [(-> & _ & ->)|(st' & [=] & _)]. reflexivity.
Qed.

(** No call removes a budget or moves its generation back; a call that
    leaves the generation leaves the whole configuration; and a call answered
    no changes nothing at all. *)
Theorem calls_monotone (m : t) (c : Refinement.call) :
  (forall b st, m !! b = Some st -> exists st', (Refinement.run c m).2 !! b = Some st' /\
     gen_raw (PowerBudget.generation (cfg st)) <= gen_raw (PowerBudget.generation (cfg st')) /\
     (PowerBudget.generation (cfg st') = PowerBudget.generation (cfg st) -> cfg st' = cfg st)) /\
  ((Refinement.run c m).1 = false -> (Refinement.run c m).2 = m).
Proof.
  assert (Hup : forall f l b st, keeps_cfg f -> m !! b = Some st ->
    exists st', update_chain f l m !! b = Some st' /\ cfg st' = cfg st).
  { intros f l b st Hf. unfold update_chain. generalize m. revert st. induction l as [|x l IH]; intros st m0 E; simpl; [eauto|].
    destruct (decide (x = b)) as [->|Hne].
    - destruct (IH (f st) (alter f b m0)) as (st' & -> & E'); [rewrite lookup_alter_eq, E; reflexivity|].
      exists st'. split; [reflexivity|]. rewrite E'. apply Hf.
    - apply IH. rewrite lookup_alter_ne by assumption. exact E. }
  split.
  - intros b st E.
    assert (Hsame : forall st', cfg st' = cfg st ->
      gen_raw (PowerBudget.generation (cfg st)) <= gen_raw (PowerBudget.generation (cfg st')) /\
      (PowerBudget.generation (cfg st') = PowerBudget.generation (cfg st) -> cfg st' = cfg st))
      by (intros st' ->; split; [lia|auto]).
    destruct c as [b0|id a rid g|id a rid g|id a rid g|id a rid g]; cbn [Refinement.run];
      unfold reserve, release, activate, deactivate.
    + unfold install. destruct (decide (PowerBudget.id b0 = b)) as [<-|Hne].
      * rewrite E. unfold gen_leb. destruct (Z.leb_spec (gen_raw (PowerBudget.generation b0)) (gen_raw (PowerBudget.generation (cfg st)))) as [?|Hlt]; cbn [snd]; [eauto|].
        eexists. split; [apply lookup_insert_eq|]. cbn [cfg]. split; [lia|]. intros Hg. rewrite Hg in Hlt. lia.
      * exists st. split; [|auto]. repeat split_match; cbn [snd]; rewrite ?lookup_insert_ne; assumption.
    + repeat split_match; cbn [snd]; eauto. edestruct Hup as (st' & -> & ?); eauto using set_reserved_keeps.
    + repeat split_match; cbn [snd]; eauto. edestruct Hup as (st' & -> & ?); eauto using set_reserved_keeps.
    + repeat split_match; cbn [snd]; eauto. edestruct Hup as (st' & -> & ?); eauto using set_used_keeps.
    + repeat split_match; cbn [snd]; eauto. edestruct Hup as (st' & -> & ?); eauto using set_used_keeps.
  - destruct c; simpl; [unfold install|unfold reserve|unfold release|unfold activate|unfold deactivate];
      repeat split_match; cbn [fst snd]; congruence.
Qed.

(** ** The room reported by [available] *)

(** The test is monotone in the room. *)
Lemma room_test_mono (c c' a : double) : nonneg c -> nonneg c' -> isfinite a = true -> val c <= val c' ->
  (c + eps <? a)%float = false -> (c' + eps <? a)%float = false.
Proof.
  intros [Hc Hc0] [Hc' Hc0'] Ha Hle Ht. pose proof val_eps_pos.
  apply add_ltb_false in Ht; auto using eps_finite.
  apply add_ltb_false_intro; auto using eps_finite; try lia.
  pose proof (rnd_mono (val c + val eps) (val c' + val eps) ltac:(lia)). lia.
Qed.

Lemma fmin_nonneg (a b : double) : nonneg a -> nonneg b ->
  nonneg (fmin a b) /\ val (fmin a b) = Z.min (val a) (val b) /\ (fmin a b = a \/ fmin a b = b).
Proof.
  intros Ha Hb. unfold fmin. rewrite ltb_val by (apply Ha || apply Hb).
  destruct (Z.ltb_spec (val b) (val a)); split_and!; auto; lia.
Qed.

Lemma quantity_watts (v : double) : nonneg v -> quantity v = Ret (mkQ (Tag := WattsTag) v).
Proof.
  intros Hv. change v with (value (mkQ (Tag := WattsTag) v)) at 1. apply valid_quantity_make.
  apply valid_nonneg; [apply nonneg_Watts|exact Hv].
Qed.

Definition is_installed (m : t) (b : BudgetId) : bool := match m !! b with Some _ => true | None => false end.

Lemma available_loop_spec (m : t) (l : list BudgetId) (av : Watts) : nonneg (value av) ->
  exists a, available_loop m l av = Ret a /\ nonneg (value a) /\
    (forallb (is_installed m) l = false -> value a = 0%float) /\
    (forallb (is_installed m) l = true -> val (value a) <= val (value av) /\
      (forall b st, b ∈ l -> m !! b = Some st -> val (value a) <= val (value (own_available st))) /\
      (a = av \/ exists b st, b ∈ l /\ m !! b = Some st /\ a = own_available st)).
Proof.
  revert av. induction l as [|b l IH]; intros av Hav; cbn [available_loop forallb].
  { exists av. split_and!; auto; try discriminate. intros _. split_and!; [lia| |auto].
    intros b st Hb. apply elem_of_nil in Hb as []. }
  unfold is_installed at 1 3. destruct (m !! b) as [st|] eqn:E; cbn [andb].
  2: { exists W0. split_and!; try discriminate; auto; apply (clamp_nonneg 0). }
  assert (Hst : nonneg (value (own_available st))) by apply clamp_nonneg.
  destruct (fmin_nonneg _ _ Hav Hst) as (Hm & Hv & Hor). rewrite quantity_watts by exact Hm. cbn [obind].
  destruct (IH (mkQ (fmin (value av) (value (own_available st)))) Hm) as (a & Ha & Hn & H0 & H1).
  exists a. split_and!; auto. intros Hall. destruct (H1 Hall) as (Hle & Hb & Hat). cbn [value] in Hle.
  split_and!; [lia| |].
  - intros b' st' Hin E'. apply elem_of_cons in Hin as [->|Hin]; [|eauto].
    rewrite E in E'. injection E' as <-. lia.
  - destruct Hat as [->|(b' & st' & Hin & E' & ->)].
    + destruct Hor as [Hr|Hr]; rewrite Hr.
      * left. destruct av. reflexivity.
      * right. exists b, st. split_and!; [left|assumption|]. destruct (own_available st). reflexivity.
    + right. exists b', st'. split_and!; auto. right. assumption.
Qed.

(** On a valid installed budget [available] never fails, and the power it
    reports is the threshold of the capacity test: an amount passes the test on
    the whole chain exactly when it passes it against the reported power (when
    an ancestor is missing, nothing passes and zero is reported). *)
Theorem available_is_threshold (m : t) (id : BudgetId) (st : State) :
  is_valid id = true -> m !! id = Some st ->
  exists av, available m id = Ret av /\ nonneg (value av) /\
    (forallb (is_installed m) (chain m id) = false -> value av = 0%float) /\
    forall a : Watts, nonneg (value a) ->
      chain_has_capacity m id a =
      forallb (is_installed m) (chain m id) && negb (value av + eps <? value a)%float.
Proof.
  intros Hid E. unfold available. rewrite E.
  destruct (available_loop_spec m (chain m id) (own_available st) (clamp_nonneg _)) as (av & Hav & Hn & H0 & H1).
  exists av. split_and!; auto. intros a Ha. unfold chain_has_capacity.
  destruct (forallb (is_installed m) (chain m id)) eqn:Hall; cbn [andb].
  - destruct (H1 eq_refl) as (_ & Hle & Hat). clear H0 H1.
    assert (Hex : exists b st', b ∈ chain m id /\ m !! b = Some st' /\ av = own_available st').
    { destruct Hat as [->|Hex]; [|exact Hex]. exists id, st. split_and!; auto. apply chain_loop_head, Hid. }
    apply eq_true_iff_eq. rewrite forallb_forall, negb_true_iff. split.
    + intros Hr. destruct Hex as (b & st' & Hb & E' & ->). apply list_elem_of_In, Hr in Hb.
      apply (has_room_state m a b st' E' Hb).
    + intros Ht b Hb. rewrite forallb_forall in Hall. pose proof (Hall b Hb) as Hi. unfold is_installed in Hi.
      destruct (m !! b) as [st'|] eqn:E'; [|discriminate]. unfold has_room. rewrite E'. apply negb_true_iff.
      apply (room_test_mono (value av)); auto; try apply clamp_nonneg; [apply Ha|].
      apply (Hle b); [apply list_elem_of_In, Hb|assumption].
  - apply not_true_iff_false. rewrite forallb_forall. intros Hr. apply not_true_iff_false in Hall. apply Hall.
    apply forallb_forall. intros b Hb. apply Hr in Hb. unfold has_room, is_installed in *.
    destruct (m !! b); [reflexivity|discriminate].
Qed.

Lemma available_is_threshold_witness :
  exists av, available leaf_booked leaf_id = Ret av /\ nonneg (value av) /\
    (forallb (is_installed leaf_booked) (chain leaf_booked leaf_id) = false -> value av = 0%float) /\
    forall a : Watts, nonneg (value a) ->
      chain_has_capacity leaf_booked leaf_id a =
      forallb (is_installed leaf_booked) (chain leaf_booked leaf_id) && negb (value av + eps <? value a)%float.
Proof.
  apply (available_is_threshold leaf_booked leaf_id (mkState node (mkQ 25) W0)); vm_compute; reflexivity.
Defined.

(** ** Sequences of calls, through the ledger *)
Lemma book_true (test : Ledger.account -> bool) (f : Ledger.account -> Ledger.account) (l l' : Ledger.t) (id : BudgetId) :
  NoDup (Ledger.chain l id) ->
  Ledger.book test f l id = (true, l') <->
  (forall b, b ∈ Ledger.chain l id -> exists a, l !! b = Some a /\ test a = true) /\
  (forall b, l' !! b = if decide (b ∈ Ledger.chain l id) then f <$> l !! b else l !! b).
Proof.
  intros Hnd. unfold Ledger.book. split.
  - destruct (forallb _ _) eqn:E; [|discriminate]. intros [= <-]. rewrite forallb_forall in E. split.
    + intros b Hb. apply list_elem_of_In, E in Hb. destruct (l !! b) as [a|]; [eauto|discriminate].
    + intros b. apply foldl_alter_lookup, Hnd.
  - intros [Ht Hl']. rewrite (proj2 (forallb_forall _ _)).
    + f_equal. apply map_eq. intros b. rewrite Hl'. apply foldl_alter_lookup, Hnd.
    + intros b Hb. apply list_elem_of_In, Ht in Hb as (a & -> & Ha). exact Ha.
Qed.

Lemma ledger_reserve_true (l l' : Ledger.t) (id : BudgetId) (z : Z) (g : BudgetGeneration) : Ledger.ok l ->
  Ledger.run (Ledger.OpReserve id z g) l = (true, l') ->
  (exists a, l !! id = Some a /\ Ledger.acc_generation a = g) /\
  (exists a', l' !! id = Some a' /\ Ledger.acc_generation a' = g) /\
  (forall b, Ledger.chain l' b = Ledger.chain l b) /\
  (forall b, b ∈ Ledger.chain l id -> exists a, l !! b = Some a /\ l' !! b = Some (Ledger.add_held z a)) /\
  (forall b, b ∉ Ledger.chain l id -> l' !! b = l !! b).
Proof.
  intros [Hnd _]. unfold Ledger.run, Ledger.at_generation. destruct (l !! id) as [a|] eqn:E; [|discriminate].
  destruct (gen_eqb _ g) eqn:Hg; [|discriminate]. apply gen_eqb_eq in Hg.
  destruct (Ledger.acc_authoritative a); [|discriminate]. intros H.
  pose proof (Refinement.book_chain (Ledger.fits z) (Ledger.add_held z) l id) as Hch. rewrite H in Hch.
  apply book_true in H as [Ht Hl']; [|apply Hnd].
  assert (Hin : forall b, b ∈ Ledger.chain l id -> exists a, l !! b = Some a /\ l' !! b = Some (Ledger.add_held z a)).
  { intros b Hb. destruct (Ht b Hb) as (a0 & E0 & _). exists a0. rewrite Hl', decide_True, E0 by assumption. auto. }
  split_and!; [eauto| |intros b; apply Hch; reflexivity|exact Hin|].
  - rewrite Hl', E. destruct (decide _); [|eauto]. exists (Ledger.add_held z a). auto.
  - intros b Hb. rewrite Hl', decide_False by assumption. reflexivity.
Qed.

(** Releasing what was just reserved succeeds, whoever asks, and restores
    every account of the ledger exactly (on the grid). *)
Theorem reserve_release_roundtrip (m m1 : t) (id : BudgetId) (a : Watts) (rid rid' : ReservationId) (g : BudgetGeneration) :
  Refinement.gridded m -> grid (value a) -> reserve m id a rid g = (true, m1) ->
  exists m2, release m1 id a rid' g = (true, m2) /\ Refinement.abs m2 = Refinement.abs m.
Proof.
  intros Hm Ha Hr.
  destruct (Refinement.run_refines m (Refinement.Reserve id a rid g) Hm Ha) as [HL Hm1].
  cbn [Refinement.run Refinement.abs_call] in HL, Hm1. rewrite Hr in HL, Hm1. cbn [fst snd] in HL, Hm1.
  destruct (Refinement.run_refines m1 (Refinement.Release id a rid' g) Hm1 Ha) as [HL2 Hm2].
  cbn [Refinement.run Refinement.abs_call] in HL2, Hm2.
  set (z := steps (value a)) in *. set (l := Refinement.abs m) in *. set (l1 := Refinement.abs m1) in *.
  pose proof (proj2 Hm) as Hok. pose proof (proj2 Hm1) as Hok1. pose proof (proj1 Hok1 id) as Hnd1.
  destruct (ledger_reserve_true l l1 id z g Hok HL) as (_ & (a1 & E1 & Hg1) & Hch & Hin & Hout).
  assert (HB : Ledger.run (Ledger.OpRelease id z g) l1 = (true, l)).
  { unfold Ledger.run, Ledger.at_generation. rewrite E1, Hg1, (proj2 (gen_eqb_eq g g) eq_refl).
    apply book_true; [exact Hnd1|]. rewrite Hch. split.
    - intros b Hb. destruct (Hin b Hb) as (a0 & E0 & E0'). eexists. split; [exact E0'|].
      destruct (proj2 Hok b a0 E0) as [? _]. simpl. lia.
    - intros b. destruct (decide (b ∈ Ledger.chain l id)) as [Hb|Hb]; [|symmetry; apply Hout, Hb].
      destruct (Hin b Hb) as (a0 & E0 & E0'). rewrite E0, E0'. destruct a0. simpl. unfold Ledger.add_held. simpl.
      do 2 f_equal. lia. }
  rewrite HB in HL2. destruct (release m1 id a rid' g) as [ok m2]. cbn [fst snd] in HL2. injection HL2 as <- HL2.
  exists m2. auto.
Qed.

Lemma two_levels_gridded : Refinement.gridded two_levels.
Proof. apply griddedb; vm_compute; reflexivity. Qed.

Lemma reserve_release_roundtrip_witness :
  exists m2, release leaf_booked leaf_id (mkQ 25) (mkId 99) gen_first = (true, m2) /\
    Refinement.abs m2 = Refinement.abs two_levels.
Proof.
  apply (reserve_release_roundtrip two_levels leaf_booked leaf_id (mkQ 25) rid1 (mkId 99) gen_first);
    [apply two_levels_gridded|apply gridb_spec|]; vm_compute; reflexivity.
Defined.

(** Activating a reservation books its power a second time: right after a
    reservation of an amount succeeded, its activation succeeds exactly when
    every budget of the chain had room for twice the amount before (on the
    grid).  A reservation of more than half of the free room cannot start. *)
Theorem activation_needs_room_twice (m m1 : t) (id : BudgetId) (a : Watts) (rid : ReservationId) (g : BudgetGeneration) :
  Refinement.gridded m -> grid (value a) -> reserve m id a rid g = (true, m1) ->
  (activate m1 id a rid g).1 = true <->
  forall b st, b ∈ chain m id -> m !! b = Some st ->
    2 * val (value a) <= val (value (PowerBudget.hard_max (cfg st))) - val (value (reserved_ st)) - val (value (used_ st)).
Proof.
  intros Hm Ha Hr.
  destruct (Refinement.run_refines m (Refinement.Reserve id a rid g) Hm Ha) as [HL Hm1].
  cbn [Refinement.run Refinement.abs_call] in HL, Hm1. rewrite Hr in HL, Hm1. cbn [fst snd] in HL, Hm1.
  destruct (Refinement.run_refines m1 (Refinement.Activate id a rid g) Hm1 Ha) as [HL2 _].
  cbn [Refinement.run Refinement.abs_call] in HL2.
  set (z := steps (value a)) in *. set (l := Refinement.abs m) in *. set (l1 := Refinement.abs m1) in *.
  destruct (ledger_reserve_true l l1 id z g (proj2 Hm) HL) as (_ & (a1 & E1 & Hg1) & Hch & Hin & _).
  assert (Hiff : forall b st, m !! b = Some st ->
    (2 * val (value a) <= val (value (PowerBudget.hard_max (cfg st))) - val (value (reserved_ st)) - val (value (used_ st))
     <-> z <= Ledger.capacity (Refinement.abs_state st) - Ledger.held (Refinement.abs_state st) - z - Ledger.spent (Refinement.abs_state st))).
  { intros b st E. destruct (proj1 Hm b st E) as (Hh & Hr' & Hu). simpl. unfold z.
    apply Refinement.grid_steps in Hh as (_ & -> & _), Hr' as (_ & -> & _), Hu as (_ & -> & _), Ha as (_ & -> & _).
    pose proof Refinement.step_pos. nia. }
  assert (H1 : (activate m1 id a rid g).1 = (Ledger.run (Ledger.OpActivate id z g) l1).1) by (rewrite HL2; reflexivity).
  rewrite H1. unfold Ledger.run, Ledger.at_generation. rewrite E1, Hg1, (proj2 (gen_eqb_eq g g) eq_refl).
  unfold Ledger.book. rewrite Hch. rewrite <- (Refinement.chain_abs m id). fold l.
  assert (Hfst : forall (c : bool) (x y : Ledger.t), (if c then (true, x) else (false, y)).1 = c) by (intros []; reflexivity).
  rewrite Hfst, forallb_forall. split.
  - intros Hall b st Hb E. apply (Hiff b st E). specialize (Hall b (proj1 (list_elem_of_In _ _) Hb)).
    destruct (Hin b Hb) as (a0 & E0 & E0'). rewrite E0' in Hall. unfold l in E0. rewrite Refinement.abs_lookup, E in E0.
    injection E0 as <-. unfold Ledger.fits in Hall. simpl in *. lia.
  - intros Hall b Hb. apply list_elem_of_In in Hb. destruct (Hin b Hb) as (a0 & E0 & ->).
    unfold l in E0. rewrite Refinement.abs_lookup in E0. apply fmap_Some in E0 as (st & E & ->).
    specialize (proj1 (Hiff b st E) (Hall b st Hb E)). unfold Ledger.fits. simpl. lia.
Qed.

Lemma activation_needs_room_twice_witness :
  (activate leaf_booked leaf_id (mkQ 25) rid1 gen_first).1 = true <->
  forall b st, b ∈ chain two_levels leaf_id -> two_levels !! b = Some st ->
    2 * val 25 <= val (value (PowerBudget.hard_max (cfg st))) - val (value (reserved_ st)) - val (value (used_ st)).
Proof.
  apply (activation_needs_room_twice two_levels leaf_booked leaf_id (mkQ 25) rid1 gen_first);
    [apply two_levels_gridded|apply gridb_spec|]; vm_compute; reflexivity.
Defined.

(** ** Where the manager departs from its contract *)

(** The audit [accounting_consistent] adds the tolerance to the wrong side:
    a manager in which some budget below [2^22] W is booked exactly to its hard
    maximum, a state the operations reach, is reported as inconsistent. *)
Theorem full_budget_reported_inconsistent (m : t) (b : BudgetId) (st : State) :
  m !! b = Some st -> wf_state st ->
  isfinite (value (reserved_ st) + value (used_ st)) = true ->
  val (value (reserved_ st) + value (used_ st)) = val (value (PowerBudget.hard_max (cfg st))) ->
  val (value (PowerBudget.hard_max (cfg st))) < 2 ^ (22 + 1074) ->
  accounting_consistent m = false.
Proof.
  intros E ((Hf & H0) & HR & HU) Hsf Hsum Hlt. unfold accounting_consistent.
  apply not_true_iff_false. rewrite forallb_forall. intros Hall.
  specialize (Hall (b, st)). cbn [snd] in Hall.
  assert (Hin : List.In (b, st) (map_to_list m)) by (apply list_elem_of_In, elem_of_map_to_list, E).
  specialize (Hall Hin). unfold state_consistent in Hall. apply negb_true_iff in Hall.
  set (x := (value (reserved_ st) + value (used_ st))%float) in *.
  destruct (add_cases x eps Hsf eps_finite) as [(Hxf & Ex & _)|(_ & _ & Habs)].
  - rewrite ltb_val in Hall by assumption. rewrite Ex, Hsum in Hall.
    pose proof (rnd_error (val (value (PowerBudget.hard_max (cfg st))) + val eps)) as Herr.
    assert (2 ^ (22 + 1074) + val eps < 2 ^ 53 * val eps) by reflexivity. lia.
  - pose proof (rnd_error (val x + val eps)) as Herr. rewrite Hsum in *.
    pose proof val_eps_pos. pose proof (rnd_nonneg (val (value (PowerBudget.hard_max (cfg st))) + val eps) ltac:(lia)).
    assert (2 * (2 ^ (22 + 1074) + val eps) < val_limit) by reflexivity. lia.
Qed.

Definition rack_full : t := (reserve (install ∅ rack).2 root_id (mkQ 100) rid1 gen_first).2.

Lemma rack_full_reached : reserve (install ∅ rack).2 root_id (mkQ 100) rid1 gen_first = (true, rack_full).
Proof. vm_compute. reflexivity. Qed.

Lemma nonnegb (x : double) : isfinite x && (0 <=? val x) = true -> nonneg x.
Proof. intros H. bool_hyps. split; [assumption|lia]. Qed.

Lemma full_budget_reported_inconsistent_witness : accounting_consistent rack_full = false.
Proof.
  apply (full_budget_reported_inconsistent rack_full root_id (mkState rack (mkQ 100) W0));
    [vm_compute; reflexivity|split_and!; apply nonnegb| | |]; vm_compute; reflexivity.
Defined.

(** A budget installed as its own parent: one reservation of 10 W is booked
    sixty-five times, six times over the hard maximum. *)
Lemma self_parent_overbooked :
  let m := (install ∅ (watts_budget 5 (Some (mkId 5)) 100)).2 in
  let r := reserve m (mkId 5) (mkQ 10) rid1 gen_first in
  r.1 = true /\ value (reserved r.2 (mkId 5)) = 650%float.
Proof. vm_compute. split; reflexivity. Qed.

(** Amounts up to the tolerance pass the test of a full budget, and go on
    passing it: the booking creeps over the maximum. *)
Lemma tolerance_always_fits (m : t) (id : BudgetId) (a : Watts) :
  nonneg (value a) -> val (value a) <= val eps -> forallb (is_installed m) (chain m id) = true ->
  chain_has_capacity m id a = true.
Proof.
  intros Ha Hle Hall. apply forallb_forall. intros b Hb. rewrite forallb_forall in Hall. apply Hall in Hb.
  unfold is_installed, has_room in *. destruct (m !! b) as [st|]; [|discriminate]. apply negb_true_iff.
  apply (room_test_mono 0); [apply (clamp_nonneg 0)|apply clamp_nonneg|apply Ha|apply clamp_nonneg|].
  apply add_ltb_false_intro; [apply isfinite_zero|apply eps_finite|apply Ha|apply Z.le_refl|apply Z.lt_le_incl, val_eps_pos|].
  rewrite val_zero, Z.add_0_l, rnd_val. exact Hle.
Qed.

(** A hierarchy deeper than sixty-five levels: the walk stops before the root,
    whose maximum is then neither checked nor booked. *)
Lemma walk_truncated (m : t) (id : BudgetId) : (length (chain m id) <= 65)%nat.
Proof. apply chain_loop_length. Qed.
