(* ===== verification/Authority.v ===== *)
(** * Authority envelopes and fencing (authority.hpp)

    A message carries an envelope of an epoch, a worker boot and six
    generations; the gate holds the current authority and the high-water mark of
    each generation.  [check] decides, [adopt] raises the marks. *)
From S2P Require Import Prelude Ids.
Local Open Scope Z_scope.

Record AuthorityEnvelope := mkEnvelope {
  env_epoch : CoordinatorEpoch;
  env_boot : WorkerBootId;
  env_policy : PolicyGeneration;
  env_budget : BudgetGeneration;
  env_reservation : ReservationGeneration;
  env_observation : ObservationGeneration;
  env_decision : DecisionGeneration;
  env_device : DeviceGeneration }.

#[export] Instance AuthorityEnvelope_eq_dec : EqDecision AuthorityEnvelope.
Proof. solve_decision. Defined.

Definition null_envelope : AuthorityEnvelope :=
  mkEnvelope gen_null invalid_id gen_null gen_null gen_null gen_null gen_null gen_null.

Definition has_epoch_boot (e : AuthorityEnvelope) : bool :=
  negb (is_null (env_epoch e)) && is_valid (env_boot e).

Module AuthorityGate.
Inductive Verdict :=
| ACCEPT | STALE_EPOCH | STALE_BOOT | STALE_POLICY | STALE_BUDGET | STALE_RESERVATION
| STALE_OBSERVATION | STALE_DECISION | STALE_DEVICE | INVALID.

#[export] Instance Verdict_eq_dec : EqDecision Verdict.
Proof. solve_decision. Defined.

Definition verdict_to_string (v : Verdict) : string :=
  match v with
  | ACCEPT => "ACCEPT"
  | STALE_EPOCH => "STALE_EPOCH"
  | STALE_BOOT => "STALE_BOOT"
  | STALE_POLICY => "STALE_POLICY"
  | STALE_BUDGET => "STALE_BUDGET"
  | STALE_RESERVATION => "STALE_RESERVATION"
  | STALE_OBSERVATION => "STALE_OBSERVATION"
  | STALE_DECISION => "STALE_DECISION"
  | STALE_DEVICE => "STALE_DEVICE"
  | INVALID => "INVALID"
  end.

(** The members of the gate are those of an envelope. *)
Record t := mk {
  epoch : CoordinatorEpoch;
  boot : WorkerBootId;
  policy : PolicyGeneration;
  budget : BudgetGeneration;
  reservation : ReservationGeneration;
  observation : ObservationGeneration;
  decision : DecisionGeneration;
  device : DeviceGeneration }.

Definition make (e : CoordinatorEpoch) (b : WorkerBootId) : t :=
  mk e b gen_null gen_null gen_null gen_null gen_null gen_null.

(** The default arguments of the constructor. *)
Definition init : t := make gen_first (mkId 1).

Definition roll_epoch (g : t) : t :=
  mk (gen_next (epoch g)) (boot g) (policy g) (budget g) (reservation g) (observation g) (decision g) (device g).
Definition reset_epoch (e : CoordinatorEpoch) (g : t) : t :=
  mk e (boot g) (policy g) (budget g) (reservation g) (observation g) (decision g) (device g).
Definition set_boot (b : WorkerBootId) (g : t) : t :=
  mk (epoch g) b (policy g) (budget g) (reservation g) (observation g) (decision g) (device g).
Definition set_policy (x : PolicyGeneration) (g : t) : t :=
  mk (epoch g) (boot g) x (budget g) (reservation g) (observation g) (decision g) (device g).
Definition set_budget (x : BudgetGeneration) (g : t) : t :=
  mk (epoch g) (boot g) (policy g) x (reservation g) (observation g) (decision g) (device g).
Definition set_reservation (x : ReservationGeneration) (g : t) : t :=
  mk (epoch g) (boot g) (policy g) (budget g) x (observation g) (decision g) (device g).
Definition set_observation (x : ObservationGeneration) (g : t) : t :=
  mk (epoch g) (boot g) (policy g) (budget g) (reservation g) x (decision g) (device g).
Definition set_decision (x : DecisionGeneration) (g : t) : t :=
  mk (epoch g) (boot g) (policy g) (budget g) (reservation g) (observation g) x (device g).
Definition set_device (x : DeviceGeneration) (g : t) : t :=
  mk (epoch g) (boot g) (policy g) (budget g) (reservation g) (observation g) (decision g) x.

Definition advance_observation (x : ObservationGeneration) (g : t) : t :=
  if gen_ltb (observation g) x then set_observation x g else g.
Definition advance_decision (x : DecisionGeneration) (g : t) : t :=
  if gen_ltb (decision g) x then set_decision x g else g.

(** A null generation is not carried by the message. *)
Definition gen_stale {Tag : Set} (msg current : Generation Tag) : bool :=
  if is_null msg then false else gen_ltb msg current.

Definition check (g : t) (e : AuthorityEnvelope) : Verdict :=
  if negb (has_epoch_boot e) then INVALID
  else if negb (gen_eqb (env_epoch e) (epoch g)) then STALE_EPOCH
  else if negb (id_eqb (env_boot e) (boot g)) then STALE_BOOT
  else if gen_stale (env_policy e) (policy g) then STALE_POLICY
  else if gen_stale (env_budget e) (budget g) then STALE_BUDGET
  else if gen_stale (env_reservation e) (reservation g) then STALE_RESERVATION
  else if gen_stale (env_observation e) (observation g) then STALE_OBSERVATION
  else if gen_stale (env_decision e) (decision g) then STALE_DECISION
  else if gen_stale (env_device e) (device g) then STALE_DEVICE
  else ACCEPT.

(** One mark of [adopt]. *)
Definition raise {Tag : Set} (msg current : Generation Tag) : Generation Tag :=
  if negb (is_null msg) && gen_ltb current msg then msg else current.

Definition adopt (g : t) (e : AuthorityEnvelope) : t :=
  mk (epoch g) (boot g) (raise (env_policy e) (policy g)) (raise (env_budget e) (budget g))
     (raise (env_reservation e) (reservation g)) (raise (env_observation e) (observation g))
     (raise (env_decision e) (decision g)) (raise (env_device e) (device g)).

(** The order of authority: the same epoch and boot, and marks not lower. *)
Definition le (g h : t) : Prop :=
  epoch g = epoch h /\ boot g = boot h /\ gen_raw (policy g) <= gen_raw (policy h) /\
  gen_raw (budget g) <= gen_raw (budget h) /\ gen_raw (reservation g) <= gen_raw (reservation h) /\
  gen_raw (observation g) <= gen_raw (observation h) /\ gen_raw (decision g) <= gen_raw (decision h) /\
  gen_raw (device g) <= gen_raw (device h).

(** What an accepted envelope satisfies, mark by mark. *)
Definition fresh {Tag : Set} (msg current : Generation Tag) : Prop :=
  gen_raw msg = 0 \/ gen_raw current <= gen_raw msg.
Definition current (g : t) (e : AuthorityEnvelope) : Prop :=
  env_epoch e = epoch g /\ env_boot e = boot g /\ fresh (env_policy e) (policy g) /\
  fresh (env_budget e) (budget g) /\ fresh (env_reservation e) (reservation g) /\
  fresh (env_observation e) (observation g) /\ fresh (env_decision e) (decision g) /\
  fresh (env_device e) (device g).

Lemma gen_stale_fresh {Tag : Set} (msg cur : Generation Tag) : gen_stale msg cur = false <-> fresh msg cur.
Proof.
  unfold gen_stale, fresh, is_null, gen_ltb. destruct (Z.eqb_spec (gen_raw msg) 0); [intuition|]. lia.
Qed.

Lemma raise_spec {Tag : Set} (msg cur : Generation Tag) : 0 <= gen_raw cur ->
  gen_raw (raise msg cur) = Z.max (gen_raw cur) (gen_raw msg).
Proof.
  unfold raise, is_null, gen_ltb. intros H.
  destruct (Z.eqb_spec (gen_raw msg) 0); cbn [negb andb]; [lia|].
  destruct (Z.ltb_spec (gen_raw cur) (gen_raw msg)); lia.
Qed.

Lemma raise_le {Tag : Set} (msg cur : Generation Tag) : gen_raw cur <= gen_raw (raise msg cur).
Proof.
  unfold raise, gen_ltb. destruct (is_null msg); cbn [negb andb]; [lia|].
  destruct (Z.ltb_spec (gen_raw cur) (gen_raw msg)); lia.
Qed.

Lemma raise_fresh {Tag : Set} (msg cur : Generation Tag) : fresh msg cur -> fresh msg (raise msg cur).
Proof.
  unfold fresh, raise, is_null, gen_ltb. intros H.
  destruct (Z.eqb_spec (gen_raw msg) 0); cbn [negb andb]; [intuition|].
  destruct (Z.ltb_spec (gen_raw cur) (gen_raw msg)); lia.
Qed.

Lemma check_accept (g : t) (e : AuthorityEnvelope) :
  check g e = ACCEPT <-> has_epoch_boot e = true /\ current g e.
Proof.
  unfold check, current. rewrite <- !gen_stale_fresh, <- gen_eqb_eq, <- id_eqb_eq.
  destruct (has_epoch_boot e), (gen_eqb _ _), (id_eqb _ _); cbn [negb]; try intuition discriminate.
  repeat match goal with |- context [if gen_stale ?a ?b then _ else _] => destruct (gen_stale a b) end;
    intuition discriminate.
Qed.

Lemma adopt_le (g : t) (e : AuthorityEnvelope) : le g (adopt g e).
Proof. unfold le, adopt. simpl. split_and!; auto using raise_le. Qed.

Lemma fresh_antitone {Tag : Set} (msg a b : Generation Tag) :
  gen_raw a <= gen_raw b -> fresh msg b -> fresh msg a.
Proof. unfold fresh. lia. Qed.
End AuthorityGate.

Import AuthorityGate.

(** The gate accepts an envelope exactly when it carries an epoch and a
    boot, both are the current ones, and every generation it carries is at
    least the gate's mark; adopting an accepted envelope raises each mark to the
    larger of the two, and the envelope stays acceptable. *)
Theorem gate_accepts_iff_current (g : t) (e : AuthorityEnvelope) :
  (check g e = ACCEPT <-> has_epoch_boot e = true /\ current g e) /\
  (check g e = ACCEPT -> check (adopt g e) e = ACCEPT) /\ le g (adopt g e).
Proof.
  split; [apply check_accept|]. split; [|apply adopt_le].
  rewrite !check_accept. unfold current, adopt. simpl.
  intros (Hb & ? & ? & ? & ? & ? & ? & ? & ?). split_and!; auto using raise_fresh.
Qed.

(** A history of the gate: envelopes adopted one after the other, and rolls of
    the epoch. *)
Inductive event := Adopt (e : AuthorityEnvelope) | RollEpoch | AdvanceObservation (x : ObservationGeneration)
  | AdvanceDecision (x : DecisionGeneration).

Definition apply_event (g : t) (ev : event) : t :=
  match ev with
  | Adopt e => adopt g e
  | RollEpoch => roll_epoch g
  | AdvanceObservation x => advance_observation x g
  | AdvanceDecision x => advance_decision x g
  end.

Definition gate_history (l : list event) (g : t) : t := foldl apply_event g l.

Definition rolls (l : list event) : Z :=
  foldr (fun ev n => match ev with RollEpoch => n + 1 | _ => n end) 0 l.

Lemma rolls_nonneg (l : list event) : 0 <= rolls l.
Proof. induction l as [|[] l IH]; simpl; lia. Qed.

Lemma apply_event_marks (g : t) (ev : event) :
  boot (apply_event g ev) = boot g /\ gen_raw (policy g) <= gen_raw (policy (apply_event g ev)) /\
  gen_raw (budget g) <= gen_raw (budget (apply_event g ev)) /\
  gen_raw (reservation g) <= gen_raw (reservation (apply_event g ev)) /\
  gen_raw (observation g) <= gen_raw (observation (apply_event g ev)) /\
  gen_raw (decision g) <= gen_raw (decision (apply_event g ev)) /\
  gen_raw (device g) <= gen_raw (device (apply_event g ev)).
Proof.
  destruct ev as [e| |x|x]; simpl; unfold advance_observation, advance_decision, gen_ltb.
  - split_and!; auto using raise_le.
  - split_and!; auto; lia.
  - destruct (Z.ltb_spec (gen_raw (observation g)) (gen_raw x)); simpl; split_and!; auto; lia.
  - destruct (Z.ltb_spec (gen_raw (decision g)) (gen_raw x)); simpl; split_and!; auto; lia.
Qed.

Lemma gate_history_epoch (l : list event) (g : t) :
  0 <= gen_raw (epoch g) -> gen_raw (epoch g) + rolls l < 2 ^ 64 ->
  gen_raw (epoch (gate_history l g)) = gen_raw (epoch g) + rolls l.
Proof.
  unfold gate_history. revert g. induction l as [|ev l IH]; intros g H0 Hlt; simpl; [lia|].
  pose proof (rolls_nonneg l). simpl in Hlt.
  assert (He : gen_raw (epoch (apply_event g ev)) = gen_raw (epoch g) + match ev with RollEpoch => 1 | _ => 0 end).
  { destruct ev; simpl; unfold advance_observation, advance_decision, set_observation, set_decision;
      try (destruct (gen_ltb _ _); simpl); try lia. apply wrap_small. unfold in_u. lia. }
  rewrite IH; rewrite He; destruct ev; lia.
Qed.

(** C22: fencing is final.  Take an envelope accepted after some history of
    adopted envelopes, advances and epoch rolls (short of [2^64] rolls).  Its
    epoch is the initial one plus the rolls of the history.  If nothing rolled,
    the initial gate accepted it too, so within an epoch a rejection is never
    undone; if something rolled, the initial gate rejected it as of another
    epoch, so no envelope survives a roll. *)
Theorem fencing_is_final (g : t) (l : list event) (e : AuthorityEnvelope) :
  0 <= gen_raw (epoch g) -> gen_raw (epoch g) + rolls l < 2 ^ 64 ->
  check (gate_history l g) e = ACCEPT ->
  gen_raw (env_epoch e) = gen_raw (epoch g) + rolls l /\
  (rolls l = 0 -> check g e = ACCEPT) /\ (0 < rolls l -> check g e = STALE_EPOCH).
Proof.
  intros H0 Hlt H. rewrite check_accept in H. destruct H as (Heb & Hep & Hbo & Hm).
  pose proof (gate_history_epoch l g H0 Hlt) as E. rewrite Hep, E. split; [reflexivity|].
  assert (Hmarks : boot (gate_history l g) = boot g /\ forall e, current (gate_history l g) e ->
    fresh (env_policy e) (policy g) /\ fresh (env_budget e) (budget g) /\ fresh (env_reservation e) (reservation g) /\
    fresh (env_observation e) (observation g) /\ fresh (env_decision e) (decision g) /\ fresh (env_device e) (device g)).
  { clear. unfold gate_history. revert g. induction l as [|ev l IH]; intros g; simpl.
    - split; [reflexivity|]. intros e (_ & _ & ?). assumption.
    - destruct (IH (apply_event g ev)) as [Hb Hc]. destruct (apply_event_marks g ev) as (Hb' & ? & ? & ? & ? & ? & ?).
      split; [congruence|]. intros e He. destruct (Hc e He) as (? & ? & ? & ? & ? & ?).
      split_and!; eapply fresh_antitone; eassumption. }
  destruct Hmarks as [Hb Hc]. split.
  - intros Hr. rewrite check_accept. split; [assumption|]. specialize (Hc e (conj Hep (conj Hbo Hm))).
    split; [|split; [congruence|assumption]]. rewrite Hep. destruct (epoch g), (epoch (gate_history l g)). simpl in *.
    f_equal. lia.
  - intros Hr. unfold check. rewrite Heb. unfold gen_eqb. rewrite Hep, E. cbn [negb].
    destruct (Z.eqb_spec (gen_raw (epoch g) + rolls l) (gen_raw (epoch g))); [lia|]. reflexivity.
Qed.

Definition sample_envelope : AuthorityEnvelope :=
  mkEnvelope (mkGen 2) (mkId 1) gen_null gen_null gen_null (mkGen 9) gen_null gen_null.

Lemma fencing_is_final_witness :
  let l := [AdvanceObservation (mkGen 5); RollEpoch] in
  gen_raw (env_epoch sample_envelope) = gen_raw (epoch init) + rolls l /\
  (rolls l = 0 -> check init sample_envelope = ACCEPT) /\ (0 < rolls l -> check init sample_envelope = STALE_EPOCH).
Proof. apply (fencing_is_final init [AdvanceObservation (mkGen 5); RollEpoch]); vm_compute; auto; discriminate. Defined.
