(* ===== verification/WorkloadClass.v ===== *)
(** * Workload power classes (workload_class.hpp) and performance states
    (perf_state.hpp): the enumerations, their names, and the default rules. *)
From S2P Require Import Prelude Binary64 Units.
#[local] Set Warnings "-inexact-float".

Inductive WorkloadPowerClass :=
| LATENCY_CRITICAL | THROUGHPUT | BATCH | BACKGROUND
| BEST_EFFORT | ENERGY_OPTIMIZED | THERMALLY_SENSITIVE | CUSTOM.

#[export] Instance WorkloadPowerClass_eq_dec : EqDecision WorkloadPowerClass.
Proof. solve_decision. Defined.

Definition class_of_int (z : Z) : option WorkloadPowerClass :=
  nth_error [LATENCY_CRITICAL; THROUGHPUT; BATCH; BACKGROUND; BEST_EFFORT; ENERGY_OPTIMIZED;
    THERMALLY_SENSITIVE; CUSTOM] (Z.to_nat z).

(** The underlying value of the enumeration. *)
Definition class_to_int (c : WorkloadPowerClass) : Z :=
  match c with
  | LATENCY_CRITICAL => 0 | THROUGHPUT => 1 | BATCH => 2 | BACKGROUND => 3
  | BEST_EFFORT => 4 | ENERGY_OPTIMIZED => 5 | THERMALLY_SENSITIVE => 6 | CUSTOM => 7
  end.

#[export] Instance WorkloadPowerClass_countable : Countable WorkloadPowerClass.
Proof.
  apply (inj_countable class_to_int class_of_int). intros []; reflexivity.
Defined.

Definition class_to_string (c : WorkloadPowerClass) : string :=
  match c with
  | LATENCY_CRITICAL => "LATENCY_CRITICAL"
  | THROUGHPUT => "THROUGHPUT"
  | BATCH => "BATCH"
  | BACKGROUND => "BACKGROUND"
  | BEST_EFFORT => "BEST_EFFORT"
  | ENERGY_OPTIMIZED => "ENERGY_OPTIMIZED"
  | THERMALLY_SENSITIVE => "THERMALLY_SENSITIVE"
  | CUSTOM => "CUSTOM"
  end.

Definition workload_class_from_string (s : string) : outcome WorkloadPowerClass :=
  if String.eqb s "LATENCY_CRITICAL" then Ret LATENCY_CRITICAL
  else if String.eqb s "THROUGHPUT" then Ret THROUGHPUT
  else if String.eqb s "BATCH" then Ret BATCH
  else if String.eqb s "BACKGROUND" then Ret BACKGROUND
  else if String.eqb s "BEST_EFFORT" then Ret BEST_EFFORT
  else if String.eqb s "ENERGY_OPTIMIZED" then Ret ENERGY_OPTIMIZED
  else if String.eqb s "THERMALLY_SENSITIVE" then Ret THERMALLY_SENSITIVE
  else if String.eqb s "CUSTOM" then Ret CUSTOM
  else Throw (invalid_argument "pg::workload_class_from_string: unknown class").

Record WorkloadClassRule := mkRule {
  rule_cls : WorkloadPowerClass;
  rule_priority : Z;
  max_power_share : option Watts;
  energy_target : option Joules;
  burst_eligible : bool;
  latency_sensitivity : Z;
  throttling_tolerance : Z;
  min_service_level : double }.

Definition default_rule_for (c : WorkloadPowerClass) : WorkloadClassRule :=
  match c with
  | LATENCY_CRITICAL => mkRule c 100 None None true 100 5 0.95
  | THROUGHPUT => mkRule c 70 None None false 40 40 0.8
  | BATCH => mkRule c 55 None None false 20 70 0.5
  | BACKGROUND => mkRule c 25 None None false 5 90 0.2
  | BEST_EFFORT => mkRule c 10 None None false 5 100 0
  | ENERGY_OPTIMIZED => mkRule c 60 None None false 30 60 0.6
  | THERMALLY_SENSITIVE => mkRule c 85 None None false 90 10 0.9
  | CUSTOM => mkRule c 50 None None false 50 50 0
  end.

Lemma class_of_to_int (c : WorkloadPowerClass) : class_of_int (class_to_int c) = Some c.
Proof. destruct c; reflexivity. Qed.

Lemma class_string_roundtrip (c : WorkloadPowerClass) :
  workload_class_from_string (class_to_string c) = Ret c.
Proof. destruct c; reflexivity. Qed.

(** ** Performance states *)
Inductive PerformanceState :=
| ECO | EFFICIENT | BALANCED | PERFORMANCE | MAX_PERFORMANCE | THROTTLED | RECOVERY.

#[export] Instance PerformanceState_eq_dec : EqDecision PerformanceState.
Proof. solve_decision. Defined.

Definition perf_to_string (s : PerformanceState) : string :=
  match s with
  | ECO => "ECO"
  | EFFICIENT => "EFFICIENT"
  | BALANCED => "BALANCED"
  | PERFORMANCE => "PERFORMANCE"
  | MAX_PERFORMANCE => "MAX_PERFORMANCE"
  | THROTTLED => "THROTTLED"
  | RECOVERY => "RECOVERY"
  end.

Definition perf_state_from_string (s : string) : outcome PerformanceState :=
  if String.eqb s "ECO" then Ret ECO
  else if String.eqb s "EFFICIENT" then Ret EFFICIENT
  else if String.eqb s "BALANCED" then Ret BALANCED
  else if String.eqb s "PERFORMANCE" then Ret PERFORMANCE
  else if String.eqb s "MAX_PERFORMANCE" then Ret MAX_PERFORMANCE
  else if String.eqb s "THROTTLED" then Ret THROTTLED
  else if String.eqb s "RECOVERY" then Ret RECOVERY
  else Throw (invalid_argument "pg::perf_state_from_string: unknown state").

Record PerformanceStateSet := mkPerf {
  requested : PerformanceState;
  effective : PerformanceState;
  observed : PerformanceState;
  throttling_inferred : bool }.

Definition default_perf : PerformanceStateSet := mkPerf BALANCED BALANCED BALANCED false.

Definition perf_to_int (s : PerformanceState) : Z :=
  match s with
  | ECO => 0 | EFFICIENT => 1 | BALANCED => 2 | PERFORMANCE => 3 | MAX_PERFORMANCE => 4
  | THROTTLED => 5 | RECOVERY => 6
  end.

Lemma perf_string_roundtrip (s : PerformanceState) : perf_state_from_string (perf_to_string s) = Ret s.
Proof. destruct s; reflexivity. Qed.
