(* ===== verification/Thermal.v ===== *)
(** * Thermal governance (thermal.hpp)

    The classifier of temperature samples, with a confirmation count on the way
    into the constrained state and a recovery margin on the way out. *)
From S2P Require Import Prelude Binary64 Units Ids Clock.
Local Open Scope Z_scope.
#[local] Set Warnings "-inexact-float".

Inductive ThermalState := UNKNOWN | COOL | NORMAL | WARM | HOT | THERMALLY_CONSTRAINED | RECOVERING.

#[export] Instance ThermalState_eq_dec : EqDecision ThermalState.
Proof. solve_decision. Defined.

Definition thermal_to_string (s : ThermalState) : string :=
  match s with
  | UNKNOWN => "UNKNOWN"
  | COOL => "COOL"
  | NORMAL => "NORMAL"
  | WARM => "WARM"
  | HOT => "HOT"
  | THERMALLY_CONSTRAINED => "THERMALLY_CONSTRAINED"
  | RECOVERING => "RECOVERING"
  end.

Inductive ThermalTrend := TREND_UNKNOWN | RISING | FALLING | STABLE.

Definition trend_to_string (t : ThermalTrend) : string :=
  match t with
  | TREND_UNKNOWN => "UNKNOWN"
  | RISING => "RISING"
  | FALLING => "FALLING"
  | STABLE => "STABLE"
  end.

Definition thermal_to_int (s : ThermalState) : Z :=
  match s with
  | UNKNOWN => 0 | COOL => 1 | NORMAL => 2 | WARM => 3 | HOT => 4
  | THERMALLY_CONSTRAINED => 5 | RECOVERING => 6
  end.

Record ThermalThresholds := mkThresholds {
  cool_max : Celsius;
  normal_max : Celsius;
  warm_max : Celsius;
  hot_max : Celsius;
  recovery_margin : Celsius;
  constrained_reduction : double;
  constrained_confirm_count : Z }.

Definition default_thresholds : ThermalThresholds :=
  mkThresholds (mkQ 40) (mkQ 60) (mkQ 75) (mkQ 85) (mkQ 5) 0.6 2.

Module ThermalGovernor.
(** [need_confirm] is the count of constrained readings since the last one below, whatever
    is missing in between; it is an [int] that stays below the confirmation count. *)
Record t := mk {
  thresholds : ThermalThresholds;
  domain : ThermalDomainId;
  state : ThermalState;
  need_confirm : Z;
  generation : ThermalGeneration;
  last_temp : option Celsius;
  last_now : Timestamp }.

Definition make (th : ThermalThresholds) (d : ThermalDomainId) : t :=
  mk th d UNKNOWN 0 gen_null None never.

Definition classify_raw (th : ThermalThresholds) (x : double) : ThermalState :=
  if (x <? value (cool_max th))%float then COOL
  else if (x <? value (normal_max th))%float then NORMAL
  else if (x <? value (warm_max th))%float then WARM
  else if (x <? value (hot_max th))%float then HOT
  else THERMALLY_CONSTRAINED.

(** The state and the confirmation count after a reading. *)
Definition classify (th : ThermalThresholds) (s : ThermalState) (n : Z) (x : double) : ThermalState * Z :=
  match classify_raw th x with
  | THERMALLY_CONSTRAINED =>
      if bool_decide (s = THERMALLY_CONSTRAINED) then (THERMALLY_CONSTRAINED, 0)
      else if constrained_confirm_count th <=? n + 1 then (THERMALLY_CONSTRAINED, 0)
      else (s, n + 1)
  | raw =>
      match s with
      | THERMALLY_CONSTRAINED =>
          if (x <? value (hot_max th) - value (recovery_margin th))%float then (RECOVERING, 0) else (s, 0)
      | RECOVERING => if (x <=? value (warm_max th))%float then (NORMAL, 0) else (s, 0)
      | _ => (raw, 0)
      end
  end.

Definition observe (temp : option Celsius) (now : Timestamp) (g : t) : ThermalState * t :=
  match temp with
  | None => (UNKNOWN, mk (thresholds g) (domain g) UNKNOWN (need_confirm g) (generation g) (last_temp g) now)
  | Some c =>
      let '(s, n) := classify (thresholds g) (state g) (need_confirm g) (value c) in
      (s, mk (thresholds g) (domain g) s n (gen_next (generation g)) temp now)
  end.

Definition headroom_fraction (th : ThermalThresholds) (temp : option Celsius) : double :=
  match temp with
  | None => 1
  | Some c =>
      let x := value c in
      let nm := value (normal_max th) in
      let hm := value (hot_max th) in
      let red := constrained_reduction th in
      if (x <=? nm)%float then 1
      else if (x <? hm)%float then
        let frac := ((x - nm) / (hm - nm))%float in (1 - frac * (1 - red))%float
      else red
  end.

(** [noexcept]: a product outside the range of a power ends the program. *)
Definition permitted_power (th : ThermalThresholds) (nominal_cap : Watts) (temp : option Celsius)
  : outcome (option Watts) :=
  match temp with
  | None => Ret None
  | Some _ => noexcept (let! w := quantity (value nominal_cap * headroom_fraction th temp)%float in Ret (Some w))
  end.

Definition reset (g : t) : t := mk (thresholds g) (domain g) UNKNOWN 0 gen_null None never.

(** A sequence of readings. *)
Definition observe_all (l : list (option Celsius * Timestamp)) (g : t) : t :=
  foldl (fun g p => (observe p.1 p.2 g).2) g l.

Definition inv (g : t) : Prop :=
  0 <= need_confirm g /\ need_confirm g < Z.max 1 (constrained_confirm_count (thresholds g)) /\
  (state g = THERMALLY_CONSTRAINED -> need_confirm g = 0).

(** Thresholds in order, and a reading at or above the highest. *)
Definition ordered (th : ThermalThresholds) : Prop :=
  isfinite (value (cool_max th)) && isfinite (value (normal_max th)) && isfinite (value (warm_max th)) &&
    isfinite (value (hot_max th)) = true /\
  val (value (cool_max th)) <= val (value (normal_max th)) <= val (value (warm_max th)) /\
  val (value (warm_max th)) <= val (value (hot_max th)).

Definition hot (th : ThermalThresholds) (c : Celsius) : Prop :=
  isfinite (value c) = true /\ (value (hot_max th) <=? value c)%float = true.

Lemma hot_raw (th : ThermalThresholds) (c : Celsius) :
  ordered th -> hot th c -> classify_raw th (value c) = THERMALLY_CONSTRAINED.
Proof.
  intros (Hf & H1 & H2) [Hc Hle]. bool_hyps. rewrite leb_val in Hle by assumption. unfold classify_raw.
  rewrite !ltb_val by assumption.
  repeat match goal with |- context [?a <? ?b] => destruct (Z.ltb_spec a b); [lia|] end. reflexivity.
Qed.

(** A run of readings of which none is below: each is hot or missing. *)
Definition not_below (th : ThermalThresholds) (p : option Celsius * Timestamp) : Prop :=
  match p.1 with Some c => hot th c | None => True end.
Definition hots (l : list (option Celsius * Timestamp)) : Z :=
  foldr (fun p n => match p.1 with Some _ => n + 1 | None => n end) 0 l.
Definition some_missing (l : list (option Celsius * Timestamp)) : bool :=
  existsb (fun p => match p.1 with Some _ => false | None => true end) l.

Lemma classify_constrained (th : ThermalThresholds) (s : ThermalState) (n : Z) (x : double) :
  classify_raw th x = THERMALLY_CONSTRAINED ->
  classify th s n x =
    if bool_decide (s = THERMALLY_CONSTRAINED) || (constrained_confirm_count th <=? n + 1)
    then (THERMALLY_CONSTRAINED, 0) else (s, n + 1).
Proof. unfold classify. intros ->. destruct (bool_decide _); reflexivity. Qed.

Lemma observe_state (temp : option Celsius) (now : Timestamp) (g : t) :
  (observe temp now g).1 = state (observe temp now g).2 /\ thresholds (observe temp now g).2 = thresholds g.
Proof. unfold observe. destruct temp as [c|]; [destruct (classify _ _ _ _)|]; split; reflexivity. Qed.

(** How the state moves on one reading. *)
Lemma classify_cases (th : ThermalThresholds) (s : ThermalState) (n : Z) (x : double) (s' : ThermalState) (n' : Z) :
  classify th s n x = (s', n') ->
  (classify_raw th x = THERMALLY_CONSTRAINED /\
     ((s' = THERMALLY_CONSTRAINED /\ n' = 0 /\ (s = THERMALLY_CONSTRAINED \/ constrained_confirm_count th <= n + 1)) \/
      (s' = s /\ n' = n + 1 /\ s <> THERMALLY_CONSTRAINED /\ n + 1 < constrained_confirm_count th))) \/
  (classify_raw th x <> THERMALLY_CONSTRAINED /\ n' = 0 /\
     ((s = THERMALLY_CONSTRAINED /\
        ((s' = RECOVERING /\ (x <? value (hot_max th) - value (recovery_margin th))%float = true) \/ s' = THERMALLY_CONSTRAINED)) \/
      (s = RECOVERING /\ ((s' = NORMAL /\ (x <=? value (warm_max th))%float = true) \/ s' = RECOVERING)) \/
      (s <> THERMALLY_CONSTRAINED /\ s <> RECOVERING /\ s' = classify_raw th x))).
Proof.
  unfold classify. destruct (classify_raw th x) eqn:Hr.
  6: { case_bool_decide as Hs; [intros [= <- <-]; left; auto 10|].
       destruct (Z.leb_spec (constrained_confirm_count th) (n + 1)); intros [= <- <-]; left; split; auto. }
  all: destruct s; try (intros [= <- <-]; right; split_and!; auto; right; right; split_and!; congruence).
  all: destruct (x <? value (hot_max th) - value (recovery_margin th))%float, (x <=? value (warm_max th))%float;
    intros [= <- <-]; right; split_and!; auto 10; congruence.
Qed.

Lemma observe_inv (temp : option Celsius) (now : Timestamp) (g : t) : inv g -> inv (observe temp now g).2.
Proof.
  intros (H0 & H1 & H2). unfold observe. destruct temp as [c|]; [|split_and!; simpl; auto; discriminate].
  destruct (classify _ _ _ _) as [s n] eqn:E. unfold inv. simpl.
  apply classify_cases in E as [(Hr & [(-> & -> & _)|(-> & -> & Hs & Hn)])|(_ & -> & _)];
    split_and!; try lia; congruence.
Qed.

Lemma observe_all_inv (l : list (option Celsius * Timestamp)) (g : t) :
  inv g -> inv (observe_all l g) /\ thresholds (observe_all l g) = thresholds g.
Proof.
  unfold observe_all. revert g. induction l as [|p l IH]; intros g Hg; simpl; [auto|].
  destruct (IH _ (observe_inv p.1 p.2 g Hg)) as [Hi Ht]. split; [exact Hi|].
  rewrite Ht. apply observe_state.
Qed.

Lemma hots_nonneg (l : list (option Celsius * Timestamp)) : 0 <= hots l.
Proof. induction l as [|[[c|] now] l IH]; [reflexivity|cbn; fold (hots l); lia|exact IH]. Qed.

(** Before the count is reached. *)
Lemma observe_before (l : list (option Celsius * Timestamp)) : forall g,
  ordered (thresholds g) -> Forall (not_below (thresholds g)) l -> state g <> THERMALLY_CONSTRAINED ->
  need_confirm g + hots l < Z.max (need_confirm g + 1) (constrained_confirm_count (thresholds g)) ->
  state (observe_all l g) = (if some_missing l then UNKNOWN else state g) /\
  need_confirm (observe_all l g) = need_confirm g + hots l.
Proof.
  induction l as [|[temp now] l IH]; intros g Ho Hl Hs Hk; [cbn; split; [reflexivity|lia]|].
  apply Forall_cons in Hl as [Hp Hl]. unfold not_below in Hp. pose proof (hots_nonneg l) as H0.
  change (observe_all ((temp, now) :: l) g) with (observe_all l (observe temp now g).2).
  cbn [hots foldr fst] in Hk. cbn [some_missing existsb hots foldr fst] in Hp |- *. fold (hots l) (some_missing l) in Hk |- *.
  destruct temp as [c|]; cbn [observe] in *.
  - rewrite classify_constrained, bool_decide_false by (assumption || apply hot_raw; assumption). cbn [orb snd].
    destruct (Z.leb_spec (constrained_confirm_count (thresholds g)) (need_confirm g + 1)); [lia|].
    match goal with |- context [observe_all l ?g'] => destruct (IH g') as [E1 E2] end; try assumption; [cbn; lia|].
    rewrite E1, E2. cbn. split; [reflexivity|lia].
  - match goal with |- context [observe_all l ?g'] => destruct (IH g') as [E1 E2] end; try assumption; [cbn; discriminate|].
    rewrite E1, E2. cbn. split; [destruct (some_missing l); reflexivity|reflexivity].
Qed.

(** Once there, hot readings keep it constrained. *)
Lemma observe_stays (l : list (option Celsius * Timestamp)) : forall g,
  ordered (thresholds g) -> Forall (not_below (thresholds g)) l -> some_missing l = false ->
  state g = THERMALLY_CONSTRAINED -> state (observe_all l g) = THERMALLY_CONSTRAINED.
Proof.
  induction l as [|[temp now] l IH]; intros g Ho Hl Hm Hs; [exact Hs|].
  apply Forall_cons in Hl as [Hp Hl]. unfold not_below in Hp. cbn [some_missing existsb fst] in Hm, Hp.
  destruct temp as [c|]; [|discriminate].
  change (observe_all ((Some c, now) :: l) g) with (observe_all l (observe (Some c) now g).2). cbn [observe].
  rewrite classify_constrained, Hs, bool_decide_true by (reflexivity || apply hot_raw; assumption).
  apply IH; try assumption. reflexivity.
Qed.

Lemma observe_all_app (l l' : list (option Celsius * Timestamp)) (g : t) : observe_all (l ++ l') g = observe_all l' (observe_all l g).
Proof. apply foldl_app. Qed.

Lemma observe_all_thresholds (l : list (option Celsius * Timestamp)) (g : t) : thresholds (observe_all l g) = thresholds g.
Proof.
  unfold observe_all. revert g. induction l as [|p l IH]; intros g; [reflexivity|]. cbn [foldl]. rewrite IH. apply observe_state.
Qed.
End ThermalGovernor.

Import ThermalGovernor.

(** ** Properties *)

(** C39: the way into the constrained state.  The thresholds are finite and in order, and
    a reading counts as hot when it is at or above [hot_max].  Take a governor that is not
    constrained, with the hot readings it has counted so far in [need_confirm], fewer than
    the confirmation count (at least one), as in every state it reaches; and a run of
    readings that are each hot or missing.  While those it had counted and the hot
    readings of the run are together fewer than the confirmation count, the state is what
    it was, or UNKNOWN when a reading of the run was missing, and all of them are counted.
    The hot reading that reaches the count has the governor constrained, whether readings
    were missing before it or not, and the hot readings that follow keep it so.  (A
    missing reading does not start the count again, where thermal.hpp and README.md speak
    of consecutive hot samples; with a confirmation count below one, one hot reading is
    enough.) *)
Theorem constrained_after_confirmation (g : t) (l l' : list (option Celsius * Timestamp)) (c : Celsius) (now : Timestamp) :
  inv g -> ordered (thresholds g) -> state g <> THERMALLY_CONSTRAINED ->
  Forall (not_below (thresholds g)) l ->
  let n := need_confirm g + hots l in
  let count := Z.max 1 (constrained_confirm_count (thresholds g)) in
  n < count ->
  (state (observe_all l g) = (if some_missing l then UNKNOWN else state g) /\ need_confirm (observe_all l g) = n) /\
  (hot (thresholds g) c -> Forall (not_below (thresholds g)) l' -> some_missing l' = false -> count <= n + 1 ->
     state (observe_all (l ++ (Some c, now) :: l') g) = THERMALLY_CONSTRAINED).
Proof.
  intros (H0 & H1 & _) Ho Hs Hl n count Hn. destruct (observe_before l g Ho Hl Hs) as [E1 E2]; [lia|]. split; [split; assumption|].
  intros Hc Hl' Hm Hk. rewrite observe_all_app. set (g1 := observe_all l g) in *.
  assert (Et : thresholds g1 = thresholds g) by apply observe_all_thresholds.
  change (observe_all ((Some c, now) :: l') g1) with (observe_all l' (observe (Some c) now g1).2). cbn [observe].
  rewrite Et, classify_constrained by (apply hot_raw; assumption).
  rewrite (proj2 (Z.leb_le _ _)) by lia. rewrite orb_true_r. apply observe_stays; try assumption. reflexivity.
Qed.

Definition hot_reading : option Celsius * Timestamp := (Some (mkQ 90), mkTime 5).
Definition missing_reading : option Celsius * Timestamp := (None, mkTime 6).

Lemma constrained_after_confirmation_witness :
  state (observe_all [hot_reading; missing_reading; hot_reading] (make default_thresholds (mkId 1))) = THERMALLY_CONSTRAINED.
Proof.
  apply (constrained_after_confirmation (make default_thresholds (mkId 1)) [hot_reading; missing_reading] [] (mkQ 90) (mkTime 5)).
  - split_and!; vm_compute; auto; discriminate.
  - split_and!; vm_compute; auto; discriminate.
  - discriminate.
  - repeat constructor.
  - reflexivity.
  - split; reflexivity.
  - constructor.
  - reflexivity.
  - discriminate.
Defined.

(** The way out.  After any history, a governor leaves the constrained
    state only when a reading falls below [hot_max - recovery_margin], into
    RECOVERING, or when a reading is missing, into UNKNOWN; and it leaves
    RECOVERING only downwards into NORMAL at [warm_max] or below, back into the
    constrained state after confirmation, or into UNKNOWN. *)
Theorem constrained_exit (th : ThermalThresholds) (d : ThermalDomainId)
    (l : list (option Celsius * Timestamp)) (temp : option Celsius) (now : Timestamp) :
  let g := observe_all l (make th d) in
  let g' := (observe temp now g).2 in
  inv g /\
  (state g = THERMALLY_CONSTRAINED ->
     (temp = None /\ state g' = UNKNOWN) \/ state g' = THERMALLY_CONSTRAINED \/
     (state g' = RECOVERING /\ exists c, temp = Some c /\
        (value c <? value (hot_max th) - value (recovery_margin th))%float = true)) /\
  (state g = RECOVERING ->
     (temp = None /\ state g' = UNKNOWN) \/ state g' = RECOVERING \/
     (state g' = NORMAL /\ exists c, temp = Some c /\ (value c <=? value (warm_max th))%float = true) \/
     (state g' = THERMALLY_CONSTRAINED /\ constrained_confirm_count th <= need_confirm g + 1)).
Proof.
  intros g g'.
  assert (Hi : inv (make th d)) by (unfold inv; simpl; split_and!; lia || discriminate).
  destruct (observe_all_inv l (make th d) Hi) as [Hinv Ht]. split; [exact Hinv|]. fold g in Hinv, Ht. simpl in Ht.
  unfold g'. unfold observe. destruct temp as [c|]; [|simpl; auto].
  rewrite Ht. destruct (classify th (state g) (need_confirm g) (value c)) as [s n] eqn:E. simpl.
  apply classify_cases in E. split; intros Hs; rewrite Hs in E; clear -E.
  - destruct E as [(_ & [(-> & _)|(-> & _)])|(_ & _ & [(_ & [[-> Hr]| ->])|[(Hd & _)|(Hn & _)]])]; try discriminate; eauto 6; congruence.
  - destruct E as [(_ & [(-> & _ & [Hd|Hc])|(-> & _)])|(_ & _ & [(Hd & _)|[(_ & [[-> Hr]| ->])|(_ & Hn & _)]])]; try discriminate; eauto 8; congruence.
Qed.
