(* ===== verification/Policy.v ===== *)
(** * Power policies (policy.hpp) and freshness of telemetry (freshness.hpp) *)
From S2P Require Import Prelude Binary64 Units Ids Clock WorkloadClass Thermal.
Local Open Scope Z_scope.
#[local] Set Warnings "-inexact-float".

Record EnergyWindow := mkEnergyWindow {
  ew_budget : Joules;
  ew_window : Duration;
  ew_enforce : bool }.

Definition default_energy_window : EnergyWindow := mkEnergyWindow J0 (mkDuration 1000000000) false.

Record BurstLimits := mkBurstLimits {
  allowance : Watts;
  burst_limit_window : Duration;
  refill : Duration;
  enabled : bool }.

Definition default_burst_limits : BurstLimits :=
  mkBurstLimits W0 (mkDuration 1000000000) (mkDuration 1000000000) false.

Record OversubscriptionPolicy := mkOversubscription {
  oversubscription_allowed : bool;
  max_overcommit_factor : double;
  require_authority : bool }.

Inductive DegradedMode := REJECT_NEW | THROTTLE_ALL | DRAIN | UNCHANGED.

#[export] Instance DegradedMode_eq_dec : EqDecision DegradedMode.
Proof. solve_decision. Defined.

Definition degraded_to_string (m : DegradedMode) : string :=
  match m with
  | REJECT_NEW => "REJECT_NEW"
  | THROTTLE_ALL => "THROTTLE_ALL"
  | DRAIN => "DRAIN"
  | UNCHANGED => "UNCHANGED"
  end.

Record HardwareControlPermissions := mkControls {
  perm_set_power_limit : bool;
  perm_set_clocks : bool }.

Module PowerPolicy.
Record t := mk {
  id : PolicyId;
  generation : PolicyGeneration;
  name : string;
  fleet_hard_cap : option Watts;
  node_hard_cap : option Watts;
  device_hard_cap : option Watts;
  soft_target : option Watts;
  energy_window : EnergyWindow;
  burst_limits : BurstLimits;
  thermal_thresholds : ThermalThresholds;
  default_priority : Z;
  min_reserve_fraction : double;
  oversubscription : OversubscriptionPolicy;
  degraded_mode : DegradedMode;
  hardware_controls : HardwareControlPermissions;
  observation_freshness : Duration;
  observation_stale : Duration;
  observation_expired : Duration;
  min_stable_duration : Duration;
  decision_hysteresis : Duration;
  recovery_threshold : Duration;
  class_rules : gmap WorkloadPowerClass WorkloadClassRule }.

(** The default member initialisers. *)
Definition empty : t :=
  mk invalid_id gen_null EmptyString None None None None default_energy_window default_burst_limits
    default_thresholds 50 0.10 (mkOversubscription false 1 true) UNCHANGED (mkControls false false)
    (mkDuration 250000000) (mkDuration 1000000000) (mkDuration 10000000000)
    (mkDuration 200000000) (mkDuration 150000000) (mkDuration 2000000000) ∅.

Definition set_generation (g : PolicyGeneration) (p : t) : t :=
  mk (id p) g (name p) (fleet_hard_cap p) (node_hard_cap p) (device_hard_cap p) (soft_target p)
    (energy_window p) (burst_limits p) (thermal_thresholds p) (default_priority p) (min_reserve_fraction p)
    (oversubscription p) (degraded_mode p) (hardware_controls p) (observation_freshness p)
    (observation_stale p) (observation_expired p) (min_stable_duration p) (decision_hysteresis p)
    (recovery_threshold p) (class_rules p).

Definition all_classes : list WorkloadPowerClass :=
  [LATENCY_CRITICAL; THROUGHPUT; BATCH; BACKGROUND; BEST_EFFORT; ENERGY_OPTIMIZED; THERMALLY_SENSITIVE; CUSTOM].

Definition default_rules : gmap WorkloadPowerClass WorkloadClassRule :=
  foldl (fun m c => <[c := default_rule_for c]> m) ∅ all_classes.

Definition defaults (pid : PolicyId) (nm : string) : t :=
  mk pid gen_first nm None None None None default_energy_window default_burst_limits
    default_thresholds 50 0.10 (mkOversubscription false 1 true) UNCHANGED (mkControls false false)
    (mkDuration 250000000) (mkDuration 1000000000) (mkDuration 10000000000)
    (mkDuration 200000000) (mkDuration 150000000) (mkDuration 2000000000) default_rules.

Definition bump_generation (p : t) : t := set_generation (gen_next (generation p)) p.

Definition rule_for (p : t) (c : WorkloadPowerClass) : WorkloadClassRule :=
  match class_rules p !! c with
  | Some r => r
  | None => default_rule_for CUSTOM
  end.

(** [validate] throws on the first range violated. *)
Definition validate (p : t) : outcome () :=
  if (min_reserve_fraction p <? 0)%float || (1 <? min_reserve_fraction p)%float
  then Throw (invalid_argument "pg::PowerPolicy::validate: min_reserve_fraction outside [0,1]")
  else if (max_overcommit_factor (oversubscription p) <? 1)%float
  then Throw (invalid_argument "pg::PowerPolicy::validate: max_overcommit_factor < 1")
  else if ew_enforce (energy_window p) && is_zero (ew_budget (energy_window p))
  then Throw (invalid_argument "pg::PowerPolicy::validate: enforced energy window has zero budget")
  else Ret tt.

(** Every class of the enumeration has its rule in a default policy. *)
Lemma defaults_rule (pid : PolicyId) (nm : string) (c : WorkloadPowerClass) :
  rule_for (defaults pid nm) c = default_rule_for c.
Proof. destruct c; reflexivity. Qed.

Lemma defaults_valid (pid : PolicyId) (nm : string) : validate (defaults pid nm) = Ret tt.
Proof. reflexivity. Qed.
End PowerPolicy.

(** ** Freshness *)
Inductive FreshnessState := CURRENT | AGING | STALE | EXPIRED.

#[export] Instance FreshnessState_eq_dec : EqDecision FreshnessState.
Proof. solve_decision. Defined.

Definition freshness_to_string (f : FreshnessState) : string :=
  match f with
  | CURRENT => "CURRENT"
  | AGING => "AGING"
  | STALE => "STALE"
  | EXPIRED => "EXPIRED"
  end.

Record FreshnessThresholds := mkFreshness { fresh : Duration; stale : Duration; expired : Duration }.

Module FreshnessClassifier.
Definition age_of (now observed : Timestamp) : outcome Duration :=
  if time_is_zero observed then Ret duration_zero else elapsed_since now observed.

Definition age_from_duration (th : FreshnessThresholds) (age : Duration) : FreshnessState :=
  if duration_ltb age (fresh th) then CURRENT
  else if duration_ltb age (stale th) then AGING
  else if duration_ltb age (expired th) then STALE
  else EXPIRED.

(** [classify] is [noexcept]. *)
Definition classify (th : FreshnessThresholds) (now observed : Timestamp) : outcome FreshnessState :=
  noexcept (
    let! age := age_of now observed in
    if duration_is_zero age && time_is_zero observed then Ret EXPIRED
    else Ret (age_from_duration th age)).

Definition rank (f : FreshnessState) : Z :=
  match f with CURRENT => 0 | AGING => 1 | STALE => 2 | EXPIRED => 3 end.

Lemma classify_valid (th : FreshnessThresholds) (now observed : Timestamp) :
  valid_time now -> valid_time observed ->
  classify th now observed = Ret (if time_is_zero observed then EXPIRED
    else age_from_duration th (mkDuration (Z.max 0 (time_ns now - time_ns observed)))).
Proof.
  intros Hn Ho. unfold classify, age_of. destruct (time_is_zero observed) eqn:E; [reflexivity|].
  rewrite elapsed_since_valid by assumption. cbn [obind noexcept]. rewrite andb_false_r. reflexivity.
Qed.

Lemma age_rank_mono (th : FreshnessThresholds) (a b : Duration) :
  ns (fresh th) <= ns (stale th) <= ns (expired th) -> ns a <= ns b ->
  rank (age_from_duration th a) <= rank (age_from_duration th b).
Proof.
  intros Ht Hab. unfold age_from_duration, duration_ltb.
  destruct (Z.ltb_spec (ns a) (ns (fresh th))), (Z.ltb_spec (ns b) (ns (fresh th))),
    (Z.ltb_spec (ns a) (ns (stale th))), (Z.ltb_spec (ns b) (ns (stale th))),
    (Z.ltb_spec (ns a) (ns (expired th))), (Z.ltb_spec (ns b) (ns (expired th))); simpl; lia.
Qed.
End FreshnessClassifier.

Import FreshnessClassifier.

(** Between valid times [classify] never ends the program; a sample that
    was never taken is EXPIRED, any other sample is classified by its age
    (nothing in the future is older than now); with ordered thresholds telemetry
    only gets older: the class never improves as the clock advances. *)
Theorem freshness_ages (th : FreshnessThresholds) (now later observed : Timestamp) :
  valid_time now -> valid_time later -> valid_time observed -> time_ns now <= time_ns later ->
  ns (fresh th) <= ns (stale th) <= ns (expired th) ->
  exists f f', classify th now observed = Ret f /\ classify th later observed = Ret f' /\
    rank f <= rank f' /\ (time_is_zero observed = true -> f = EXPIRED) /\
    (f' = CURRENT -> time_ns later - time_ns observed < ns (fresh th)).
Proof.
  intros Hn Hl Ho Hle Hth. rewrite !classify_valid by assumption. do 2 eexists.
  split; [reflexivity|]. split; [reflexivity|]. destruct (time_is_zero observed).
  { split; [lia|]. split; [auto|discriminate]. }
  split; [|split; [discriminate|]].
  - apply age_rank_mono; [assumption|]. simpl. lia.
  - unfold age_from_duration, duration_ltb. cbn [ns].
    destruct (Z.ltb_spec (Z.max 0 (time_ns later - time_ns observed)) (ns (fresh th))); [lia|].
    destruct (_ <? ns (stale th)); [discriminate|]. destruct (_ <? ns (expired th)); discriminate.
Qed.

Definition default_freshness : FreshnessThresholds :=
  mkFreshness (mkDuration 250000000) (mkDuration 1000000000) (mkDuration 10000000000).

Lemma freshness_ages_witness :
  exists f f', classify default_freshness (mkTime 100000000) (mkTime 7) = Ret f /\
    classify default_freshness (mkTime 400000000) (mkTime 7) = Ret f' /\
    rank f <= rank f' /\ (time_is_zero (mkTime 7) = true -> f = EXPIRED) /\
    (f' = CURRENT -> time_ns (mkTime 400000000) - time_ns (mkTime 7) < ns (fresh default_freshness)).
Proof.
  apply (freshness_ages default_freshness); unfold valid_time; split_and?; vm_compute; auto; discriminate.
Defined.
