(* ===== verification/Energy.v ===== *)
(** * Energy accounting and bursts (energy.hpp, burst.hpp)

    Energy totals by provenance, power samples over a window, and two budgets of
    energy per window of time: [EnergyWindowAccount] and [BurstBudget]. *)
From S2P Require Import Prelude Rounding Binary64 Util Units Ids Clock Policy Budget.
Local Open Scope Z_scope.
#[local] Set Warnings "-inexact-float".
#[local] Arguments Z.mul : simpl never.
#[local] Arguments Z.add : simpl never.
#[local] Arguments Z.pow : simpl never.

Inductive EnergyProvenance := MEASURED | REPORTED | DERIVED | ESTIMATED | UNKNOWN.

#[export] Instance EnergyProvenance_eq_dec : EqDecision EnergyProvenance.
Proof. solve_decision. Defined.

Definition provenance_to_string (p : EnergyProvenance) : string :=
  match p with
  | MEASURED => "MEASURED"
  | REPORTED => "REPORTED"
  | DERIVED => "DERIVED"
  | ESTIMATED => "ESTIMATED"
  | UNKNOWN => "UNKNOWN"
  end.

Definition provenance_index (p : EnergyProvenance) : nat :=
  match p with MEASURED => 0 | REPORTED => 1 | DERIVED => 2 | ESTIMATED => 3 | UNKNOWN => 4 end%nat.

Lemma provenance_index_inj (p q : EnergyProvenance) : provenance_index p = provenance_index q -> p = q.
Proof. destruct p, q; simpl; congruence. Qed.

(** ** EnergyMeter *)
Module EnergyMeter.
Record t := mk {
  total : Joules;
  by_provenance : list Joules;
  last : Timestamp;
  samples : Z }.

Definition init : t := mk J0 (replicate 5 J0) never 0.

Definition by_ (m : t) (p : EnergyProvenance) : Joules := default J0 (by_provenance m !! provenance_index p).

Definition add (m : t) (j : Joules) (p : EnergyProvenance) (at_ : Timestamp) : outcome t :=
  if (value j <? 0)%float || negb (isfinite (value j))
  then Throw (invalid_argument "pg::EnergyMeter::add: negative or non-finite energy")
  else Ret (mk (clamped (value (total m) + value j))
              (alter (fun b => clamped (value b + value j)) (provenance_index p) (by_provenance m))
              at_ (u64 (samples m + 1))).

Record EnergySample := mkEnergySample {
  es_joules : Joules;
  es_provenance : EnergyProvenance;
  es_at : Timestamp;
  es_boot : WorkerBootId;
  es_generation : ObservationGeneration }.
Definition add_sample (m : t) (s : EnergySample) : outcome t := add m (es_joules s) (es_provenance s) (es_at s).

(** A sequence of samples. *)
Fixpoint add_all (l : list (Joules * EnergyProvenance * Timestamp)) (m : t) : outcome t :=
  match l with
  | [] => Ret m
  | (j, p, at_) :: l => let! m := add m j p at_ in add_all l m
  end.
End EnergyMeter.

(** ** PowerWindow *)
Module PowerWindow.
Record Sample := mkSample { s_t : Timestamp; s_p : Watts }.
Record t := mk {
  capacity : Duration;
  samples : list Sample;
  peak : Watts }.

Definition init (c : Duration) : t := mk c [] W0.

(** The loop of [trim], on the deque from its front; an age that cannot be
    computed leaves the deque as it is at that turn. *)
Fixpoint trim_loop (cap : Duration) (now : Timestamp) (l : list Sample) : outcome () * list Sample :=
  match l with
  | [] => (Ret tt, l)
  | s :: rest =>
      if (2 <? length l)%nat then
        match elapsed_since now (s_t s) with
        | Ret age => if duration_ltb cap age then trim_loop cap now rest else (Ret tt, l)
        | Throw e => (Throw e, l)
        | Terminate => (Terminate, l)
        | Undefined => (Undefined, l)
        end
      else (Ret tt, l)
  end.

(** [record]: the sample is pushed, and the peak raised, before the trimming. *)
Definition record (x : Timestamp) (p : Watts) : M t () :=
  do! w <- sget;
  if negb (isfinite (value p)) then slift (Throw (invalid_argument "pg::PowerWindow::record: non-finite"))
  else if (value p <? 0)%float then slift (Throw (invalid_argument "pg::PowerWindow::record: negative power"))
  else if match last (samples w) with Some s => time_ltb x (s_t s) | None => false end
  then slift (Throw (invalid_argument "pg::PowerWindow::record: out-of-order timestamp"))
  else
    let pk := if (value (peak w) <? value p)%float then p else peak w in
    let '(o, l) := trim_loop (capacity w) x (samples w ++ [mkSample x p]) in
    do! _ <- sput (mk (capacity w) l pk);
    slift o.

Definition span_seconds (w : t) : outcome double :=
  match samples w, last (samples w) with
  | s :: _ :: _, Some b => noexcept (let! d := elapsed_since (s_t b) (s_t s) in Ret (seconds_f d))
  | _, _ => Ret 0%float
  end.

Fixpoint integrate (acc : double) (prev : Sample) (l : list Sample) : outcome double :=
  match l with
  | [] => Ret acc
  | s :: l =>
      let! d := elapsed_since (s_t s) (s_t prev) in
      let p := (0.5 * (value (s_p prev) + value (s_p s)))%float in
      integrate (acc + p * seconds_f d)%float s l
  end.

Definition integrated_energy_us (w : t) : outcome Joules :=
  match samples w with
  | s :: ((_ :: _) as l) => noexcept (let! acc := integrate 0 s l in quantity acc)
  | _ => Ret J0
  end.

Definition average_power (w : t) : outcome double :=
  match samples w with
  | [] => Ret 0%float
  | [s] => Ret (value (s_p s))
  | _ =>
      let! e := integrated_energy_us w in
      let! span := span_seconds w in
      if (span <=? 0)%float
      then Ret (match last (samples w) with Some s => value (s_p s) | None => 0 end)%float
      else Ret (value e / span)%float
  end.

Definition clear (w : t) : t := mk (capacity w) [] W0.
End PowerWindow.

(** The part of a budget not consumed, [left < 0.0 ? 0.0 : left]. *)
Definition left_of (budget consumed : double) : double :=
  let left := (budget - consumed)%float in if (left <? 0)%float then 0%float else left.

(** ** EnergyWindowAccount *)
Module EnergyWindowAccount.
Record t := mk {
  cfg : EnergyWindow;
  consumed_ : Joules;
  window_start : Timestamp;
  started : bool }.

Definition make (c : EnergyWindow) : t := mk c J0 never false.
Definition reset (a : t) : t := mk (cfg a) J0 never false.
Definition set_config (c : EnergyWindow) (a : t) : t := reset (mk c (consumed_ a) (window_start a) (started a)).

(** [started_ && now.elapsed_since(window_start_) >= cfg_.window] *)
Definition elapsed (a : t) (now : Timestamp) : outcome bool :=
  if started a then
    let! d := elapsed_since now (window_start a) in
    Ret (duration_leb (ew_window (cfg a)) d)
  else Ret false.

Definition remaining (a : t) (now : Timestamp) : outcome Joules :=
  if negb (ew_enforce (cfg a)) then Ret J0
  else
    let! over := elapsed a now in
    if over then Ret (ew_budget (cfg a))
    else quantity (left_of (value (ew_budget (cfg a))) (value (consumed_ a))).

Definition can_consume (a : t) (j : Joules) (now : Timestamp) : outcome bool :=
  if negb (ew_enforce (cfg a)) then Ret ((0 <=? value j)%float && isfinite (value j))
  else
    let! r := remaining a now in
    Ret ((value j <=? value r + eps)%float && (0 <=? value j)%float).

(** [consume]: the window is restarted before the test. *)
Definition consume (j : Joules) (now : Timestamp) : M t bool :=
  do! a <- sget;
  if negb (ew_enforce (cfg a)) then
    do! _ <- sput (mk (cfg a) (clamped (value (consumed_ a) + value j)) (window_start a) (started a));
    sret true
  else
    do! _ <- (if negb (started a) then sput (mk (cfg a) (consumed_ a) now true)
              else
                do! over <- slift (elapsed a now);
                if over then sput (mk (cfg a) J0 now (started a)) else sret tt);
    do! a <- sget;
    do! ok <- slift (can_consume a j now);
    if negb ok then sret false
    else
      do! _ <- sput (mk (cfg a) (clamped (value (consumed_ a) + value j)) (window_start a) (started a));
      sret true.

Definition consumed (a : t) (now : Timestamp) : outcome Joules :=
  if ew_enforce (cfg a) then
    let! over := elapsed a now in
    if over then Ret J0 else Ret (consumed_ a)
  else Ret (consumed_ a).
End EnergyWindowAccount.

(** ** BurstBudget *)
Module BurstBudget.
(** The last three members are [mutable]: the queries refill them. *)
Record t := mk {
  limits : BurstLimits;
  consumed_ : Joules;
  window_start : Timestamp;
  started : bool }.

Definition make (l : BurstLimits) : t := mk l J0 never false.
Definition reset (b : t) : t := mk (limits b) J0 never false.
Definition set_limits (l : BurstLimits) (b : t) : t := reset (mk l (consumed_ b) (window_start b) (started b)).

(** [capacity] is [noexcept]. *)
Definition capacity (b : t) : outcome Joules :=
  noexcept (quantity (value (allowance (limits b)) * seconds_f (burst_limit_window (limits b)))).

Definition refill_if_needed (now : Timestamp) : M t unit :=
  do! b <- sget;
  if negb (started b) then sput (mk (limits b) (consumed_ b) now true)
  else
    do! d <- slift (elapsed_since now (window_start b));
    if duration_leb (burst_limit_window (limits b)) d
    then sput (mk (limits b) J0 now (started b))
    else sret tt.

Definition available (now : Timestamp) : M t Joules :=
  do! b <- sget;
  if negb (enabled (limits b)) then sret J0
  else
    do! _ <- refill_if_needed now;
    do! b <- sget;
    do! c <- slift (capacity b);
    slift (quantity (left_of (value c) (value (consumed_ b)))).

Definition can_burst (j : Joules) (now : Timestamp) : M t bool :=
  do! b <- sget;
  if negb (enabled (limits b)) then sret false
  else
    do! a <- available now;
    sret ((value j <=? value a + eps)%float && (0 <=? value j)%float).

Definition consume (j : Joules) (now : Timestamp) : M t bool :=
  do! b <- sget;
  if negb (enabled (limits b)) then sret false
  else
    do! _ <- refill_if_needed now;
    do! ok <- can_burst j now;
    if negb ok then sret false
    else
      do! b <- sget;
      do! _ <- sput (mk (limits b) (clamped (value (consumed_ b) + value j)) (window_start b) (started b));
      sret true.

Definition consumed (now : Timestamp) : M t Joules :=
  do! b <- sget;
  if negb (enabled (limits b)) then sret J0
  else do! _ <- refill_if_needed now; do! b <- sget; sret (consumed_ b).

Definition exhausted (now : Timestamp) : M t bool :=
  do! b <- sget;
  if negb (enabled (limits b)) then sret true
  else do! a <- available now; sret (value a <=? 0)%float.

Definition utilization (now : Timestamp) : M t double :=
  do! b <- sget;
  if negb (enabled (limits b)) then sret 0%float
  else
    do! c <- slift (capacity b);
    if (value c <=? 0)%float then sret 0%float
    else do! x <- consumed now; sret (value x / value c)%float.
End BurstBudget.

(** ** Facts shared by the two windows *)
Lemma left_of_spec (b c : double) : nonneg b -> nonneg c ->
  nonneg (left_of b c) /\ val (left_of b c) = Z.max 0 (rnd (val b - val c)).
Proof.
  intros Hb Hc. destruct (sub_nonneg_val b c Hb Hc) as [Hf E]. unfold left_of.
  rewrite ltb_val by auto using isfinite_zero. rewrite val_zero.
  destruct (Z.ltb_spec (val (b - c)) 0); split.
  - apply (clamp_nonneg 0).
  - rewrite val_zero. lia.
  - split; [assumption|lia].
  - lia.
Qed.

(** The bound on what is consumed after an accepted amount above the tolerance. *)
Lemma window_bound (b c j : double) : nonneg b -> nonneg c -> nonneg j -> val eps < val j ->
  (j <=? left_of b c + eps)%float = true -> BudgetFacts.within (val b) (val (clamp (c + j))).
Proof.
  intros Hb Hc Hj Hbig Ht. destruct (left_of_spec b c Hb Hc) as [Hl El].
  rewrite add_leb in Ht by (try apply Hl; try apply Hj; try apply eps_finite; vm_compute; discriminate).
  assert (H0 : nonneg 0) by apply (clamp_nonneg 0).
  destruct (sub_nonneg_val b c Hb Hc) as [Hf E].
  assert (Ec : val (clamp (b - c - 0)) = Z.max 0 (rnd (val b - val c))).
  { destruct (sub_cases (b - c) 0 Hf isfinite_zero) as [(Hf' & E' & _)|(_ & Habs)].
    - rewrite clamp_finite_val, E', val_zero, Z.sub_0_r, rnd_val, E by assumption. reflexivity.
    - rewrite val_zero, Z.sub_0_r, rnd_val in Habs. pose proof (val_bound (b - c)). lia. }
  destruct (BudgetFacts.booking_bound b c 0 j) as [Hw _]; auto.
  - apply add_ltb_false_intro; try apply clamp_nonneg; try apply Hj; try apply eps_finite;
      [apply Z.lt_le_incl, val_eps_pos|]. rewrite Ec, <- El. lia.
  - rewrite val_zero, Z.add_0_r in Hw. exact Hw.
Qed.

Lemma within_zero (b : double) : nonneg b -> BudgetFacts.within (val b) 0.
Proof. intros [_ Hb]. unfold BudgetFacts.within. pose proof val_eps_pos. lia. Qed.

Lemma quantity_joules (v : double) : nonneg v -> quantity v = Ret (mkQ (Tag := JoulesTag) v).
Proof.
  intros Hv. change v with (value (mkQ (Tag := JoulesTag) v)) at 1. apply valid_quantity_make.
  apply valid_nonneg; [apply nonneg_Joules|exact Hv].
Qed.

Lemma nonneg_zero : nonneg 0.
Proof. apply (clamp_nonneg 0). Qed.

(** ** EnergyWindowAccount never overruns *)
Module WindowFacts.
Import EnergyWindowAccount.

Definition ok (a : t) : Prop :=
  ew_enforce (cfg a) = true /\ nonneg (value (ew_budget (cfg a))) /\ nonneg (value (consumed_ a)) /\
  valid_time (window_start a) /\ (started a = false -> consumed_ a = J0) /\
  BudgetFacts.within (val (value (ew_budget (cfg a)))) (val (value (consumed_ a))).

Definition amount_ok (j : Joules) : Prop :=
  nonneg (value j) /\ (val (value j) = 0 \/ val eps < val (value j)).

(** The restart of the window at the head of [consume]. *)
Definition restart (a : t) (now : Timestamp) : t :=
  if negb (started a) then mk (cfg a) (consumed_ a) now true
  else if duration_leb (ew_window (cfg a)) (mkDuration (Z.max 0 (time_ns now - time_ns (window_start a))))
  then mk (cfg a) J0 now true
  else a.

Lemma restart_ok (a : t) (now : Timestamp) : ok a -> valid_time now ->
  ok (restart a now) /\ cfg (restart a now) = cfg a /\ started (restart a now) = true.
Proof.
  intros (He & Hb & Hc & Hs & Hi & Hw) Hn. unfold restart. destruct (started a) eqn:E; cbn [negb].
  - destruct (duration_leb _ _); unfold ok; simpl; split_and!; auto using nonneg_zero, within_zero; congruence.
  - unfold ok. simpl. split_and!; auto.
Qed.

(** An elapsed window gives the same room as an empty one. *)
Lemma left_of_zero (b j : double) : nonneg b -> nonneg j ->
  (j <=? left_of b 0 + eps)%float = true <-> (j <=? b + eps)%float = true.
Proof.
  intros Hb Hj. destruct (left_of_spec b 0 Hb nonneg_zero) as [Hl El].
  rewrite val_zero, Z.sub_0_r, rnd_val in El. assert (E : val (left_of b 0) = val b) by (destruct Hb; lia).
  rewrite !add_leb by (try apply Hb; try apply Hl; try apply Hj; try apply eps_finite; vm_compute; discriminate).
  rewrite E. reflexivity.
Qed.

Lemma elapsed_valid (a : t) (now : Timestamp) : valid_time (window_start a) -> valid_time now ->
  elapsed a now = Ret (started a && duration_leb (ew_window (cfg a))
    (mkDuration (Z.max 0 (time_ns now - time_ns (window_start a))))).
Proof.
  intros Hs Hn. unfold elapsed. destruct (started a); [|reflexivity].
  rewrite elapsed_since_valid by assumption. reflexivity.
Qed.

(** Where the restarted window counts as elapsed again, it is empty. *)
Lemma restart_elapsed (a : t) (now : Timestamp) : ok a ->
  duration_leb (ew_window (cfg a)) (mkDuration (Z.max 0 (time_ns now - time_ns (window_start (restart a now))))) = true ->
  consumed_ (restart a now) = J0.
Proof.
  intros (_ & _ & _ & _ & Hi & _) He. unfold restart in *. destruct (started a); cbn [negb] in *; [|simpl; auto].
  destruct (duration_leb _ (mkDuration (Z.max 0 (time_ns now - time_ns (window_start a))))) eqn:E; [reflexivity|].
  congruence.
Qed.

Lemma can_consume_restart (a : t) (j : Joules) (now : Timestamp) : ok a -> valid_time now -> nonneg (value j) ->
  can_consume (restart a now) j now =
    Ret (value j <=? left_of (value (ew_budget (cfg a))) (value (consumed_ (restart a now))) + eps)%float.
Proof.
  intros Ha Hn Hj. destruct (restart_ok a now Ha Hn) as ((He & Hb & Hc & Hs & _ & _) & Ec & Est).
  unfold can_consume, remaining. rewrite He, elapsed_valid, Est, Ec in * by assumption. cbn [negb andb obind].
  assert (Hj0 : (0 <=? value j)%float = true) by (rewrite leb_val by (apply Hj || reflexivity); rewrite val_zero; destruct Hj; lia).
  destruct (duration_leb _ _) eqn:E; cbn [obind]; rewrite ?Hj0, ?andb_true_r.
  - rewrite (restart_elapsed a now Ha E). f_equal. apply eq_true_iff_eq. symmetry. apply left_of_zero; assumption.
  - rewrite quantity_joules by (apply left_of_spec; assumption). cbn [obind value]. rewrite andb_true_r. reflexivity.
Qed.

Lemma restart_step (a : t) (now : Timestamp) : valid_time (window_start a) -> valid_time now ->
  (if negb (started a) then sput (mk (cfg a) (consumed_ a) now true)
   else do! over <- slift (elapsed a now); if over then sput (mk (cfg a) J0 now (started a)) else sret tt) a
  = (Ret tt, restart a now).
Proof.
  intros Hs Hn. unfold restart. rewrite elapsed_valid by assumption.
  destruct (started a); cbn [negb andb]; [|reflexivity]. rewrite sbind_lift.
  destruct (duration_leb _ _); reflexivity.
Qed.

Lemma window_consume_spec (a : t) (j : Joules) (now : Timestamp) : ok a -> valid_time now -> nonneg (value j) ->
  let r := restart a now in
  consume j now a =
    if (value j <=? left_of (value (ew_budget (cfg a))) (value (consumed_ r)) + eps)%float
    then (Ret true, mk (cfg r) (clamped (value (consumed_ r) + value j)) (window_start r) (started r))
    else (Ret false, r).
Proof.
  intros Ha Hn Hj r. pose proof (can_consume_restart a j now Ha Hn Hj) as Hcan. fold r in Hcan.
  destruct Ha as (He & _ & _ & Hs & _). unfold consume. rewrite sbind_sget, He. cbn [negb].
  rewrite (sbind_step _ _ _ _ _ (restart_step a now Hs Hn)), sbind_sget. fold r. rewrite Hcan, sbind_lift.
  destruct (_ <=? _)%float; reflexivity.
Qed.

Lemma window_consume_ok (a : t) (j : Joules) (now : Timestamp) : ok a -> valid_time now -> amount_ok j ->
  exists b a', consume j now a = (Ret b, a') /\ ok a'.
Proof.
  intros Ha Hn [Hj Hamt]. rewrite window_consume_spec by assumption.
  destruct (restart_ok a now Ha Hn) as ((He & Hb & Hc & Hs & Hi & Hw) & Ec & Est). rewrite Ec in He, Hb, Hw.
  destruct (_ <=? _)%float eqn:E; [|do 2 eexists; split; [reflexivity|unfold ok; rewrite Ec; auto 7]].
  do 2 eexists. split; [reflexivity|]. unfold ok. simpl. rewrite Ec. split_and!; auto.
  - apply clamp_nonneg.
  - congruence.
  - destruct Hamt as [H0|Hbig]; [|apply window_bound; assumption].
    rewrite BudgetFacts.clamp_add_zero by assumption. exact Hw.
Qed.

Fixpoint consume_all (l : list (Joules * Timestamp)) (a : t) : outcome t :=
  match l with
  | [] => Ret a
  | (j, now) :: l => match consume j now a with
                     | (Ret _, a') => consume_all l a'
                     | (Throw e, _) => Throw e
                     | (Terminate, _) => Terminate
                     | (Undefined, _) => Undefined
                     end
  end.

Lemma window_make_ok (c : EnergyWindow) : ew_enforce c = true -> nonneg (value (ew_budget c)) -> ok (make c).
Proof.
  intros He Hb. unfold ok. simpl. split_and!; auto using nonneg_zero, within_zero.
  unfold valid_time, never, kMaxNs. simpl. lia.
Qed.

Lemma window_consume_all_ok (l : list (Joules * Timestamp)) (a : t) : ok a ->
  Forall (fun p => amount_ok p.1 /\ valid_time p.2) l ->
  exists a', consume_all l a = Ret a' /\ ok a' /\ cfg a' = cfg a.
Proof.
  revert a. induction l as [|[j now] l IH]; intros a Ha Hl; simpl; [eauto|].
  inversion Hl as [|? ? [Hj Hn] Hl']; subst. simpl in *.
  destruct (window_consume_ok a j now Ha Hn Hj) as (b & a' & E & Ha'). rewrite E.
  destruct (IH a' Ha' Hl') as (a'' & E' & ? & Hc'). exists a''. split_and!; auto. rewrite Hc'.
  rewrite window_consume_spec in E by (assumption || apply Hj). destruct (restart_ok a now Ha Hn) as (_ & Ec & _).
  destruct (_ <=? _)%float; injection E as _ <-; exact Ec.
Qed.
End WindowFacts.

(** ** BurstBudget never overruns *)
Module BurstFacts.
Import BurstBudget.

Definition ok (c : Joules) (b : t) : Prop :=
  enabled (limits b) = true /\ capacity b = Ret c /\ nonneg (value (consumed_ b)) /\ valid_time (window_start b) /\
  (started b = false -> consumed_ b = J0) /\ BudgetFacts.within (val (value c)) (val (value (consumed_ b))).

Lemma capacity_nonneg (b : t) (c : Joules) : capacity b = Ret c -> nonneg (value c).
Proof.
  unfold capacity. intros H. apply noexcept_Ret, quantity_valid in H as [_ Hv].
  apply valid_nonneg in Hv; auto using nonneg_Joules.
Qed.

Definition refilled (b : t) (now : Timestamp) : t :=
  if negb (started b) then mk (limits b) (consumed_ b) now true
  else if duration_leb (burst_limit_window (limits b)) (mkDuration (Z.max 0 (time_ns now - time_ns (window_start b))))
  then mk (limits b) J0 now true
  else b.

Lemma refill_step (b : t) (now : Timestamp) : valid_time (window_start b) -> valid_time now ->
  refill_if_needed now b = (Ret tt, refilled b now).
Proof.
  intros Hs Hn. unfold refill_if_needed, refilled. rewrite sbind_sget.
  destruct (started b) eqn:E; cbn [negb]; [|reflexivity]. rewrite elapsed_since_valid, sbind_lift by assumption.
  destruct (duration_leb _ _); rewrite ?E; reflexivity.
Qed.

Lemma refilled_cases (b : t) (now : Timestamp) :
  (started b = false /\ refilled b now = mk (limits b) (consumed_ b) now true) \/
  refilled b now = mk (limits b) J0 now true \/
  refilled b now = b.
Proof. unfold refilled. destruct (started b); cbn [negb]; [destruct (duration_leb _ _)|]; auto. Qed.

Lemma refilled_started (b : t) (now : Timestamp) : started (refilled b now) = true.
Proof. unfold refilled. destruct (started b) eqn:E; cbn [negb]; [destruct (duration_leb _ _)|]; auto. Qed.

Lemma refilled_ok (c : Joules) (b : t) (now : Timestamp) : ok c b -> valid_time now ->
  ok c (refilled b now) /\ limits (refilled b now) = limits b /\ refilled (refilled b now) now = refilled b now.
Proof.
  intros (He & Hcap & Hc & Hs & Hi & Hw) Hn. pose proof (capacity_nonneg b c Hcap) as Hcn.
  assert (Hnow : forall x, x = J0 -> refilled (mk (limits b) x now true) now = mk (limits b) x now true)
    by (intros x ->; unfold refilled; cbn; destruct (duration_leb _ _); reflexivity).
  destruct (refilled_cases b now) as [[E ->]|[->|E]].
  - split; [|split; [reflexivity|apply Hnow, Hi, E]]. unfold ok. cbn. split_and!; auto.
  - split; [|split; [reflexivity|apply Hnow; reflexivity]]. unfold ok. cbn. split_and!; auto using nonneg_zero, within_zero.
  - rewrite !E. split; [unfold ok; split_and!; auto|split; reflexivity].
Qed.

Lemma can_burst_spec (c : Joules) (b : t) (j : Joules) (now : Timestamp) : ok c b -> valid_time now -> nonneg (value j) ->
  can_burst j now b = (Ret (value j <=? left_of (value c) (value (consumed_ (refilled b now))) + eps)%float, refilled b now).
Proof.
  intros Hb Hn Hj. destruct (refilled_ok c b now Hb Hn) as ((_ & Hcap' & Hc' & _) & _ & _).
  destruct Hb as (He & Hcap & _ & Hs & _). pose proof (capacity_nonneg b c Hcap) as Hcn.
  unfold can_burst, available. rewrite sbind_sget, He. cbn [negb].
  assert (Hav : available now b = (Ret (mkQ (left_of (value c) (value (consumed_ (refilled b now))))), refilled b now)).
  { unfold available. rewrite sbind_sget, He. cbn [negb]. rewrite (sbind_step _ _ _ _ _ (refill_step b now Hs Hn)), sbind_sget.
    rewrite Hcap', sbind_lift. unfold slift. rewrite quantity_joules by (apply left_of_spec; assumption). reflexivity. }
  unfold available in Hav. rewrite (sbind_step _ _ _ _ _ Hav). unfold sret. cbn [value].
  rewrite (leb_val 0) by (apply Hj || reflexivity). rewrite val_zero.
  destruct Hj as [_ Hj]. rewrite (proj2 (Z.leb_le 0 (val (value j))) Hj), andb_true_r. reflexivity.
Qed.

Lemma burst_consume_spec (c : Joules) (b : t) (j : Joules) (now : Timestamp) : ok c b -> valid_time now -> nonneg (value j) ->
  let r := refilled b now in
  consume j now b =
    if (value j <=? left_of (value c) (value (consumed_ r)) + eps)%float
    then (Ret true, mk (limits r) (clamped (value (consumed_ r) + value j)) (window_start r) (started r))
    else (Ret false, r).
Proof.
  intros Hb Hn Hj r. destruct (refilled_ok c b now Hb Hn) as (Hr & Hl & Hid). fold r in Hr, Hl, Hid.
  pose proof (can_burst_spec c r j now Hr Hn Hj) as Hcan. rewrite Hid in Hcan.
  destruct Hb as (He & _ & _ & Hs & _). unfold consume. rewrite sbind_sget, He. cbn [negb].
  rewrite (sbind_step _ _ _ _ _ (refill_step b now Hs Hn)). fold r. rewrite (sbind_step _ _ _ _ _ Hcan).
  destruct (_ <=? _)%float; reflexivity.
Qed.

Lemma burst_consume_ok (c : Joules) (b : t) (j : Joules) (now : Timestamp) : ok c b -> valid_time now -> WindowFacts.amount_ok j ->
  exists r b', consume j now b = (Ret r, b') /\ ok c b' /\ limits b' = limits b.
Proof.
  intros Hb Hn [Hj Hamt]. rewrite (burst_consume_spec c) by assumption.
  destruct (refilled_ok c b now Hb Hn) as ((He & Hcap & Hc & Hs & Hi & Hw) & Hl & _).
  pose proof (capacity_nonneg _ c Hcap) as Hcn.
  destruct (_ <=? _)%float eqn:E; do 2 eexists; (split; [reflexivity|]); (split; [|exact Hl]);
    [|unfold ok; auto 7].
  unfold ok. cbn. split_and!; auto.
  - apply clamp_nonneg.
  - rewrite refilled_started. discriminate.
  - destruct Hamt as [H0|Hbig]; [|apply window_bound; assumption].
    rewrite BudgetFacts.clamp_add_zero by assumption. exact Hw.
Qed.

Fixpoint consume_all (l : list (Joules * Timestamp)) (b : t) : outcome t :=
  match l with
  | [] => Ret b
  | (j, now) :: l => match consume j now b with
                     | (Ret _, b') => consume_all l b'
                     | (Throw e, _) => Throw e
                     | (Terminate, _) => Terminate
                     | (Undefined, _) => Undefined
                     end
  end.

Lemma burst_make_ok (l : BurstLimits) (c : Joules) : enabled l = true -> capacity (make l) = Ret c -> ok c (make l).
Proof.
  intros He Hc. unfold ok. cbn. split_and!; auto using nonneg_zero.
  - unfold valid_time, never, kMaxNs. cbn. lia.
  - apply within_zero. apply (capacity_nonneg _ _ Hc).
Qed.

Lemma burst_consume_all_ok (c : Joules) (l : list (Joules * Timestamp)) (b : t) : ok c b ->
  Forall (fun p => WindowFacts.amount_ok p.1 /\ valid_time p.2) l ->
  exists b', consume_all l b = Ret b' /\ ok c b'.
Proof.
  revert b. induction l as [|[j now] l IH]; intros b Hb Hl; simpl; [eauto|].
  inversion Hl as [|? ? [Hj Hn] Hl']; subst. simpl in *.
  destruct (burst_consume_ok c b j now Hb Hn Hj) as (r & b' & E & Hb' & _). rewrite E. auto.
Qed.
End BurstFacts.

(** ** The meter's totals *)
Module MeterFacts.
Import EnergyMeter.

Definition sample : Type := Joules * EnergyProvenance * Timestamp.
Definition energy_of (s : sample) : Z := val (value s.1.1).
Definition sum_all (l : list sample) : Z := foldr (fun s n => energy_of s + n) 0 l.
Definition sum_by (p : EnergyProvenance) (l : list sample) : Z :=
  foldr (fun s n => (if bool_decide (s.1.2 = p) then energy_of s else 0) + n) 0 l.

(** Amounts are multiples of [2^(g - 1074)] J. *)
Definition multiple (g : Z) (x : double) : Prop := nonneg x /\ exists k, val x = k * 2 ^ g.

Lemma multiple_add (g : Z) (x y : double) : 0 <= g <= 2044 -> multiple g x -> multiple g y ->
  val x + val y <= 2 ^ 53 * 2 ^ g -> multiple g (clamp (x + y)) /\ val (clamp (x + y)) = val x + val y.
Proof.
  intros Hg [Hx [k Hk]] [Hy [l Hl]] Hle. pose proof (pow2_pos g ltac:(lia)) as Hp.
  assert (E : val (clamp (x + y)) = val x + val y).
  { apply (grid_add_exact g); auto; try lia.
    - exists (k + l). destruct Hx as [_ Hx], Hy as [_ Hy]. split; [lia|]. nia.
    - assert (2 ^ 53 * 2 ^ g <= 2 ^ 2097) by (rewrite <- pow2_add by lia; apply pow2_le; lia).
      assert (2 ^ 2097 < val_limit) by reflexivity. lia. }
  split; [|exact E]. split; [apply clamp_nonneg|]. exists (k + l). lia.
Qed.

Lemma sum_by_nonneg (p : EnergyProvenance) (g : Z) (l : list sample) :
  Forall (fun s => multiple g (value s.1.1)) l -> 0 <= sum_by p l <= sum_all l.
Proof.
  induction 1 as [|s l [[_ Hs] _] _ IH]; simpl; [lia|]. fold (energy_of s) in Hs.
  destruct (bool_decide _); lia.
Qed.

Definition meter_ok (g : Z) (m : t) : Prop :=
  multiple g (value (total m)) /\ length (by_provenance m) = 5%nat /\
  forall p, multiple g (value (by_ m p)) /\ val (value (by_ m p)) <= val (value (total m)).

Lemma by_alter (m : t) (f : Joules -> Joules) (p q : EnergyProvenance) (tot : Joules) (at_ : Timestamp) (n : Z) :
  length (by_provenance m) = 5%nat ->
  by_ (mk tot (alter f (provenance_index p) (by_provenance m)) at_ n) q =
    if bool_decide (p = q) then f (by_ m q) else by_ m q.
Proof.
  intros Hlen. unfold by_. simpl. case_bool_decide as E.
  - subst q. rewrite list_lookup_alter_eq.
    destruct (lookup_lt_is_Some_2 (by_provenance m) (provenance_index p)) as [x ->]; [rewrite Hlen; destruct p; simpl; lia|].
    reflexivity.
  - rewrite list_lookup_alter_ne; [reflexivity|]. intros H. apply E, provenance_index_inj, H.
Qed.

Lemma add_all_spec (g : Z) (l : list sample) : 0 <= g <= 2044 -> forall m, meter_ok g m ->
  Forall (fun s => multiple g (value s.1.1)) l ->
  val (value (total m)) + sum_all l <= 2 ^ 53 * 2 ^ g ->
  exists m', add_all l m = Ret m' /\ val (value (total m')) = val (value (total m)) + sum_all l /\
    (forall p, val (value (by_ m' p)) = val (value (by_ m p)) + sum_by p l) /\
    (0 <= samples m -> samples m + Z.of_nat (length l) < 2 ^ 64 -> samples m' = samples m + Z.of_nat (length l)).
Proof.
  intros Hg. induction l as [|[[j p] at_] l IH]; intros m Hm Hl Hle.
  { exists m. simpl in *. split_and!; auto; intros; lia. }
  inversion Hl as [|? ? Hj Hl']; subst. cbn [fst snd] in Hj.
  destruct Hm as (Ht & Hlen & Hby). pose proof (sum_by_nonneg p g l Hl') as Hs.
  cbn [sum_all foldr] in Hle. fold (sum_all l) in Hle. unfold energy_of in Hle. cbn [fst snd] in Hle.
  destruct (multiple_add g (value (total m)) (value j) Hg Ht Hj ltac:(lia)) as [Ht' Et'].
  cbn [add_all]. unfold add. rewrite (nonneg_fltb _ (proj1 Hj)), (proj1 (proj1 Hj)). cbn [negb orb obind].
  destruct (IH (mk (clamped (value (total m) + value j))
              (alter (fun b => clamped (value b + value j)) (provenance_index p) (by_provenance m))
              at_ (u64 (samples m + 1)))) as (m' & E & Etot & Eby & Esm).
  - unfold meter_ok. cbn [total by_provenance]. split; [exact Ht'|]. split; [rewrite length_alter; exact Hlen|].
    intros q. rewrite by_alter by exact Hlen. destruct (Hby q) as [Hq Hqle].
    destruct (bool_decide (p = q)).
    + destruct (multiple_add g (value (by_ m q)) (value j) Hg Hq Hj ltac:(lia)) as [Hq' Eq']. cbn [value clamped].
      split; [exact Hq'|]. lia.
    + split; [exact Hq|]. cbn [value clamped]. destruct Hj as [[_ Hj] _]. lia.
  - exact Hl'.
  - cbn [total value clamped]. lia.
  - exists m'. cbn [total value clamped] in Etot. split; [exact E|]. split; [|split].
    + cbn [sum_all foldr]. fold (sum_all l). unfold energy_of at 1. cbn [fst snd]. lia.
    + intros q. rewrite Eby, by_alter by exact Hlen. cbn [sum_by foldr]. fold (sum_by q l).
      unfold energy_of at 1. cbn [fst snd]. destruct (bool_decide (p = q)); [|lia].
      destruct (Hby q) as [Hq Hqle].
      destruct (multiple_add g (value (by_ m q)) (value j) Hg Hq Hj ltac:(lia)) as [_ Eq']. cbn [value clamped]. lia.
    + cbn [samples length] in *. intros H0 H1. unfold u64 in Esm. rewrite wrap_small in Esm by (unfold in_u; lia).
      rewrite Esm; lia.
Qed.

Lemma init_ok (g : Z) : 0 <= g -> meter_ok g init.
Proof.
  intros Hg. assert (H0 : multiple g 0) by (split; [apply nonneg_zero|exists 0; reflexivity]).
  split; [exact H0|]. split; [reflexivity|]. intros []; (split; [exact H0|reflexivity]).
Qed.
End MeterFacts.

(** ** Properties *)

(** The meter is exact: over any sequence of samples that are multiples of
    a power of two (and do not sum over 53 bits of it), it accepts every sample,
    its total is the sum of them all, the total of each provenance is the sum of
    the samples of that provenance, and it counts the samples. *)
Theorem meter_totals_exact (g : Z) (l : list MeterFacts.sample) :
  0 <= g <= 2044 -> Forall (fun s => MeterFacts.multiple g (value s.1.1)) l ->
  MeterFacts.sum_all l <= 2 ^ 53 * 2 ^ g -> Z.of_nat (length l) < 2 ^ 64 ->
  exists m, EnergyMeter.add_all l EnergyMeter.init = Ret m /\
    val (value (EnergyMeter.total m)) = MeterFacts.sum_all l /\
    (forall p, val (value (EnergyMeter.by_ m p)) = MeterFacts.sum_by p l) /\
    EnergyMeter.samples m = Z.of_nat (length l).
Proof.
  intros Hg Hl Hle Hlen.
  destruct (MeterFacts.add_all_spec g l Hg EnergyMeter.init (MeterFacts.init_ok g ltac:(lia)) Hl) as (m & E & Et & Eb & Es).
  - cbn [EnergyMeter.total EnergyMeter.init value J0]. rewrite val_zero. lia.
  - exists m. cbn [EnergyMeter.total EnergyMeter.init value J0 EnergyMeter.samples] in Et, Es. rewrite val_zero in Et.
    split; [exact E|]. split; [lia|]. split; [|rewrite Es; lia].
    intros p. rewrite Eb. destruct p; reflexivity.
Qed.

Definition sample_energies : list MeterFacts.sample :=
  [(mkQ 1.5, MEASURED, mkTime 10); (mkQ 2.25, ESTIMATED, mkTime 20); (mkQ 4, MEASURED, mkTime 30)].

Lemma meter_totals_exact_witness :
  exists m, EnergyMeter.add_all sample_energies EnergyMeter.init = Ret m /\
    val (value (EnergyMeter.total m)) = MeterFacts.sum_all sample_energies /\
    (forall p, val (value (EnergyMeter.by_ m p)) = MeterFacts.sum_by p sample_energies) /\
    EnergyMeter.samples m = Z.of_nat (length sample_energies).
Proof.
  apply (meter_totals_exact 1072 sample_energies); [lia| |vm_compute; discriminate|vm_compute; reflexivity].
  repeat constructor; vm_compute; try discriminate; [exists 6|exists 9|exists 16]; reflexivity.
Defined.

(** C34: an enforced energy window never overruns: over any sequence of calls
    of [consume] at valid times, with amounts that are zero or above the
    tolerance, no call fails, and what is consumed in the current window is
    finite and at most the budget, up to the tolerance and a relative error of
    [2^-50]. *)
Theorem energy_window_never_overrun (c : EnergyWindow) (l : list (Joules * Timestamp)) :
  ew_enforce c = true -> nonneg (value (ew_budget c)) ->
  Forall (fun p => WindowFacts.amount_ok p.1 /\ valid_time p.2) l ->
  exists a, WindowFacts.consume_all l (EnergyWindowAccount.make c) = Ret a /\
    nonneg (value (EnergyWindowAccount.consumed_ a)) /\
    2 ^ 50 * val (value (EnergyWindowAccount.consumed_ a)) <= (2 ^ 50 + 1) * (val (value (ew_budget c)) + val eps).
Proof.
  intros He Hb Hl.
  destruct (WindowFacts.window_consume_all_ok l _ (WindowFacts.window_make_ok c He Hb) Hl) as (a & E & Ha & Hc).
  exists a. destruct Ha as (_ & _ & Hn & _ & _ & Hw). rewrite Hc in Hw. auto.
Qed.

Definition joule_calls : list (Joules * Timestamp) :=
  [(mkQ 6, mkTime 100); (mkQ 6, mkTime 200); (mkQ 4, mkTime 300); (mkQ 8, mkTime 2000000000)].

Lemma amount_okb (x : double) : isfinite x && ((val x =? 0) || (val eps <? val x)) = true ->
  WindowFacts.amount_ok (mkQ x).
Proof.
  intros H. apply andb_prop in H as [Hf H]. pose proof val_eps_pos. unfold WindowFacts.amount_ok, nonneg. cbn [value].
  split; [split; [assumption|lia]|]. lia.
Qed.

Lemma joule_calls_ok : Forall (fun p => WindowFacts.amount_ok p.1 /\ valid_time p.2) joule_calls.
Proof.
  repeat constructor; try (apply amount_okb; vm_compute; reflexivity); vm_compute; discriminate.
Qed.

Lemma energy_window_never_overrun_witness :
  exists a, WindowFacts.consume_all joule_calls
      (EnergyWindowAccount.make (mkEnergyWindow (mkQ 10) (mkDuration 1000000000) true)) = Ret a /\
    nonneg (value (EnergyWindowAccount.consumed_ a)) /\
    2 ^ 50 * val (value (EnergyWindowAccount.consumed_ a)) <= (2 ^ 50 + 1) * (val 10 + val eps).
Proof.
  apply (energy_window_never_overrun (mkEnergyWindow (mkQ 10) (mkDuration 1000000000) true) joule_calls);
    [reflexivity|split; vm_compute; [reflexivity|discriminate]|apply joule_calls_ok].
Defined.

(** C35: a burst budget never overruns its capacity.  Take any sequence of calls of
    [consume] at valid times, with amounts that are finite and zero or above the tolerance
    of [1e-9] J.  When the budget is enabled and its capacity can be computed (the product
    of the allowance and the window is a valid energy: where it is not, [capacity] ends the
    program), no call fails, and what is consumed in the current window is finite, not
    negative, and at most that product, up to the tolerance and a relative error of [2^-50].
    When it is disabled, no call grants anything or changes it. *)
Theorem burst_never_overrun (lim : BurstLimits) (l : list (Joules * Timestamp)) :
  Forall (fun p => WindowFacts.amount_ok p.1 /\ valid_time p.2) l ->
  (enabled lim = true -> forall c, BurstBudget.capacity (BurstBudget.make lim) = Ret c ->
     value c = (value (allowance lim) * seconds_f (burst_limit_window lim))%float /\
     exists b, BurstFacts.consume_all l (BurstBudget.make lim) = Ret b /\ nonneg (value (BurstBudget.consumed_ b)) /\
       2 ^ 50 * val (value (BurstBudget.consumed_ b)) <= (2 ^ 50 + 1) * (val (value c) + val eps)) /\
  (enabled lim = false -> BurstFacts.consume_all l (BurstBudget.make lim) = Ret (BurstBudget.make lim) /\
     forall j now, BurstBudget.consume j now (BurstBudget.make lim) = (Ret false, BurstBudget.make lim)).
Proof.
  intros Hl. split; intros He.
  - intros c Hc. split; [unfold BurstBudget.capacity in Hc; apply noexcept_Ret, quantity_valid in Hc as [E _]; exact E|].
    destruct (BurstFacts.burst_consume_all_ok c l _ (BurstFacts.burst_make_ok lim c He Hc) Hl) as (b & E & Hb).
    exists b. split; [exact E|]. split; apply Hb.
  - assert (Hno : forall j now, BurstBudget.consume j now (BurstBudget.make lim) = (Ret false, BurstBudget.make lim))
      by (intros j now; unfold BurstBudget.consume; rewrite sbind_sget; simpl; rewrite He; reflexivity).
    split; [|exact Hno]. clear Hl. induction l as [|[j now] l IH]; simpl; [reflexivity|]. rewrite Hno. exact IH.
Qed.

Definition sample_limits (on : bool) : BurstLimits :=
  mkBurstLimits (mkQ 50) (mkDuration 2000000000) (mkDuration 0) on.

Lemma burst_never_overrun_witness : exists b,
  BurstFacts.consume_all joule_calls (BurstBudget.make (sample_limits true)) = Ret b /\
  nonneg (value (BurstBudget.consumed_ b)) /\
  2 ^ 50 * val (value (BurstBudget.consumed_ b)) <= (2 ^ 50 + 1) * (val 100 + val eps).
Proof.
  apply (proj1 (burst_never_overrun (sample_limits true) joule_calls joule_calls_ok) eq_refl (mkQ 100)). vm_compute. reflexivity.
Defined.
