(* ===== verification/WindowSpec.v ===== *)
(** * The window of power readings (energy.hpp)

    What [PowerWindow] promises: after any history of readings it holds exactly the recent
    ones, in order, and the highest power ever accepted as its peak. *)
From stdpp Require Import sorting.
From S2P Require Import Prelude Rounding Binary64 Units Clock Energy.
Local Open Scope Z_scope.
#[local] Set Warnings "-inexact-float".
#[local] Arguments Z.mul : simpl never.
#[local] Arguments Z.add : simpl never.
#[local] Arguments Z.pow : simpl never.
Import PowerWindow.

(** ** The reference: the accepted readings, and the recent ones among them *)
Definition reading : Type := Timestamp * Watts.
Definition at_ (s : Sample) : Z := time_ns (s_t s).

Definition accepts (h : list Sample) (c : reading) : bool :=
  isfinite (value c.2) && negb (value c.2 <? 0)%float && match last h with Some s => negb (time_ltb c.1 (s_t s)) | None => true end.
Definition accept (h : list Sample) (c : reading) : list Sample := if accepts h c then h ++ [mkSample c.1 c.2] else h.
Definition accepted (calls : list reading) : list Sample := foldl accept [] calls.

(** The samples older than the capacity, at the time of the last one. *)
Definition too_old (cap : Duration) (now : Z) (s : Sample) : Prop := ns cap < now - at_ s.
#[local] Instance too_old_dec (cap : Duration) (now : Z) (s : Sample) : Decision (too_old cap now s).
Proof. unfold too_old. apply _. Defined.
Definition expired_count (cap : Duration) (now : Z) (h : list Sample) : nat := length (filter (too_old cap now) h).
(** All but the expired ones, of which two samples are kept at least. *)
Definition retained (cap : Duration) (h : list Sample) : list Sample :=
  match last h with
  | Some z => drop (Nat.min (length h - 2) (expired_count cap (at_ z) h)) h
  | None => []
  end.

(** The calls one after the other, whatever they answer. *)
Definition record_all (calls : list reading) (w : t) : t := foldl (fun w c => (record c.1 c.2 w).2) w calls.

(** ** Samples in order *)
Definition before (a b : Sample) : Prop := at_ a <= at_ b.
Definition in_order (h : list Sample) : Prop := StronglySorted before h /\ Forall (fun s => valid_time (s_t s)) h.

Lemma in_order_cons (s : Sample) (h : list Sample) :
  in_order (s :: h) <-> Forall (before s) h /\ valid_time (s_t s) /\ in_order h.
Proof.
  unfold in_order. rewrite Forall_cons. split.
  - intros [Hs [Hv Hh]]. apply StronglySorted_inv in Hs as [Hs Hb]. auto.
  - intros (Hb & Hv & Hs & Hh). split; [constructor; assumption|auto].
Qed.

Lemma in_order_snoc (h : list Sample) (s : Sample) :
  in_order h -> valid_time (s_t s) -> (forall z, last h = Some z -> before z s) -> in_order (h ++ [s]) /\ Forall (fun a => before a s) h.
Proof.
  intros Hh Hv Hl. induction h as [|a h IH].
  { cbn [app]. split; [|constructor]. apply in_order_cons. auto. }
  apply in_order_cons in Hh as (Hb & Ha & Hh).
  assert (Hall : in_order (h ++ [s]) /\ Forall (fun a => before a s) h).
  { apply IH; [exact Hh|]. intros z Ez. apply Hl. destruct h; [discriminate|exact Ez]. }
  destruct Hall as [Hs Hf].
  assert (Has : before a s).
  { destruct (last h) as [z|] eqn:Ez.
    - assert (Hz : before z s) by (apply Hl; destruct h; [discriminate|exact Ez]).
      rewrite Forall_forall in Hb. specialize (Hb z (last_Some_elem_of _ _ Ez)). unfold before in *. lia.
    - apply last_None in Ez as ->. apply Hl. reflexivity. }
  split; [|constructor; assumption]. cbn [app]. apply in_order_cons. split; [|split; assumption].
  apply Forall_app. split; [exact Hb|repeat constructor; exact Has].
Qed.

Lemma in_order_drop (m : nat) (h : list Sample) : in_order h -> in_order (drop m h).
Proof.
  revert h. induction m as [|m IH]; intros [|a h] H; try exact H. apply in_order_cons in H as (_ & _ & H). apply IH, H.
Qed.

Lemma filter_none {A : Type} (P : A -> Prop) `{!forall a, Decision (P a)} (l : list A) :
  Forall (fun a => ~ P a) l -> filter P l = [].
Proof. induction 1 as [|a l Ha _ IH]; [reflexivity|]. rewrite filter_cons, decide_False by exact Ha. exact IH. Qed.

(** The expired samples come first. *)
Lemma expired_none (cap : Duration) (now : Z) (s : Sample) (h : list Sample) :
  in_order (s :: h) -> ~ too_old cap now s -> expired_count cap now (s :: h) = 0%nat.
Proof.
  intros Hs Hn. apply in_order_cons in Hs as (Hb & _ & _). unfold expired_count.
  assert (E : filter (too_old cap now) (s :: h) = []).
  { apply filter_none. constructor; [exact Hn|]. apply (Forall_impl _ _ _ Hb). unfold too_old, before in *. intros a Ha. lia. }
  rewrite E. reflexivity.
Qed.

Lemma expired_drop (cap : Duration) (now : Z) (m : nat) (h : list Sample) :
  in_order h -> (m <= expired_count cap now h)%nat -> expired_count cap now (drop m h) = (expired_count cap now h - m)%nat.
Proof.
  revert h. induction m as [|m IH]; intros h Hs Hm; [rewrite drop_0; lia|]. destruct h as [|s h]; [cbn in Hm; lia|].
  destruct (decide (too_old cap now s)) as [Ho|Hn]; [|rewrite (expired_none cap now s h Hs Hn) in Hm; lia].
  assert (E : expired_count cap now (s :: h) = S (expired_count cap now h)).
  { unfold expired_count. rewrite filter_cons, decide_True by exact Ho. reflexivity. }
  rewrite E in *. cbn [drop]. apply in_order_cons in Hs as (_ & _ & Hs). rewrite (IH h Hs) by lia. lia.
Qed.

(** The loop of [trim] drops the expired samples. *)
Lemma trim_drops (cap : Duration) (now : Timestamp) (h : list Sample) :
  0 <= ns cap -> valid_time now -> in_order h ->
  trim_loop cap now h = (Ret tt, drop (Nat.min (length h - 2) (expired_count cap (time_ns now) h)) h).
Proof.
  intros Hcap Hnow. induction h as [|s h IH]; intros Hs; [reflexivity|]. cbn [trim_loop].
  pose proof Hs as (_ & Hv & Hh)%in_order_cons. destruct (Nat.ltb_spec 2 (length (s :: h))) as [Hlen|Hlen].
  - rewrite elapsed_since_valid by assumption. unfold duration_ltb. cbn [ns].
    destruct (Z.ltb_spec (ns cap) (Z.max 0 (time_ns now - time_ns (s_t s)))) as [Ho|Hn].
    + assert (E : expired_count cap (time_ns now) (s :: h) = S (expired_count cap (time_ns now) h)).
      { unfold expired_count. rewrite filter_cons, decide_True by (unfold too_old, at_; lia). reflexivity. }
      rewrite E, (IH Hh). cbn [length] in *.
      replace (Nat.min (S (length h) - 2) (S (expired_count cap (time_ns now) h)))
        with (S (Nat.min (length h - 2) (expired_count cap (time_ns now) h))) by lia. reflexivity.
    + rewrite (expired_none cap (time_ns now) s h Hs) by (unfold too_old, at_; lia). rewrite Nat.min_0_r. reflexivity.
  - replace (length (s :: h) - 2)%nat with 0%nat by lia. reflexivity.
Qed.

(** ** The window holds the recent samples *)
Lemma expired_later (cap : Duration) (now later : Z) (h : list Sample) :
  now <= later -> (expired_count cap now h <= expired_count cap later h)%nat.
Proof.
  intros Hle. unfold expired_count. induction h as [|s h IH]; [reflexivity|]. rewrite !filter_cons.
  repeat case_decide; cbn [length]; try lia. unfold too_old in *. lia.
Qed.

Lemma expired_app (cap : Duration) (now : Z) (h h' : list Sample) :
  expired_count cap now (h ++ h') = (expired_count cap now h + expired_count cap now h')%nat.
Proof. unfold expired_count. rewrite filter_app, length_app. reflexivity. Qed.

Lemma last_drop {A : Type} (m : nat) (l : list A) : (m < length l)%nat -> last (drop m l) = last l.
Proof. intros Hm. rewrite !last_lookup, lookup_drop, length_drop. f_equal. lia. Qed.

Lemma retained_last (cap : Duration) (h : list Sample) : last (retained cap h) = last h.
Proof.
  unfold retained. destruct (last h) as [z|] eqn:E; [|reflexivity]. rewrite <- E. apply last_drop.
  destruct h; [discriminate|]. cbn [length]. lia.
Qed.

Lemma retained_snoc (cap : Duration) (h : list Sample) (s : Sample) :
  0 <= ns cap -> valid_time (s_t s) -> in_order (h ++ [s]) -> in_order h -> (forall z, last h = Some z -> before z s) ->
  trim_loop cap (s_t s) (retained cap h ++ [s]) = (Ret tt, retained cap (h ++ [s])).
Proof.
  intros Hcap Hv Hs Hh Hz. unfold retained at 2. rewrite last_snoc. unfold retained.
  destruct (last h) as [z|] eqn:Ez; [|apply last_None in Ez as ->; reflexivity].
  specialize (Hz z eq_refl). set (m := Nat.min (length h - 2) (expired_count cap (at_ z) h)).
  assert (He : (m <= expired_count cap (at_ s) (h ++ [s]))%nat).
  { rewrite expired_app. pose proof (expired_later cap (at_ z) (at_ s) h Hz). lia. }
  replace (drop m h ++ [s]) with (drop m (h ++ [s])) by (apply drop_app_le; lia).
  rewrite (trim_drops cap (s_t s) _ Hcap Hv (in_order_drop m _ Hs)), drop_drop. fold (at_ s).
  rewrite (expired_drop cap (at_ s) m _ Hs He), length_drop, length_app. cbn [length]. do 2 f_equal. lia.
Qed.

(** The peak: the highest power that was ever accepted. *)
Definition is_peak (h : list Sample) (p : Watts) : Prop :=
  nonneg (value p) /\ Forall (fun s => val (value (s_p s)) <= val (value p)) h /\ (p = W0 \/ exists s, s ∈ h /\ s_p s = p).

Record window_ok (cap : Duration) (h : list Sample) (w : t) : Prop := mkWindowOk {
  win_capacity : capacity w = cap;
  win_samples : samples w = retained cap h;
  win_order : in_order h;
  win_powers : Forall (fun s => nonneg (value (s_p s))) h;
  win_peak : is_peak h (peak w) }.

Lemma window_init_ok (cap : Duration) : window_ok cap [] (init cap).
Proof. split; try reflexivity; try constructor; repeat constructor; discriminate. Qed.

Lemma not_negative (x : double) : isfinite x = true -> (x <? 0)%float = false -> nonneg x.
Proof. intros Hf Hl. split; [exact Hf|]. rewrite ltb_val in Hl by (exact Hf || reflexivity). change (val 0) with 0 in Hl. lia. Qed.

Lemma peak_snoc (h : list Sample) (s : Sample) (pk : Watts) : nonneg (value (s_p s)) -> is_peak h pk ->
  is_peak (h ++ [s]) (if (value pk <? value (s_p s))%float then s_p s else pk).
Proof.
  intros [Hf Hv] ([Hpf Hpv] & Hall & Hin). rewrite ltb_val by assumption.
  destruct (Z.ltb_spec (val (value pk)) (val (value (s_p s)))) as [Hlt|Hge].
  - split; [split; assumption|]. split.
    + apply Forall_app. split; [apply (Forall_impl _ _ _ Hall); cbn; intros; lia|constructor; [reflexivity|constructor]].
    + right. exists s. split; [apply elem_of_app; right; apply list_elem_of_singleton|]; reflexivity.
  - split; [split; assumption|]. split; [apply Forall_app; split; [exact Hall|constructor; [exact Hge|constructor]]|].
    destruct Hin as [Hin|(s' & Hs' & E)]; [left; exact Hin|right; exists s'; split; [apply elem_of_app; left; exact Hs'|exact E]].
Qed.

(** One call: it is refused with an exception and changes nothing, or accepted. *)
Lemma record_step (cap : Duration) (h : list Sample) (w : t) (c : reading) :
  0 <= ns cap -> valid_time c.1 -> window_ok cap h w ->
  (if accepts h c then (record c.1 c.2 w).1 = Ret tt else exists e, (record c.1 c.2 w).1 = Throw e) /\
  window_ok cap (accept h c) (record c.1 c.2 w).2.
Proof.
  intros Hcap Hv Hw. pose proof Hw as [Ec Es Ho Hp Hpk]. destruct c as [x p]. cbn [fst snd] in *.
  unfold record, accept, accepts. rewrite sbind_sget. cbn [fst snd]. rewrite Es, retained_last.
  destruct (isfinite (value p)) eqn:Ef; cbn [negb andb]; [|split; [eexists; reflexivity|exact Hw]].
  destruct (value p <? 0)%float eqn:En; cbn [negb andb]; [split; [eexists; reflexivity|exact Hw]|].
  set (s := mkSample x p). set (late := match last h with Some s => time_ltb x (s_t s) | None => false end).
  assert (El : (match last h with Some s => negb (time_ltb x (s_t s)) | None => true end) = negb late)
    by (unfold late; destruct (last h); reflexivity).
  rewrite El. destruct late eqn:Elate; cbn [negb]; [split; [eexists; reflexivity|exact Hw]|].
  assert (Hz : forall z, last h = Some z -> before z s).
  { intros z Ez. unfold late in Elate. rewrite Ez in Elate. unfold time_ltb in Elate. unfold before, at_. cbn [s_t s]. lia. }
  destruct (in_order_snoc h s Ho Hv Hz) as [Ho' _]. pose proof (retained_snoc cap h s Hcap Hv Ho' Ho Hz) as Et.
  change (s_t s) with x in Et. rewrite Ec, Et.
  split; [reflexivity|]. split; cbn; try reflexivity; [exact Ho'| |].
  - apply Forall_app. split; [exact Hp|]. constructor; [apply not_negative; assumption|constructor].
  - apply (peak_snoc h s (peak w)); [apply not_negative; assumption|exact Hpk].
Qed.

Lemma refused_unchanged (cap : Duration) (h : list Sample) (w : t) (c : reading) :
  window_ok cap h w -> accepts h c = false -> (record c.1 c.2 w).2 = w.
Proof.
  intros [_ Es _ _ _] Hc. destruct c as [x p]. unfold record, accepts in *. rewrite sbind_sget. cbn [fst snd] in *.
  rewrite Es, retained_last. destruct (isfinite (value p)); cbn [negb andb] in *; [|reflexivity].
  destruct (value p <? 0)%float; cbn [negb andb] in *; [reflexivity|].
  destruct (last h) as [z|]; [|discriminate]. destruct (time_ltb x (s_t z)); [reflexivity|discriminate].
Qed.

Lemma record_all_ok (cap : Duration) (calls : list reading) (h : list Sample) (w : t) :
  0 <= ns cap -> Forall (fun c => valid_time c.1) calls -> window_ok cap h w -> window_ok cap (foldl accept h calls) (record_all calls w).
Proof.
  intros Hcap Hv. revert h w. induction Hv as [|c calls Hc _ IH]; intros h w Hw; [exact Hw|]. cbn.
  apply IH, (record_step cap h w c Hcap Hc Hw).
Qed.

(** ** What the window holds, in words *)
Lemma expired_prefix (cap : Duration) (now : Z) (m : nat) (h : list Sample) :
  in_order h -> (m <= expired_count cap now h)%nat -> Forall (too_old cap now) (take m h).
Proof.
  revert h. induction m as [|m IH]; intros [|s h] Hs Hm; try constructor; cbn [take].
  - destruct (decide (too_old cap now s)) as [Ho|Hn]; [exact Ho|]. rewrite (expired_none cap now s h Hs Hn) in Hm. lia.
  - apply IH; [apply in_order_cons in Hs; apply Hs|].
    unfold expired_count in *. rewrite filter_cons in Hm. case_decide; cbn [length] in Hm; lia.
Qed.

Lemma expired_zero (cap : Duration) (now : Z) (h : list Sample) : expired_count cap now h = 0%nat -> Forall (fun s => ~ too_old cap now s) h.
Proof.
  unfold expired_count. induction h as [|s h IH]; [constructor|]. rewrite filter_cons.
  case_decide as E; [discriminate|]. intros H. constructor; [exact E|apply IH, H].
Qed.

Lemma retained_suffix (cap : Duration) (h : list Sample) : exists m, retained cap h = drop m h.
Proof. unfold retained. destruct (last h) eqn:E; [eauto|]. exists 0%nat. apply last_None in E as ->. reflexivity. Qed.

Lemma retained_recent (cap : Duration) (h : list Sample) (z s : Sample) :
  in_order h -> last h = Some z -> s ∈ h -> at_ z - at_ s <= ns cap -> s ∈ retained cap h.
Proof.
  intros Hs Ez Hin Hage. unfold retained. rewrite Ez. set (m := Nat.min _ _). rewrite <- (take_drop m h), elem_of_app in Hin.
  destruct Hin as [Hin|Hin]; [exfalso|exact Hin].
  pose proof (expired_prefix cap (at_ z) m h Hs ltac:(lia)) as Ho. rewrite Forall_forall in Ho. specialize (Ho s Hin). unfold too_old in Ho. lia.
Qed.

Lemma retained_not_old (cap : Duration) (h : list Sample) (z s : Sample) :
  in_order h -> last h = Some z -> (2 < length (retained cap h))%nat -> s ∈ retained cap h -> at_ z - at_ s <= ns cap.
Proof.
  intros Hs Ez Hlen Hin. unfold retained in *. rewrite Ez in *. set (e := expired_count cap (at_ z) h) in *.
  rewrite length_drop in Hlen. replace (Nat.min (length h - 2) e) with e in Hin by lia.
  pose proof (expired_drop cap (at_ z) e h Hs ltac:(unfold e; lia)) as E. fold e in E. rewrite Nat.sub_diag in E.
  apply expired_zero in E. rewrite Forall_forall in E. specialize (E s Hin). unfold too_old in E. lia.
Qed.

(** C36: the window holds exactly the recent readings.  After any sequence of readings, at
    times a Duration can hold and accepted or not, a reading is accepted exactly when it
    is finite, not negative and not before the last one accepted, and otherwise refused
    with an exception that changes nothing; the samples are the end of the accepted
    ones, in order; each accepted sample within the capacity of the last one is there;
    when there are more than two, none is older; and the peak is the highest power ever
    accepted, whether its sample is still there or not. *)
Theorem window_holds_recent (cap : Duration) (calls : list reading) (c : reading) :
  0 <= ns cap -> Forall (fun c => valid_time c.1) calls -> valid_time c.1 ->
  let h := accepted calls in
  let w := record_all calls (init cap) in
  (if accepts h c then (record c.1 c.2 w).1 = Ret tt else (exists e, (record c.1 c.2 w).1 = Throw e) /\ (record c.1 c.2 w).2 = w) /\
  StronglySorted before h /\ (exists m, samples w = drop m h) /\
  (forall z s, last h = Some z -> s ∈ h -> at_ z - at_ s <= ns cap -> s ∈ samples w) /\
  (forall z s, last h = Some z -> (2 < length (samples w))%nat -> s ∈ samples w -> at_ z - at_ s <= ns cap) /\
  is_peak h (peak w).
Proof.
  intros Hcap Hv Hc h w. pose proof (record_all_ok cap calls [] _ Hcap Hv (window_init_ok cap)) as Hw. fold (accepted calls) in Hw.
  fold h w in Hw. split; [|split; [|split; [|split; [|split]]]].
  - pose proof (record_step cap h w c Hcap Hc Hw) as [Hstep _]. destruct (accepts h c) eqn:E; [exact Hstep|]. split; [exact Hstep|].
    apply (refused_unchanged cap h); assumption.
  - apply (win_order _ _ _ Hw).
  - rewrite (win_samples _ _ _ Hw). apply retained_suffix.
  - intros z s. rewrite (win_samples _ _ _ Hw). apply retained_recent, (win_order _ _ _ Hw).
  - intros z s. rewrite (win_samples _ _ _ Hw). apply retained_not_old, (win_order _ _ _ Hw).
  - apply (win_peak _ _ _ Hw).
Qed.

(** Four readings, of which one is out of order; with a capacity of a second the first
    accepted one is dropped. *)
Definition four_readings : list reading :=
  [(mkTime 0, mkQ 300.0); (mkTime 900000000, mkQ 100.0); (mkTime 500000000, mkQ 100.0); (mkTime 1700000000, mkQ 200.0)].

Lemma window_holds_recent_witness :
  let w := record_all four_readings (init (mkDuration 1000000000)) in
  samples w = [mkSample (mkTime 900000000) (mkQ 100.0); mkSample (mkTime 1700000000) (mkQ 200.0)] /\
  (record (mkTime 1800000000) (mkQ 100.0) w).1 = Ret tt /\ is_peak (accepted four_readings) (peak w).
Proof.
  intros w. split; [vm_compute; reflexivity|].
  destruct (window_holds_recent (mkDuration 1000000000) four_readings (mkTime 1800000000, mkQ 100.0))
    as (Hr & _ & _ & _ & _ & Hp).
  - discriminate.
  - repeat constructor; discriminate.
  - split; discriminate.
  - split; [|exact Hp].
    assert (E : accepts (accepted four_readings) (mkTime 1800000000, mkQ 100.0) = true) by (vm_compute; reflexivity).
    rewrite E in Hr. exact Hr.
Defined.

(** The peak is not that of the samples: 300 W, read longer ago than the capacity, is still the
    peak of a window whose samples reach 200 W; and the last two samples are kept however
    old the first of them is. *)
Lemma peak_outlives_window :
  let w := record_all four_readings (init (mkDuration 1000000000)) in
  peak w = mkQ 300.0 /\ forallb (fun s => value (s_p s) <=? 200.0)%float (samples w) = true /\
  let later := (record (mkTime 9000000000) (mkQ 100.0) w).2 in
  samples later = [mkSample (mkTime 1700000000) (mkQ 200.0); mkSample (mkTime 9000000000) (mkQ 100.0)].
Proof. split; [|split]; vm_compute; reflexivity. Qed.
