(* ===== verification/WindowEnergy.v ===== *)
(** * The energy of the window of power readings (energy.hpp)

    [PowerWindow::integrated_energy_us] and [average_power] compute with doubles: what they
    return is the trapezoidal integral of the samples, and its quotient by their span, up to a
    relative error that is proved for any number of samples. *)
From stdpp Require Import sorting.
From S2P Require Import Prelude Rounding Binary64 Milli Accuracy Units Clock Energy WindowSpec.
Local Open Scope Z_scope.
#[local] Set Warnings "-inexact-float".
#[local] Arguments Z.mul : simpl never.
#[local] Arguments Z.add : simpl never.
#[local] Arguments Z.pow : simpl never.
Import PowerWindow.

(** ** The reference: the trapezoidal integral *)

(** Powers that a product keeps normal: zero, or between [2^-40] and [2^40] W. *)
Definition measured (p : Watts) : Prop := isfinite (value p) = true /\ (val (value p) = 0 \/ 2 ^ 1034 <= val (value p) <= 2 ^ 1114).

(** Twice the trapezoidal integral, in units of [2^-1074] W for a nanosecond. *)
Fixpoint area (prev : Sample) (l : list Sample) : Z :=
  match l with
  | [] => 0
  | s :: l => (val (value (s_p prev)) + val (value (s_p s))) * (at_ s - at_ prev) + area s l
  end.

Lemma limit_split : 2 ^ 2098 = 2 ^ 1024 * 2 ^ 1074.
Proof. rewrite <- pow2_add by lia. reflexivity. Qed.

Lemma seconds_approx (n : Z) : 0 <= n <= kMaxNs -> approx 3 (seconds_f (mkDuration n)) (n * 2 ^ 1074) 1000000000.
Proof.
  intros Hn. pose proof one_pos as H1. unfold seconds_f, kMaxNs in *. cbn [ns].
  assert (Hx : approx 1 (double_of_Z n) (n * 2 ^ 1074) 1).
  { apply (rounded_approx 0 _ (n * 2 ^ 1074)); [cbn; lia|nia| | |apply double_of_Z_rounds].
    - unfold finite_size. rewrite limit_split. assert (2 * n < 2 ^ 1024) by (apply Z.lt_trans with (2 ^ 64); [lia|reflexivity]). nia.
    - pose proof (near_exact (n * 2 ^ 1074) 1 ltac:(lia)) as H. rewrite Z.mul_1_r in H. exact H. }
  pose proof (approx_exact 1.0e9 eq_refl) as Hy. change (val 1.0e9) with (1000000000 * 2 ^ 1074) in Hy.
  apply (approx_scale 3 _ _ _ (2 ^ 1074) H1). replace (n * 2 ^ 1074 * 2 ^ 1074) with (n * 2 ^ 1074 * 1 * 2 ^ 1074) by ring.
  replace (1000000000 * 2 ^ 1074) with (1 * (1000000000 * 2 ^ 1074)) by ring.
  assert (H675 : 2 ^ 1074 = 2 ^ 399 * 2 ^ 675) by (rewrite <- pow2_add by lia; reflexivity).
  pose proof (pow2_pos 675 ltac:(lia)).
  apply (approx_div 1 0); try assumption; try nia.
  - unfold sizable. destruct (Z.eq_dec n 0) as [->|]; [left; ring|right]. rewrite H675. pose proof (pow2_pos 399 ltac:(lia)). nia.
  - right. rewrite H675. pose proof (pow2_pos 399 ltac:(lia)). nia.
  - unfold finite_size. rewrite limit_split. assert (2 * n < 2 ^ 1024) by (apply Z.lt_trans with (2 ^ 64); [lia|reflexivity]). nia.
Qed.

(** One trapezoid. *)
Definition trapezoid (a b : Watts) (n : Z) : double := (0.5 * (value a + value b) * seconds_f (mkDuration n))%float.

Lemma measured_range (p : Watts) : measured p -> 0 <= val (value p) <= 2 ^ 1114.
Proof. intros [_ [-> | H]]; [pose proof (pow2_pos 1114); lia|pose proof (pow2_pos 1034); lia]. Qed.

Lemma sum_sizable (a b : Watts) : measured a -> measured b ->
  val (value a) + val (value b) = 0 \/ 2 ^ 1034 <= val (value a) + val (value b).
Proof. intros [_ Ha] [_ Hb]. pose proof (pow2_pos 1034 ltac:(lia)). lia. Qed.

Lemma mean_approx (a b : Watts) : measured a -> measured b ->
  approx 2 (0.5 * (value a + value b))%float (val (value a) + val (value b)) 2.
Proof.
  intros Ha Hb. pose proof (measured_range a Ha) as Hra. pose proof (measured_range b Hb) as Hrb. pose proof one_pos as H1.
  pose proof (sum_sizable a b Ha Hb) as Hsum. set (v := val (value a) + val (value b)) in *.
  assert (H1114 : 2 ^ 1114 = 2 ^ 40 * 2 ^ 1074) by (rewrite <- pow2_add by lia; reflexivity).
  assert (H1034 : 2 ^ 1034 = 2 ^ 359 * 2 ^ 675) by (rewrite <- pow2_add by lia; reflexivity). pose proof (pow2_pos 359 ltac:(lia)).
  assert (H1074 : 2 ^ 1074 = 2 ^ 399 * 2 ^ 675) by (rewrite <- pow2_add by lia; reflexivity). pose proof (pow2_pos 399 ltac:(lia)).
  assert (Hsmall : 2 * v < 2 ^ 1024 * 2 ^ 1074) by (apply Z.le_lt_trans with (4 * 2 ^ 40 * 2 ^ 1074); [lia|apply Z.mul_lt_mono_pos_r; [lia|reflexivity]]).
  assert (Hs : approx 1 (value a + value b)%float v 1).
  { apply (approx_add 0); try (apply approx_exact; (apply Ha || apply Hb)); try lia. unfold finite_size. rewrite limit_split. lia. }
  assert (E : 2 ^ 1074 = 2 * 2 ^ 1073) by (rewrite <- (pow2_add 1) by lia; reflexivity). pose proof (pow2_pos 1073 ltac:(lia)) as H73.
  pose proof (approx_exact 0.5 eq_refl) as Hh. change (val 0.5) with (2 ^ 1073) in Hh.
  apply (approx_scale 2 _ _ _ (2 ^ 1073) H73). replace (2 * 2 ^ 1073) with (1 * 1 * 2 ^ 1074) by lia. rewrite (Z.mul_comm v).
  apply (approx_mul 0 1); try assumption; try lia.
  - right. rewrite Z.mul_1_r. apply pow2_le. lia.
  - unfold sizable. destruct Hsum as [Hz|Hz]; [left; exact Hz|right]. pose proof (pow2_le 675 1034). lia.
  - unfold finite_size. rewrite limit_split, E in *. nia.
Qed.

Lemma trapezoid_approx (a b : Watts) (n : Z) : measured a -> measured b -> 0 <= n <= kMaxNs ->
  approx 6 (trapezoid a b n) ((val (value a) + val (value b)) * n) 2000000000.
Proof.
  intros Ha Hb Hn. pose proof (measured_range a Ha) as Hra. pose proof (measured_range b Hb) as Hrb. pose proof one_pos as H1.
  pose proof (sum_sizable a b Ha Hb) as Hsum. pose proof (mean_approx a b Ha Hb) as Hm. pose proof (seconds_approx n Hn) as Hd.
  set (v := val (value a) + val (value b)) in *.
  assert (H1114 : 2 ^ 1114 = 2 ^ 40 * 2 ^ 1074) by (rewrite <- pow2_add by lia; reflexivity).
  apply (approx_scale 6 _ _ _ (2 ^ 1074) H1).
  replace (v * n * 2 ^ 1074) with (v * (n * 2 ^ 1074)) by ring.
  replace (2000000000 * 2 ^ 1074) with (2 * 1000000000 * 2 ^ 1074) by ring.
  assert (Hn0 : 0 <= n * 2 ^ 1074) by nia.
  apply (approx_mul 2 3); try assumption; try lia.
  - unfold sizable. destruct Hsum as [Hz|Hz]; [left; exact Hz|right]. pose proof (pow2_le 676 1034).
    replace (2 ^ 676) with (2 * 2 ^ 675) in * by (rewrite <- (pow2_add 1) by lia; reflexivity). lia.
  - unfold sizable. destruct (Z.eq_dec n 0) as [->|]; [left; reflexivity|right].
    assert (E : 2 ^ 1074 = 2 ^ 399 * 2 ^ 675) by (rewrite <- pow2_add by lia; reflexivity). pose proof (pow2_pos 675 ltac:(lia)).
    assert (1000000000 <= 2 ^ 399) by discriminate. rewrite E. nia.
  - unfold finite_size, kMaxNs in *. rewrite limit_split.
    assert (v * n <= (2 ^ 41 * 2 ^ 1074) * 2 ^ 63) by (apply Z.mul_le_mono_nonneg; lia).
    assert (2 * (v * n) < 2 ^ 1024 * 2 ^ 1074) by (apply Z.le_lt_trans with (2 ^ 105 * 2 ^ 1074); [lia|apply Z.mul_lt_mono_pos_r; [lia|reflexivity]]).
    assert (H3 : v * (n * 2 ^ 1074) = (v * n) * 2 ^ 1074) by ring. rewrite H3. nia.
Qed.

(** The sum of the trapezoids, from what was summed before. *)
Lemma integrate_approx (l : list Sample) : forall (k : nat) (acc : double) (prev : Sample) (a : Z),
  (6 <= k)%nat -> Z.of_nat (k + length l) <= 2 ^ 48 -> in_order (prev :: l) -> Forall (fun s => measured (s_p s)) (prev :: l) ->
  0 <= a <= 2 ^ 1115 * at_ prev -> approx k acc a 2000000000 ->
  exists r, integrate acc prev l = Ret r /\ approx (k + length l) r (a + area prev l) 2000000000 /\
    0 <= a + area prev l <= 2 ^ 1115 * kMaxNs.
Proof.
  assert (H1114 : 2 ^ 1115 = 2 * 2 ^ 1114) by (rewrite <- (pow2_add 1) by lia; reflexivity).
  pose proof (pow2_pos 1114 ltac:(lia)) as H14.
  induction l as [|s l IH]; intros k acc prev a Hk6 Hk Ho Hm Ha Hacc.
  - exists acc. cbn [area length integrate] in *. rewrite Z.add_0_r, Nat.add_0_r. split; [reflexivity|]. split; [exact Hacc|].
    apply in_order_cons in Ho as (_ & [_ Hv] & _). unfold at_ in Ha. split; [lia|].
    transitivity (2 ^ 1115 * time_ns (s_t prev)); [lia|]. apply Z.mul_le_mono_nonneg_l; lia.
  - pose proof Ho as (Hb & Hv & Ho')%in_order_cons. pose proof Ho' as (_ & Hv' & _)%in_order_cons.
    apply Forall_cons in Hb as [Hps _]. apply Forall_cons in Hm as [Hmp Hm]. pose proof (Forall_inv Hm) as Hms. unfold before in Hps.
    cbn [integrate area length] in *. rewrite elapsed_since_valid by assumption. cbn [obind]. unfold valid_time in Hv, Hv'.
    set (n := Z.max 0 (time_ns (s_t s) - time_ns (s_t prev))).
    assert (En : at_ s - at_ prev = n) by (unfold at_, n in *; lia).
    assert (Hn : 0 <= n <= kMaxNs) by (unfold n; lia).
    pose proof (trapezoid_approx (s_p prev) (s_p s) n Hmp Hms Hn) as Ht. rewrite En.
    pose proof (measured_range _ Hmp) as Hrp. pose proof (measured_range _ Hms) as Hrs.
    set (v := val (value (s_p prev)) + val (value (s_p s))) in *.
    assert (Hvn : 0 <= v * n <= 2 ^ 1115 * n) by (split; [apply Z.mul_nonneg_nonneg; lia|apply Z.mul_le_mono_nonneg_r; lia]).
    assert (Ha' : 0 <= a + v * n <= 2 ^ 1115 * at_ s).
    { split; [lia|]. replace (at_ s) with (at_ prev + n) by lia. rewrite Z.mul_add_distr_l. lia. }
    change (0.5 * (value (s_p prev) + value (s_p s)) * seconds_f (mkDuration n))%float with (trapezoid (s_p prev) (s_p s) n).
    destruct (IH (S k) (acc + trapezoid (s_p prev) (s_p s) n)%float s (a + v * n) ltac:(lia) ltac:(lia) Ho' Hm Ha') as (r & Er & Hr & Hrange).
    + assert (E50 : 2 ^ 50 = 4 * 2 ^ 48) by reflexivity. apply approx_add; [lia|lia|lia| |exact Hacc|].
      * unfold finite_size. rewrite limit_split. replace (2 ^ 1115) with (2 ^ 41 * 2 ^ 1074) in Ha' by (rewrite <- pow2_add by lia; reflexivity).
        apply Z.le_lt_trans with (2 * (2 ^ 41 * 2 ^ 1074 * kMaxNs)); [unfold at_ in *; unfold valid_time in *; nia|].
        unfold kMaxNs. pose proof one_pos. replace (2 * (2 ^ 41 * 2 ^ 1074 * 4611686018427387903)) with (2 * 2 ^ 41 * 4611686018427387903 * 2 ^ 1074) by ring.
        replace (2 ^ 1024 * 2 ^ 1074 * 2000000000) with (2 ^ 1024 * 2000000000 * 2 ^ 1074) by ring. apply Z.mul_lt_mono_pos_r; [exact H|reflexivity].
      * apply (approx_weaken 6 k); [exact Hk6|lia|exact Ht].
    + exists r. split; [exact Er|]. rewrite Z.add_assoc. replace (k + S (length l))%nat with (S k + length l)%nat by lia. auto.
Qed.

(** ** Bounds on the area *)
Definition powers_between (lo hi : Z) (s : Sample) : Prop := lo <= val (value (s_p s)) <= hi.

Lemma area_between (lo hi : Z) (prev z : Sample) (l : list Sample) :
  in_order (prev :: l) -> last (prev :: l) = Some z -> Forall (powers_between lo hi) (prev :: l) ->
  2 * lo * (at_ z - at_ prev) <= area prev l <= 2 * hi * (at_ z - at_ prev).
Proof.
  revert prev. induction l as [|s l IH]; intros prev Ho Ez Hp.
  { injection Ez as <-. rewrite Z.sub_diag, !Z.mul_0_r. cbn. lia. }
  pose proof Ho as (Hb & _ & Ho')%in_order_cons. apply Forall_cons in Hb as [Hb _]. unfold before in Hb.
  apply Forall_cons in Hp as [H1 Hp]. pose proof (Forall_inv Hp) as H2. specialize (IH s Ho' Ez Hp).
  unfold powers_between in *. cbn [area]. set (v := val (value (s_p prev)) + val (value (s_p s))).
  assert (2 * lo * (at_ s - at_ prev) <= v * (at_ s - at_ prev) <= 2 * hi * (at_ s - at_ prev))
    by (split; apply Z.mul_le_mono_nonneg_r; unfold v; lia).
  replace (at_ z - at_ prev) with ((at_ s - at_ prev) + (at_ z - at_ s)) by ring. rewrite !Z.mul_add_distr_l. lia.
Qed.

Lemma area_sizable (prev : Sample) (l : list Sample) :
  in_order (prev :: l) -> Forall (fun s => measured (s_p s)) (prev :: l) -> area prev l = 0 \/ 2 ^ 1034 <= area prev l.
Proof.
  revert prev. pose proof (pow2_pos 1034 ltac:(lia)) as H34.
  induction l as [|s l IH]; intros prev Ho Hm; [left; reflexivity|].
  pose proof Ho as (Hb & _ & Ho')%in_order_cons. apply Forall_cons in Hb as [Hb _]. unfold before in Hb.
  apply Forall_cons in Hm as [H1 Hm]. pose proof (Forall_inv Hm) as H2. specialize (IH s Ho' Hm).
  pose proof (sum_sizable _ _ H1 H2) as Hv. cbn [area]. set (v := val (value (s_p prev)) + val (value (s_p s))) in *.
  assert (v * (at_ s - at_ prev) = 0 \/ 2 ^ 1034 <= v * (at_ s - at_ prev)); [|lia].
  destruct Hv as [-> | Hv]; [left; ring|]. destruct (Z.eq_dec (at_ s - at_ prev) 0) as [-> | Hn]; [left; ring|right].
  transitivity (2 ^ 1034 * 1); [lia|]. apply Z.mul_le_mono_nonneg; lia.
Qed.

(** ** What the window computes *)
Lemma energy_approx (w : t) (s : Sample) (l : list Sample) :
  samples w = s :: l -> l <> [] -> in_order (s :: l) -> Forall (fun s => measured (s_p s)) (s :: l) -> Z.of_nat (length l) <= 2 ^ 47 ->
  exists e, integrated_energy_us w = Ret e /\ approx (6 + length l) (value e) (area s l) 2000000000 /\ 0 <= area s l.
Proof.
  intros Es Hl Ho Hm Hlen. unfold integrated_energy_us. rewrite Es. destruct l as [|s' l]; [congruence|].
  pose proof Ho as (_ & [Hv _] & _)%in_order_cons.
  destruct (integrate_approx (s' :: l) 6 0 s 0) as (r & Er & Hr & Ha & _); try assumption.
  - lia.
  - assert (E : 2 ^ 48 = 2 * 2 ^ 47) by reflexivity. rewrite E. assert (E47 : 2 ^ 47 = 140737488355328) by reflexivity. lia.
  - split; [reflexivity|]. apply Z.mul_nonneg_nonneg; [apply Z.lt_le_incl, pow2_pos; lia|exact Hv].
  - apply approx_zero; reflexivity.
  - rewrite Er. cbn [obind]. rewrite Z.add_0_l in *. rewrite quantity_joules by (apply (approx_nonneg _ _ _ _ Ha Hr)).
    eexists. split; [reflexivity|]. split; assumption.
Qed.

Lemma span_is (w : t) (s z : Sample) (l : list Sample) :
  samples w = s :: l -> l <> [] -> last (s :: l) = Some z -> in_order (s :: l) -> valid_time (s_t z) -> at_ s <= at_ z ->
  span_seconds w = Ret (seconds_f (mkDuration (at_ z - at_ s))).
Proof.
  intros Es Hl Ez Ho Hvz Hle. pose proof Ho as (_ & Hv & _)%in_order_cons. unfold span_seconds. rewrite Es, Ez.
  destruct l; [congruence|]. rewrite elapsed_since_valid by assumption. unfold at_ in *. rewrite Z.max_r by lia. reflexivity.
Qed.

Lemma in_order_last (s z : Sample) (l : list Sample) : in_order (s :: l) -> last (s :: l) = Some z -> valid_time (s_t z) /\ at_ s <= at_ z.
Proof.
  intros Ho Ez. apply last_Some_elem_of in Ez. destruct Ho as [Hs Hv]. rewrite Forall_forall in Hv. split; [apply Hv, Ez|].
  apply StronglySorted_inv in Hs as [_ Hb]. rewrite Forall_forall in Hb. apply elem_of_cons in Ez as [-> | Hz]; [lia|apply Hb, Hz].
Qed.

Lemma span_sizable (n : Z) : 0 < n <= kMaxNs ->
  sizable (n * 2 ^ 1074) 1000000000 /\ 0 < n * 2 ^ 1074 <= 2 ^ 1137 * 1000000000.
Proof.
  intros Hn. unfold kMaxNs in Hn. pose proof one_pos as H1. unfold sizable.
  assert (E : 2 ^ 1074 = 2 ^ 399 * 2 ^ 675) by (rewrite <- pow2_add by lia; reflexivity). pose proof (pow2_pos 675 ltac:(lia)).
  assert (1000000000 <= 2 ^ 399) by discriminate.
  assert (E' : 2 ^ 1137 = 2 ^ 63 * 2 ^ 1074) by (rewrite <- pow2_add by lia; reflexivity).
  split; [right|split].
  - rewrite E. rewrite Z.mul_assoc, (Z.mul_comm (2 ^ 675)). apply Z.mul_le_mono_nonneg_r; [lia|].
    transitivity (1 * 2 ^ 399); [lia|apply Z.mul_le_mono_nonneg_r; lia].
  - apply Z.mul_pos_pos; lia.
  - rewrite E'. transitivity (2 ^ 63 * 2 ^ 1074 * 1); [rewrite Z.mul_1_r|apply Z.mul_le_mono_nonneg_l; lia].
    apply Z.mul_le_mono_nonneg_r; [lia|]. transitivity 4611686018427387903; [lia|discriminate].
Qed.

(** The quotient of an energy by a span. *)
Lemma average_approx (k : nat) (e : double) (a n : Z) : 2 * Z.of_nat (k + 8) <= 2 ^ 49 -> 0 < n <= kMaxNs ->
  (a = 0 \/ 2 ^ 1034 <= a) -> 0 <= a <= 2 * 2 ^ 1114 * n -> approx k e a 2000000000 ->
  approx (k + 8) (e / seconds_f (mkDuration n))%float a (2 * n).
Proof.
  intros Hk Hn Hsize Ha He. pose proof one_pos as H1. destruct (span_sizable n Hn) as [Hsn [Hpos Hmax]].
  assert (Hc : 0 < 1000000000 * 2 ^ 1074) by (apply Z.mul_pos_pos; lia).
  apply (proj1 (approx_scale (k + 8) _ a (2 * n) _ Hc)).
  replace (a * (1000000000 * 2 ^ 1074)) with (a * 1000000000 * 2 ^ 1074) by ring.
  replace (2 * n * (1000000000 * 2 ^ 1074)) with (2000000000 * (n * 2 ^ 1074)) by ring.
  replace (k + 8)%nat with (S (S (k + (3 + 3)))) by lia.
  apply approx_div; try assumption; try lia.
  - destruct Hsize as [-> | Hsize]; [left; reflexivity|right].
    assert (E : 2 ^ 1034 = 2 ^ 359 * 2 ^ 675) by (rewrite <- pow2_add by lia; reflexivity).
    assert (2000000000 <= 2 ^ 359) by discriminate. pose proof (pow2_pos 675 ltac:(lia)).
    transitivity (2 ^ 1034); [|exact Hsize]. rewrite E, (Z.mul_comm (2 ^ 675)). apply Z.mul_le_mono_nonneg_r; lia.
  - unfold finite_size. replace (2 * (a * 1000000000 * 2 ^ 1074)) with (a * (2000000000 * 2 ^ 1074)) by ring.
    replace (2 ^ 2098 * (2000000000 * (n * 2 ^ 1074))) with (2 ^ 2098 * n * (2000000000 * 2 ^ 1074)) by ring.
    apply Z.mul_lt_mono_pos_r; [apply Z.mul_pos_pos; lia|]. apply Z.le_lt_trans with (2 * 2 ^ 1114 * n); [lia|].
    apply Z.mul_lt_mono_pos_r; [lia|reflexivity].
  - apply seconds_approx. lia.
Qed.

Lemma span_positive (n : Z) : 0 <= n <= kMaxNs -> (seconds_f (mkDuration n) <=? 0)%float = (n =? 0).
Proof.
  intros Hn. pose proof (seconds_approx n Hn) as [Hf H]. rewrite leb_val by (exact Hf || reflexivity). change (val 0) with 0.
  pose proof one_pos as H1. assert (H0 : 0 <= n * 2 ^ 1074) by (apply Z.mul_nonneg_nonneg; lia).
  pose proof (near_nonneg _ _ _ _ H0 H) as Hp. pose proof (near_lower 3 _ _ _ H0 ltac:(cbn; lia) H) as Hl.
  destruct (Z.eqb_spec n 0) as [-> | Hz].
  - rewrite Z.mul_0_l in H. apply near_zero in H. lia.
  - assert (1 * 1 <= n * 2 ^ 1074) by (apply Z.mul_le_mono_nonneg; lia). lia.
Qed.

Lemma average_is (w : t) (s z : Sample) (l : list Sample) (e : Joules) :
  samples w = s :: l -> l <> [] -> in_order (s :: l) -> last (s :: l) = Some z -> integrated_energy_us w = Ret e ->
  average_power w = Ret (if at_ z - at_ s =? 0 then value (s_p z) else (value e / seconds_f (mkDuration (at_ z - at_ s)))%float).
Proof.
  intros Es Hl Ho Ez Ee. destruct (in_order_last s z l Ho Ez) as [Hvz Hle]. pose proof Ho as (_ & Hv & _)%in_order_cons.
  unfold average_power. rewrite Ee, (span_is w s z l), Es, Ez by assumption. destruct l; [congruence|]. cbn [obind].
  rewrite span_positive by (unfold at_, valid_time in *; lia). destruct (at_ z - at_ s =? 0); reflexivity.
Qed.

(** An average is between the lowest and the highest of the powers, up to the error. *)
Lemma between_error (k a n x lo hi : Z) : 0 <= k <= 2 ^ 49 -> 0 < n -> 2 ^ 49 * Z.abs (x * (2 * n) - a) <= k * a ->
  2 * lo * n <= a <= 2 * hi * n -> (2 ^ 49 - k) * lo <= 2 ^ 49 * x <= (2 ^ 49 + k) * hi.
Proof.
  intros Hk Hn He Ha. set (u := 2 ^ 49) in *.
  assert (Hx : (u - k) * a <= u * x * (2 * n) <= (u + k) * a) by lia.
  split; apply (Z.mul_le_mono_pos_r _ _ (2 * n)); try lia.
  - replace ((u - k) * lo * (2 * n)) with ((u - k) * (2 * lo * n)) by ring.
    transitivity ((u - k) * a); [apply Z.mul_le_mono_nonneg_l|]; lia.
  - replace ((u + k) * hi * (2 * n)) with ((u + k) * (2 * hi * n)) by ring.
    transitivity ((u + k) * a); [|apply Z.mul_le_mono_nonneg_l]; lia.
Qed.

Lemma in_order_retained (cap : Duration) (h : list Sample) : in_order h -> in_order (retained cap h).
Proof. intros Hh. destruct (retained_suffix cap h) as [m ->]. apply in_order_drop, Hh. Qed.

Lemma measured_retained (cap : Duration) (h : list Sample) :
  Forall (fun s => measured (s_p s)) h -> Forall (fun s => measured (s_p s)) (retained cap h).
Proof. intros Hh. destruct (retained_suffix cap h) as [m ->]. apply Forall_drop, Hh. Qed.

(** C37: the energy and the average of a window are those of the samples, up to rounding.
    After any readings at times a Duration can hold, where the powers accepted are zero or
    between [2^-40] and [2^40] W, of a window that holds a sample [s] and the [k] samples
    [l] after it, [k] at most [2^47]: [integrated_energy_us] returns an energy within
    [(k + 6) * 2^-49] of the trapezoidal integral, in proportion, and [average_power] an
    average within [(k + 14) * 2^-49] of that integral over the span, which lies between any
    bounds of the powers up to that error.  Where all the samples have one time, the average
    is the last power. *)
Theorem window_energy_accurate (cap : Duration) (calls : list reading) (s z : Sample) (l : list Sample) (lo hi : Z) :
  let w := record_all calls (init cap) in
  0 <= ns cap -> Forall (fun c => valid_time c.1) calls -> Forall (fun s => measured (s_p s)) (accepted calls) ->
  samples w = s :: l -> l <> [] -> last l = Some z -> Z.of_nat (length l) <= 2 ^ 47 -> Forall (powers_between lo hi) (s :: l) ->
  let k := Z.of_nat (length l) in
  let span := at_ z - at_ s in
  exists e avg,
    integrated_energy_us w = Ret e /\ 2 ^ 49 * Z.abs (val (value e) * 2000000000 - area s l) <= (k + 6) * area s l /\
    average_power w = Ret avg /\
    (if span =? 0 then avg = value (s_p z)
     else 2 ^ 49 * Z.abs (val avg * (2 * span) - area s l) <= (k + 14) * area s l /\
       (2 ^ 49 - (k + 14)) * lo <= 2 ^ 49 * val avg <= (2 ^ 49 + (k + 14)) * hi).
Proof.
  intros w Hcap Hv Hm Es Hl Ez Hlen Hp k span. pose proof (record_all_ok cap calls [] _ Hcap Hv (window_init_ok cap)) as Hw.
  fold (accepted calls) w in Hw. pose proof (win_samples _ _ _ Hw) as Er. rewrite Es in Er.
  pose proof (in_order_retained cap _ (win_order _ _ _ Hw)) as Ho. rewrite <- Er in Ho.
  pose proof (measured_retained cap _ Hm) as Hm'. rewrite <- Er in Hm'.
  assert (Ez' : last (s :: l) = Some z) by (destruct l; [congruence|exact Ez]).
  destruct (energy_approx w s l Es Hl Ho Hm' Hlen) as (e & Ee & He & Ha). destruct (in_order_last s z l Ho Ez') as [Hvz Hle].
  pose proof Ho as (_ & Hvs & _)%in_order_cons. assert (E47 : 2 ^ 47 = 140737488355328) by reflexivity.
  exists e. eexists. split; [exact Ee|]. split; [|split; [exact (average_is w s z l e Es Hl Ho Ez' Ee)|]].
  { destruct He as [_ He]. apply near_error in He; [|exact Ha|lia]. replace (k + 6) with (Z.of_nat (6 + length l)) by lia. exact He. }
  fold span. destruct (Z.eqb_spec span 0) as [_|Hspan]; [reflexivity|].
  assert (Hn : 0 < span <= kMaxNs) by (unfold span, at_, valid_time in *; lia).
  assert (Hmax : Forall (powers_between 0 (2 ^ 1114)) (s :: l)) by (apply (Forall_impl _ _ _ Hm'); intros x; apply measured_range).
  pose proof (area_between _ _ s z l Ho Ez' Hmax) as Hrange. fold span in Hrange.
  destruct (average_approx (6 + length l) (value e) _ span ltac:(lia) Hn (area_sizable s l Ho Hm') ltac:(split; [exact Ha|apply Hrange]) He) as [_ Hq].
  apply near_error in Hq; [|exact Ha|lia]. replace (Z.of_nat (6 + length l + 8)) with (k + 14) in Hq by lia.
  split; [exact Hq|]. apply (between_error _ (area s l) span); [lia|lia|exact Hq|apply area_between; assumption].
Qed.

Definition watts (x : double) : Watts := mkQ x.
(** Three readings: 100 W, 300 W a second later, 200 W half a second after that. *)
Definition three_readings : list reading :=
  [(mkTime 0, watts 100.0); (mkTime 1000000000, watts 300.0); (mkTime 1500000000, watts 200.0)].

Lemma window_energy_accurate_witness :
  let w := record_all three_readings (init (mkDuration 2000000000)) in
  exists e avg, integrated_energy_us w = Ret e /\ average_power w = Ret avg /\ e = mkQ 325.0 /\
    (2 ^ 49 - 16) * val 100.0 <= 2 ^ 49 * val avg <= (2 ^ 49 + 16) * val 300.0.
Proof.
  intros w.
  destruct (window_energy_accurate (mkDuration 2000000000) three_readings
    (mkSample (mkTime 0) (watts 100.0)) (mkSample (mkTime 1500000000) (watts 200.0))
    [mkSample (mkTime 1000000000) (watts 300.0); mkSample (mkTime 1500000000) (watts 200.0)] (val 100.0) (val 300.0))
    as (e & avg & He & _ & Ha & Hb).
  - discriminate.
  - repeat constructor; discriminate.
  - assert (H : forall x, (isfinite x && (2 ^ 1034 <=? val x) && (val x <=? 2 ^ 1114)) = true -> measured (watts x)).
    { intros x [[Hf H1]%andb_true_iff H2]%andb_true_iff. split; [exact Hf|right]. cbn [value watts]. lia. }
    assert (E : accepted three_readings = map (fun c => mkSample c.1 c.2) three_readings) by (vm_compute; reflexivity).
    rewrite E. cbn [map three_readings fst snd].
    repeat (apply Forall_cons; split; [apply H; vm_compute; reflexivity|]). constructor.
  - vm_compute. reflexivity.
  - discriminate.
  - reflexivity.
  - discriminate.
  - repeat (apply Forall_cons; split; [split; vm_compute; discriminate|]). constructor.
  - exists e, avg. split; [exact He|]. split; [exact Ha|]. split; [|exact (proj2 Hb)].
    assert (E : integrated_energy_us w = Ret (mkQ 325.0)) by (vm_compute; reflexivity).
    fold w in He. rewrite E in He. injection He as <-. reflexivity.
Defined.
