(* ===== verification/Reservation.v ===== *)
(** * Transactional power reservations (reservation.hpp)

    The life cycle of a reservation, plan, validate, reserve, admit, activate,
    account, release, over a budget manager given by its interface [BudgetOps]:
    the operations are state passing over the table of reservations, the
    identifier allocator and the budgets, and can throw.  [BudgetLaws] states
    what the manager promises; the accounting theorems are proved against it,
    and the floating-point manager discharges it in [ReservationSpec.v]. *)
From stdpp Require Import sorting.
From S2P Require Import Prelude Binary64 Units Ids Clock WorkloadClass Authority.
Local Open Scope Z_scope.

Inductive ReservationState := PLANNED | VALIDATED | RESERVED | ADMITTED | ACTIVE | RELEASED | EXPIRED.

#[export] Instance ReservationState_eq_dec : EqDecision ReservationState.
Proof. solve_decision. Defined.

Definition reservation_state_to_int (s : ReservationState) : Z :=
  match s with
  | PLANNED => 0 | VALIDATED => 1 | RESERVED => 2 | ADMITTED => 3 | ACTIVE => 4 | RELEASED => 5 | EXPIRED => 6
  end.

Definition reservation_state_of_int (z : Z) : option ReservationState :=
  nth_error [PLANNED; VALIDATED; RESERVED; ADMITTED; ACTIVE; RELEASED; EXPIRED] (Z.to_nat z).

#[export] Instance ReservationState_countable : Countable ReservationState.
Proof. apply (inj_countable reservation_state_to_int reservation_state_of_int). intros []; reflexivity. Defined.

Definition reservation_state_to_string (s : ReservationState) : string :=
  match s with
  | PLANNED => "PLANNED"
  | VALIDATED => "VALIDATED"
  | RESERVED => "RESERVED"
  | ADMITTED => "ADMITTED"
  | ACTIVE => "ACTIVE"
  | RELEASED => "RELEASED"
  | EXPIRED => "EXPIRED"
  end.

Module Reservation.
Record t := mk {
  id : ReservationId;
  generation : ReservationGeneration;
  workload : WorkloadId;
  request_class : RequestClassId;
  power_class : WorkloadPowerClass;
  scope : PowerDomainId;
  budget : BudgetId;
  requested_power : Watts;
  requested_energy : Joules;
  policy_generation : PolicyGeneration;
  device_generation : DeviceGeneration;
  budget_generation : BudgetGeneration;
  authority : AuthorityEnvelope;
  created : Timestamp;
  validity : Duration;
  state : ReservationState;
  reserved_power : Watts;
  energy_used : Joules;
  activated_at : Timestamp;
  released_at : Timestamp }.

(** The fields the life cycle assigns. *)
Definition with_state (s : ReservationState) (r : t) : t :=
  mk (id r) (generation r) (workload r) (request_class r) (power_class r) (scope r) (budget r)
    (requested_power r) (requested_energy r) (policy_generation r) (device_generation r)
    (budget_generation r) (authority r) (created r) (validity r) s (reserved_power r) (energy_used r)
    (activated_at r) (released_at r).
Definition with_booking (g : BudgetGeneration) (p : Watts) (r : t) : t :=
  mk (id r) (generation r) (workload r) (request_class r) (power_class r) (scope r) (budget r)
    (requested_power r) (requested_energy r) (policy_generation r) (device_generation r)
    g (authority r) (created r) (validity r) (state r) p (energy_used r) (activated_at r) (released_at r).
Definition with_energy (e : Joules) (r : t) : t :=
  mk (id r) (generation r) (workload r) (request_class r) (power_class r) (scope r) (budget r)
    (requested_power r) (requested_energy r) (policy_generation r) (device_generation r)
    (budget_generation r) (authority r) (created r) (validity r) (state r) (reserved_power r) e
    (activated_at r) (released_at r).
Definition with_times (act rel : Timestamp) (r : t) : t :=
  mk (id r) (generation r) (workload r) (request_class r) (power_class r) (scope r) (budget r)
    (requested_power r) (requested_energy r) (policy_generation r) (device_generation r)
    (budget_generation r) (authority r) (created r) (validity r) (state r) (reserved_power r) (energy_used r)
    act rel.
End Reservation.

(** ** The interface of a budget manager *)
Class BudgetOps (B : Type) := {
  b_reserve : B -> BudgetId -> Watts -> ReservationId -> BudgetGeneration -> bool * B;
  b_release : B -> BudgetId -> Watts -> ReservationId -> BudgetGeneration -> bool * B;
  b_activate : B -> BudgetId -> Watts -> ReservationId -> BudgetGeneration -> bool * B;
  b_deactivate : B -> BudgetId -> Watts -> ReservationId -> BudgetGeneration -> bool * B }.

(** What a manager promises: amounts [b_amount] have units that add up, the
    chain of a budget is fixed, a refused call changes nothing, and an accepted
    one books the amount on the budgets of the chain. *)
Class BudgetLaws (B : Type) `{BudgetOps B} := {
  b_inv : B -> Prop;
  b_amount : Watts -> Prop;
  b_units : Watts -> Z;
  b_under : B -> BudgetId -> BudgetId -> bool;
  b_held : B -> BudgetId -> Z;
  b_spent : B -> BudgetId -> Z;
  b_zero : b_amount W0 /\ b_units W0 = 0;
  b_units_nonneg : forall a, b_amount a -> 0 <= b_units a;
  b_reserve_false : forall m m' id a rid g, b_reserve m id a rid g = (false, m') -> m' = m;
  b_release_false : forall m m' id a rid g, b_release m id a rid g = (false, m') -> m' = m;
  b_activate_false : forall m m' id a rid g, b_activate m id a rid g = (false, m') -> m' = m;
  b_deactivate_false : forall m m' id a rid g, b_deactivate m id a rid g = (false, m') -> m' = m;
  b_reserve_true : forall m m' id a rid g, b_inv m -> b_amount a -> b_reserve m id a rid g = (true, m') ->
    b_inv m' /\ (forall i b, b_under m' i b = b_under m i b) /\
    (forall b, b_held m' b = b_held m b + if b_under m id b then b_units a else 0) /\
    (forall b, b_spent m' b = b_spent m b);
  b_release_true : forall m m' id a rid g, b_inv m -> b_amount a -> b_release m id a rid g = (true, m') ->
    b_inv m' /\ (forall i b, b_under m' i b = b_under m i b) /\
    (forall b, b_held m' b = b_held m b - if b_under m id b then b_units a else 0) /\
    (forall b, b_spent m' b = b_spent m b);
  b_activate_true : forall m m' id a rid g, b_inv m -> b_amount a -> b_activate m id a rid g = (true, m') ->
    b_inv m' /\ (forall i b, b_under m' i b = b_under m i b) /\
    (forall b, b_held m' b = b_held m b) /\
    (forall b, b_spent m' b = b_spent m b + if b_under m id b then b_units a else 0);
  b_deactivate_true : forall m m' id a rid g, b_inv m -> b_amount a -> b_deactivate m id a rid g = (true, m') ->
    b_inv m' /\ (forall i b, b_under m' i b = b_under m i b) /\
    (forall b, b_held m' b = b_held m b) /\
    (forall b, b_spent m' b = b_spent m b - if b_under m id b then b_units a else 0) }.

Module ReservationManager.
Record Result := mkResult { ok : bool; reason : string; res_id : ReservationId }.

Definition result (b : bool) (s : string) : Result := mkResult b s invalid_id.

Section Manager.
Context {B : Type} `{BudgetOps B}.

(** The table of reservations, the allocator of their identifiers, and the
    budgets the operations are given. *)
Record t := mk {
  map_ : gmap ReservationId Reservation.t;
  next_id : Z;
  budgets : B }.

Definition set_map (m : gmap ReservationId Reservation.t) (s : t) : t := mk m (next_id s) (budgets s).
Definition set_budgets (b : B) (s : t) : t := mk (map_ s) (next_id s) b.
Definition store (id : ReservationId) (r : Reservation.t) : M t unit :=
  smodify (fun s => set_map (<[id := r]> (map_ s)) s).

(** [mutable_get] *)
Definition mutable_get (id : ReservationId) : M t Reservation.t :=
  do! s <- sget;
  slift (match map_ s !! id with
         | Some r => Ret r
         | None => Throw (out_of_range "pg: unknown reservation id")
         end).

(** A call of the budget manager. *)
Definition call (f : B -> bool * B) : M t bool :=
  do! s <- sget;
  let '(b, m) := f (budgets s) in
  do! _ <- sput (set_budgets m s);
  sret b.

(** [expired] is [noexcept]. *)
Definition expired (r : Reservation.t) (now : Timestamp) : outcome bool :=
  if time_is_zero (Reservation.created r) then Ret false
  else noexcept (let! age := elapsed_since now (Reservation.created r) in
                 Ret (duration_ltb (Reservation.validity r) age)).

Definition plan (workload : WorkloadId) (cls : WorkloadPowerClass) (scope : PowerDomainId) (budget : BudgetId)
    (power : Watts) (energy : Joules) (pgen : PolicyGeneration) (dgen : DeviceGeneration)
    (auth : AuthorityEnvelope) (now : Timestamp) (validity : Duration) : M t Result :=
  do! s <- sget;
  let '(id, next) := allocate (next_id s) in
  let r := Reservation.mk id gen_first workload invalid_id cls scope budget power energy pgen dgen gen_null
             auth now validity PLANNED W0 J0 never never in
  do! _ <- sput (mk (map_ s) next (budgets s));
  match map_ s !! id with
  | Some _ => sret (mkResult false "duplicate reservation id" id)
  | None => do! _ <- store id r; sret (mkResult true "planned" id)
  end.

Definition validate (id : ReservationId) (pgen : PolicyGeneration) : M t Result :=
  do! r <- mutable_get id;
  if negb (bool_decide (Reservation.state r = PLANNED)) then sret (result false "reservation not in PLANNED")
  else if negb (gen_eqb (Reservation.policy_generation r) pgen)
  then sret (result false "policy generation mismatch")
  else do! _ <- store id (Reservation.with_state VALIDATED r); sret (result true "validated").

Definition reserve (id : ReservationId) (bgen : BudgetGeneration) (now : Timestamp) : M t Result :=
  do! r <- mutable_get id;
  if negb (bool_decide (Reservation.state r = VALIDATED)) && negb (bool_decide (Reservation.state r = PLANNED))
  then sret (result false "reservation not reservable (already reserved/active/released)")
  else
    do! e <- slift (expired r now);
    if e then do! _ <- store id (Reservation.with_state EXPIRED r); sret (result false "reservation expired")
    else
      do! ok <- call (fun b => b_reserve b (Reservation.budget r) (Reservation.requested_power r) id bgen);
      if negb ok then sret (result false "budget reserve failed (capacity/generation/authority)")
      else
        do! _ <- store id (Reservation.with_state RESERVED
               (Reservation.with_booking bgen (Reservation.requested_power r) r));
        sret (result true "reserved").

Definition admit_ (id : ReservationId) (now : Timestamp) : M t Result :=
  do! r <- mutable_get id;
  if negb (bool_decide (Reservation.state r = RESERVED)) then sret (result false "reservation not RESERVED")
  else
    do! e <- slift (expired r now);
    if e then do! _ <- store id (Reservation.with_state EXPIRED r); sret (result false "reservation expired")
    else do! _ <- store id (Reservation.with_state ADMITTED r); sret (result true "admitted").

Definition activate (id : ReservationId) (bgen : BudgetGeneration) (now : Timestamp) : M t Result :=
  do! r <- mutable_get id;
  if negb (bool_decide (Reservation.state r = ADMITTED)) && negb (bool_decide (Reservation.state r = RESERVED))
  then sret (result false "stale activation: reservation not admitted")
  else
    do! e <- slift (expired r now);
    if e then do! _ <- store id (Reservation.with_state EXPIRED r); sret (result false "reservation expired")
    else if negb (gen_eqb (Reservation.budget_generation r) bgen)
    then sret (result false "stale activation: budget generation changed")
    else
      do! ok <- call (fun b => b_activate b (Reservation.budget r) (Reservation.requested_power r) id bgen);
      if negb ok then sret (result false "budget activate failed")
      else
        do! _ <- store id (Reservation.with_times now (Reservation.released_at r) (Reservation.with_state ACTIVE r));
        sret (result true "active").

Definition account_energy (id : ReservationId) (energy : Joules) (now : Timestamp) : M t Result :=
  do! r <- mutable_get id;
  if negb (bool_decide (Reservation.state r = ACTIVE)) then sret (result false "energy only accounted for ACTIVE")
  else if (value energy <? 0)%float || negb (isfinite (value energy))
  then sret (result false "non-finite or negative energy")
  else
    do! _ <- store id (Reservation.with_energy (clamped (value (Reservation.energy_used r) + value energy)) r);
    sret (result true "accounted").

Definition release (id : ReservationId) (bgen : BudgetGeneration) (now : Timestamp) : M t Result :=
  do! r <- mutable_get id;
  if bool_decide (Reservation.state r = RELEASED) then sret (result false "double release")
  else if bool_decide (Reservation.state r = EXPIRED) then sret (result false "already expired")
  else if is_null (Reservation.budget_generation r) &&
          (bool_decide (Reservation.state r = ADMITTED) || bool_decide (Reservation.state r = ACTIVE))
  then sret (result false "release with unknown budget generation")
  else
    do! ok <- call (fun b => b_release b (Reservation.budget r) (Reservation.reserved_power r) id bgen);
    if negb ok then sret (result false "budget release failed (over-release/stale generation)")
    else
      do! _ <- (if bool_decide (Reservation.state r = ACTIVE) || bool_decide (Reservation.state r = ADMITTED)
                   || bool_decide (Reservation.state r = RESERVED)
                then do! _ <- call (fun b => b_deactivate b (Reservation.budget r) (Reservation.reserved_power r) id bgen); sret tt
                else sret tt);
      do! _ <- store id (Reservation.with_times (Reservation.activated_at r) now (Reservation.with_state RELEASED r));
      sret (result true "released").

(** *** Queries *)
Definition exists_ (s : t) (id : ReservationId) : bool := bool_decide (is_Some (map_ s !! id)).
Definition get (s : t) (id : ReservationId) : outcome Reservation.t :=
  match map_ s !! id with
  | Some r => Ret r
  | None => Throw (out_of_range "pg: unknown reservation id")
  end.
Definition state (s : t) (id : ReservationId) : ReservationState :=
  match map_ s !! id with Some r => Reservation.state r | None => EXPIRED end.
Definition count (s : t) : nat := size (map_ s).

Definition id_le (a b : Reservation.t) : Prop := id_raw (Reservation.id a) <= id_raw (Reservation.id b).
#[export] Instance id_le_dec (a b : Reservation.t) : Decision (id_le a b).
Proof. unfold id_le. apply _. Defined.

(** [std::sort] by identifier; identifiers are distinct. *)
Definition all (s : t) : list Reservation.t := merge_sort id_le ((map_to_list (map_ s)).*2).

Definition restore (r : Reservation.t) (s : t) : bool * t :=
  match map_ s !! Reservation.id r with
  | Some _ => (false, s)
  | None => (true, set_map (<[Reservation.id r := r]> (map_ s)) s)
  end.

Definition active_count (s : t) : nat :=
  length (filter (fun r => Reservation.state r = ACTIVE) ((map_to_list (map_ s)).*2)).

(** The loop of [audit_no_leaks], [noexcept]. *)
Fixpoint audit_loop (l : list Reservation.t) (now : Timestamp) : outcome bool :=
  match l with
  | [] => Ret true
  | r :: l =>
      if bool_decide (Reservation.state r = RELEASED) || bool_decide (Reservation.state r = EXPIRED)
      then audit_loop l now
      else if time_is_zero (Reservation.created r) then audit_loop l now
      else
        let! age := elapsed_since now (Reservation.created r) in
        if duration_ltb (Reservation.validity r) age then Ret false else audit_loop l now
  end.
Definition audit_no_leaks (s : t) (now : Timestamp) : outcome bool :=
  noexcept (audit_loop ((map_to_list (map_ s)).*2) now).

(** *** The operations as one step *)
Inductive op :=
| OpPlan (workload : WorkloadId) (cls : WorkloadPowerClass) (scope : PowerDomainId) (budget : BudgetId)
    (power : Watts) (energy : Joules) (pgen : PolicyGeneration) (dgen : DeviceGeneration)
    (auth : AuthorityEnvelope) (now : Timestamp) (validity : Duration)
| OpValidate (id : ReservationId) (pgen : PolicyGeneration)
| OpReserve (id : ReservationId) (bgen : BudgetGeneration) (now : Timestamp)
| OpAdmit (id : ReservationId) (now : Timestamp)
| OpActivate (id : ReservationId) (bgen : BudgetGeneration) (now : Timestamp)
| OpAccount (id : ReservationId) (energy : Joules) (now : Timestamp)
| OpRelease (id : ReservationId) (bgen : BudgetGeneration) (now : Timestamp).

Definition run (o : op) : M t Result :=
  match o with
  | OpPlan w c sc b p e pg dg a now v => plan w c sc b p e pg dg a now v
  | OpValidate id g => validate id g
  | OpReserve id g now => reserve id g now
  | OpAdmit id now => admit_ id now
  | OpActivate id g now => activate id g now
  | OpAccount id e now => account_energy id e now
  | OpRelease id g now => release id g now
  end.

(** The reservation an operation is about; a plan is about the next one. *)
Definition op_id (s : t) (o : op) : ReservationId :=
  match o with
  | OpPlan _ _ _ _ _ _ _ _ _ _ _ => mkId (next_id s)
  | OpValidate id _ | OpReserve id _ _ | OpAdmit id _ | OpActivate id _ _ | OpAccount id _ _ | OpRelease id _ _ => id
  end.
End Manager.
Arguments t B : clear implicits.
End ReservationManager.
