(* ===== verification/ReservationFacts.v ===== *)
(** * The life cycle of reservations: lemmas

    [step_of] describes the effect of any operation of the manager on the table
    and on the budgets; the accounting invariant [inv] follows from it and from
    the interface [BudgetLaws]. *)
From S2P Require Import Prelude Binary64 Units Ids Clock WorkloadClass Authority Reservation.
Local Open Scope Z_scope.
Import ReservationManager.

(** ** Sums over a table *)
Definition map_sum `{Countable K} {A : Type} (f : A -> Z) (m : gmap K A) : Z :=
  map_fold (fun _ a n => f a + n) 0 m.

Lemma map_sum_insert `{Countable K} {A : Type} (f : A -> Z) (m : gmap K A) (k : K) (a : A) :
  map_sum f (<[k := a]> m) = f a + map_sum f m - match m !! k with Some a' => f a' | None => 0 end.
Proof.
  assert (Hins : forall (m : gmap K A) (a : A), m !! k = None -> map_sum f (<[k := a]> m) = f a + map_sum f m).
  { intros m' a' Hm'. apply (map_fold_insert_L (fun _ a n => f a + n)); [intros; lia|assumption]. }
  destruct (m !! k) as [a'|] eqn:E.
  - rewrite <- (insert_delete_id m k a' E) at 2. rewrite <- insert_delete_eq.
    rewrite !Hins by apply lookup_delete_eq. lia.
  - rewrite Hins by assumption. lia.
Qed.

Lemma map_sum_ext `{Countable K} {A : Type} (f g : A -> Z) (m : gmap K A) :
  (forall k a, m !! k = Some a -> f a = g a) -> map_sum f m = map_sum g m.
Proof.
  induction m as [|k a m Hk IH] using map_ind; intros Hfg; [reflexivity|].
  rewrite !map_sum_insert, Hk, IH; [rewrite (Hfg k a) by apply lookup_insert_eq; reflexivity|].
  intros k' a' Ha. apply (Hfg k'). rewrite lookup_insert_ne; [assumption|congruence].
Qed.

Lemma map_sum_ge `{Countable K} {A : Type} (f : A -> Z) (m : gmap K A) (k : K) (a : A) :
  (forall k a, m !! k = Some a -> 0 <= f a) -> m !! k = Some a -> f a <= map_sum f m.
Proof.
  assert (Hpos : forall m : gmap K A, (forall k a, m !! k = Some a -> 0 <= f a) -> 0 <= map_sum f m).
  { intros m'. induction m' as [|k' a' m' Hk IH] using map_ind; intros Hf; [reflexivity|].
    rewrite map_sum_insert, Hk. pose proof (Hf k' a' (lookup_insert_eq _ _ _)).
    specialize (IH ltac:(intros k0 a0 E; apply (Hf k0); rewrite lookup_insert_ne; congruence)). lia. }
  intros Hf E. rewrite <- (insert_delete_id m k a E), map_sum_insert, lookup_delete_eq.
  pose proof (Hpos (delete k m) ltac:(intros k0 a0 E0; apply lookup_delete_Some in E0 as [_ E0]; eauto)). lia.
Qed.

(** Membership of a state in a list of states. *)
Ltac members := rewrite ?elem_of_cons, ?elem_of_nil in *; intuition congruence.

Section Facts.
Context {B : Type} {HO : BudgetOps B} {HL : BudgetLaws B}.
#[local] Abbreviation manager := (t B).

(** Moves of a reservation that do not involve the budgets. *)
Inductive quiet_move (r : Reservation.t) : Reservation.t -> Prop :=
| move_validate : Reservation.state r = PLANNED -> quiet_move r (Reservation.with_state VALIDATED r)
| move_admit : Reservation.state r = RESERVED -> quiet_move r (Reservation.with_state ADMITTED r)
| move_expire : Reservation.state r ∈ [PLANNED; VALIDATED; RESERVED; ADMITTED] ->
    quiet_move r (Reservation.with_state EXPIRED r)
| move_energy e : Reservation.state r = ACTIVE -> nonneg (value e) -> quiet_move r (Reservation.with_energy e r).

(** The power requested by a plan. *)
Definition op_power (o : op) : option Watts :=
  match o with OpPlan _ _ _ _ p _ _ _ _ _ _ => Some p | _ => None end.

Context (power : option Watts).

(** The effect of an operation about the reservation [id]; [power] is what a
    plan requests. *)
Inductive step_of (s : manager) (id : ReservationId) : manager -> Prop :=
| so_idle : step_of s id s
| so_next next : step_of s id (mk (map_ s) next (budgets s))
| so_plan r next : map_ s !! id = None -> Reservation.id r = id -> Reservation.state r = PLANNED ->
    Reservation.reserved_power r = W0 -> power = Some (Reservation.requested_power r) ->
    step_of s id (mk (<[id := r]> (map_ s)) next (budgets s))
| so_move r r' : map_ s !! id = Some r -> quiet_move r r' -> step_of s id (set_map (<[id := r']> (map_ s)) s)
| so_book r g m : map_ s !! id = Some r -> Reservation.state r ∈ [PLANNED; VALIDATED] ->
    b_reserve (budgets s) (Reservation.budget r) (Reservation.requested_power r) id g = (true, m) ->
    step_of s id (mk (<[id := Reservation.with_state RESERVED (Reservation.with_booking g (Reservation.requested_power r) r)]> (map_ s)) (next_id s) m)
| so_use r g now m : map_ s !! id = Some r -> Reservation.state r ∈ [RESERVED; ADMITTED] ->
    Reservation.budget_generation r = g ->
    b_activate (budgets s) (Reservation.budget r) (Reservation.requested_power r) id g = (true, m) ->
    step_of s id (mk (<[id := Reservation.with_times now (Reservation.released_at r) (Reservation.with_state ACTIVE r)]> (map_ s)) (next_id s) m)
| so_release r g now m m' : map_ s !! id = Some r -> Reservation.state r ∉ [RELEASED; EXPIRED] ->
    b_release (budgets s) (Reservation.budget r) (Reservation.reserved_power r) id g = (true, m) ->
    m' = (if bool_decide (Reservation.state r ∈ [RESERVED; ADMITTED; ACTIVE])
          then (b_deactivate m (Reservation.budget r) (Reservation.reserved_power r) id g).2 else m) ->
    step_of s id (mk (<[id := Reservation.with_times (Reservation.activated_at r) now (Reservation.with_state RELEASED r)]> (map_ s)) (next_id s) m').

Lemma manager_eta (s : manager) : mk (map_ s) (next_id s) (budgets s) = s.
Proof. destruct s. reflexivity. Qed.

(** [mutable_get] is a lookup, or an exception that changes nothing. *)
Lemma mutable_get_bind {A : Type} (id : ReservationId) (k : Reservation.t -> M manager A) (s : manager) :
  sbind (mutable_get id) k s =
    match map_ s !! id with
    | Some r => k r s
    | None => (Throw (out_of_range "pg: unknown reservation id"), s)
    end.
Proof. unfold mutable_get. unfold sbind, sget, slift. destruct (map_ s !! id); reflexivity. Qed.

Lemma call_bind {A : Type} (f : B -> bool * B) (k : bool -> M manager A) (s : manager) :
  sbind (call f) k s = k (f (budgets s)).1 (mk (map_ s) (next_id s) (f (budgets s)).2).
Proof. unfold call, sbind, sget, sput, sret, set_budgets. destruct (f (budgets s)). reflexivity. Qed.

Lemma store_bind {A : Type} (id : ReservationId) (r : Reservation.t) (k : unit -> M manager A) (s : manager) :
  sbind (store id r) k s = k tt (set_map (<[id := r]> (map_ s)) s).
Proof. reflexivity. Qed.

Lemma expired_bind {A : Type} (r : Reservation.t) (now : Timestamp) (k : bool -> M manager A) (s : manager) :
  (exists b, sbind (slift (expired r now)) k s = k b s /\ expired r now = Ret b) \/
  (exists o, sbind (slift (expired r now)) k s = (o, s) /\ forall a, o <> Ret a).
Proof.
  unfold sbind, slift. destruct (expired r now) as [b|e| |]; [left; eauto|right|right|right];
    eexists; (split; [reflexivity|discriminate]).
Qed.

(** The head of an operation on an existing reservation that tests its state
    and then its expiry. *)
Lemma expiry_step (r : Reservation.t) (id : ReservationId) (now : Timestamp) (k : M manager Result) (s s' : manager) (o : outcome Result) :
  map_ s !! id = Some r -> Reservation.state r ∈ [PLANNED; VALIDATED; RESERVED; ADMITTED] ->
  (k s = (o, s') -> step_of s id s') ->
  (do! e <- slift (expired r now);
   if e then do! _ <- store id (Reservation.with_state EXPIRED r); sret (result false "reservation expired") else k) s = (o, s') ->
  step_of s id s'.
Proof.
  intros E Hs Hk Hr. destruct (expired_bind r now (fun e => if e then do! _ <- store id (Reservation.with_state EXPIRED r);
    sret (result false "reservation expired") else k) s) as [(b & Hb & _)|(o' & Ho & _)].
  - rewrite Hb in Hr. destruct b; [|auto]. rewrite store_bind in Hr. injection Hr as _ <-.
    eapply so_move; [exact E|]. apply move_expire, Hs.
  - rewrite Ho in Hr. injection Hr as _ <-. apply so_idle.
Qed.

Ltac idle H := injection H as _ <-; apply so_idle.

Lemma validate_step (id : ReservationId) (g : PolicyGeneration) (s s' : manager) (o : outcome Result) :
  validate id g s = (o, s') -> step_of s id s'.
Proof.
  unfold validate. rewrite mutable_get_bind. destruct (map_ s !! id) as [r|] eqn:E; intros Hr; [|idle Hr].
  case_bool_decide; cbn [negb] in Hr; [|idle Hr]. destruct (negb _); [idle Hr|]. rewrite store_bind in Hr. injection Hr as _ <-.
  eapply so_move; [exact E|]. apply move_validate. assumption.
Qed.

Lemma reserve_step (id : ReservationId) (g : BudgetGeneration) (now : Timestamp) (s s' : manager) (o : outcome Result) :
  reserve id g now s = (o, s') -> step_of s id s'.
Proof.
  unfold reserve. rewrite mutable_get_bind. destruct (map_ s !! id) as [r|] eqn:E; intros Hr; [|idle Hr].
  destruct (decide (Reservation.state r ∈ [PLANNED; VALIDATED])) as [Hs|Hs].
  2: { rewrite !bool_decide_false in Hr by members. idle Hr. }
  assert (Hg : negb (bool_decide (Reservation.state r = VALIDATED)) && negb (bool_decide (Reservation.state r = PLANNED)) = false)
    by (do 2 case_bool_decide; try reflexivity; members).
  rewrite Hg in Hr. revert Hr. apply expiry_step; [exact E|members|]. intros Hr.
  rewrite call_bind in Hr.
  destruct (b_reserve (budgets s) _ _ id g) as [[] m] eqn:Hb; cbn [fst snd negb] in Hr.
  - rewrite store_bind in Hr. injection Hr as _ <-. apply (so_book s id r g m); assumption.
  - injection Hr as _ <-. apply b_reserve_false in Hb. subst m. rewrite manager_eta. apply so_idle.
Qed.

Lemma admit_step (id : ReservationId) (now : Timestamp) (s s' : manager) (o : outcome Result) :
  admit_ id now s = (o, s') -> step_of s id s'.
Proof.
  unfold admit_. rewrite mutable_get_bind. destruct (map_ s !! id) as [r|] eqn:E; intros Hr; [|idle Hr].
  case_bool_decide; cbn [negb] in Hr; [|idle Hr]. revert Hr. apply expiry_step; [exact E|members|]. intros Hr.
  rewrite store_bind in Hr. injection Hr as _ <-. eapply so_move; [exact E|]. apply move_admit. assumption.
Qed.

Lemma activate_step (id : ReservationId) (g : BudgetGeneration) (now : Timestamp) (s s' : manager) (o : outcome Result) :
  activate id g now s = (o, s') -> step_of s id s'.
Proof.
  unfold activate. rewrite mutable_get_bind. destruct (map_ s !! id) as [r|] eqn:E; intros Hr; [|idle Hr].
  destruct (decide (Reservation.state r ∈ [RESERVED; ADMITTED])) as [Hs|Hs].
  2: { rewrite !bool_decide_false in Hr by members. idle Hr. }
  assert (Hg : negb (bool_decide (Reservation.state r = ADMITTED)) && negb (bool_decide (Reservation.state r = RESERVED)) = false)
    by (do 2 case_bool_decide; try reflexivity; members).
  rewrite Hg in Hr. revert Hr. apply expiry_step; [exact E|members|]. intros Hr.
  destruct (gen_eqb _ g) eqn:Hgen; cbn [negb] in Hr; [|idle Hr]. apply gen_eqb_eq in Hgen.
  rewrite call_bind in Hr.
  destruct (b_activate (budgets s) _ _ id g) as [[] m] eqn:Hb; cbn [fst snd negb] in Hr.
  - rewrite store_bind in Hr. injection Hr as _ <-. apply (so_use s id r g now m); assumption.
  - injection Hr as _ <-. apply b_activate_false in Hb. subst m. rewrite manager_eta. apply so_idle.
Qed.

Lemma account_step (id : ReservationId) (e : Joules) (now : Timestamp) (s s' : manager) (o : outcome Result) :
  account_energy id e now s = (o, s') -> step_of s id s'.
Proof.
  unfold account_energy. rewrite mutable_get_bind. destruct (map_ s !! id) as [r|] eqn:E; intros Hr; [|idle Hr].
  case_bool_decide; cbn [negb] in Hr; [|idle Hr]. destruct (_ || _) eqn:Hbad; [idle Hr|].
  rewrite store_bind in Hr. injection Hr as _ <-. eapply so_move; [exact E|].
  apply move_energy; [assumption|]. apply clamp_nonneg.
Qed.

Lemma release_step (id : ReservationId) (g : BudgetGeneration) (now : Timestamp) (s s' : manager) (o : outcome Result) :
  release id g now s = (o, s') -> step_of s id s'.
Proof.
  unfold release. rewrite mutable_get_bind. destruct (map_ s !! id) as [r|] eqn:E; intros Hr; [|idle Hr].
  case_bool_decide as H1; [idle Hr|]. case_bool_decide as H2; [idle Hr|].
  destruct (is_null _ && _); [idle Hr|]. rewrite call_bind in Hr.
  destruct (b_release (budgets s) _ _ id g) as [[] m] eqn:Hb; cbn [fst snd negb] in Hr.
  2: { injection Hr as _ <-. apply b_release_false in Hb. subst m. rewrite manager_eta. apply so_idle. }
  assert (Hs' : s' = mk (<[id := Reservation.with_times (Reservation.activated_at r) now (Reservation.with_state RELEASED r)]> (map_ s)) (next_id s)
    (if bool_decide (Reservation.state r ∈ [RESERVED; ADMITTED; ACTIVE])
     then (b_deactivate m (Reservation.budget r) (Reservation.reserved_power r) id g).2 else m)).
  { destruct (bool_decide (Reservation.state r ∈ _)) eqn:Hin.
    - apply bool_decide_eq_true in Hin.
      assert (Hor : bool_decide (Reservation.state r = ACTIVE) || bool_decide (Reservation.state r = ADMITTED)
        || bool_decide (Reservation.state r = RESERVED) = true) by (do 3 case_bool_decide; try reflexivity; members).
      rewrite Hor in Hr. unfold sbind at 1 in Hr. rewrite call_bind in Hr. cbn in Hr. injection Hr as _ <-. reflexivity.
    - apply bool_decide_eq_false in Hin. rewrite !bool_decide_false in Hr by members. cbn in Hr.
      injection Hr as _ <-. reflexivity. }
  rewrite Hs'. apply (so_release s id r g now m); auto. members.
Qed.

Lemma run_step (op : op) (s s' : manager) (o : outcome Result) :
  (forall p, op_power op = Some p -> power = Some p) -> run op s = (o, s') -> step_of s (op_id s op) s'.
Proof.
  intros Hp. destruct op; cbn [run op_id]; eauto using validate_step, reserve_step, admit_step, activate_step, account_step, release_step.
  unfold plan. rewrite sbind_sget. unfold allocate. rewrite sbind_sput.
  destruct (map_ s !! mkId (next_id s)) eqn:E; intros Hr.
  - injection Hr as _ <-. apply so_next.
  - rewrite store_bind in Hr. injection Hr as _ <-. unfold set_map. cbn [map_ next_id budgets]. apply so_plan; auto.
Qed.

(** ** The life cycle *)
Definition edge (a b : ReservationState) : bool :=
  bool_decide (a = b) ||
  match a, b with
  | PLANNED, (VALIDATED | RESERVED | RELEASED | EXPIRED) => true
  | VALIDATED, (RESERVED | RELEASED | EXPIRED) => true
  | RESERVED, (ADMITTED | ACTIVE | RELEASED | EXPIRED) => true
  | ADMITTED, (ACTIVE | RELEASED | EXPIRED) => true
  | ACTIVE, RELEASED => true
  | _, _ => false
  end.

(** What a reservation was planned with. *)
Definition same_request (r r' : Reservation.t) : Prop :=
  Reservation.id r' = Reservation.id r /\ Reservation.workload r' = Reservation.workload r /\
  Reservation.budget r' = Reservation.budget r /\
  Reservation.requested_power r' = Reservation.requested_power r /\
  Reservation.requested_energy r' = Reservation.requested_energy r /\
  Reservation.policy_generation r' = Reservation.policy_generation r /\
  Reservation.authority r' = Reservation.authority r /\
  Reservation.created r' = Reservation.created r /\ Reservation.validity r' = Reservation.validity r.

Definition evolves (r r' : Reservation.t) : Prop :=
  edge (Reservation.state r) (Reservation.state r') = true /\ same_request r r' /\
  (Reservation.state r ∈ [RELEASED; EXPIRED] -> r' = r).

Lemma same_request_refl (r : Reservation.t) : same_request r r.
Proof. unfold same_request. auto 10. Qed.

Lemma evolves_refl (r : Reservation.t) : evolves r r.
Proof.
  split; [|split; [apply same_request_refl|auto]]. unfold edge. rewrite bool_decide_true; reflexivity.
Qed.

Lemma quiet_move_evolves (r r' : Reservation.t) : quiet_move r r' -> evolves r r'.
Proof.
  intros Hm. destruct Hm as [Hs|Hs|Hs|e Hs _]; (split; [|split; [unfold same_request; auto 10|]]); simpl.
  all: try (intros Ht; members).
  3: { rewrite !elem_of_cons, elem_of_nil in Hs. destruct Hs as [->|[->|[->|[->|[]]]]]; reflexivity. }
  all: rewrite Hs; reflexivity.
Qed.

Lemma step_evolves (s s' : manager) (id : ReservationId) : step_of s id s' ->
  (forall i, i <> id -> map_ s' !! i = map_ s !! i) /\
  forall r, map_ s !! id = Some r -> exists r', map_ s' !! id = Some r' /\ evolves r r'.
Proof.
  intros Hs. destruct Hs as [|next|r next Hn|r r' E Hm|r g m E Hs _|r g now m E Hs _ _|r g now m m' E Hs _ _];
    cbn [map_ set_map].
  - split; eauto using evolves_refl.
  - split; eauto using evolves_refl.
  - split; [intros i Hi; apply lookup_insert_ne; congruence|]. congruence.
  - split; [intros i Hi; apply lookup_insert_ne; congruence|].
    intros r0 E0. rewrite lookup_insert_eq. exists r'. split; [reflexivity|].
    assert (r0 = r) as -> by congruence. apply quiet_move_evolves, Hm.
  - split; [intros i Hi; apply lookup_insert_ne; congruence|].
    intros r0 E0. rewrite lookup_insert_eq. eexists. split; [reflexivity|]. assert (r0 = r) as -> by congruence.
    rewrite !elem_of_cons, elem_of_nil in Hs.
    split; [|split; [unfold same_request; auto 10|]]; simpl; destruct Hs as [->|[->|[]]]; try reflexivity; intros Ht; members.
  - split; [intros i Hi; apply lookup_insert_ne; congruence|].
    intros r0 E0. rewrite lookup_insert_eq. eexists. split; [reflexivity|]. assert (r0 = r) as -> by congruence.
    rewrite !elem_of_cons, elem_of_nil in Hs.
    split; [|split; [unfold same_request; auto 10|]]; simpl; destruct Hs as [->|[->|[]]]; try reflexivity; intros Ht; members.
  - split; [intros i Hi; apply lookup_insert_ne; congruence|].
    intros r0 E0. rewrite lookup_insert_eq. eexists. split; [reflexivity|]. assert (r0 = r) as -> by congruence.
    split; [|split; [unfold same_request; auto 10|]]; simpl; [|intros Ht; members].
    destruct (Reservation.state r) eqn:Est; try reflexivity; exfalso; members.
Qed.

(** ** Accounting: the power held is the power of the unreleased reservations *)
Definition live_units (m : B) (b : BudgetId) (r : Reservation.t) : Z :=
  if negb (bool_decide (Reservation.state r = RELEASED)) && b_under m (Reservation.budget r) b
  then b_units (Reservation.reserved_power r) else 0.

Definition reservation_ok (id : ReservationId) (r : Reservation.t) : Prop :=
  Reservation.id r = id /\ b_amount (Reservation.requested_power r) /\ b_amount (Reservation.reserved_power r) /\
  (Reservation.state r ∈ [PLANNED; VALIDATED] -> Reservation.reserved_power r = W0).

Definition accounted (s : manager) : Prop :=
  b_inv (budgets s) /\ (forall id r, map_ s !! id = Some r -> reservation_ok id r) /\
  forall b, b_held (budgets s) b = map_sum (live_units (budgets s) b) (map_ s).

Lemma live_units_ext (m m' : B) (b : BudgetId) (r : Reservation.t) :
  (forall i b, b_under m' i b = b_under m i b) -> live_units m' b r = live_units m b r.
Proof. intros Hu. unfold live_units. rewrite Hu. reflexivity. Qed.

Lemma held_ext (m m' : B) (b : BudgetId) (tbl : gmap ReservationId Reservation.t) :
  (forall i b, b_under m' i b = b_under m i b) -> map_sum (live_units m' b) tbl = map_sum (live_units m b) tbl.
Proof. intros Hu. apply map_sum_ext. intros _ r _. apply live_units_ext, Hu. Qed.

(** Replacing a reservation changes the sum by the difference of its shares. *)
Lemma held_replace (m : B) (b : BudgetId) (tbl : gmap ReservationId Reservation.t) (id : ReservationId) (r r' : Reservation.t) :
  tbl !! id = Some r ->
  map_sum (live_units m b) (<[id := r']> tbl) = map_sum (live_units m b) tbl - live_units m b r + live_units m b r'.
Proof. intros E. rewrite map_sum_insert, E. lia. Qed.

Lemma quiet_move_share (m : B) (b : BudgetId) (id : ReservationId) (r r' : Reservation.t) :
  quiet_move r r' -> reservation_ok id r -> reservation_ok id r' /\ live_units m b r' = live_units m b r.
Proof.
  intros Hm (Hid & Hq & Hr & H0). unfold reservation_ok, live_units.
  destruct Hm as [Hs|Hs|Hs|e Hs _]; simpl.
  - rewrite Hs in *. rewrite !bool_decide_false by discriminate. split; [split_and!; auto|reflexivity].
    intros _. apply H0. members.
  - rewrite Hs in *. rewrite !bool_decide_false by discriminate. split; [split_and!; auto|reflexivity].
    intros Ht. members.
  - rewrite !bool_decide_false by (try discriminate; intros E; rewrite E in Hs; members).
    split; [split_and!; auto|reflexivity]. intros Ht. members.
  - split; [split_and!; auto|reflexivity].
Qed.

(** The effect of [deactivate], accepted or not, on what is held: none. *)
Lemma deactivate_held (m : B) (id : BudgetId) (a : Watts) (rid : ReservationId) (g : BudgetGeneration) :
  b_inv m -> b_amount a ->
  let m' := (b_deactivate m id a rid g).2 in
  b_inv m' /\ (forall i b, b_under m' i b = b_under m i b) /\ forall b, b_held m' b = b_held m b.
Proof.
  intros Hm Ha. destruct (b_deactivate m id a rid g) as [[] m'] eqn:E; cbn [snd].
  - destruct (b_deactivate_true _ _ _ _ _ _ Hm Ha E) as (? & ? & ? & _). auto.
  - apply b_deactivate_false in E as ->. auto.
Qed.

Lemma accounted_table (s : manager) (id : ReservationId) (r' : Reservation.t) (next : Z) (m : B) :
  (forall i r, map_ s !! i = Some r -> reservation_ok i r) -> reservation_ok id r' -> b_inv m ->
  (forall b, b_held m b = map_sum (live_units m b) (<[id := r']> (map_ s))) ->
  accounted (mk (<[id := r']> (map_ s)) next m).
Proof.
  intros Ht Hr' Hm Hh. split; [exact Hm|]. split; [|exact Hh]. cbn [map_]. intros i r.
  rewrite lookup_insert_Some. intros [[<- <-]|[_ E]]; auto.
Qed.

Lemma step_accounted (s s' : manager) (id : ReservationId) :
  (forall p, power = Some p -> b_amount p) -> step_of s id s' -> accounted s -> accounted s'.
Proof.
  intros Hp Hs (Hb & Ht & Hh).
  destruct Hs as [|next|r next Hn Hid Hst H0 Hpw|r r' E Hm|r g m E Hst Hr|r g now m E Hst Hg Hr|r g now m m' E Hst Hr ->].
  - split_and!; auto.
  - split_and!; auto.
  - destruct b_zero as [Hz1 Hz2]. apply accounted_table; auto.
    + unfold reservation_ok. rewrite H0. split_and!; auto.
    + intros b. rewrite map_sum_insert, Hn, Hh. unfold live_units at 2. rewrite H0, Hz2. destruct (_ && _); lia.
  - destruct (quiet_move_share (budgets s) invalid_id id r r' Hm (Ht _ _ E)) as [Hok _].
    apply accounted_table; auto. intros b. rewrite (held_replace _ _ _ _ r), Hh by assumption.
    rewrite (proj2 (quiet_move_share (budgets s) b id r r' Hm (Ht _ _ E))). lia.
  - destruct (Ht _ _ E) as (Hid & Hq & Hra & H0). apply b_reserve_true in Hr as (Hm & Hu & Hheld & _); auto.
    apply accounted_table; auto.
    + unfold reservation_ok. simpl. split_and!; auto. intros Hx. members.
    + intros b. rewrite (held_ext (budgets s) m b _ Hu), (held_replace _ _ _ _ r), Hheld, Hh by assumption.
      destruct b_zero as [_ Hz]. unfold live_units at 3 4. simpl. rewrite (H0 Hst), Hz.
      cbn [negb andb]. destruct (b_under _ _ b), (bool_decide _); simpl; lia.
  - destruct (Ht _ _ E) as (Hid & Hq & Hra & H0). apply b_activate_true in Hr as (Hm & Hu & Hheld & _); auto.
    apply accounted_table; auto.
    + unfold reservation_ok. simpl. split_and!; auto. intros Hx. members.
    + intros b. rewrite (held_ext (budgets s) m b _ Hu), (held_replace _ _ _ _ r), Hheld, Hh by assumption.
      unfold live_units at 3 4. simpl. rewrite !bool_decide_false by (try discriminate; intros Er; rewrite Er in Hst; members).
      cbn [negb andb]. lia.
  - destruct (Ht _ _ E) as (Hid & Hq & Hra & H0). apply b_release_true in Hr as (Hm & Hu & Hheld & _); auto.
    destruct (deactivate_held m (Reservation.budget r) (Reservation.reserved_power r) id g Hm Hra) as (Hm' & Hu' & Hheld').
    set (m' := if bool_decide _ then _ else m).
    assert (Hm'' : b_inv m' /\ (forall i b, b_under m' i b = b_under (budgets s) i b) /\ forall b, b_held m' b = b_held m b).
    { unfold m'. destruct (bool_decide _); split_and!; auto. intros i b. rewrite Hu'. apply Hu. }
    destruct Hm'' as (Hm1 & Hu1 & Hheld1). apply accounted_table; auto.
    + unfold reservation_ok. simpl. split_and!; auto. intros Hx. members.
    + intros b. rewrite (held_ext (budgets s) m' b _ Hu1), (held_replace _ _ _ _ r), Hheld1, Hheld, Hh by assumption.
      unfold live_units at 3 4. simpl.
      rewrite bool_decide_false by (intros Er; rewrite Er in Hst; members). cbn [negb andb]. lia.
Qed.

(** No operation changes the chains. *)
Lemma step_under (s s' : manager) (id : ReservationId) : step_of s id s' -> accounted s ->
  forall i b, b_under (budgets s') i b = b_under (budgets s) i b.
Proof.
  intros Hs (Hb & Ht & _).
  destruct Hs as [|next|r next Hn Hid Hst H0 Hpw|r r' E Hm|r g m E Hst Hr|r g now m E Hst Hg Hr|r g now m m' E Hst Hr ->];
    try (intros; reflexivity).
  - destruct (Ht _ _ E) as (_ & Hq & _). apply b_reserve_true in Hr as (_ & Hu & _); auto.
  - destruct (Ht _ _ E) as (_ & Hq & _). apply b_activate_true in Hr as (_ & Hu & _); auto.
  - destruct (Ht _ _ E) as (_ & _ & Hq & _). apply b_release_true in Hr as (Hm & Hu & _); auto.
    cbn [budgets]. destruct (bool_decide _); [|exact Hu]. intros i b.
    destruct (deactivate_held m (Reservation.budget r) (Reservation.reserved_power r) id g Hm Hq) as (_ & Hu' & _).
    rewrite Hu'. apply Hu.
Qed.
End Facts.
