(* ===== verification/ReservationSpec.v ===== *)
(** * Properties of reservations

    The manager of budgets implements the interface of [Reservation.v], through
    its refinement of the ledger; the theorems then follow a reservation through
    its life cycle and account for the power it holds. *)
From stdpp Require Import sorting.
From S2P Require Import Prelude Rounding Binary64 Util Units Ids Clock Budget Ledger BudgetSpec WorkloadClass.
From S2P Require Import Authority Reservation ReservationFacts.
Local Open Scope Z_scope.
#[local] Arguments Z.mul : simpl never.
#[local] Arguments Z.add : simpl never.
#[local] Arguments Z.pow : simpl never.
#[local] Set Warnings "-inexact-float".
Import ReservationManager.

(** ** The manager of budgets as an implementation *)
#[export] Instance BudgetManager_ops : BudgetOps BudgetManager.t := {
  b_reserve := BudgetManager.reserve;
  b_release := BudgetManager.release;
  b_activate := BudgetManager.activate;
  b_deactivate := BudgetManager.deactivate }.

Module ManagerLaws.
Import Refinement.

Definition under (m : BudgetManager.t) (id b : BudgetId) : bool := bool_decide (b ∈ BudgetManager.chain m id).
Definition held (m : BudgetManager.t) (b : BudgetId) : Z :=
  match abs m !! b with Some a => Ledger.held a | None => 0 end.
Definition spent (m : BudgetManager.t) (b : BudgetId) : Z :=
  match abs m !! b with Some a => Ledger.spent a | None => 0 end.

(** An accepted booking of the ledger, read account by account. *)
Lemma booked (test : Ledger.account -> bool) (f : Ledger.account -> Ledger.account) (m m' : BudgetManager.t)
    (id : BudgetId) (g : BudgetGeneration) (k : Ledger.account -> bool) :
  gridded m -> (forall a, Ledger.acc_parent (f a) = Ledger.acc_parent a) ->
  Ledger.at_generation (abs m) id g (fun a => if k a then Ledger.book test f (abs m) id else (false, abs m)) = (true, abs m') ->
  (forall i b, under m' i b = under m i b) /\
  (forall b, b ∈ BudgetManager.chain m id -> exists a, abs m !! b = Some a /\ abs m' !! b = Some (f a)) /\
  (forall b, b ∉ BudgetManager.chain m id -> abs m' !! b = abs m !! b).
Proof.
  intros Hm Hf Hr. unfold Ledger.at_generation in Hr.
  destruct (abs m !! id) as [a|] eqn:E; [|discriminate]. destruct (gen_eqb _ g); [|discriminate].
  destruct (k a); [|discriminate].
  assert (Hch : forall i, Ledger.chain (abs m') i = Ledger.chain (abs m) i).
  { intros i. rewrite <- (book_chain test f (abs m) id i Hf), Hr. reflexivity. }
  apply book_true in Hr as [Ht Hl]; [|apply Hm]. rewrite chain_abs in Ht, Hl. split_and!.
  - intros i b. unfold under. rewrite <- !chain_abs, Hch. reflexivity.
  - intros b Hb. destruct (Ht b Hb) as (a0 & E0 & _). exists a0. rewrite Hl, decide_True, E0 by assumption. auto.
  - intros b Hb. rewrite Hl, decide_False by assumption. reflexivity.
Qed.

Lemma booked_held (m m' : BudgetManager.t) (id : BudgetId) (z : Z) :
  (forall b, b ∈ BudgetManager.chain m id -> exists a, abs m !! b = Some a /\ abs m' !! b = Some (Ledger.add_held z a)) ->
  (forall b, b ∉ BudgetManager.chain m id -> abs m' !! b = abs m !! b) ->
  (forall b, held m' b = held m b + if under m id b then z else 0) /\ (forall b, spent m' b = spent m b).
Proof.
  intros Hin Hout. unfold held, spent, under. split; intros b; case_bool_decide as Hb || destruct (decide (b ∈ BudgetManager.chain m id)) as [Hb|Hb].
  - destruct (Hin b Hb) as (a & -> & ->). reflexivity.
  - rewrite (Hout b Hb). lia.
  - destruct (Hin b Hb) as (a & -> & ->). reflexivity.
  - rewrite (Hout b Hb). reflexivity.
Qed.

Lemma booked_spent (m m' : BudgetManager.t) (id : BudgetId) (z : Z) :
  (forall b, b ∈ BudgetManager.chain m id -> exists a, abs m !! b = Some a /\ abs m' !! b = Some (Ledger.add_spent z a)) ->
  (forall b, b ∉ BudgetManager.chain m id -> abs m' !! b = abs m !! b) ->
  (forall b, spent m' b = spent m b + if under m id b then z else 0) /\ (forall b, held m' b = held m b).
Proof.
  intros Hin Hout. unfold held, spent, under. split; intros b; case_bool_decide as Hb || destruct (decide (b ∈ BudgetManager.chain m id)) as [Hb|Hb].
  - destruct (Hin b Hb) as (a & -> & ->). reflexivity.
  - rewrite (Hout b Hb). lia.
  - destruct (Hin b Hb) as (a & -> & ->). reflexivity.
  - rewrite (Hout b Hb). reflexivity.
Qed.

(** One accepted call, seen through the refinement. *)
Lemma call_refines (c : call) (m m' : BudgetManager.t) : gridded m -> call_ok m c -> run c m = (true, m') ->
  gridded m' /\ Ledger.run (abs_call c) (abs m) = (true, abs m').
Proof.
  intros Hm Hc Hr. destruct (run_refines m c Hm Hc) as [HL Hg]. rewrite Hr in HL, Hg. auto.
Qed.

Lemma reserve_law (m m' : BudgetManager.t) (id : BudgetId) (a : Watts) (rid : ReservationId) (g : BudgetGeneration) :
  gridded m -> grid (value a) -> BudgetManager.reserve m id a rid g = (true, m') ->
  gridded m' /\ (forall i b, under m' i b = under m i b) /\
  (forall b, held m' b = held m b + if under m id b then steps (value a) else 0) /\ (forall b, spent m' b = spent m b).
Proof.
  intros Hm Ha Hr. destruct (call_refines (Reserve id a rid g) m m' Hm Ha Hr) as [Hg HL].
  apply (booked _ _ m m' id g Ledger.acc_authoritative) in HL as (Hu & Hin & Hout); [|assumption|reflexivity].
  destruct (booked_held m m' id _ Hin Hout). auto.
Qed.

Lemma release_law (m m' : BudgetManager.t) (id : BudgetId) (a : Watts) (rid : ReservationId) (g : BudgetGeneration) :
  gridded m -> grid (value a) -> BudgetManager.release m id a rid g = (true, m') ->
  gridded m' /\ (forall i b, under m' i b = under m i b) /\
  (forall b, held m' b = held m b - if under m id b then steps (value a) else 0) /\ (forall b, spent m' b = spent m b).
Proof.
  intros Hm Ha Hr. destruct (call_refines (Release id a rid g) m m' Hm Ha Hr) as [Hg HL].
  apply (booked _ _ m m' id g (fun _ => true)) in HL as (Hu & Hin & Hout); [|assumption|reflexivity].
  destruct (booked_held m m' id _ Hin Hout) as [Hh Hs]. split_and!; auto.
  intros b. rewrite Hh. destruct (under m id b); lia.
Qed.

Lemma activate_law (m m' : BudgetManager.t) (id : BudgetId) (a : Watts) (rid : ReservationId) (g : BudgetGeneration) :
  gridded m -> grid (value a) -> BudgetManager.activate m id a rid g = (true, m') ->
  gridded m' /\ (forall i b, under m' i b = under m i b) /\
  (forall b, held m' b = held m b) /\ (forall b, spent m' b = spent m b + if under m id b then steps (value a) else 0).
Proof.
  intros Hm Ha Hr. destruct (call_refines (Activate id a rid g) m m' Hm Ha Hr) as [Hg HL].
  apply (booked _ _ m m' id g (fun _ => true)) in HL as (Hu & Hin & Hout); [|assumption|reflexivity].
  destruct (booked_spent m m' id _ Hin Hout). auto.
Qed.

Lemma deactivate_law (m m' : BudgetManager.t) (id : BudgetId) (a : Watts) (rid : ReservationId) (g : BudgetGeneration) :
  gridded m -> grid (value a) -> BudgetManager.deactivate m id a rid g = (true, m') ->
  gridded m' /\ (forall i b, under m' i b = under m i b) /\
  (forall b, held m' b = held m b) /\ (forall b, spent m' b = spent m b - if under m id b then steps (value a) else 0).
Proof.
  intros Hm Ha Hr. destruct (call_refines (Deactivate id a rid g) m m' Hm Ha Hr) as [Hg HL].
  apply (booked _ _ m m' id g (fun _ => true)) in HL as (Hu & Hin & Hout); [|assumption|reflexivity].
  destruct (booked_spent m m' id _ Hin Hout) as [Hh Hs]. split_and!; auto.
  intros b. rewrite Hh. destruct (under m id b); lia.
Qed.

Lemma grid_units (a : Watts) : grid (value a) -> 0 <= steps (value a).
Proof. intros Ha. apply grid_steps in Ha as (_ & _ & Hb). lia. Qed.
End ManagerLaws.

#[export, refine] Instance BudgetManager_laws : BudgetLaws BudgetManager.t := {
  b_inv := Refinement.gridded;
  b_amount a := grid (value a);
  b_units a := steps (value a);
  b_under := ManagerLaws.under;
  b_held := ManagerLaws.held;
  b_spent := ManagerLaws.spent;
  b_units_nonneg := ManagerLaws.grid_units;
  b_reserve_false := BudgetFacts.reserve_false;
  b_release_false := BudgetFacts.release_false;
  b_activate_false := BudgetFacts.activate_false;
  b_deactivate_false := BudgetFacts.deactivate_false;
  b_reserve_true := ManagerLaws.reserve_law;
  b_release_true := ManagerLaws.release_law;
  b_activate_true := ManagerLaws.activate_law;
  b_deactivate_true := ManagerLaws.deactivate_law }.
Proof. split; [apply Refinement.steps_zero|reflexivity]. Defined.

(** ** Histories of operations *)
Abbreviation rmanager := (t BudgetManager.t).

(** Operations one after the other; an exception leaves the state reached. *)
Definition run_ops (l : list op) (s : rmanager) : rmanager := foldl (fun s o => (run o s).2) s l.

Definition op_ok (o : op) : Prop := match op_power o with Some p => grid (value p) | None => True end.

Lemma run_step_of (o : op) (s : rmanager) : step_of (op_power o) s (op_id s o) (run o s).2.
Proof. destruct (run o s) as [out s'] eqn:E. eapply run_step; [|exact E]. auto. Qed.

Lemma run_accounted (o : op) (s : rmanager) : op_ok o -> accounted s -> accounted (run o s).2.
Proof.
  intros Ho. apply (step_accounted (op_power o) s (run o s).2 (op_id s o)); [|apply run_step_of].
  unfold op_ok in Ho. intros p E. rewrite E in Ho. exact Ho.
Qed.

Lemma run_ops_accounted (l : list op) (s : rmanager) : Forall op_ok l -> accounted s -> accounted (run_ops l s).
Proof.
  unfold run_ops. intros Hl. revert s. induction Hl as [|o l Ho Hl IH]; intros s Hs; simpl; [exact Hs|].
  apply IH, run_accounted; assumption.
Qed.

Lemma run_evolves (o : op) (s : rmanager) (id : ReservationId) (r : Reservation.t) : map_ s !! id = Some r ->
  exists r', map_ (run o s).2 !! id = Some r' /\ evolves r r'.
Proof.
  intros E. destruct (step_evolves (op_power o) s _ _ (run_step_of o s)) as [Hout Hin].
  destruct (decide (id = op_id s o)) as [->|Hne]; [apply Hin, E|].
  exists r. rewrite Hout by assumption. split; [exact E|apply evolves_refl].
Qed.

Lemma run_ops_terminal (l : list op) (s : rmanager) (id : ReservationId) (r : Reservation.t) :
  map_ s !! id = Some r -> Reservation.state r ∈ [RELEASED; EXPIRED] -> map_ (run_ops l s) !! id = Some r.
Proof.
  unfold run_ops. revert s. induction l as [|o l IH]; intros s E Ht; simpl; [exact E|].
  destruct (run_evolves o s id r E) as (r' & E' & _ & _ & Hr'). rewrite (Hr' Ht) in E'. apply IH; assumption.
Qed.

Lemma run_under (o : op) (s : rmanager) (i b : BudgetId) : op_ok o -> accounted s ->
  ManagerLaws.under (budgets (run o s).2) i b = ManagerLaws.under (budgets s) i b.
Proof.
  intros _ Hs. exact (step_under (op_power o) s _ _ (run_step_of o s) Hs i b).
Qed.

Lemma run_ops_under (l : list op) (s : rmanager) (i b : BudgetId) : Forall op_ok l -> accounted s ->
  ManagerLaws.under (budgets (run_ops l s)) i b = ManagerLaws.under (budgets s) i b.
Proof.
  unfold run_ops. intros Hl. revert s. induction Hl as [|o l Ho Hl IH]; intros s Hs; simpl; [reflexivity|].
  rewrite IH by (apply run_accounted; assumption). apply run_under; assumption.
Qed.

(** A manager with budgets and no reservation yet. *)
Definition fresh_manager (m : BudgetManager.t) (next : Z) : rmanager := mk ∅ next m.

Lemma fresh_accounted (m : BudgetManager.t) (next : Z) :
  Refinement.gridded m -> (forall b, ManagerLaws.held m b = 0) -> accounted (fresh_manager m next).
Proof.
  intros Hm H0. split; [exact Hm|]. split; [|intros b; apply H0]. intros id r. cbn. rewrite lookup_empty. discriminate.
Qed.

(** ** Properties *)

(** C16: the life cycle.  Whatever the operation and however it ends, no
    reservation disappears; each one keeps what it was planned with and moves
    along an edge of the life cycle; and a RELEASED or EXPIRED reservation never
    changes again. *)
Theorem reservation_lifecycle (o : op) (s : rmanager) (id : ReservationId) (r : Reservation.t) :
  map_ s !! id = Some r ->
  exists r', map_ (run o s).2 !! id = Some r' /\
    edge (Reservation.state r) (Reservation.state r') = true /\ same_request r r' /\
    (Reservation.state r ∈ [RELEASED; EXPIRED] -> r' = r).
Proof. apply run_evolves. Qed.

Definition req : op :=
  OpPlan (mkId 3) THROUGHPUT (mkId 1) leaf_id (mkQ 20) J0 gen_first gen_first null_envelope (mkTime 100) (mkDuration 5000).
Definition first_rid : ReservationId := mkId 1.
Definition start : rmanager := fresh_manager two_levels 1.
Definition planned : rmanager := run_ops [req] start.

Definition planned_reservation : Reservation.t :=
  Reservation.mk first_rid gen_first (mkId 3) invalid_id THROUGHPUT (mkId 1) leaf_id (mkQ 20) J0 gen_first gen_first
    gen_null null_envelope (mkTime 100) (mkDuration 5000) PLANNED W0 J0 never never.

Lemma reservation_lifecycle_witness :
  exists r', map_ (run (OpReserve first_rid gen_first (mkTime 200)) planned).2 !! first_rid = Some r' /\
    edge PLANNED (Reservation.state r') = true /\ same_request planned_reservation r' /\
    (PLANNED ∈ [RELEASED; EXPIRED] -> r' = planned_reservation).
Proof.
  apply (reservation_lifecycle (OpReserve first_rid gen_first (mkTime 200)) planned first_rid planned_reservation).
  vm_compute. reflexivity.
Defined.

(** No operation on a RELEASED or EXPIRED reservation is accepted: none
    throws, each answers no, and the table and the budgets are unchanged; in
    particular a second release gives nothing back. *)
Theorem terminal_reservation_rejects (o : op) (s : rmanager) (r : Reservation.t) :
  op_power o = None -> map_ s !! op_id s o = Some r -> Reservation.state r ∈ [RELEASED; EXPIRED] ->
  exists reason, run o s = (Ret (result false reason), s).
Proof.
  intros Hp E Ht. rewrite !elem_of_cons, elem_of_nil in Ht.
  destruct o; try discriminate; cbn [run op_id] in *;
    [unfold validate|unfold reserve|unfold admit_|unfold activate|unfold account_energy|unfold release];
    rewrite mutable_get_bind, E; destruct Ht as [->|[->|[]]]; cbn; eexists; reflexivity.
Qed.

Definition released_run : rmanager :=
  run_ops [OpReserve first_rid gen_first (mkTime 200); OpRelease first_rid gen_first (mkTime 300)] planned.

Definition released_reservation : Reservation.t :=
  Reservation.mk first_rid gen_first (mkId 3) invalid_id THROUGHPUT (mkId 1) leaf_id (mkQ 20) J0 gen_first gen_first
    gen_first null_envelope (mkTime 100) (mkDuration 5000) RELEASED (mkQ 20) J0 never (mkTime 300).

Lemma terminal_reservation_rejects_witness :
  exists reason, run (OpRelease first_rid gen_first (mkTime 400)) released_run = (Ret (result false reason), released_run).
Proof.
  apply (terminal_reservation_rejects (OpRelease first_rid gen_first (mkTime 400)) released_run released_reservation);
    [reflexivity|vm_compute; reflexivity|left].
Defined.

(** C15: conservation, for amounts on the grid (multiples of [2^-28] W below [2^24] W).
    Start from no reservations and from budgets that form a forest, with maxima and usage on
    the grid, booked within their maxima, in which nothing is reserved; after any history of
    operations (of any outcome) whose planned powers are on the grid, the power reserved on
    each budget is exactly the sum of the reserved power of the reservations on it or below
    it that have not been RELEASED. *)
Theorem reserved_power_accounted (m : BudgetManager.t) (next : Z) (l : list op) (b : BudgetId) (st : BudgetManager.State) :
  Refinement.gridded m -> (forall b, ManagerLaws.held m b = 0) -> Forall op_ok l ->
  let s := run_ops l (fresh_manager m next) in
  budgets s !! b = Some st ->
  val (value (BudgetManager.reserved_ st)) =
    map_sum (fun r => if negb (bool_decide (Reservation.state r = RELEASED))
                         && bool_decide (b ∈ BudgetManager.chain (budgets s) (Reservation.budget r))
                      then steps (value (Reservation.reserved_power r)) else 0) (map_ s) * 2 ^ step_bits.
Proof.
  intros Hm H0 Hl s E. destruct (run_ops_accounted l _ Hl (fresh_accounted m next Hm H0)) as (Hg & _ & Hh).
  fold s in Hg, Hh. specialize (Hh b). cbn in Hh. unfold ManagerLaws.held in Hh. rewrite Refinement.abs_lookup, E in Hh.
  cbn in Hh. destruct (proj1 Hg b st E) as (_ & Hr & _). apply Refinement.grid_steps in Hr as (_ & -> & _).
  rewrite Hh. reflexivity.
Qed.

Lemma start_held (b : BudgetId) : ManagerLaws.held two_levels b = 0.
Proof.
  unfold ManagerLaws.held. rewrite Refinement.abs_lookup. unfold two_levels. cbn.
  change (BudgetManager.install (BudgetManager.install ∅ rack).2 node).2
    with (<[leaf_id := BudgetManager.mkState node W0 W0]> (<[root_id := BudgetManager.mkState rack W0 W0]> (∅ : BudgetManager.t))).
  rewrite !lookup_insert. repeat case_decide; reflexivity.
Qed.

Lemma req_ok : op_ok req.
Proof. apply gridb_spec. vm_compute. reflexivity. Qed.

Definition three_ops : list op :=
  [req; req; OpReserve first_rid gen_first (mkTime 200); OpReserve (mkId 2) gen_first (mkTime 210);
   OpRelease first_rid gen_first (mkTime 220)].

Lemma three_ops_ok : Forall op_ok three_ops.
Proof. repeat constructor; apply req_ok. Qed.

Lemma reserved_power_accounted_witness :
  let s := run_ops three_ops (fresh_manager two_levels 1) in
  val 20 = map_sum (fun r => if negb (bool_decide (Reservation.state r = RELEASED))
                         && bool_decide (root_id ∈ BudgetManager.chain (budgets s) (Reservation.budget r))
                      then steps (value (Reservation.reserved_power r)) else 0) (map_ s) * 2 ^ step_bits.
Proof.
  apply (reserved_power_accounted two_levels 1 three_ops root_id (BudgetManager.mkState rack (mkQ 20) W0));
    [apply two_levels_gridded|apply start_held|apply three_ops_ok|vm_compute; reflexivity].
Defined.

(** The capacity of an expired reservation is never returned.  Once a
    reservation that held power is EXPIRED, after any further history of
    operations on the reservations (its own release included) every budget of
    its chain still holds at least its power. *)
Theorem expired_reservation_leaks (m : BudgetManager.t) (next : Z) (l l' : list op) (id : ReservationId)
    (r : Reservation.t) (b : BudgetId) (st : BudgetManager.State) :
  Refinement.gridded m -> (forall b, ManagerLaws.held m b = 0) -> Forall op_ok l -> Forall op_ok l' ->
  let s := run_ops l (fresh_manager m next) in
  let s' := run_ops l' s in
  map_ s !! id = Some r -> Reservation.state r = EXPIRED -> b ∈ BudgetManager.chain (budgets s) (Reservation.budget r) ->
  budgets s' !! b = Some st ->
  val (value (Reservation.reserved_power r)) <= val (value (BudgetManager.reserved_ st)).
Proof.
  intros Hm H0 Hl Hl' s s' E Hexp Hb E'.
  assert (Hs : accounted s) by (apply run_ops_accounted; auto using fresh_accounted).
  assert (Hs' : accounted s') by (apply run_ops_accounted; assumption).
  assert (Et : map_ s' !! id = Some r) by (apply run_ops_terminal; [exact E|rewrite Hexp; right; left]).
  pose proof (run_ops_under l' s (Reservation.budget r) b Hl' Hs) as Hu. fold s' in Hu.
  destruct Hs' as (Hg & Ht & Hh). specialize (Hh b). cbn in Hh.
  unfold ManagerLaws.held in Hh. rewrite Refinement.abs_lookup, E' in Hh. cbn in Hh.
  destruct (proj1 Hg b st E') as (_ & Hr & _). apply Refinement.grid_steps in Hr as (_ & -> & _).
  destruct (Ht id r Et) as (_ & _ & Ha & _). cbn in Ha. apply Refinement.grid_steps in Ha as (_ & -> & _).
  assert (Hle : live_units (budgets s') b r <= map_sum (live_units (budgets s') b) (map_ s')).
  { apply (map_sum_ge _ _ id); [|exact Et]. intros i r0 E0. unfold live_units.
    destruct (_ && _); [|lia]. apply b_units_nonneg. destruct (Ht i r0 E0) as (_ & _ & Ha0 & _). exact Ha0. }
  unfold live_units at 1 in Hle. rewrite Hexp, bool_decide_false in Hle by discriminate. cbn in Hle. rewrite Hu in Hle.
  unfold ManagerLaws.under in Hle. rewrite bool_decide_true in Hle by exact Hb.
  pose proof Refinement.step_pos. rewrite Hh. nia.
Qed.

(** A reservation of 20 W, reserved in time, found expired on activation, and
    then released. *)
Definition expiring_ops : list op :=
  [req; OpReserve first_rid gen_first (mkTime 200); OpActivate first_rid gen_first (mkTime 9000)].
Definition expired_reservation : Reservation.t :=
  Reservation.with_state EXPIRED (Reservation.with_booking gen_first (mkQ 20) planned_reservation).

Lemma expired_reservation_leaks_witness : val 20 <= val 20.
Proof.
  apply (expired_reservation_leaks two_levels 1 expiring_ops [OpRelease first_rid gen_first (mkTime 9001)] first_rid
    expired_reservation leaf_id (BudgetManager.mkState node (mkQ 20) W0));
    [apply two_levels_gridded|apply start_held|repeat constructor; apply req_ok|repeat constructor| | | |];
    try (vm_compute; reflexivity).
  apply (bool_decide_eq_true_1 _). vm_compute. reflexivity.
Defined.

(** What [release] leaves of the usage: the same cover, under the same chain. *)
Lemma deactivate_after_release (m m1 : BudgetManager.t) (id : BudgetId) (a : Watts) (rid : ReservationId) (g : BudgetGeneration) :
  BudgetFacts.acyclic m -> BudgetManager.release m id a rid g = (true, m1) ->
  forallb (BudgetManager.covers BudgetManager.used_ m a) (BudgetManager.chain m id) = true ->
  (BudgetManager.deactivate m1 id a rid g).1 = true.
Proof.
  intros Hac Hr Hcov. apply BudgetFacts.release_true in Hr as ((st & Es & Hgen) & Hn & _ & Hm1).
  set (f := BudgetManager.set_reserved (fun r => (r - value a)%float)) in *.
  assert (Hlook : forall b, m1 !! b = if decide (b ∈ BudgetManager.chain m id) then f <$> m !! b else m !! b)
    by (intros b; rewrite Hm1; apply BudgetFacts.update_chain_lookup, Hac).
  assert (Hch : BudgetManager.chain m1 id = BudgetManager.chain m id)
    by (rewrite Hm1; apply BudgetFacts.chain_update_chain, BudgetFacts.set_reserved_keeps).
  assert (Hsame : forall b, BudgetManager.covers BudgetManager.used_ m1 a b = BudgetManager.covers BudgetManager.used_ m a b).
  { intros b. unfold BudgetManager.covers. rewrite Hlook. destruct (decide _); [|reflexivity]. destruct (m !! b); reflexivity. }
  assert (Hid : exists st', m1 !! id = Some st' /\ PowerBudget.generation (BudgetManager.cfg st') = g).
  { rewrite Hlook, Es. destruct (decide _); [exists (f st)|exists st]; auto. }
  destruct Hid as (st' & Es' & Hgen'). unfold BudgetManager.deactivate.
  rewrite Es', Hgen', (proj2 (gen_eqb_eq g g) eq_refl), (proj2 (BudgetFacts.bad_amount_nonneg a) Hn), Hch,
    (forallb_pointwise _ _ _ Hsame), Hcov. reflexivity.
Qed.

(** Releasing a reservation that was never activated takes its power out
    of the usage of others: from RESERVED or ADMITTED, when the used power of
    the whole chain covers the amount, an accepted release lowers the used power
    of every budget of the chain by it. *)
Theorem release_takes_usage_of_others (s s' : rmanager) (id : ReservationId) (r : Reservation.t)
    (g : BudgetGeneration) (now : Timestamp) :
  accounted s -> map_ s !! id = Some r -> Reservation.state r ∈ [RESERVED; ADMITTED] ->
  forallb (BudgetManager.covers BudgetManager.used_ (budgets s) (Reservation.reserved_power r))
    (BudgetManager.chain (budgets s) (Reservation.budget r)) = true ->
  release id g now s = (Ret (result true "released"), s') ->
  forall b, ManagerLaws.spent (budgets s') b =
    ManagerLaws.spent (budgets s) b -
      (if ManagerLaws.under (budgets s) (Reservation.budget r) b then steps (value (Reservation.reserved_power r)) else 0).
Proof.
  intros (Hg & Ht & _) E Hst Hcov Hr b. destruct (Ht _ _ E) as (_ & _ & Ha & _).
  unfold release in Hr. rewrite mutable_get_bind, E in Hr.
  rewrite !elem_of_cons, elem_of_nil in Hst.
  assert (Hnot : bool_decide (Reservation.state r = RELEASED) = false /\ bool_decide (Reservation.state r = EXPIRED) = false /\
    bool_decide (Reservation.state r = ACTIVE) || bool_decide (Reservation.state r = ADMITTED)
      || bool_decide (Reservation.state r = RESERVED) = true) by (destruct Hst as [->|[->|[]]]; auto).
  destruct Hnot as (N1 & N2 & N3). rewrite N1, N2 in Hr. destruct (is_null _ && _); [discriminate|].
  rewrite call_bind in Hr. cbn [b_release BudgetManager_ops] in Hr.
  destruct (BudgetManager.release (budgets s) (Reservation.budget r) (Reservation.reserved_power r) id g) as [[] m1] eqn:E1;
    cbn [fst snd negb] in Hr; [|discriminate].
  rewrite N3 in Hr. unfold sbind at 1 in Hr. rewrite call_bind in Hr. cbn [b_deactivate BudgetManager_ops budgets] in Hr.
  destruct (ManagerLaws.release_law _ _ _ _ _ _ Hg Ha E1) as (Hg1 & Hu1 & _ & Hs1).
  pose proof (deactivate_after_release _ _ _ _ id g (Refinement.gridded_acyclic _ Hg) E1 Hcov) as Hok.
  destruct (BudgetManager.deactivate m1 (Reservation.budget r) (Reservation.reserved_power r) id g) as [ok m2] eqn:E2.
  cbn [fst] in Hok. subst ok. destruct (ManagerLaws.deactivate_law _ _ _ _ _ _ Hg1 Ha E2) as (_ & _ & _ & Hs2).
  injection Hr as <-. cbn [budgets snd set_map]. rewrite Hs2, Hs1, Hu1. reflexivity.
Qed.

(** The first reservation is active, the second reserved only. *)
Definition victim_ops : list op :=
  [req; req; OpReserve first_rid gen_first (mkTime 200); OpActivate first_rid gen_first (mkTime 210);
   OpReserve (mkId 2) gen_first (mkTime 220)].
Definition victim_reservation : Reservation.t :=
  Reservation.mk (mkId 2) gen_first (mkId 3) invalid_id THROUGHPUT (mkId 1) leaf_id (mkQ 20) J0 gen_first gen_first
    gen_first null_envelope (mkTime 100) (mkDuration 5000) RESERVED (mkQ 20) J0 never never.

Lemma release_takes_usage_of_others_witness :
  let s := run_ops victim_ops start in
  let s' := (release (mkId 2) gen_first (mkTime 230) s).2 in
  Reservation.state <$> map_ s' !! first_rid = Some ACTIVE /\
  forall b, ManagerLaws.spent (budgets s') b =
    ManagerLaws.spent (budgets s) b -
      (if ManagerLaws.under (budgets s) leaf_id b then steps 20 else 0).
Proof.
  split; [vm_compute; reflexivity|].
  apply (release_takes_usage_of_others (run_ops victim_ops start) (release (mkId 2) gen_first (mkTime 230) (run_ops victim_ops start)).2
    (mkId 2) victim_reservation gen_first (mkTime 230)); [|vm_compute; reflexivity|left|vm_compute; reflexivity|vm_compute; reflexivity].
  apply run_ops_accounted; [repeat constructor; apply req_ok|]. apply fresh_accounted; [apply two_levels_gridded|apply start_held].
Defined.

(** ** Queries *)
#[local] Instance id_le_trans : Transitive id_le.
Proof. unfold id_le. intros a b c. lia. Qed.

#[local] Instance id_le_total : Total id_le.
Proof. intros a b. unfold id_le. lia. Qed.

(** The snapshot [all] lists exactly the reservations of the table, each
    once, in the strict order of their identifiers, whatever the order of the
    hash map. *)
Theorem snapshot_sorted (s : rmanager) :
  (forall id r, map_ s !! id = Some r -> Reservation.id r = id) ->
  StronglySorted (fun a b => id_raw (Reservation.id a) < id_raw (Reservation.id b)) (all s) /\
  forall r, r ∈ all s <-> map_ s !! Reservation.id r = Some r.
Proof.
  intros Hid.
  assert (Hp : all s ≡ₚ (map_to_list (map_ s)).*2) by apply merge_sort_Permutation.
  assert (Hin : forall r, r ∈ all s <-> map_ s !! Reservation.id r = Some r).
  { intros r. rewrite Hp, list_elem_of_fmap. split.
    - intros ([i r'] & -> & E). cbn. apply elem_of_map_to_list in E. rewrite (Hid _ _ E). exact E.
    - intros E. exists (Reservation.id r, r). split; [reflexivity|]. apply elem_of_map_to_list, E. }
  split; [|exact Hin].
  assert (Hs : StronglySorted id_le (all s)).
  { apply (StronglySorted_merge_sort id_le). }
  assert (Hnd : NoDup (Reservation.id <$> all s)).
  { rewrite Hp. rewrite <- list_fmap_compose.
    rewrite (list_fmap_ext _ fst); [apply NoDup_fst_map_to_list|].
    intros i [k r] E. cbn. apply Hid, elem_of_map_to_list. apply list_elem_of_lookup_2 in E. exact E. }
  revert Hs Hnd. generalize (all s). induction l as [|r l IH]; intros Hs Hnd; [constructor|].
  apply StronglySorted_inv in Hs as [Hs Hall]. cbn in Hnd. apply NoDup_cons in Hnd as [Hn Hnd].
  constructor; [auto|]. rewrite Forall_forall in *. intros r' Hr'. specialize (Hall r' Hr'). unfold id_le in Hall.
  assert (Reservation.id r <> Reservation.id r') by (intros Heq; apply Hn; rewrite Heq; apply list_elem_of_fmap_2, Hr').
  destruct (Reservation.id r), (Reservation.id r'). cbn in *. assert (id_raw <> id_raw0) by congruence. lia.
Qed.

Lemma snapshot_sorted_witness :
  StronglySorted (fun a b => id_raw (Reservation.id a) < id_raw (Reservation.id b)) (all (run_ops victim_ops start)) /\
  forall r, r ∈ all (run_ops victim_ops start) <-> map_ (run_ops victim_ops start) !! Reservation.id r = Some r.
Proof.
  apply (snapshot_sorted (run_ops victim_ops start)). intros id r E.
  assert (Ha : accounted (run_ops victim_ops start))
    by (apply run_ops_accounted; [repeat constructor; apply req_ok|apply fresh_accounted; [apply two_levels_gridded|apply start_held]]).
  destruct Ha as (_ & Ht & _). apply (Ht id r E).
Defined.

(** The audit skips EXPIRED reservations: it reports no leak while the expired
    reservation above still holds its power. *)
Lemma audit_misses_expired :
  audit_no_leaks (run_ops expiring_ops start) (mkTime 9001) = Ret true /\
  value (BudgetManager.reserved (budgets (run_ops expiring_ops start)) leaf_id) = 20%float.
Proof. vm_compute. split; reflexivity. Qed.
