(* ===== verification/Index.v ===== *)
(** * The index of reservations and the change history (index.hpp, change_history.hpp) *)
From S2P Require Import Prelude Binary64 Units Ids Clock Reservation.
Local Open Scope Z_scope.

(** ** ReservationIndex *)
Module ReservationIndex.
Record Meta := mkMeta { m_budget : BudgetId; m_workload : WorkloadId; m_state : ReservationState }.

Record t := mk {
  members : gmap ReservationId Meta;
  by_budget_ : gmap BudgetId (list ReservationId);
  by_workload_ : gmap WorkloadId (list ReservationId);
  by_state_ : gmap ReservationState (list ReservationId) }.

Definition empty : t := mk ∅ ∅ ∅ ∅.

Section Lists.
Context {K : Type} `{Countable K}.

(** [map[key].push_back(id)]: the subscript creates a missing list. *)
Definition push (m : gmap K (list ReservationId)) (k : K) (id : ReservationId) : gmap K (list ReservationId) :=
  <[k := default [] (m !! k) ++ [id]]> m.

(** [remove_entry]: the first occurrence. *)
Fixpoint remove_entry (l : list ReservationId) (id : ReservationId) : list ReservationId :=
  match l with
  | [] => []
  | x :: l => if id_eqb x id then l else x :: remove_entry l id
  end.

Definition drop_from (m : gmap K (list ReservationId)) (k : K) (id : ReservationId) : gmap K (list ReservationId) :=
  <[k := remove_entry (default [] (m !! k)) id]> m.

Definition lookup_list (m : gmap K (list ReservationId)) (k : K) : list ReservationId := default [] (m !! k).
End Lists.

Definition add (x : t) (id : ReservationId) (b : BudgetId) (w : WorkloadId) (s : ReservationState) : t :=
  if negb (is_valid id) then x
  else mk (<[id := mkMeta b w s]> (members x)) (push (by_budget_ x) b id) (push (by_workload_ x) w id)
         (push (by_state_ x) s id).

Definition remove_from_lists (x : t) (m : Meta) (id : ReservationId) : t :=
  mk (members x) (drop_from (by_budget_ x) (m_budget m) id) (drop_from (by_workload_ x) (m_workload m) id)
    (drop_from (by_state_ x) (m_state m) id).

Definition set_state (x : t) (id : ReservationId) (b : BudgetId) (w : WorkloadId) (s : ReservationState) : t :=
  match members x !! id with
  | None => add x id b w s
  | Some m =>
      let x := remove_from_lists x m id in
      mk (<[id := mkMeta b w s]> (members x)) (push (by_budget_ x) b id) (push (by_workload_ x) w id)
        (push (by_state_ x) s id)
  end.

Definition remove (x : t) (id : ReservationId) : t :=
  match members x !! id with
  | None => x
  | Some m =>
      let x := remove_from_lists x m id in
      mk (delete id (members x)) (by_budget_ x) (by_workload_ x) (by_state_ x)
  end.

Definition by_budget (x : t) (b : BudgetId) : list ReservationId := lookup_list (by_budget_ x) b.
Definition by_workload (x : t) (w : WorkloadId) : list ReservationId := lookup_list (by_workload_ x) w.
Definition by_state (x : t) (s : ReservationState) : list ReservationId := lookup_list (by_state_ x) s.
Definition contains (x : t) (id : ReservationId) : bool := bool_decide (is_Some (members x !! id)).

(** ** One list of the index *)
Section Consistency.
Context {K : Type} `{Countable K}.

(** The list of [k] holds, once each, the members filed under [k]. *)
Definition files (mem : gmap ReservationId Meta) (key : Meta -> K) (m : gmap K (list ReservationId)) : Prop :=
  forall k, NoDup (lookup_list m k) /\
    forall id, id ∈ lookup_list m k <-> exists x, mem !! id = Some x /\ key x = k.

Lemma remove_entry_spec (l : list ReservationId) (id : ReservationId) : NoDup l ->
  NoDup (remove_entry l id) /\ forall x, x ∈ remove_entry l id <-> x ∈ l /\ x <> id.
Proof.
  induction 1 as [|y l Hy Hl [IH1 IH2]]; cbn [remove_entry].
  { split; [constructor|]. intros x. rewrite elem_of_nil. tauto. }
  destruct (id_eqb y id) eqn:E.
  - apply id_eqb_eq in E as ->. split; [assumption|]. intros x. rewrite elem_of_cons.
    split; [intros Hx; split; [auto|congruence]|intros [[->|Hx] Hne]; [congruence|assumption]].
  - assert (y <> id) by (intros ->; rewrite (proj2 (id_eqb_eq id id) eq_refl) in E; discriminate).
    split; [constructor; [rewrite IH2; tauto|assumption]|].
    intros x. rewrite !elem_of_cons, IH2. split; [intros [->|[? ?]]; auto|intros [[->|?] ?]; auto].
Qed.

Lemma lookup_list_insert (m : gmap K (list ReservationId)) (k k' : K) (l : list ReservationId) :
  lookup_list (<[k := l]> m) k' = if decide (k = k') then l else lookup_list m k'.
Proof. unfold lookup_list. rewrite lookup_insert. case_decide; reflexivity. Qed.

Lemma files_push (mem : gmap ReservationId Meta) (key : Meta -> K) (m : gmap K (list ReservationId)) (id : ReservationId) (x : Meta) :
  files mem key m -> mem !! id = None -> files (<[id := x]> mem) key (push m (key x) id).
Proof.
  intros Hf Hn k. unfold push. rewrite lookup_list_insert. fold (lookup_list m (key x)).
  destruct (Hf k) as [Hnd Hin]. case_decide as E.
  - subst k. split.
    + apply NoDup_app. split; [assumption|]. split; [|apply NoDup_singleton].
      intros y Hy Hy'. apply list_elem_of_singleton in Hy' as ->. apply Hin in Hy as (x' & E & _). congruence.
    + intros y. rewrite elem_of_app, list_elem_of_singleton, Hin, lookup_insert. case_decide; [subst y|].
      * split; [eauto|auto].
      * split; [intros [?|?]; [assumption|congruence]|auto].
  - split; [assumption|]. intros y. rewrite Hin, lookup_insert. case_decide; [subst y|reflexivity].
    rewrite Hn. split; [intros (? & [=] & _)|intros (? & [= <-] & Hk); contradiction (E Hk)].
Qed.

Lemma files_drop (mem : gmap ReservationId Meta) (key : Meta -> K) (m : gmap K (list ReservationId)) (id : ReservationId) (x : Meta) :
  files mem key m -> mem !! id = Some x -> files (delete id mem) key (drop_from m (key x) id).
Proof.
  intros Hf E k. unfold drop_from. rewrite lookup_list_insert. fold (lookup_list m (key x)).
  destruct (Hf k) as [Hnd Hin]. case_decide as Ek.
  - subst k. destruct (remove_entry_spec _ id Hnd) as [Hnd' Hin']. split; [assumption|].
    intros y. rewrite Hin', Hin, lookup_delete. case_decide; [subst y|].
    + split; [intros [_ ?]; congruence|intros (? & [=] & _)].
    + split; [intros [? _]; assumption|intros ?; split; [assumption|congruence]].
  - split; [assumption|]. intros y. rewrite Hin, lookup_delete. case_decide; [subst y|reflexivity].
    rewrite E. split; [intros (? & [= <-] & Hk); contradiction (Ek Hk)|intros (? & [=] & _)].
Qed.
End Consistency.

Definition consistent (x : t) : Prop :=
  files (members x) m_budget (by_budget_ x) /\ files (members x) m_workload (by_workload_ x) /\
  files (members x) m_state (by_state_ x).

Lemma add_consistent (x : t) (id : ReservationId) (b : BudgetId) (w : WorkloadId) (s : ReservationState) :
  consistent x -> members x !! id = None -> consistent (add x id b w s).
Proof.
  intros (H1 & H2 & H3) Hn. unfold add. destruct (negb (is_valid id)); [exact (conj H1 (conj H2 H3))|].
  exact (conj (files_push _ m_budget _ id (mkMeta b w s) H1 Hn)
    (conj (files_push _ m_workload _ id (mkMeta b w s) H2 Hn) (files_push _ m_state _ id (mkMeta b w s) H3 Hn))).
Qed.

Lemma remove_consistent (x : t) (id : ReservationId) : consistent x -> consistent (remove x id).
Proof.
  intros (H1 & H2 & H3). unfold remove. destruct (members x !! id) as [m|] eqn:E; [|exact (conj H1 (conj H2 H3))].
  exact (conj (files_drop _ _ _ id m H1 E) (conj (files_drop _ _ _ id m H2 E) (files_drop _ _ _ id m H3 E))).
Qed.

(** Refiling is removing and filing again. *)
Lemma set_state_consistent (x : t) (id : ReservationId) (b : BudgetId) (w : WorkloadId) (s : ReservationState) :
  consistent x -> consistent (set_state x id b w s).
Proof.
  intros Hx. unfold set_state. destruct (members x !! id) as [m|] eqn:E; [|apply add_consistent; assumption].
  destruct Hx as (H1 & H2 & H3). pose proof (lookup_delete_eq (members x) id) as Hn.
  unfold remove_from_lists, consistent. cbn [members by_budget_ by_workload_ by_state_]. rewrite <- (insert_delete_eq (members x) id).
  exact (conj (files_push _ m_budget _ id (mkMeta b w s) (files_drop _ _ _ id m H1 E) Hn)
    (conj (files_push _ m_workload _ id (mkMeta b w s) (files_drop _ _ _ id m H2 E) Hn)
      (files_push _ m_state _ id (mkMeta b w s) (files_drop _ _ _ id m H3 E) Hn))).
Qed.

Lemma empty_consistent : consistent empty.
Proof.
  split_and!; intros k; (split; [constructor|]); intros id; cbn; unfold lookup_list; rewrite lookup_empty; cbn;
    rewrite elem_of_nil; (split; [intros []|intros (? & [=] & _)]).
Qed.

Inductive op :=
| Add (id : ReservationId) (b : BudgetId) (w : WorkloadId) (s : ReservationState)
| SetState (id : ReservationId) (b : BudgetId) (w : WorkloadId) (s : ReservationState)
| Remove (id : ReservationId).

Definition run (x : t) (o : op) : t :=
  match o with
  | Add id b w s => add x id b w s
  | SetState id b w s => set_state x id b w s
  | Remove id => remove x id
  end.

(** [add] is for a reservation not yet in the index. *)
Fixpoint ops_ok (x : t) (l : list op) : Prop :=
  match l with
  | [] => True
  | o :: l => match o with Add id _ _ _ => members x !! id = None | _ => True end /\ ops_ok (run x o) l
  end.
End ReservationIndex.
Import ReservationIndex.

(** Through any history of additions of new reservations, changes of state
    and removals, each of the three indexes answers a key with exactly the
    reservations filed under it, each listed once. *)
Theorem index_consistent (l : list op) (id : ReservationId) (b : BudgetId) (w : WorkloadId) (s : ReservationState) :
  ops_ok empty l ->
  let x := foldl run empty l in
  (id ∈ by_budget x b <-> exists m, members x !! id = Some m /\ m_budget m = b) /\
  (id ∈ by_workload x w <-> exists m, members x !! id = Some m /\ m_workload m = w) /\
  (id ∈ by_state x s <-> exists m, members x !! id = Some m /\ m_state m = s) /\
  NoDup (by_budget x b) /\ NoDup (by_workload x w) /\ NoDup (by_state x s).
Proof.
  intros Hl x. assert (Hx : consistent x).
  { unfold x. revert Hl. generalize empty_consistent. generalize empty. induction l as [|o l IH]; intros y Hy Hl; [exact Hy|].
    destruct Hl as [Ho Hl]. apply IH; [|exact Hl].
    destruct o; cbn; auto using add_consistent, set_state_consistent, remove_consistent. }
  destruct Hx as (H1 & H2 & H3). split_and!; [apply H1|apply H2|apply H3|apply H1|apply H2|apply H3].
Qed.

Definition sample_index_ops : list op :=
  [Add (mkId 1) (mkId 5) (mkId 9) PLANNED; Add (mkId 2) (mkId 5) (mkId 8) PLANNED;
   SetState (mkId 1) (mkId 5) (mkId 9) RESERVED; Remove (mkId 2)].

Lemma index_consistent_witness :
  let x := foldl run empty sample_index_ops in
  (mkId 1 ∈ by_budget x (mkId 5) <-> exists m, members x !! mkId 1 = Some m /\ m_budget m = mkId 5) /\
  (mkId 1 ∈ by_workload x (mkId 9) <-> exists m, members x !! mkId 1 = Some m /\ m_workload m = mkId 9) /\
  (mkId 1 ∈ by_state x PLANNED <-> exists m, members x !! mkId 1 = Some m /\ m_state m = PLANNED) /\
  NoDup (by_budget x (mkId 5)) /\ NoDup (by_workload x (mkId 9)) /\ NoDup (by_state x PLANNED).
Proof.
  apply (index_consistent sample_index_ops (mkId 1) (mkId 5) (mkId 9) PLANNED).
  vm_compute. auto 10.
Defined.

(** Adding the same reservation twice lists it twice. *)
Lemma add_twice_duplicates :
  by_budget (add (add empty (mkId 1) (mkId 5) (mkId 9) PLANNED) (mkId 1) (mkId 5) (mkId 9) PLANNED) (mkId 5)
    = [mkId 1; mkId 1].
Proof. vm_compute. reflexivity. Qed.

(** ** The change history *)
Inductive ChangeKind :=
| POLICY_CHANGED | BUDGET_CHANGED | RESERVATION_PLANNED | RESERVATION_RESERVED
| RESERVATION_ACTIVATED | RESERVATION_RELEASED | RESERVATION_EXPIRED
| BURST_EXHAUSTED | BURST_REFILLED | DEVICE_THERMALLY_CONSTRAINED | DEVICE_RECOVERED
| WORKLOAD_CLASS_CHANGED | DECISION_CHANGED | TELEMETRY_STALE | POWER_CONTROL_CAPABILITY_CHANGED
| AUTHORITY_ROLLED | RECOVERED | OBSERVATION_ACCEPTED | OBSERVATION_REJECTED.

#[export] Instance ChangeKind_eq_dec : EqDecision ChangeKind.
Proof. solve_decision. Defined.

Definition change_to_string (k : ChangeKind) : string :=
  match k with
  | POLICY_CHANGED => "POLICY_CHANGED"
  | BUDGET_CHANGED => "BUDGET_CHANGED"
  | RESERVATION_PLANNED => "RESERVATION_PLANNED"
  | RESERVATION_RESERVED => "RESERVATION_RESERVED"
  | RESERVATION_ACTIVATED => "RESERVATION_ACTIVATED"
  | RESERVATION_RELEASED => "RESERVATION_RELEASED"
  | RESERVATION_EXPIRED => "RESERVATION_EXPIRED"
  | BURST_EXHAUSTED => "BURST_EXHAUSTED"
  | BURST_REFILLED => "BURST_REFILLED"
  | DEVICE_THERMALLY_CONSTRAINED => "DEVICE_THERMALLY_CONSTRAINED"
  | DEVICE_RECOVERED => "DEVICE_RECOVERED"
  | WORKLOAD_CLASS_CHANGED => "WORKLOAD_CLASS_CHANGED"
  | DECISION_CHANGED => "DECISION_CHANGED"
  | TELEMETRY_STALE => "TELEMETRY_STALE"
  | POWER_CONTROL_CAPABILITY_CHANGED => "POWER_CONTROL_CAPABILITY_CHANGED"
  | AUTHORITY_ROLLED => "AUTHORITY_ROLLED"
  | RECOVERED => "RECOVERED"
  | OBSERVATION_ACCEPTED => "OBSERVATION_ACCEPTED"
  | OBSERVATION_REJECTED => "OBSERVATION_REJECTED"
  end.

Module ChangeHistory.
Record ChangeEntry := mkEntry { seq_ : Z; at_ : Timestamp; kind : ChangeKind; message : string }.

Record t := mk { next_ : Z; max_ : nat; entries : list ChangeEntry }.

Definition make (max_entries : nat) : t := mk 1 (if (max_entries =? 0)%nat then 1%nat else max_entries) [].

(** The default bound of the constructor. *)
Definition default_max : nat := Z.to_nat 4096.

Definition append (h : t) (k : ChangeKind) (msg : string) (at0 : Timestamp) : t :=
  let l := entries h ++ [mkEntry (next_ h) at0 k msg] in
  mk (u64 (next_ h + 1)) (max_ h) (if (max_ h <? length l)%nat then tail l else l).

Definition clear (h : t) : t := mk (next_ h) (max_ h) [].

(** The entries kept are the last ones appended, numbered consecutively. *)
Definition ok (h : t) : Prop :=
  (1 <= max_ h)%nat /\ (length (entries h) <= max_ h)%nat /\ Z.of_nat (length (entries h)) < next_ h /\
  forall i e, entries h !! i = Some e -> seq_ e = next_ h - Z.of_nat (length (entries h)) + Z.of_nat i.

Lemma history_make_ok (n : nat) : ok (make n).
Proof.
  unfold ok, make. cbn. split_and!; try lia; [destruct (Nat.eqb_spec n 0); lia|intros i e; discriminate].
Qed.

Lemma append_ok (h : t) (k : ChangeKind) (msg : string) (at0 : Timestamp) :
  ok h -> next_ h < 2 ^ 64 - 1 -> ok (append h k msg at0) /\ next_ (append h k msg at0) = next_ h + 1 /\
  last (entries (append h k msg at0)) = Some (mkEntry (next_ h) at0 k msg).
Proof.
  intros (Hm & Hlen & Hn & Hi) Hlt. unfold append, ok. cbn [next_ max_ entries].
  unfold u64. rewrite wrap_small by (unfold in_u; lia).
  assert (Hall : forall i e, (entries h ++ [mkEntry (next_ h) at0 k msg]) !! i = Some e ->
            seq_ e = next_ h - Z.of_nat (length (entries h)) + Z.of_nat i).
  { intros i e E. apply lookup_app_Some in E as [E|[Hge E]]; [apply Hi, E|].
    apply list_lookup_singleton_Some in E as [Hi0 <-]. cbn. lia. }
  assert (Hl : length (entries h ++ [mkEntry (next_ h) at0 k msg]) = S (length (entries h)))
    by (rewrite length_app; cbn; lia).
  rewrite Hl. destruct (Nat.ltb_spec (max_ h) (S (length (entries h)))).
  - destruct (entries h) as [|e0 l0] eqn:E0; [cbn in *; lia|]. cbn [app tail length] in *.
    assert (Hlen' : length (l0 ++ [mkEntry (next_ h) at0 k msg]) = S (length l0)) by (rewrite length_app; cbn; lia).
    rewrite Hlen'. split; [|split; [reflexivity|apply last_snoc]]. split_and!; try lia.
    intros i e E. specialize (Hall (S i) e E). lia.
  - rewrite Hl. split; [|split; [reflexivity|apply last_snoc]]. split_and!; try lia.
    intros i e E. specialize (Hall i e E). lia.
Qed.

Definition append_all (l : list (ChangeKind * string * Timestamp)) (h : t) : t :=
  foldl (fun h p => append h p.1.1 p.1.2 p.2) h l.

Lemma append_all_ok (l : list (ChangeKind * string * Timestamp)) (h : t) :
  ok h -> next_ h + Z.of_nat (length l) < 2 ^ 64 -> ok (append_all l h) /\ max_ (append_all l h) = max_ h.
Proof.
  unfold append_all. revert h. induction l as [|p l IH]; intros h Hh Hn; cbn; [auto|]. cbn [length] in Hn.
  destruct (append_ok h p.1.1 p.1.2 p.2 Hh ltac:(lia)) as (Ho & En & _).
  destruct (IH (append h p.1.1 p.1.2 p.2) Ho ltac:(lia)) as [H1 H2]. split; [exact H1|]. rewrite H2. reflexivity.
Qed.
End ChangeHistory.
