(* ===== verification/PowerDomain.v ===== *)
(** * The tree of power domains (power_domain.hpp) *)
From S2P Require Import Prelude Ids.
Local Open Scope Z_scope.

Inductive PowerDomainType := FLEET | RACK | NODE | ACCELERATOR | WORKLOAD_CLASS | RESERVATION.

Definition domain_type_to_string (t : PowerDomainType) : string :=
  match t with
  | FLEET => "FLEET"
  | RACK => "RACK"
  | NODE => "NODE"
  | ACCELERATOR => "ACCELERATOR"
  | WORKLOAD_CLASS => "WORKLOAD_CLASS"
  | RESERVATION => "RESERVATION"
  end.

Module PowerDomain.
Record t := mk {
  id : PowerDomainId;
  type_ : PowerDomainType;
  parent : option PowerDomainId;
  children : list PowerDomainId;
  name : string;
  physical : bool }.
End PowerDomain.

Module PowerDomainTree.
Abbreviation t := (gmap PowerDomainId PowerDomain.t).

Definition push_child (c : PowerDomainId) (d : PowerDomain.t) : PowerDomain.t :=
  PowerDomain.mk (PowerDomain.id d) (PowerDomain.type_ d) (PowerDomain.parent d) (PowerDomain.children d ++ [c])
    (PowerDomain.name d) (PowerDomain.physical d).

(** The parent a node declares, when it is a valid identifier. *)
Definition valid_parent (p : option PowerDomainId) : option PowerDomainId :=
  match p with Some q => if is_valid q then Some q else None | None => None end.

Definition add (nodes : t) (id : PowerDomainId) (ty : PowerDomainType) (parent : option PowerDomainId)
    (name : string) (physical : bool) : outcome (PowerDomainId * t) :=
  if negb (is_valid id) then Throw (invalid_argument "pg: domain id must be valid")
  else if bool_decide (is_Some (nodes !! id)) then Throw (invalid_argument "pg: duplicate domain id")
  else
    match valid_parent parent with
    | Some p =>
        if bool_decide (is_Some (nodes !! p))
        then Ret (id, alter (push_child id) p (<[id := PowerDomain.mk id ty parent [] name physical]> nodes))
        else Throw (invalid_argument "pg: parent domain does not exist")
    | None => Ret (id, <[id := PowerDomain.mk id ty parent [] name physical]> nodes)
    end.

Definition get (nodes : t) (id : PowerDomainId) : outcome PowerDomain.t :=
  match nodes !! id with
  | Some d => Ret d
  | None => Throw (out_of_range "pg: unknown domain id")
  end.

(** The loop of [ancestors]; [None] when it has not ended after [fuel] turns. *)
Fixpoint ancestors_loop (nodes : t) (fuel : nat) (cur : option PowerDomainId) : option (list PowerDomainId) :=
  match valid_parent cur with
  | None => Some []
  | Some c =>
      match fuel with
      | O => None
      | S fuel =>
          cons c <$> match nodes !! c with
                     | None => Some []
                     | Some d => ancestors_loop nodes fuel (PowerDomain.parent d)
                     end
      end
  end.

(** As many turns as there are nodes. *)
Definition ancestors (nodes : t) (id : PowerDomainId) : outcome (option (list PowerDomainId)) :=
  match nodes !! id with
  | None => Throw (out_of_range "pg: unknown domain id")
  | Some d => Ret (ancestors_loop nodes (size nodes) (PowerDomain.parent d))
  end.

(** Trees as the program builds them. *)
Inductive built : t -> Prop :=
| built_empty : built ∅
| built_add nodes nodes' id i ty parent name physical :
    built nodes -> add nodes id ty parent name physical = Ret (i, nodes') -> built nodes'.

(** A depth that decreases towards the root. *)
Definition ranked (nodes : t) (depth : PowerDomainId -> nat) : Prop :=
  forall id d, nodes !! id = Some d -> (depth id < size nodes)%nat /\
    forall p, valid_parent (PowerDomain.parent d) = Some p -> is_Some (nodes !! p) /\ (depth p < depth id)%nat.

Lemma valid_parent_self (c : option PowerDomainId) (p : PowerDomainId) :
  valid_parent c = Some p -> c = Some p.
Proof. unfold valid_parent. destruct c as [q|]; [|discriminate]. destruct (is_valid q); congruence. Qed.

Lemma insert_ranked (nodes : t) (depth : PowerDomainId -> nat) (d : PowerDomain.t) :
  ranked nodes depth -> nodes !! PowerDomain.id d = None ->
  (forall p, valid_parent (PowerDomain.parent d) = Some p -> is_Some (nodes !! p)) ->
  ranked (<[PowerDomain.id d := d]> nodes) (fun i => if decide (i = PowerDomain.id d) then size nodes else depth i).
Proof.
  intros Hr Hn Hp. unfold ranked. intros i x. rewrite map_size_insert_None by exact Hn. rewrite lookup_insert_Some.
  assert (Hne : forall p, is_Some (nodes !! p) -> p <> PowerDomain.id d) by (intros p [y Hy] ->; congruence).
  intros [[<- <-]|[Hi E]].
  - rewrite decide_True by reflexivity. split; [lia|]. intros p Ep. specialize (Hp p Ep). pose proof (Hne p Hp).
    rewrite decide_False, lookup_insert_ne by congruence. split; [assumption|]. destruct Hp as [y Hy]. apply (Hr p y Hy).
  - rewrite decide_False by congruence. destruct (Hr i x E) as [Hlt Hpar]. split; [lia|].
    intros p Ep. destruct (Hpar p Ep) as [Hs Hd]. pose proof (Hne p Hs).
    rewrite decide_False, lookup_insert_ne by congruence. auto.
Qed.

Lemma alter_ranked (nodes : t) (depth : PowerDomainId -> nat) (c p : PowerDomainId) :
  ranked nodes depth -> ranked (alter (push_child c) p nodes) depth.
Proof.
  intros Hr i x E.
  assert (Hsome : forall q, is_Some (nodes !! q) -> is_Some (alter (push_child c) p nodes !! q)).
  { intros q [y Hy]. rewrite lookup_alter, Hy. case_decide; subst; rewrite ?Hy; eauto. }
  assert (Hsz : size (alter (push_child c) p nodes) = size nodes).
  { rewrite <- !size_dom, dom_alter_L. reflexivity. }
  rewrite Hsz. apply lookup_alter_Some in E as [(-> & y & Ey & ->)|[_ E]].
  - destruct (Hr i y Ey) as [H1 H2]. split; [exact H1|]. intros q Eq. destruct (H2 q Eq). auto.
  - destruct (Hr i x E) as [H1 H2]. split; [exact H1|]. intros q Eq. destruct (H2 q Eq). auto.
Qed.

Lemma built_ranked (nodes : t) : built nodes -> exists depth, ranked nodes depth.
Proof.
  induction 1 as [|nodes nodes' id i ty parent name physical _ [depth IH] Ha].
  { exists (fun _ => O). intros i d. rewrite lookup_empty. discriminate. }
  unfold add in Ha. destruct (negb (is_valid id)); [discriminate|].
  case_bool_decide as Hdup; [discriminate|]. apply eq_None_not_Some in Hdup.
  set (d := PowerDomain.mk id ty parent [] name physical) in *.
  destruct (valid_parent parent) as [p|] eqn:Ep.
  - case_bool_decide as Hp; [|discriminate]. injection Ha as _ <-.
    eexists. apply alter_ranked, (insert_ranked nodes depth d IH Hdup).
    intros q Eq. change (valid_parent parent = Some q) in Eq. congruence.
  - injection Ha as _ <-. eexists. apply (insert_ranked nodes depth d IH Hdup).
    intros q Eq. change (valid_parent parent = Some q) in Eq. congruence.
Qed.

Lemma ancestors_loop_ranked (nodes : t) (depth : PowerDomainId -> nat) : ranked nodes depth ->
  forall fuel c, (forall p, valid_parent c = Some p -> is_Some (nodes !! p) /\ (depth p < fuel)%nat) ->
  exists l, ancestors_loop nodes fuel c = Some l /\ NoDup l /\
    forall a, a ∈ l -> is_Some (nodes !! a) /\ forall p, valid_parent c = Some p -> (depth a <= depth p)%nat.
Proof.
  intros Hr fuel. induction fuel as [|fuel IH]; intros c Hc.
  - destruct (valid_parent c) as [p|] eqn:E; [destruct (Hc p eq_refl) as [_ H]; lia|].
    exists []. cbn. rewrite E. split_and!; [reflexivity|constructor|]. intros a Ha. apply elem_of_nil in Ha as [].
  - cbn [ancestors_loop]. destruct (valid_parent c) as [p|] eqn:E.
    2: { exists []. split_and!; [reflexivity|constructor|]. intros a Ha. apply elem_of_nil in Ha as []. }
    destruct (Hc p eq_refl) as [[d Ed] Hlt]. rewrite Ed. destruct (Hr p d Ed) as [_ Hpar].
    destruct (IH (PowerDomain.parent d)) as (l & El & Hnd & Hin).
    { intros q Eq. destruct (Hpar q Eq). split; [assumption|lia]. }
    rewrite El. exists (p :: l). split; [reflexivity|].
    assert (Hdeep : forall a, a ∈ l -> (depth a < depth p)%nat).
    { intros a Ha. destruct (Hin a Ha) as [_ Hle]. destruct (valid_parent (PowerDomain.parent d)) as [q|] eqn:Eq.
      - destruct (Hpar q eq_refl). specialize (Hle q eq_refl). lia.
      - destruct fuel; cbn in El; rewrite Eq in El; injection El as <-; apply elem_of_nil in Ha as []. }
    split.
    + apply NoDup_cons. split; [|assumption]. intros Ha. apply Hdeep in Ha. lia.
    + intros a Ha. apply elem_of_cons in Ha as [->|Ha].
      * split; [eauto|]. intros q [= <-]. lia.
      * split; [apply (Hin a Ha)|]. intros q [= <-]. apply Hdeep in Ha. lia.
Qed.
End PowerDomainTree.
Import PowerDomainTree.

(** C40: on every tree the program can build, whatever is added and rejected,
    the walk of [ancestors] from any node ends within as many turns as there
    are nodes; it lists existing domains, each once, and not the node itself. *)
Theorem ancestors_terminate (nodes : t) (id : PowerDomainId) :
  built nodes -> is_Some (nodes !! id) ->
  exists l, ancestors nodes id = Ret (Some l) /\ NoDup (id :: l) /\ forall a, a ∈ l -> is_Some (nodes !! a).
Proof.
  intros Hb [d Ed]. destruct (built_ranked nodes Hb) as [depth Hr]. destruct (Hr id d Ed) as [_ Hpar].
  destruct (ancestors_loop_ranked nodes depth Hr (size nodes) (PowerDomain.parent d)) as (l & El & Hnd & Hin).
  { intros p Ep. destruct (Hpar p Ep) as [[x Ex] _]. split; [eauto|]. apply (Hr p x Ex). }
  exists l. unfold ancestors. rewrite Ed, El. split; [reflexivity|]. split; [|intros a Ha; apply (Hin a Ha)].
  apply NoDup_cons. split; [|assumption]. intros Ha. destruct (Hin id Ha) as [_ Hle].
  destruct (valid_parent (PowerDomain.parent d)) as [p|] eqn:Ep.
  - destruct (Hpar p eq_refl). specialize (Hle p eq_refl). lia.
  - destruct (size nodes); cbn in El; rewrite Ep in El; injection El as <-; apply elem_of_nil in Ha as [].
Qed.

Definition sample_tree : t :=
  match (let! (_, m) := add ∅ (mkId 1) FLEET None "fleet" false in
         let! (_, m) := add m (mkId 2) RACK (Some (mkId 1)) "rack" false in
         let! (_, m) := add m (mkId 3) NODE (Some (mkId 2)) "node" true in Ret m) with
  | Ret m => m
  | _ => ∅
  end.

Lemma sample_tree_built : built sample_tree.
Proof.
  unfold sample_tree. cbn [obind].
  refine (built_add _ _ (mkId 3) (mkId 3) NODE (Some (mkId 2)) "node" true _ _);
    [refine (built_add _ _ (mkId 2) (mkId 2) RACK (Some (mkId 1)) "rack" false _ _);
      [refine (built_add _ _ (mkId 1) (mkId 1) FLEET None "fleet" false built_empty _)|]|];
    vm_compute; reflexivity.
Qed.

Lemma ancestors_terminate_witness :
  exists l, ancestors sample_tree (mkId 3) = Ret (Some l) /\ NoDup (mkId 3 :: l) /\
    forall a, a ∈ l -> is_Some (sample_tree !! a).
Proof.
  apply (ancestors_terminate sample_tree (mkId 3)); [apply sample_tree_built|]. vm_compute. eauto.
Defined.

(** A domain cannot be its own parent: it does not exist when it is added. *)
Lemma self_parent_rejected (nodes : t) (id : PowerDomainId) (ty : PowerDomainType) (name : string) (physical : bool) :
  is_valid id = true -> forall r, add nodes id ty (Some id) name physical <> Ret r.
Proof.
  intros Hid r. unfold add, valid_parent. rewrite Hid. cbn. case_bool_decide; discriminate.
Qed.
