(* ===== verification/Backend.v ===== *)
(** * Control backends (backend.hpp)

    The interface of a backend and the deterministic synthetic backend.  The
    backend over the NVIDIA driver is in [CudaBackend.v]. *)
From S2P Require Import Prelude Binary64 Units Ids Clock Energy.
Local Open Scope Z_scope.

Inductive CapabilityStatus := SUPPORTED | UNAVAILABLE | PERMISSION_DENIED.
Inductive ControlResult := APPLIED | NOT_APPLIED | UNSUPPORTED | RESULT_PERMISSION_DENIED | FAILED.

#[export] Instance ControlResult_eq_dec : EqDecision ControlResult.
Proof. solve_decision. Defined.

Definition capability_to_string (s : CapabilityStatus) : string :=
  match s with
  | SUPPORTED => "SUPPORTED"
  | UNAVAILABLE => "UNAVAILABLE"
  | PERMISSION_DENIED => "PERMISSION_DENIED"
  end.

Definition control_to_string (r : ControlResult) : string :=
  match r with
  | APPLIED => "APPLIED"
  | NOT_APPLIED => "NOT_APPLIED"
  | UNSUPPORTED => "UNSUPPORTED"
  | RESULT_PERMISSION_DENIED => "PERMISSION_DENIED"
  | FAILED => "FAILED"
  end.

Record BackendCapabilities := mkCapabilities {
  cap_power_observe : CapabilityStatus;
  cap_power_control : CapabilityStatus;
  cap_temperature : CapabilityStatus;
  cap_clocks : CapabilityStatus;
  cap_utilization : CapabilityStatus;
  cap_energy : CapabilityStatus;
  cap_throttle_reasons : CapabilityStatus }.

Record BackendSample := mkSample {
  smp_power : option Watts;
  smp_temperature : option Celsius;
  smp_sm_clock : option FrequencyMhz;
  smp_mem_clock : option FrequencyMhz;
  smp_utilization : option Utilization;
  smp_energy_total : option Joules;
  smp_power_limit : option Watts;
  smp_throttled : bool;
  smp_throttle_reasons : list string;
  smp_provenance : EnergyProvenance;
  smp_source : string }.

Definition is_some {A : Type} (o : option A) : bool := match o with Some _ => true | None => false end.

Definition any_present (s : BackendSample) : bool :=
  is_some (smp_power s) || is_some (smp_temperature s) || is_some (smp_sm_clock s) || is_some (smp_mem_clock s)
  || is_some (smp_utilization s) || is_some (smp_energy_total s) || is_some (smp_power_limit s).

(** The interface the governor holds its backends by. *)
Class ControlBackend (B : Type) := {
  capabilities : B -> BackendCapabilities;
  backend_name : B -> string;
  sample : B -> outcome (BackendSample * B);
  set_power_limit : B -> option Watts -> outcome (ControlResult * B);
  restore_power_limit : B -> outcome (ControlResult * B);
  applied_limit : B -> option Watts }.

(** What the interface promises about control: a limit reported APPLIED is the
    limit in force, and a failed request changes nothing in force. *)
Class ControlLaws (B : Type) `{ControlBackend B} := {
  applied_in_force : forall b b' l, set_power_limit b l = Ret (APPLIED, b') -> applied_limit b' = l;
  failed_unchanged : forall b b' l, set_power_limit b l = Ret (FAILED, b') -> applied_limit b' = applied_limit b;
  restored_none : forall b b', restore_power_limit b = Ret (APPLIED, b') -> applied_limit b' = None }.

Module FakeBackend.
Record t := mk {
  power_ : option Watts;
  temp_ : option Celsius;
  sm_ : option FrequencyMhz;
  mem_ : option FrequencyMhz;
  util_ : option Utilization;
  energy_ : option Joules;
  applied_ : option Watts;
  throttled_ : bool;
  reasons_ : list string;
  synthetic_ : bool }.

Definition init : t := mk None None None None None None None false [] true.

Definition caps : BackendCapabilities :=
  mkCapabilities SUPPORTED SUPPORTED SUPPORTED SUPPORTED SUPPORTED SUPPORTED UNAVAILABLE.

Definition set_power (w : Watts) (b : t) : t :=
  mk (Some w) (temp_ b) (sm_ b) (mem_ b) (util_ b) (energy_ b) (applied_ b) (throttled_ b) (reasons_ b) (synthetic_ b).
Definition set_temperature (c : Celsius) (b : t) : t :=
  mk (power_ b) (Some c) (sm_ b) (mem_ b) (util_ b) (energy_ b) (applied_ b) (throttled_ b) (reasons_ b) (synthetic_ b).
Definition set_sm_clock (c : FrequencyMhz) (b : t) : t :=
  mk (power_ b) (temp_ b) (Some c) (mem_ b) (util_ b) (energy_ b) (applied_ b) (throttled_ b) (reasons_ b) (synthetic_ b).
Definition set_mem_clock (c : FrequencyMhz) (b : t) : t :=
  mk (power_ b) (temp_ b) (sm_ b) (Some c) (util_ b) (energy_ b) (applied_ b) (throttled_ b) (reasons_ b) (synthetic_ b).
Definition set_utilization (u : Utilization) (b : t) : t :=
  mk (power_ b) (temp_ b) (sm_ b) (mem_ b) (Some u) (energy_ b) (applied_ b) (throttled_ b) (reasons_ b) (synthetic_ b).
Definition set_energy_total (j : Joules) (b : t) : t :=
  mk (power_ b) (temp_ b) (sm_ b) (mem_ b) (util_ b) (Some j) (applied_ b) (throttled_ b) (reasons_ b) (synthetic_ b).
Definition set_synthetic_provenance (x : bool) (b : t) : t :=
  mk (power_ b) (temp_ b) (sm_ b) (mem_ b) (util_ b) (energy_ b) (applied_ b) (throttled_ b) (reasons_ b) x.
Definition set_throttled (x : bool) (l : list string) (b : t) : t :=
  mk (power_ b) (temp_ b) (sm_ b) (mem_ b) (util_ b) (energy_ b) (applied_ b) x l (synthetic_ b).
Definition set_applied (l : option Watts) (b : t) : t :=
  mk (power_ b) (temp_ b) (sm_ b) (mem_ b) (util_ b) (energy_ b) l (throttled_ b) (reasons_ b) (synthetic_ b).

Definition take_sample (b : t) : BackendSample :=
  mkSample (power_ b) (temp_ b) (sm_ b) (mem_ b) (util_ b) (energy_ b) (applied_ b) (throttled_ b) (reasons_ b)
    (if synthetic_ b then DERIVED else MEASURED) "fake".

Definition set_limit (b : t) (limit : option Watts) : ControlResult * t :=
  match limit with
  | Some w =>
      if negb (isfinite (value w)) || (value w <=? 0)%float then (FAILED, b)
      else (APPLIED, set_applied limit b)
  | None => (APPLIED, set_applied None b)
  end.
End FakeBackend.

#[export] Instance FakeBackend_control : ControlBackend FakeBackend.t := {
  capabilities _ := FakeBackend.caps;
  backend_name _ := "fake";
  sample b := Ret (FakeBackend.take_sample b, b);
  set_power_limit b limit := Ret (FakeBackend.set_limit b limit);
  restore_power_limit b := Ret (APPLIED, FakeBackend.set_applied None b);
  applied_limit := FakeBackend.applied_ }.

#[export, refine] Instance FakeBackend_laws : ControlLaws FakeBackend.t := {}.
Proof.
  - intros b b' [w|]; cbn; [destruct (_ || _); [discriminate|]|]; intros [= <-]; reflexivity.
  - intros b b' [w|]; cbn; [destruct (_ || _); [|discriminate]|discriminate]. intros [= <-]. reflexivity.
  - intros b b' [= <-]. reflexivity.
Defined.
