(* ===== verification/CudaBackend.v ===== *)
(** * The NVIDIA backend (backend_cuda.hpp, nvidia_cuda_backend.cpp, pg_cuda_backend.cu)

    [Probe] is the bounded workload: a kernel launched over a grid of threads, checked
    against the host.  [NvidiaCudaBackend] is the control backend over NVML.  The CUDA
    runtime, the NVML library and the single-precision arithmetic are arguments: the
    model is what the backend does with them. *)
From S2P Require Import Prelude Rounding Binary64 Milli Util Units Energy Backend.
Local Open Scope Z_scope.
#[local] Set Warnings "-inexact-float".

Record CudaProbeResult := mkProbe {
  pr_ok : bool;
  pr_device_count : Z;
  pr_compute_major : Z;
  pr_compute_minor : Z;
  pr_free_bytes : Z;
  pr_total_bytes : Z;
  pr_elapsed_seconds : double;
  pr_verified : bool;
  pr_uuid_low : Z;
  pr_uuid_high : Z;
  pr_name : string }.
Definition no_probe : CudaProbeResult := mkProbe false 0 0 0 0 0 0 false 0 0 EmptyString.

Module Probe.
(** What the CUDA runtime answers, in the order of the calls; [None] is a failure. *)
Record CudaProp := mkProp { prop_major : Z; prop_minor : Z; prop_name : string; prop_uuid : list Z }.
Record CudaRuntime := mkRuntime {
  rt_device_count : option Z;
  rt_properties : option CudaProp;
  rt_free : Z;
  rt_total : Z;
  rt_malloc_x : bool;
  rt_malloc_y : bool;
  rt_elapsed_ms : double }.

(** [for (i..) low = (low << 8) | bytes[i]], on 64 bits: a byte is a [char] of the
    identifier of the device, which the conversion to 64 bits extends by its sign. *)
Definition pack_bytes (l : list Z) : Z := fold_left (fun acc b => u64 (Z.lor (Z.shiftl acc 8) b)) l 0.

Definition threads : Z := 256.
(** [(n + threads - 1) / threads], in [int]. *)
Definition blocks_for (n : Z) : outcome Z :=
  let last := n + threads - 1 in
  if last <? 2 ^ 31 then Ret (last / threads) else Undefined.

(** The threads of a launch: their block and their index in it. *)
Definition range (k : Z) : list Z := Z.of_nat <$> seq 0 (Z.to_nat k).
Definition grid (blocks : Z) : list (Z * Z) := b ← range blocks; t ← range threads; [(b, t)].

Section Kernel.
(** Single-precision values; [a * x + y] as the host and as the device compute it;
    the input [0.0001f * (i % 97)] and [0.25f]; and the test of the verification,
    that two values do not differ by more than [1e-4f]. *)
Context {F : Type} (host_axpy dev_axpy : F -> F -> F) (x_at : Z -> F) (y_at : F) (close : F -> F -> bool).

Definition thread_index (p : Z * Z) : Z := p.1 * threads + p.2.

(** [pg_saxpy], on the memory of the device. *)
Definition pg_saxpy (n : Z) (x : list F) (y : list F) (p : Z * Z) : list F :=
  let i := thread_index p in
  if i <? n then
    match x !! Z.to_nat i, y !! Z.to_nat i with
    | Some xi, Some yi => <[Z.to_nat i := dev_axpy xi yi]> y
    | _, _ => y
    end
  else y.

(** The launch: every thread of the grid, in the order the device runs them. *)
Definition launch (schedule : list (Z * Z)) (n : Z) (x y : list F) : list F := fold_left (pg_saxpy n x) schedule y.

Definition inputs (n : Z) : list F := x_at <$> range n.
Definition outputs (n : Z) : list F := replicate (Z.to_nat n) y_at.
Definition reference (x y : list F) : list F := zip_with host_axpy x y.
Definition verify (yh yref : list F) : bool := forallb (fun p => close p.1 p.2) (zip yh yref).

(** The calls whose result the probe never looks at: the two copies to the device, the
    launch with its synchronisation, and the copy back.  [None] is a success; after a
    failure the memory that the call had to fill holds something, here a function of
    the position. *)
Record Transfers := mkTransfers {
  tr_copy_x : option (Z -> F);
  tr_copy_y : option (Z -> F);
  tr_kernel : option (Z -> F);
  tr_copy_back : option (Z -> F) }.

Definition transfer (failed : option (Z -> F)) (n : Z) (data : list F) : list F :=
  match failed with None => data | Some memory => memory <$> range n end.

Definition set_identity (count : Z) (r : CudaProbeResult) : CudaProbeResult :=
  mkProbe (pr_ok r) count (pr_compute_major r) (pr_compute_minor r) (pr_free_bytes r) (pr_total_bytes r)
    (pr_elapsed_seconds r) (pr_verified r) (pr_uuid_low r) (pr_uuid_high r) (pr_name r).
(** [snprintf] into 256 characters keeps 255. *)
Definition set_properties (p : CudaProp) (rt : CudaRuntime) (r : CudaProbeResult) : CudaProbeResult :=
  mkProbe (pr_ok r) (pr_device_count r) (prop_major p) (prop_minor p) (rt_free rt) (rt_total rt)
    (pr_elapsed_seconds r) (pr_verified r) (pack_bytes (take 8 (prop_uuid p))) (pack_bytes (take 8 (drop 8 (prop_uuid p))))
    (String.substring 0 255 (prop_name p)).
Definition set_result (elapsed : double) (verified : bool) (r : CudaProbeResult) : CudaProbeResult :=
  mkProbe true (pr_device_count r) (pr_compute_major r) (pr_compute_minor r) (pr_free_bytes r) (pr_total_bytes r)
    elapsed verified (pr_uuid_low r) (pr_uuid_high r) (pr_name r).

(** [pg_rtx_probe]: the answer, and what was written to [*out] ([old] when the call
    returns before it clears it).  The results of [cudaMemGetInfo] and of
    [cudaEventElapsedTime] are not looked at either: [rt_free], [rt_total] and
    [rt_elapsed_ms] are what the variables hold after the calls. *)
Definition pg_rtx_probe (rt : CudaRuntime) (tr : Transfers) (schedule : Z -> list (Z * Z)) (n : Z) (old : CudaProbeResult)
  : outcome (bool * CudaProbeResult) :=
  if n <=? 0 then Ret (false, old) else
  let r := no_probe in
  match rt_device_count rt with
  | None => Ret (false, r)
  | Some count =>
      if count <=? 0 then Ret (false, r) else
      let r := set_identity count r in
      match rt_properties rt with
      | None => Ret (false, r)
      | Some p =>
          let r := set_properties p rt r in
          if negb (rt_malloc_x rt) then Ret (false, r)
          else if negb (rt_malloc_y rt) then Ret (false, r)
          else
            let x := inputs n in
            let y := outputs n in
            let yref := reference x y in
            let x_d := transfer (tr_copy_x tr) n x in
            let y_d := transfer (tr_copy_y tr) n y in
            let! blocks := blocks_for n in
            let y_d := transfer (tr_kernel tr) n (launch (schedule blocks) n x_d y_d) in
            let yh := transfer (tr_copy_back tr) n y_d in
            Ret (true, set_result (rt_elapsed_ms rt / 1000)%float (verify yh yref) r)
      end
  end.

(** [NvidiaCudaBackend::run_probe] drops the answer. *)
Definition run_probe (rt : CudaRuntime) (tr : Transfers) (schedule : Z -> list (Z * Z)) (n : Z) : outcome CudaProbeResult :=
  let! r := pg_rtx_probe rt tr schedule n no_probe in Ret r.2.
End Kernel.
Arguments Transfers : clear implicits.

(** No call fails. *)
Definition delivered {F : Type} : Transfers F := mkTransfers None None None None.

(** A byte above 127 is negative as a signed [char], and erases the bytes before it. *)
Lemma negative_byte_erases : pack_bytes [0x12; 0x34; -1; 0x56] = 2 ^ 64 - 0x100 + 0x56.
Proof. vm_compute. reflexivity. Qed.

(** ** The grid covers every element once *)
Lemma range_lookup (k i : Z) : 0 <= i < k -> range k !! Z.to_nat i = Some i.
Proof. intros H. unfold range. rewrite list_lookup_fmap, lookup_seq_lt by lia. cbn. f_equal. lia. Qed.

Lemma range_elem (k i : Z) : i ∈ range k <-> 0 <= i < k.
Proof.
  unfold range. rewrite list_elem_of_fmap. split; [intros (j & -> & Hj); rewrite elem_of_seq in Hj; lia|].
  intros Hi. exists (Z.to_nat i). rewrite elem_of_seq. lia.
Qed.

Lemma range_nodup (k : Z) : NoDup (range k).
Proof. apply NoDup_fmap_2; [intros a b H; lia|apply NoDup_seq]. Qed.

Lemma grid_elem (blocks b t : Z) : (b, t) ∈ grid blocks <-> 0 <= b < blocks /\ 0 <= t < threads.
Proof.
  unfold grid. rewrite list_elem_of_bind. split.
  - intros (b' & H & Hb). apply list_elem_of_bind in H as (t' & H & Ht). apply list_elem_of_singleton in H as [= -> ->].
    rewrite range_elem in *. auto.
  - intros [Hb Ht]. exists b. rewrite range_elem. split; [|exact Hb]. apply list_elem_of_bind. exists t.
    rewrite range_elem. split; [apply list_elem_of_singleton; reflexivity|exact Ht].
Qed.

Lemma grid_nodup (blocks : Z) : NoDup (grid blocks).
Proof.
  unfold grid. apply NoDup_bind.
  - intros b b' [i j] _ _ H H'. apply list_elem_of_bind in H as (t & H & _), H' as (t' & H' & _).
    apply list_elem_of_singleton in H as [= -> ->], H' as [= -> ->]. reflexivity.
  - intros b _. apply NoDup_bind; [|intros; apply NoDup_singleton|apply range_nodup].
    intros t t' q _ _ H H'. apply list_elem_of_singleton in H as ->, H' as [= ->]. reflexivity.
  - apply range_nodup.
Qed.

(** Distinct threads of the grid have distinct indices. *)
Lemma index_inj (blocks : Z) (p q : Z * Z) : p ∈ grid blocks -> q ∈ grid blocks -> thread_index p = thread_index q -> p = q.
Proof.
  destruct p as [b t], q as [b' t']. rewrite !grid_elem. unfold thread_index, threads. cbn [fst snd]. intros. f_equal; lia.
Qed.

Lemma grid_covers (n blocks i : Z) : blocks_for n = Ret blocks -> 0 <= i < n ->
  exists p, p ∈ grid blocks /\ thread_index p = i.
Proof.
  unfold blocks_for. destruct (_ <? _); [|discriminate]. intros [= <-] Hi. exists (i / threads, i mod threads).
  unfold thread_index, threads. cbn [fst snd]. rewrite grid_elem. unfold threads.
  pose proof (Z_div_mod_eq_full i 256). pose proof (Z.mod_pos_bound i 256 ltac:(lia)). split; [|lia]. split; [|lia].
  split; [apply Z.div_pos; lia|]. apply Z.div_lt_upper_bound; [lia|].
  pose proof (Z.mul_succ_div_gt (n + 256 - 1) 256 ltac:(lia)). lia.
Qed.

Section Coverage.
Context {F : Type} (dev_axpy : F -> F -> F).

Lemma saxpy_length (n : Z) (x y : list F) (p : Z * Z) : length (pg_saxpy dev_axpy n x y p) = length y.
Proof. unfold pg_saxpy. repeat case_match; try reflexivity. apply length_insert. Qed.

Lemma saxpy_other (n : Z) (x y : list F) (p : Z * Z) (i : nat) : Z.to_nat (thread_index p) <> i ->
  pg_saxpy dev_axpy n x y p !! i = y !! i.
Proof. intros Hi. unfold pg_saxpy. repeat case_match; try reflexivity. apply list_lookup_insert_ne, Hi. Qed.

(** An element is computed from the inputs when its thread has run, and is as it was
    until then. *)
Lemma launch_lookup (n : Z) (x y : list F) (schedule : list (Z * Z)) (i : nat) (xi yi : F) :
  NoDup (thread_index <$> schedule) -> x !! i = Some xi -> y !! i = Some yi -> Z.of_nat i < n ->
  Forall (fun p => 0 <= thread_index p) schedule ->
  launch dev_axpy schedule n x y !! i = Some (if decide (Z.of_nat i ∈ thread_index <$> schedule) then dev_axpy xi yi else yi).
Proof.
  unfold launch. revert y yi. induction schedule as [|p schedule IH]; intros y yi Hd Hx Hy Hi Hpos; cbn [fold_left fmap list_fmap].
  { rewrite decide_False by apply not_elem_of_nil. exact Hy. }
  apply NoDup_cons in Hd as [Hp Hd]. apply Forall_cons_1 in Hpos as [Hp0 Hpos].
  destruct (decide (thread_index p = Z.of_nat i)) as [E|E].
  - rewrite decide_True by (rewrite <- E; left).
    assert (Ey : pg_saxpy dev_axpy n x y p !! i = Some (dev_axpy xi yi)).
    { unfold pg_saxpy. rewrite E, Nat2Z.id, Hx, Hy. destruct (Z.ltb_spec (Z.of_nat i) n); [|lia].
      apply list_lookup_insert_eq. apply lookup_lt_Some in Hy. exact Hy. }
    rewrite (IH _ _ Hd Hx Ey Hi Hpos), decide_False by (rewrite <- E; exact Hp). reflexivity.
  - assert (Ey : pg_saxpy dev_axpy n x y p !! i = Some yi).
    { rewrite saxpy_other by lia. exact Hy. }
    rewrite (IH _ _ Hd Hx Ey Hi Hpos). f_equal. apply decide_ext. rewrite elem_of_cons. intuition congruence.
Qed.

Lemma launch_length (n : Z) (x y : list F) (schedule : list (Z * Z)) : length (launch dev_axpy schedule n x y) = length y.
Proof. unfold launch. revert y. induction schedule as [|p l IH]; intros y; cbn; [reflexivity|]. rewrite IH. apply saxpy_length. Qed.

Lemma launch_schedule (xs ys : Z -> F) (n blocks : Z) (schedule : list (Z * Z)) :
  blocks_for n = Ret blocks -> schedule ≡ₚ grid blocks ->
  launch dev_axpy schedule n (xs <$> range n) (ys <$> range n) = (fun i => dev_axpy (xs i) (ys i)) <$> range n.
Proof.
  intros Hb Hs. assert (Hpos : Forall (fun p => 0 <= thread_index p) schedule).
  { apply Forall_forall. intros [b t]. rewrite Hs, grid_elem. unfold thread_index, threads. cbn [fst snd]. lia. }
  assert (Hd : NoDup (thread_index <$> schedule)).
  { rewrite Hs. apply NoDup_fmap_2_strong; [intros p q Hp Hq; apply (index_inj blocks); assumption|apply grid_nodup]. }
  apply list_eq_same_length with (n := length (range n)).
  - rewrite length_fmap. reflexivity.
  - rewrite launch_length, length_fmap. reflexivity.
  - intros i a b Hi Ha Hb'. unfold range in Hi. rewrite length_fmap, length_seq in Hi.
    assert (Hr : range n !! i = Some (Z.of_nat i)) by (rewrite <- (Nat2Z.id i) at 1; apply range_lookup; lia).
    rewrite list_lookup_fmap, Hr in Hb'. injection Hb' as <-.
    rewrite (launch_lookup n _ _ schedule i (xs (Z.of_nat i)) (ys (Z.of_nat i))) in Ha; try assumption; try lia.
    + rewrite decide_True in Ha; [congruence|]. destruct (grid_covers n blocks (Z.of_nat i) Hb ltac:(lia)) as (p & Hp & E).
      rewrite <- E. apply list_elem_of_fmap_2. rewrite Hs. exact Hp.
    + rewrite list_lookup_fmap, Hr. reflexivity.
    + rewrite list_lookup_fmap, Hr. reflexivity.
Qed.
End Coverage.

Lemma outputs_range {F : Type} (y_at : F) (n : Z) : outputs y_at n = (fun _ => y_at) <$> range n.
Proof.
  unfold outputs. replace (Z.to_nat n) with (length (range n)) by (unfold range; rewrite length_fmap, length_seq; reflexivity).
  induction (range n) as [|i l IH]; [reflexivity|]. cbn [length replicate fmap list_fmap]. f_equal. exact IH.
Qed.

(** The comparison with the reference is element by element. *)
Lemma verify_pointwise {F : Type} (host : F -> F -> F) (x_at : Z -> F) (y_at : F) (close : F -> F -> bool) (got : Z -> F) (n : Z) :
  verify close (got <$> range n) (reference host (inputs x_at n) (outputs y_at n)) =
  forallb (fun i => close (got i) (host (x_at i) y_at)) (range n).
Proof.
  unfold verify, reference, inputs. rewrite outputs_range.
  induction (range n) as [|i l IH]; [reflexivity|]. cbn [fmap list_fmap zip_with zip forallb fst snd]. f_equal. exact IH.
Qed.

(** What an element of the memory is: what a failed call left there, or the data. *)
Definition left_by {F : Type} (failed : option (Z -> F)) (data : Z -> F) (i : Z) : F :=
  match failed with None => data i | Some memory => memory i end.

Lemma transfer_range {F : Type} (failed : option (Z -> F)) (n : Z) (data : Z -> F) :
  transfer failed n (data <$> range n) = left_by failed data <$> range n.
Proof. destruct failed; reflexivity. Qed.

(** The element that the host compares. *)
Definition computed {F : Type} (dev : F -> F -> F) (x_at : Z -> F) (y_at : F) (tr : Transfers F) : Z -> F :=
  left_by (tr_copy_back tr) (left_by (tr_kernel tr) (fun i =>
    dev (left_by (tr_copy_x tr) x_at i) (left_by (tr_copy_y tr) (fun _ => y_at) i))).

(** A device with its properties, and memory for both arrays. *)
Definition usable (rt : CudaRuntime) : bool :=
  match rt_device_count rt, rt_properties rt with Some count, Some _ => 0 <? count | _, _ => false end
  && rt_malloc_x rt && rt_malloc_y rt.

Section Probed.
Context {F : Type} (host dev : F -> F -> F) (x_at : Z -> F) (y_at : F) (close : F -> F -> bool).
Context (rt : CudaRuntime) (tr : Transfers F) (schedule : Z -> list (Z * Z)) (n : Z) (old : CudaProbeResult).
Context (Hs : forall blocks, schedule blocks ≡ₚ grid blocks) (Hn : 0 < n).

Definition verdict_of_probe : bool := forallb (fun i => close (computed dev x_at y_at tr i) (host (x_at i) y_at)) (range n).

Lemma blocks_for_fits : n + 255 < 2 ^ 31 -> blocks_for n = Ret ((n + 255) / 256).
Proof.
  intros H. unfold blocks_for, threads. replace (n + 256 - 1) with (n + 255) by lia.
  replace (n + 255 <? 2 ^ 31) with true by lia. reflexivity.
Qed.

(** A usable runtime: the whole answer. *)
Lemma probe_usable : usable rt = true -> n + 255 < 2 ^ 31 -> exists count p,
  rt_device_count rt = Some count /\ rt_properties rt = Some p /\
  pg_rtx_probe host dev x_at y_at close rt tr schedule n old =
  Ret (true, set_result (rt_elapsed_ms rt / 1000)%float verdict_of_probe (set_properties p rt (set_identity count no_probe))).
Proof.
  unfold usable, pg_rtx_probe. intros Hu Hmax. replace (n <=? 0) with false by lia.
  apply andb_true_iff in Hu as [Hu Hy]. apply andb_true_iff in Hu as [Hu Hx].
  destruct (rt_device_count rt) as [count|], (rt_properties rt) as [p|]; try discriminate. exists count, p.
  split; [reflexivity|]. split; [reflexivity|]. replace (count <=? 0) with false by lia. rewrite Hx, Hy. cbn [negb].
  rewrite (blocks_for_fits Hmax). cbn [obind]. do 3 f_equal. unfold inputs at 1. rewrite outputs_range at 1. rewrite !transfer_range.
  rewrite (launch_schedule dev _ _ n _ _ (blocks_for_fits Hmax) (Hs _)), !transfer_range. apply verify_pointwise.
Qed.

Lemma probe_unusable : (usable rt && (n + 255 <? 2 ^ 31)) = false ->
  forall r, pg_rtx_probe host dev x_at y_at close rt tr schedule n old <> Ret (true, r).
Proof.
  unfold usable, pg_rtx_probe. intros Hu r. replace (n <=? 0) with false by lia.
  destruct (rt_device_count rt) as [count|]; [|discriminate]. destruct (Z.leb_spec count 0) as [Hc|Hc]; [discriminate|].
  destruct (rt_properties rt) as [p|]; [|discriminate]. destruct (rt_malloc_x rt); [|discriminate].
  destruct (rt_malloc_y rt); [|discriminate]. cbn [negb]. replace (0 <? count) with true in Hu by lia. cbn [andb] in Hu.
  unfold blocks_for, threads. replace (n + 256 - 1 <? 2 ^ 31) with false by lia. discriminate.
Qed.
End Probed.

(** C38: the probe verifies what the device computed, whatever order the threads run in,
    and never notices that a call failed.  For every count of elements up to
    [2^31 - 256] and every order of the threads of the grid, the launch computes each
    element exactly once, from the inputs.  The probe answers true exactly when it finds
    a device with its properties, the memory of both arrays and no overflow in the
    computation of the grid: nothing that the copies and the launch answer has a part in
    it.  What it then reports as verified is whether every element that the host read
    back is within the tolerance of the reference: the result of the kernel where no
    call failed, and otherwise what the failed call left in the memory. *)
Theorem probe_schedule_irrelevant {F : Type} (host dev : F -> F -> F) (x_at : Z -> F) (y_at : F)
    (close : F -> F -> bool) (rt : CudaRuntime) (tr : Transfers F) (schedule : Z -> list (Z * Z)) (n : Z) (old : CudaProbeResult) :
  (forall blocks, schedule blocks ≡ₚ grid blocks) -> 0 < n ->
  let answer := pg_rtx_probe host dev x_at y_at close rt tr schedule n old in
  (forall blocks, blocks_for n = Ret blocks ->
     launch dev (schedule blocks) n (inputs x_at n) (outputs y_at n) = (fun i => dev (x_at i) y_at) <$> range n) /\
  ((exists r, answer = Ret (true, r)) <-> usable rt = true /\ n + 255 < 2 ^ 31) /\
  (forall r, answer = Ret (true, r) -> pr_ok r = true /\
     (pr_verified r = true <-> forall i, 0 <= i < n -> close (computed dev x_at y_at tr i) (host (x_at i) y_at) = true)) /\
  (tr = delivered -> forall i, computed dev x_at y_at tr i = dev (x_at i) y_at) /\
  (forall memory, tr_copy_back tr = Some memory -> forall i, computed dev x_at y_at tr i = memory i).
Proof.
  intros Hs Hn answer.
  assert (Hl : forall blocks, blocks_for n = Ret blocks ->
    launch dev (schedule blocks) n (inputs x_at n) (outputs y_at n) = (fun i => dev (x_at i) y_at) <$> range n).
  { intros blocks Hb. rewrite outputs_range. apply (launch_schedule dev x_at (fun _ => y_at) n blocks _ Hb (Hs blocks)). }
  split; [exact Hl|].
  destruct (usable rt && (n + 255 <? 2 ^ 31)) eqn:Hu.
  - apply andb_true_iff in Hu as [Hu Hmax]. apply Z.ltb_lt in Hmax.
    destruct (probe_usable host dev x_at y_at close rt tr schedule n old Hs Hn Hu Hmax) as (count & p & _ & _ & E).
    fold answer in E. split; [split; [auto|eauto]|]. split.
    + rewrite E. intros r [= <-]. split; [reflexivity|]. cbn [set_result pr_verified]. unfold verdict_of_probe.
      rewrite forallb_forall. setoid_rewrite <- list_elem_of_In. setoid_rewrite range_elem. reflexivity.
    + split; [intros -> i; reflexivity|]. intros memory Hm i. unfold computed. rewrite Hm. reflexivity.
  - pose proof (probe_unusable host dev x_at y_at close rt tr schedule n old Hn Hu) as E. fold answer in E. split.
    + split; [intros [r Hr]; case (E r Hr)|]. intros [H H']. rewrite H in Hu. cbn [andb] in Hu. lia.
    + split; [intros r Hr; case (E r Hr)|]. split; [intros -> i; reflexivity|].
      intros memory Hm i. unfold computed. rewrite Hm. reflexivity.
Qed.

Definition sample_runtime : CudaRuntime :=
  mkRuntime (Some 1) (Some (mkProp 12 0 "device" (range 16))) 10 20 true true 0.5%float.
Definition sample_probe (tr : Transfers Z) : outcome (bool * CudaProbeResult) :=
  pg_rtx_probe (fun x y => 3 * x + 2 * y) (fun x y => 3 * x + 2 * y) (fun i => i mod 97) 1 Z.eqb sample_runtime tr
    (fun blocks => reverse (grid blocks)) 300 no_probe.
Definition sample_result (tr : Transfers Z) : CudaProbeResult := match sample_probe tr with Ret (_, r) => r | _ => no_probe end.
(** A launch that fails, and leaves the inputs where the results were expected. *)
Definition launch_failed : Transfers Z := mkTransfers None None (Some (fun _ => 1)) None.

Lemma probe_schedule_irrelevant_witness :
  pr_verified (sample_result delivered) = true /\ pr_uuid_low (sample_result delivered) = 0x0001020304050607 /\
  pr_ok (sample_result launch_failed) = true /\ pr_verified (sample_result launch_failed) = false /\
  (forall blocks, blocks_for 300 = Ret blocks ->
     launch (fun x y => 3 * x + 2 * y) (reverse (grid blocks)) 300 (inputs (fun i => i mod 97) 300) (outputs 1 300)
     = (fun i => 3 * (i mod 97) + 2 * 1) <$> range 300).
Proof.
  do 4 (split; [vm_compute; reflexivity|]).
  apply (probe_schedule_irrelevant (fun x y => 3 * x + 2 * y) (fun x y => 3 * x + 2 * y) (fun i => i mod 97) 1 Z.eqb
           sample_runtime launch_failed (fun blocks => reverse (grid blocks)) 300 no_probe).
  - intros blocks. apply reverse_Permutation.
  - reflexivity.
Defined.
End Probe.


Module NvidiaCudaBackend.
(** [NvmlBinding]: the entry points found in the library, by the state of the driver
    they act on.  A symbol that is missing is a null pointer.  Devices are handles,
    one of which is null.  The symbols that are looked up and never called
    ([get_name], [get_mem]) are left out. *)
Section Nvml.
Context {N D : Type} (is_null : D -> bool).

Record NvmlBinding := mkBinding {
  nb_loaded : bool;
  nb_init : option (N -> Z * N);
  nb_shutdown : option (N -> N);
  nb_get_handle : option (Z -> N -> Z * D * N);
  nb_get_power : option (D -> N -> Z * Z * N);
  nb_get_temp : option (D -> Z -> N -> Z * Z * N);
  nb_get_clock : option (D -> Z -> N -> Z * Z * N);
  nb_get_util : option (D -> N -> Z * Z * N);
  nb_set_limit : option (D -> Z -> N -> Z * N);
  nb_get_limit : option (D -> N -> Z * Z * N) }.

(** [load]: the symbols of the library, when there is one. *)
Definition load (library : option NvmlBinding) : NvmlBinding :=
  match library with
  | None => mkBinding false None None None None None None None None None
  | Some s => mkBinding true (nb_init s) (nb_shutdown s) (nb_get_handle s) (nb_get_power s) (nb_get_temp s) (nb_get_clock s)
                (nb_get_util s) (nb_set_limit s) (nb_get_limit s)
  end.

(** The members, and the driver behind the binding. *)
Record t := mk {
  caps_ : BackendCapabilities;
  name_ : string;
  compute_major_ : Z;
  compute_minor_ : Z;
  applied_limit_ : option Watts;
  driver : N }.

Definition set_driver (n : N) (x : t) : t := mk (caps_ x) (name_ x) (compute_major_ x) (compute_minor_ x) (applied_limit_ x) n.
Definition set_applied (l : option Watts) (x : t) : t := mk (caps_ x) (name_ x) (compute_major_ x) (compute_minor_ x) l (driver x).

Section Binding.
Context (b : NvmlBinding).

(** A call through a function pointer: through null it is undefined. *)
Definition call_init (n : N) : outcome (Z * N) := match nb_init b with Some f => Ret (f n) | None => Undefined end.

Definition device_name (x : t) : string := name_ x.
Definition is_rtx5090 (x : t) : bool := (compute_major_ x =? 12) && (compute_minor_ x =? 0).

Definition observed (present : bool) : CapabilityStatus := if present then SUPPORTED else UNAVAILABLE.

(** The constructor, given the answer of [pg_rtx_probe(1, &r)]. *)
Definition make (probe : bool * CudaProbeResult) (n : N) : t :=
  let x := mk (mkCapabilities UNAVAILABLE UNAVAILABLE UNAVAILABLE UNAVAILABLE UNAVAILABLE UNAVAILABLE UNAVAILABLE)
             (if probe.1 then pr_name probe.2 else EmptyString) (if probe.1 then pr_compute_major probe.2 else 0)
             (if probe.1 then pr_compute_minor probe.2 else 0) None n in
  match (if nb_loaded b then nb_init b else None) with
  | None => x
  | Some init =>
      let '(rc, n) := init n in
      if negb (rc =? 0) then set_driver n x
      else mk (mkCapabilities (observed (is_some (nb_get_power b)))
                 (observed (is_some (nb_set_limit b) && is_some (nb_get_limit b))) (observed (is_some (nb_get_temp b)))
                 (observed (is_some (nb_get_clock b))) (observed (is_some (nb_get_util b))) UNAVAILABLE UNAVAILABLE)
             (name_ x) (compute_major_ x) (compute_minor_ x) None n
  end.

(** The destructor. *)
Definition destroy (x : t) : N :=
  match (if nb_loaded b then nb_shutdown b else None) with Some f => f (driver x) | None => driver x end.

(** One reading: nothing when the symbol is missing or the call fails. *)
Definition reading (f : option (N -> Z * Z * N)) (n : N) : option Z * N :=
  match f with
  | None => (None, n)
  | Some f => let '(rc, v, n) := f n in (if rc =? 0 then Some v else None, n)
  end.

Definition converted {A : Type} (o : option Z) (k : Z -> outcome A) : outcome (option A) :=
  match o with Some z => let! a := k z in Ret (Some a) | None => Ret None end.

Definition empty_sample : BackendSample := mkSample None None None None None None None false [] Energy.UNKNOWN "nvml".

Definition read_sample (dev : D) (n : N) : outcome (BackendSample * N) :=
  let '(power, n) := reading ((fun f => f dev) <$> nb_get_power b) n in
  let! w := converted power (fun mw => quantity (double_of_Z mw / 1000)%float) in
  let '(temp, n) := reading ((fun f => f dev 0) <$> nb_get_temp b) n in
  let! c := converted temp (fun z => quantity (double_of_Z z)) in
  let '(sm, n) := reading ((fun f => f dev 0) <$> nb_get_clock b) n in
  let! smc := converted sm (fun z => quantity (double_of_Z z)) in
  let '(mem, n) := reading ((fun f => f dev 1) <$> nb_get_clock b) n in
  let! memc := converted mem (fun z => quantity (double_of_Z z)) in
  let '(util, n) := reading ((fun f => f dev) <$> nb_get_util b) n in
  let! u := converted util (fun g => let x := (double_of_Z g / 100)%float in quantity (if (x <? 1)%float then x else 1%float)) in
  let '(lim, n) := reading ((fun f => f dev) <$> nb_get_limit b) n in
  let! l := converted lim (fun mw => quantity (double_of_Z mw / 1000)%float) in
  Ret (mkSample w c smc memc u None l false [] (if is_some power then MEASURED else Energy.UNKNOWN) "nvml", n).

Definition sample (x : t) : outcome (BackendSample * t) :=
  match (if nb_loaded b then nb_init b else None) with
  | None => Ret (empty_sample, x)
  | Some init =>
      let '(rc, n) := init (driver x) in
      if negb (rc =? 0) then Ret (empty_sample, set_driver n x) else
      match nb_get_handle b with
      | None => Ret (empty_sample, set_driver n x)
      | Some get_handle =>
          let '(rc, dev, n) := get_handle 0 n in
          if negb (rc =? 0) || is_null dev then Ret (empty_sample, set_driver n x)
          else let! r := read_sample dev n in Ret (r.1, set_driver r.2 x)
      end
  end.

(** What [set_power_limit] and [restore_power_limit] do first: a result that ends the
    call, or the device. *)
Definition open_device (x : t) : outcome ((ControlResult + D) * t) :=
  let! r := call_init (driver x) in
  let '(rc, n) := r in
  if negb (rc =? 0) then Ret (inl FAILED, set_driver n x) else
  match nb_get_handle b with
  | None => Ret (inl RESULT_PERMISSION_DENIED, set_driver n x)
  | Some get_handle =>
      let '(rc, dev, n) := get_handle 0 n in
      Ret (if negb (rc =? 0) then inl RESULT_PERMISSION_DENIED else inr dev, set_driver n x)
  end.

(** [static_cast<unsigned int>(w * 1000.0)]; out of range it is undefined. *)
Definition milliwatts (w : double) : outcome Z :=
  match truncate (w * 1000)%float with
  | Some z => if (0 <=? z) && (z <? 2 ^ 32) then Ret z else Undefined
  | None => Undefined
  end.

Definition set_power_limit (x : t) (limit : option Watts) : outcome (ControlResult * t) :=
  match nb_set_limit b with
  | None => Ret (UNSUPPORTED, x)
  | Some set_limit =>
      let! r := open_device x in
      match r with
      | (inl res, x) => Ret (res, x)
      | (inr dev, x) =>
          match limit with
          | Some q =>
              let w := value q in
              if negb (isfinite w) || (w <=? 0)%float then Ret (FAILED, x)
              else if (999 <? w)%float || (w <? 1)%float then Ret (FAILED, x)
              else
                let! mw := milliwatts w in
                let '(rc, n) := set_limit dev mw (driver x) in
                let x := set_driver n x in
                if rc =? 0 then Ret (APPLIED, set_applied limit x)
                else if negb (Z.land (u32 rc) 16 =? 0) then Ret (RESULT_PERMISSION_DENIED, x)
                else Ret (FAILED, x)
          | None => Ret (APPLIED, set_applied None x)
          end
      end
  end.

Definition restore_power_limit (x : t) : outcome (ControlResult * t) :=
  if negb (is_some (nb_set_limit b) && is_some (nb_get_limit b)) then Ret (UNSUPPORTED, x)
  else
    let! r := open_device x in
    match r with
    | (inl res, x) => Ret (res, x)
    | (inr _, x) => Ret (APPLIED, set_applied None x)
    end.
End Binding.

(** ** The interface of a backend *)
Definition control (b : NvmlBinding) : ControlBackend t := {|
  capabilities := caps_;
  backend_name _ := "cuda/nvml"%string;
  Backend.sample := sample b;
  Backend.set_power_limit := set_power_limit b;
  Backend.restore_power_limit := restore_power_limit b;
  applied_limit := applied_limit_ |}.

Lemma open_device_applied (b : NvmlBinding) (x x' : t) (r : ControlResult + D) :
  open_device b x = Ret (r, x') -> applied_limit_ x' = applied_limit_ x /\ r <> inl APPLIED.
Proof.
  unfold open_device, call_init. destruct (nb_init b) as [init|]; [|discriminate]. cbn [obind].
  destruct (init (driver x)) as [rc n]. destruct (negb _); [intros [= <- <-]; split; [reflexivity|discriminate]|].
  destruct (nb_get_handle b) as [gh|]; [|intros [= <- <-]; split; [reflexivity|discriminate]].
  destruct (gh 0 n) as [[rc2 dev] n2]. intros [= <- <-]. split; [reflexivity|]. destruct (negb _); discriminate.
Qed.

(** What a request can do to the limit the backend reports. *)
Lemma set_power_limit_applied (b : NvmlBinding) (x x' : t) (l : option Watts) (r : ControlResult) :
  set_power_limit b x l = Ret (r, x') -> applied_limit_ x' = if bool_decide (r = APPLIED) then l else applied_limit_ x.
Proof.
  unfold set_power_limit. destruct (nb_set_limit b) as [sl|]; [|intros [= <- <-]; reflexivity].
  intros H. apply obind_Ret in H as ([o x1] & Ho & H). apply open_device_applied in Ho as [Ex Hne].
  destruct o as [res|dev].
  { injection H as <- <-. rewrite bool_decide_false by congruence. exact Ex. }
  destruct l as [q|]; [|injection H as <- <-; reflexivity].
  destruct (_ || _); [injection H as <- <-; exact Ex|]. destruct (_ || _); [injection H as <- <-; exact Ex|].
  apply obind_Ret in H as (mw & _ & H). destruct (sl dev mw (driver x1)) as [rc n].
  destruct (rc =? 0); [injection H as <- <-; reflexivity|]. destruct (negb _); injection H as <- <-; exact Ex.
Qed.

Lemma nvml_laws (b : NvmlBinding) : @ControlLaws t (control b).
Proof.
  split; cbn.
  - intros x x' l H. apply set_power_limit_applied in H. exact H.
  - intros x x' l H. apply set_power_limit_applied in H. exact H.
  - intros x x'. unfold restore_power_limit. destruct (negb _); [discriminate|]. intros H.
    apply obind_Ret in H as ([o x1] & Ho & H). apply open_device_applied in Ho as [_ Hne].
    destruct o as [res|dev]; [injection H as -> <-; congruence|injection H as <-; reflexivity].
Qed.

(** ** The limit in force

    What the library documents, as far as the backend relies on it: a call of
    [nvmlDeviceSetPowerManagementLimit] that succeeds puts the limit in force, and
    nothing else changes it; the values read are unsigned 32-bit integers. *)
Record NvmlLaws (b : NvmlBinding) (limit_of : N -> Z) : Prop := {
  init_keeps : forall f n, nb_init b = Some f -> limit_of (f n).2 = limit_of n;
  handle_keeps : forall f i n, nb_get_handle b = Some f -> limit_of (f i n).2 = limit_of n;
  power_keeps : forall f d n, nb_get_power b = Some f -> limit_of (f d n).2 = limit_of n /\ in_u 32 (f d n).1.2;
  temp_keeps : forall f d i n, nb_get_temp b = Some f -> limit_of (f d i n).2 = limit_of n /\ in_u 32 (f d i n).1.2;
  clock_keeps : forall f d i n, nb_get_clock b = Some f -> limit_of (f d i n).2 = limit_of n /\ in_u 32 (f d i n).1.2;
  util_keeps : forall f d n, nb_get_util b = Some f -> limit_of (f d n).2 = limit_of n /\ in_u 32 (f d n).1.2;
  read_limit_keeps : forall f d n, nb_get_limit b = Some f -> limit_of (f d n).2 = limit_of n /\ in_u 32 (f d n).1.2;
  set_limit_sets : forall f d mw n, nb_set_limit b = Some f ->
    limit_of (f d mw n).2 = if (f d mw n).1 =? 0 then mw else limit_of n }.

Inductive control_call := CallSample | CallSetLimit (l : option Watts) | CallRestore.

Definition run_call (b : NvmlBinding) (c : control_call) (x : t) : outcome t :=
  match c with
  | CallSample => let! r := sample b x in Ret r.2
  | CallSetLimit l => let! r := set_power_limit b x l in Ret r.2
  | CallRestore => let! r := restore_power_limit b x in Ret r.2
  end.

Fixpoint run_calls (b : NvmlBinding) (l : list control_call) (x : t) : outcome t :=
  match l with [] => Ret x | c :: l => let! x := run_call b c x in run_calls b l x end.

(** A backend that has recorded a limit has it in force. *)
Definition in_force (limit_of : N -> Z) (start : Z) (x : t) : Prop :=
  (limit_of (driver x) = start \/ 1000 <= limit_of (driver x) <= 999000) /\
  forall q, applied_limit_ x = Some q -> truncate (value q * 1000)%float = Some (limit_of (driver x)) /\
    1000 <= limit_of (driver x) <= 999000.

Lemma in_force_same (limit_of : N -> Z) (start : Z) (x x' : t) :
  limit_of (driver x') = limit_of (driver x) -> applied_limit_ x' = applied_limit_ x \/ applied_limit_ x' = None ->
  in_force limit_of start x -> in_force limit_of start x'.
Proof.
  intros E Ea [H1 H2]. unfold in_force. rewrite E. split; [exact H1|]. destruct Ea as [-> | ->]; [exact H2|discriminate].
Qed.

Section Laws.
Context (b : NvmlBinding) (limit_of : N -> Z) (Hl : NvmlLaws b limit_of) (Hi : is_Some (nb_init b)).

Lemma open_device_ok (x : t) : exists r x', open_device b x = Ret (r, x') /\
  limit_of (driver x') = limit_of (driver x) /\ applied_limit_ x' = applied_limit_ x.
Proof.
  destruct Hi as [init Ei]. unfold open_device, call_init. rewrite Ei. cbn [obind].
  pose proof (init_keeps _ _ Hl init (driver x) Ei) as E1. destruct (init (driver x)) as [rc n]. cbn [snd] in E1.
  destruct (negb _); [eexists _, _; split; [reflexivity|auto]|].
  destruct (nb_get_handle b) as [gh|] eqn:Eg; [|eexists _, _; split; [reflexivity|auto]].
  pose proof (handle_keeps _ _ Hl gh 0 n Eg) as E2. destruct (gh 0 n) as [[rc2 dev] n2]. cbn [snd] in E2.
  eexists _, _. split; [reflexivity|]. cbn [driver set_driver applied_limit_]. split; [congruence|reflexivity].
Qed.

Lemma milliwatts_ok (w : double) : negb (isfinite w) || (w <=? 0)%float = false ->
  (999 <? w)%float || (w <? 1)%float = false ->
  exists mw, milliwatts w = Ret mw /\ truncate (w * 1000)%float = Some mw /\ 1000 <= mw <= 999000.
Proof.
  intros H1 H2. apply orb_false_elim in H1 as [Hf _]. apply negb_false_iff in Hf. apply orb_false_elim in H2 as [Hhi Hlo].
  rewrite ltb_val in Hhi, Hlo by (exact Hf || reflexivity). change (val 999) with (999 * 2 ^ 1074) in Hhi.
  change (val 1) with (2 ^ 1074) in Hlo.
  destruct (truncated_milliwatts w 999 Hf ltac:(lia) ltac:(lia)) as (mw & E & Hmw). exists mw. unfold milliwatts. rewrite E.
  replace ((0 <=? mw) && (mw <? 2 ^ 32)) with true by lia. auto.
Qed.

Lemma set_power_limit_ok (start : Z) (x : t) (l : option Watts) : in_force limit_of start x ->
  exists r x', set_power_limit b x l = Ret (r, x') /\ in_force limit_of start x'.
Proof.
  intros Hx. unfold set_power_limit. destruct (nb_set_limit b) as [sl|] eqn:Es; [|eauto].
  destruct (open_device_ok x) as (o & x1 & -> & E1 & Ea). cbn [obind].
  assert (H1 : in_force limit_of start x1) by (eapply in_force_same; eauto).
  destruct o as [res|dev]; [eauto|]. destruct l as [q|].
  - destruct (_ || (value q <=? 0)%float) eqn:Eb1; [eauto|]. destruct (_ || (value q <? 1)%float) eqn:Eb2; [eauto|].
    destruct (milliwatts_ok (value q) Eb1 Eb2) as (mw & -> & Et & Hmw). cbn [obind].
    pose proof (set_limit_sets _ _ Hl sl dev mw (driver x1) Es) as Hsl. destruct (sl dev mw (driver x1)) as [rc n].
    cbn [fst snd] in Hsl. destruct (rc =? 0).
    + eexists _, _. split; [reflexivity|]. unfold in_force. cbn [driver set_driver set_applied applied_limit_]. rewrite Hsl.
      split; [right; exact Hmw|]. intros q' [= <-]. auto.
    + assert (H2 : in_force limit_of start (set_driver n x1)) by (eapply in_force_same; [exact Hsl|left; reflexivity|exact H1]).
      destruct (negb (Z.land _ _ =? 0)); (eexists _, _; split; [reflexivity|exact H2]).
  - eexists _, _. split; [reflexivity|]. eapply in_force_same; [|right|exact H1]; reflexivity.
Qed.

Lemma restore_ok (start : Z) (x : t) : in_force limit_of start x ->
  exists r x', restore_power_limit b x = Ret (r, x') /\ in_force limit_of start x' /\
    limit_of (driver x') = limit_of (driver x).
Proof.
  intros Hx. unfold restore_power_limit. destruct (negb _); [eauto|].
  destruct (open_device_ok x) as (o & x1 & -> & E1 & Ea). cbn [obind].
  assert (H1 : in_force limit_of start x1) by (eapply in_force_same; eauto).
  destruct o as [res|dev]; [eauto|]. eexists _, _. split; [reflexivity|]. split; [|exact E1].
  eapply in_force_same; [|right|exact H1]; reflexivity.
Qed.

(** A reading leaves the limit, and converts without an exception. *)
Lemma reading_ok {A : Type} (f : option (N -> Z * Z * N)) (k : Z -> outcome A) (n : N) :
  (forall g, f = Some g -> limit_of (g n).2 = limit_of n /\ in_u 32 (g n).1.2) ->
  (forall z, in_u 32 z -> exists a, k z = Ret a) ->
  let '(o, n') := reading f n in limit_of n' = limit_of n /\ exists a, converted o k = Ret a.
Proof.
  intros Hf Hk. unfold reading. destruct f as [g|]; [|cbn; eauto]. destruct (Hf g eq_refl) as [E1 E2].
  destruct (g n) as [[rc v] n']. cbn [fst snd] in *. split; [exact E1|]. destruct (rc =? 0); cbn; [|eauto].
  destruct (Hk v E2) as [a ->]. cbn. eauto.
Qed.

(** The conversions of the readings. *)
Lemma watts_reading (z : Z) : in_u 32 z -> exists q : Watts, quantity (double_of_Z z / 1000)%float = Ret q.
Proof.
  intros Hz. assert (Hn : nonneg (double_of_Z z / 1000)) by (apply (div_small_nonneg z 1000 1000); [exact Hz|reflexivity|reflexivity|lia]).
  exists (mkQ (double_of_Z z / 1000)%float). apply (valid_quantity_make (mkQ _)), valid_nonneg; [left; reflexivity|exact Hn].
Qed.

Lemma integer_reading (z : Z) : in_u 32 z -> nonneg (double_of_Z z).
Proof.
  intros Hz. unfold in_u in Hz. destruct (double_of_Z_exact z ltac:(lia)) as [Hf Hv]. split; [exact Hf|]. rewrite Hv. pose proof one_pos. lia.
Qed.

Lemma celsius_reading (z : Z) : in_u 32 z -> exists q : Celsius, quantity (double_of_Z z) = Ret q.
Proof.
  intros Hz. destruct (integer_reading z Hz) as [Hf Hv]. unfold quantity, validate_unit, reject_non_finite. rewrite Hf. cbn [negb obind dim Celsius_traits].
  assert (E : (double_of_Z z <? -273.15)%float = false) by (rewrite ltb_val by (exact Hf || reflexivity); change (val (-273.15)) with (val (-273.15)); assert (val (-273.15) < 0) by reflexivity; lia).
  rewrite E. cbn [obind]. eauto.
Qed.

Lemma mhz_reading {T : Set} `{UnitTraits T} (z : Z) : dim T = Frequency -> in_u 32 z -> exists q : Quantity T, quantity (double_of_Z z) = Ret q.
Proof.
  intros Hd Hz. destruct (integer_reading z Hz) as [Hf _]. unfold quantity, validate_unit, reject_non_finite. rewrite Hf, Hd.
  cbn [negb obind]. eauto.
Qed.

Lemma utilization_reading (z : Z) : in_u 32 z ->
  exists q : Utilization, quantity (if (double_of_Z z / 100 <? 1)%float then (double_of_Z z / 100)%float else 1%float) = Ret q.
Proof.
  intros Hz. assert (Hn : nonneg (double_of_Z z / 100)) by (apply (div_small_nonneg z 100 100); [exact Hz|reflexivity|reflexivity|lia]).
  pose proof (nonneg_fltb _ Hn) as H0. destruct Hn as [Hf Hv]. unfold quantity, validate_unit, reject_non_finite.
  destruct (double_of_Z z / 100 <? 1)%float eqn:E.
  - rewrite Hf. cbn [negb obind dim Utilization_traits]. rewrite H0. rewrite ltb_val in E by (exact Hf || reflexivity).
    assert (E1 : (1 <? double_of_Z z / 100)%float = false) by (rewrite ltb_val by (exact Hf || reflexivity); lia).
    rewrite E1. cbn [orb obind]. eauto.
  - cbn. eauto.
Qed.

(** One reading of a sample, by the law of its symbol and the conversion of its value. *)
Ltac next_reading law conv :=
  match goal with
  | |- context [reading ?f ?n0] =>
      let Hf := law n0 in
      pose proof (reading_ok f _ n0 Hf conv) as Hr;
      let n1 := fresh "n" in let E := fresh "E" in
      destruct (reading f n0) as [? n1]; destruct Hr as [E [? ->]]; cbn [obind]
  end.

(** A sample is always taken, and leaves the limit as it was. *)
Lemma read_sample_ok (dev : D) (n : N) : exists s n', read_sample b dev n = Ret (s, n') /\ limit_of n' = limit_of n.
Proof.
  assert (Hsym : forall (S : Type) (o : option S) (app : S -> N -> Z * Z * N) (n0 : N),
    (forall f, o = Some f -> limit_of (app f n0).2 = limit_of n0 /\ in_u 32 (app f n0).1.2) ->
    forall g, app <$> o = Some g -> limit_of (g n0).2 = limit_of n0 /\ in_u 32 (g n0).1.2).
  { intros S o app n0 Ho g. destruct o; [|discriminate]. intros [= <-]. apply Ho. reflexivity. }
  unfold read_sample.
  next_reading ltac:(fun n0 => constr:(Hsym _ _ (fun f => f dev) n0 (fun f => power_keeps _ _ Hl f dev n0))) watts_reading.
  next_reading ltac:(fun n0 => constr:(Hsym _ _ (fun f => f dev 0) n0 (fun f => temp_keeps _ _ Hl f dev 0 n0))) celsius_reading.
  next_reading ltac:(fun n0 => constr:(Hsym _ _ (fun f => f dev 0) n0 (fun f => clock_keeps _ _ Hl f dev 0 n0)))
    (fun z => mhz_reading (T := FrequencyMhzTag) z eq_refl).
  next_reading ltac:(fun n0 => constr:(Hsym _ _ (fun f => f dev 1) n0 (fun f => clock_keeps _ _ Hl f dev 1 n0)))
    (fun z => mhz_reading (T := FrequencyMhzTag) z eq_refl).
  next_reading ltac:(fun n0 => constr:(Hsym _ _ (fun f => f dev) n0 (fun f => util_keeps _ _ Hl f dev n0))) utilization_reading.
  next_reading ltac:(fun n0 => constr:(Hsym _ _ (fun f => f dev) n0 (fun f => read_limit_keeps _ _ Hl f dev n0))) watts_reading.
  eexists _, _. split; [reflexivity|congruence].
Qed.

Lemma sample_ok (x : t) : exists s x', sample b x = Ret (s, x') /\
  limit_of (driver x') = limit_of (driver x) /\ applied_limit_ x' = applied_limit_ x.
Proof.
  unfold sample. destruct (nb_loaded b); [|eexists _, _; split; [reflexivity|auto]]. destruct Hi as [init Ei]. rewrite Ei.
  pose proof (init_keeps _ _ Hl init (driver x) Ei) as E1. destruct (init (driver x)) as [rc n]. cbn [snd] in E1.
  destruct (negb (rc =? 0)); [eexists _, _; split; [reflexivity|auto]|].
  destruct (nb_get_handle b) as [gh|] eqn:Eg; [|eexists _, _; split; [reflexivity|auto]].
  pose proof (handle_keeps _ _ Hl gh 0 n Eg) as E2. destruct (gh 0 n) as [[rc2 dev] n2]. cbn [snd] in E2.
  destruct (_ || _); [eexists _, _; split; [reflexivity|cbn; split; [congruence|reflexivity]]|].
  destruct (read_sample_ok dev n2) as (s & n3 & -> & E3). cbn [obind]. eexists _, _. split; [reflexivity|].
  cbn [driver set_driver applied_limit_ fst snd]. split; [congruence|reflexivity].
Qed.

Lemma run_call_ok (start : Z) (c : control_call) (x : t) : in_force limit_of start x ->
  exists x', run_call b c x = Ret x' /\ in_force limit_of start x'.
Proof.
  intros Hx. destruct c as [|l|]; cbn [run_call].
  - destruct (sample_ok x) as (s & x' & -> & E1 & Ea). exists x'. split; [reflexivity|]. eapply in_force_same; eauto.
  - destruct (set_power_limit_ok start x l Hx) as (r & x' & -> & Hx'). eauto.
  - destruct (restore_ok start x Hx) as (r & x' & -> & Hx' & _). eauto.
Qed.

Lemma run_calls_ok (start : Z) (calls : list control_call) (x : t) : in_force limit_of start x ->
  exists x', run_calls b calls x = Ret x' /\ in_force limit_of start x'.
Proof.
  revert x. induction calls as [|c calls IH]; intros x H0; [exists x; auto|].
  cbn [run_calls]. destruct (run_call_ok start c x H0) as (x1 & -> & H1). apply IH, H1.
Qed.
End Laws.

(** C25: the limit the backend reports is the limit in force.  Over a library that
    behaves as documented, every history of samples, requests and restores on a new
    backend runs to its end; the limit in force in the driver is the one it had, or
    between 1 W and 999 W; and whenever the backend reports an applied limit, the driver
    enforces it, to the milliwatt. *)
Theorem nvml_limit_in_force (b : NvmlBinding) (limit_of : N -> Z) (calls : list control_call) (x : t) :
  NvmlLaws b limit_of -> is_Some (nb_init b) -> applied_limit_ x = None ->
  exists x', run_calls b calls x = Ret x' /\
    (limit_of (driver x') = limit_of (driver x) \/ 1000 <= limit_of (driver x') <= 999000) /\
    forall q, applied_limit_ x' = Some q -> truncate (value q * 1000)%float = Some (limit_of (driver x')) /\
      1000 <= limit_of (driver x') <= 999000.
Proof.
  intros Hl Hi Hx. apply (run_calls_ok b limit_of Hl Hi). split; [left; reflexivity|]. rewrite Hx. discriminate.
Qed.
End Nvml.
Arguments NvmlBinding : clear implicits.
Arguments t : clear implicits.

(** A library with one device, whose state is its limit in milliwatts; a request above
    600 W is refused with the given code. *)
Definition sample_library (refusal : Z) : NvmlBinding Z unit :=
  load (Some (mkBinding false (Some (fun n => (0, n))) None (Some (fun _ n => (0, tt, n))) (Some (fun _ n => (0, 92500, n)))
    (Some (fun _ _ n => (0, 37, n))) None (Some (fun _ n => (0, 130, n)))
    (Some (fun _ mw n => if mw <=? 600000 then (0, mw) else (refusal, n))) (Some (fun _ n => (0, n mod 2 ^ 32, n))))).
Definition sample_backend : t Z := make (sample_library 15) (false, no_probe) 575000.
Definition sample_calls : list control_call :=
  [CallSample; CallSetLimit (Some (mkQ 300.25)); CallSetLimit (Some (mkQ 700)); CallSetLimit (Some (mkQ 0.5)); CallSample].

Lemma sample_library_laws (refusal : Z) : refusal <> 0 -> NvmlLaws (sample_library refusal) id.
Proof.
  intros Hr. split; cbn; try discriminate; try (intros; simplify_eq; cbn; split; [reflexivity|split; [lia|reflexivity]]);
    try (intros; simplify_eq; reflexivity).
  - intros f d n [= <-]. cbn. split; [reflexivity|]. apply Z.mod_pos_bound. reflexivity.
  - intros f d mw n [= <-]. destruct (mw <=? 600000); cbn; [reflexivity|].
    destruct (Z.eqb_spec refusal 0); [contradiction|reflexivity].
Qed.

Lemma nvml_limit_in_force_witness :
  exists x', run_calls (fun _ => false) (sample_library 15) sample_calls sample_backend = Ret x' /\
    (driver x' = driver sample_backend \/ 1000 <= driver x' <= 999000) /\
    forall q, applied_limit_ x' = Some q -> truncate (value q * 1000)%float = Some (driver x') /\ 1000 <= driver x' <= 999000.
Proof.
  apply (nvml_limit_in_force (fun _ => false) (sample_library 15) id sample_calls sample_backend).
  - apply sample_library_laws. discriminate.
  - exists (fun n => (0, n)). reflexivity.
  - reflexivity.
Defined.

Definition after_calls (refusal : Z) (l : list control_call) : option (option Watts * Z) :=
  match run_calls (fun _ => false) (sample_library refusal) l sample_backend with
  | Ret x => Some (applied_limit_ x, driver x)
  | _ => None
  end.

Example calls_in_force : after_calls 15 sample_calls = Some (Some (mkQ 300.25), 300250).
Proof. vm_compute. reflexivity. Qed.

(** Restoring answers APPLIED and forgets the limit, but the driver still enforces it. *)
Lemma restore_leaves_limit :
  after_calls 15 [CallSetLimit (Some (mkQ 300)); CallRestore] = Some (None, 300000) /\
  option_map fst (match restore_power_limit (sample_library 15) sample_backend with Ret r => Some r | _ => None end) = Some APPLIED.
Proof. vm_compute. split; reflexivity. Qed.

(** The code of the library for missing permissions is 4; it is taken for a failure. *)
Lemma no_permission_reported_failed :
  match set_power_limit (sample_library 4) sample_backend (Some (mkQ 700)) with Ret (r, _) => r = FAILED | _ => False end.
Proof. vm_compute. reflexivity. Qed.
End NvidiaCudaBackend.
