(* ===== verification/DecisionEngine.v ===== *)
(** * The decision engine (decision_engine.hpp)

    [evaluate] turns the telemetry, the ceilings and the policy into a verdict
    with its reasons, its binding limit, an explanation, a JSON document and a
    digest.  Its state is the last verdict with its time, for the hysteresis,
    and the counter of decision identifiers. *)
From S2P Require Import Prelude Rounding Binary64 Util Units Ids Clock WorkloadClass Thermal Policy Energy.
Local Open Scope Z_scope.
#[local] Set Warnings "-inexact-float".

Inductive DecisionVerdict :=
| ALLOW | ALLOW_WITH_LIMIT | THROTTLE | DEFER | DRAIN_RECOMMENDED
| REVALIDATION_REQUIRED | REJECT | UNKNOWN.

#[export] Instance DecisionVerdict_eq_dec : EqDecision DecisionVerdict.
Proof. solve_decision. Defined.

Definition verdict_to_string (v : DecisionVerdict) : string :=
  match v with
  | ALLOW => "ALLOW"
  | ALLOW_WITH_LIMIT => "ALLOW_WITH_LIMIT"
  | THROTTLE => "THROTTLE"
  | DEFER => "DEFER"
  | DRAIN_RECOMMENDED => "DRAIN_RECOMMENDED"
  | REVALIDATION_REQUIRED => "REVALIDATION_REQUIRED"
  | REJECT => "REJECT"
  | UNKNOWN => "UNKNOWN"
  end.

Definition verdict_from_string (s : string) : outcome DecisionVerdict :=
  if String.eqb s "ALLOW" then Ret ALLOW
  else if String.eqb s "ALLOW_WITH_LIMIT" then Ret ALLOW_WITH_LIMIT
  else if String.eqb s "THROTTLE" then Ret THROTTLE
  else if String.eqb s "DEFER" then Ret DEFER
  else if String.eqb s "DRAIN_RECOMMENDED" then Ret DRAIN_RECOMMENDED
  else if String.eqb s "REVALIDATION_REQUIRED" then Ret REVALIDATION_REQUIRED
  else if String.eqb s "REJECT" then Ret REJECT
  else if String.eqb s "UNKNOWN" then Ret UNKNOWN
  else Throw (invalid_argument "pg::verdict_from_string: unknown verdict").

Module DecisionInput.
Record t := mk {
  current_power : Watts;
  power_known : bool;
  average_power : Watts;
  average_known : bool;
  energy_window_used : Joules;
  energy_known : bool;
  requested_power : Watts;
  requested_energy : Joules;
  requested_duration_s : double;
  hardware_cap : option Watts;
  budget_available : option Watts;
  soft_target : option Watts;
  thermal_ceiling : option Watts;
  thermal_state : ThermalState;
  thermal_known : bool;
  utilization : Utilization;
  utilization_known : bool;
  power_class : WorkloadPowerClass;
  rule : WorkloadClassRule;
  policy : PowerPolicy.t;
  policy_current : bool;
  power_freshness : FreshnessState;
  evidence : EnergyProvenance;
  hardware_throttled : bool;
  in_thermal_recovery : bool;
  burst_available : bool;
  burst_utilization : double;
  requested_perf : PerformanceState;
  budget_applied : option BudgetId;
  parent_budgets : list BudgetId;
  active_reservations : Z }.
End DecisionInput.

Record DecisionExplanation := mkExplanation {
  ex_budget_applied : option BudgetId;
  ex_parent_budgets : list BudgetId;
  ex_active_reservations : Z;
  ex_thermal_state : ThermalState;
  ex_power_class : WorkloadPowerClass;
  ex_burst_available : bool;
  ex_burst_utilization : double;
  ex_binding_limit : option Watts;
  ex_binding_kind : string;
  ex_telemetry_freshness : FreshnessState;
  ex_telemetry_current : bool;
  ex_evidence : EnergyProvenance;
  ex_hardware_throttled : bool;
  ex_why : string;
  ex_what_would_change : string }.

Module Decision.
Record t := mk {
  id : DecisionId;
  generation : DecisionGeneration;
  now : Timestamp;
  verdict : DecisionVerdict;
  reasons : list string;
  effective_state : PerformanceState;
  recommended_limit : option Watts;
  explanation : DecisionExplanation;
  json : string;
  digest : string }.
End Decision.

Module DecisionEngine.
Record t := mk {
  last_ : option (DecisionVerdict * Timestamp);
  gen_ : DecisionGeneration;
  next_decision : Z }.

Definition init (next : Z) : t := mk None gen_first next.
Definition last_verdict (e : t) : option DecisionVerdict := fst <$> last_ e.
Definition reset_hysteresis (e : t) : t := mk None (gen_ e) (next_decision e).

(** [x.empty()] *)
Definition empty (s : string) : bool := String.eqb s EmptyString.

Definition join_reasons (reasons : list string) : string :=
  foldl (fun why r => (if empty why then r else why +:+ "; " +:+ r)%string) EmptyString reasons.

Definition what_would_change (current : bool) (kind : string) : string :=
  if negb current then "refresh telemetry to CURRENT and re-evaluate"
  else if empty kind then "no binding constraint; a more restrictive policy/budget would throttle"
  else if String.eqb kind "device_hard_cap"
  then "raise the hardware power limit (within vendor support) to allow more"
  else if String.eqb kind "budget" then "increase budget capacity or release reservations to allow more"
  else if String.eqb kind "thermal" then "reduce temperature and allow thermal recovery to raise the ceiling"
  else if String.eqb kind "soft_target" then "raise the soft target or grant burst capacity to allow more"
  else if String.eqb kind "freshness" then "ingest fresh telemetry and re-evaluate"
  else "relieve the binding constraint to allow more".

Definition fill_explanation (inp : DecisionInput.t) (limit : option Watts) (kind : string) (reasons : list string)
  : DecisionExplanation :=
  let current := DecisionInput.policy_current inp && bool_decide (DecisionInput.power_freshness inp = CURRENT) in
  let why := join_reasons reasons in
  mkExplanation (DecisionInput.budget_applied inp) (DecisionInput.parent_budgets inp)
    (DecisionInput.active_reservations inp) (DecisionInput.thermal_state inp) (DecisionInput.power_class inp)
    (DecisionInput.burst_available inp) (DecisionInput.burst_utilization inp) limit kind
    (DecisionInput.power_freshness inp) current (DecisionInput.evidence inp) (DecisionInput.hardware_throttled inp)
    (if empty why then "no binding constraint" else why) (what_would_change current kind).

Definition field (k : string) (raw : string) (w : JsonWriter) : JsonWriter := raw_value raw (raw_key k w).
Definition bool_text (b : bool) : string := if b then "true" else "false".

Definition build_json (d : Decision.t) : string :=
  let ex := Decision.explanation d in
  let w := begin_object json_init in
  let w := field "id" (quoted (to_string_int (id_raw (Decision.id d)))) w in
  let w := field "generation" (to_string_int (gen_raw (Decision.generation d))) w in
  let w := field "verdict" (quoted (verdict_to_string (Decision.verdict d))) w in
  let w := field "effective_state" (quoted (perf_to_string (Decision.effective_state d))) w in
  let w := field "recommended_limit_w"
    match Decision.recommended_limit d with Some l => to_string_double (value l) | None => "null" end w in
  let w := field "binding_kind" (quoted (ex_binding_kind ex)) w in
  let w := field "telemetry_current" (bool_text (ex_telemetry_current ex)) w in
  let w := field "telemetry_freshness" (quoted (freshness_to_string (ex_telemetry_freshness ex))) w in
  let w := field "thermal_state" (quoted (thermal_to_string (ex_thermal_state ex))) w in
  let w := field "power_class" (quoted (class_to_string (ex_power_class ex))) w in
  let w := field "burst_available" (bool_text (ex_burst_available ex)) w in
  let w := field "evidence" (quoted (provenance_to_string (ex_evidence ex))) w in
  let w := field "why" (quoted (json_escape (ex_why ex))) w in
  let w := field "what_would_change" (quoted (json_escape (ex_what_would_change ex))) w in
  let w := begin_array (raw_key "reasons" w) in
  let w := foldl (fun w r => json_value (JString r) w) w (Decision.reasons d) in
  buf (end_object (end_array w)).

Definition effective_of (inp : DecisionInput.t) (v : DecisionVerdict) : PerformanceState :=
  match v with
  | ALLOW => DecisionInput.requested_perf inp
  | ALLOW_WITH_LIMIT | UNKNOWN => BALANCED
  | THROTTLE | DEFER | DRAIN_RECOMMENDED | REVALIDATION_REQUIRED | REJECT => THROTTLED
  end.

(** [make_verdict]: the decision, whose JSON is built before the digest, and the
    verdict remembered for the hysteresis. *)
Definition make_verdict (inp : DecisionInput.t) (now : Timestamp) (v : DecisionVerdict) (reasons : list string)
    (limit : option Watts) (kind : string) : M t Decision.t :=
  do! e <- sget;
  let '(id, next) := allocate (next_decision e) in
  let d := Decision.mk id (gen_next (gen_ e)) now v reasons (effective_of inp v) limit
             (fill_explanation inp limit kind reasons) EmptyString EmptyString in
  let json := build_json d in
  let d := Decision.mk id (gen_next (gen_ e)) now v reasons (effective_of inp v) limit
             (fill_explanation inp limit kind reasons) json (digest_hex json) in
  do! _ <- sput (mk (Some (v, now)) (gen_ e) next);
  sret d.

(** [consider]: the lowest nonnegative cap and its name. *)
Definition consider (cap : option Watts) (kind : string) (acc : option Watts * string) : option Watts * string :=
  match cap with
  | Some c =>
      if is_non_negative c then
        match fst acc with
        | None => (cap, kind)
        | Some l => if (value c <? value l)%float then (cap, kind) else acc
        end
      else acc
  | None => acc
  end.

Definition ceiling_of (inp : DecisionInput.t) : option Watts * string :=
  consider (DecisionInput.thermal_ceiling inp) "thermal"
    (consider (DecisionInput.budget_available inp) "budget"
      (consider (DecisionInput.hardware_cap inp) "device_hard_cap" (None, EmptyString))).

Definition ceiling_value (limit : option Watts) : double :=
  match limit with Some l => value l | None => PrimFloat.infinity end.

Definition is_stale (f : FreshnessState) : bool := bool_decide (f = STALE) || bool_decide (f = EXPIRED).

Definition energy_exceeded (inp : DecisionInput.t) : bool :=
  let w := PowerPolicy.energy_window (DecisionInput.policy inp) in
  ew_enforce w && is_positive (ew_budget w) &&
  (value (ew_budget w) - value (DecisionInput.energy_window_used inp) + eps
     <? value (DecisionInput.requested_energy inp))%float.

(** Steps 3 to 7: the verdict of the ceilings, when one of them decides. *)
Definition constrained_verdict (inp : DecisionInput.t) (limit : option Watts) (kind : string)
  : option (DecisionVerdict * list string * option Watts * string) :=
  let th s := DecisionInput.thermal_known inp && bool_decide (DecisionInput.thermal_state inp = s) in
  let constrained := th THERMALLY_CONSTRAINED in
  let recovering := th RECOVERING in
  let requested := value (DecisionInput.requested_power inp) in
  let ceiling := ceiling_value limit in
  if (ceiling <? requested)%float && (ceiling <=? eps)%float then
    Some (if constrained then DEFER else REJECT,
          "no available power capacity" :: (if constrained then ["device is thermally constrained"] else []), limit, kind)
  else if (ceiling + eps <? requested)%float then
    let first := ("requested power " +:+ q_to_string (DecisionInput.requested_power inp) +:+
                  " exceeds available ceiling " +:+ to_string_double ceiling +:+ "W")%string in
    if (rule_priority (DecisionInput.rule inp) <? 40) && constrained
    then Some (THROTTLE, [first; "low-priority class under thermal constraint"], limit, kind)
    else if constrained then Some (THROTTLE, [first; "device thermally constrained"], limit, kind)
    else if recovering
    then Some (ALLOW_WITH_LIMIT, [first; "thermal recovery in progress; limited to thermal ceiling"], limit, kind)
    else Some (ALLOW_WITH_LIMIT, [first; "hard ceiling constrains execution"], limit, kind)
  else if constrained then Some (THROTTLE, ["device thermally constrained"], limit, kind)
  else if recovering then Some (ALLOW_WITH_LIMIT, ["thermal recovery in progress; limited to ceiling"], limit, kind)
  else if match DecisionInput.soft_target inp with Some s => (value s <? requested)%float | None => false end then
    if DecisionInput.burst_available inp && (requested <=? ceiling)%float
    then Some (ALLOW, ["burst budget covers temporary over-soft-target demand"], limit, kind)
    else Some (ALLOW_WITH_LIMIT, ["requested power exceeds soft target; limited (no burst capacity)"],
               DecisionInput.soft_target inp, "soft_target"%string)
  else if energy_exceeded inp then Some (THROTTLE, ["energy window would be exceeded"], limit, kind)
  else None.

(** Steps 8 and 9: the default verdict, and the hold of the previous one. *)
Definition default_verdict (inp : DecisionInput.t) (now : Timestamp) (limit : option Watts) (kind : string)
  : M t Decision.t :=
  let hot := DecisionInput.thermal_known inp && bool_decide (DecisionInput.thermal_state inp = HOT) in
  let reasons := (if hot then ["hot but within hard ceiling; monitoring closely"] else [])
    ++ (if DecisionInput.hardware_throttled inp then ["hardware is already throttled"] else []) in
  do! e <- sget;
  match last_ e with
  | Some (v, at_) =>
      if bool_decide (v = ALLOW) then make_verdict inp now ALLOW reasons limit kind
      else
        do! dt <- slift (elapsed_since now at_);
        if duration_ltb dt (PowerPolicy.min_stable_duration (DecisionInput.policy inp)) then
          let reasons := reasons ++
            [("hysteresis holding previous restrictive verdict for " +:+ duration_to_string dt)%string] in
          if bool_decide (v = ALLOW_WITH_LIMIT) && negb (match limit with Some _ => true | None => false end)
          then make_verdict inp now v reasons (DecisionInput.soft_target inp) "soft_target"
          else make_verdict inp now v reasons limit kind
        else make_verdict inp now ALLOW reasons limit kind
  | None => make_verdict inp now ALLOW reasons limit kind
  end.

Definition evaluate (inp : DecisionInput.t) (now : Timestamp) : M t Decision.t :=
  if negb (DecisionInput.policy_current inp) || is_stale (DecisionInput.power_freshness inp) then
    make_verdict inp now REVALIDATION_REQUIRED
      (("telemetry is not current (freshness=" +:+ freshness_to_string (DecisionInput.power_freshness inp) +:+ ")")%string
         :: (if DecisionInput.policy_current inp then [] else ["policy generation is not current"]))
      None "freshness"
  else
    let '(limit, kind) := ceiling_of inp in
    match constrained_verdict inp limit kind with
    | Some (v, reasons, limit, kind) => make_verdict inp now v reasons limit kind
    | None => default_verdict inp now limit kind
    end.
End DecisionEngine.
