(* ===== verification/DecisionSpec.v ===== *)
(** * Properties of the decision engine

    When a decision allows, what it recommends, and how long the hysteresis
    holds a verdict. *)
From S2P Require Import Prelude Rounding Binary64 Util Units Ids Clock Budget BudgetSpec WorkloadClass Thermal.
From S2P Require Import Policy Energy DecisionEngine.
Local Open Scope Z_scope.
#[local] Set Warnings "-inexact-float".
#[local] Arguments Z.mul : simpl never.
#[local] Arguments Z.add : simpl never.
#[local] Arguments Z.pow : simpl never.
Import DecisionEngine.

(** ** Ceilings *)
Definition caps (inp : DecisionInput.t) : list Watts :=
  omap (fun c => c) [DecisionInput.hardware_cap inp; DecisionInput.budget_available inp; DecisionInput.thermal_ceiling inp].

(** Inputs built by the constructors of the quantities. *)
Definition valid_input (inp : DecisionInput.t) : Prop :=
  (forall c, c ∈ caps inp -> nonneg (value c)) /\ nonneg (value (DecisionInput.requested_power inp)) /\
  forall s, DecisionInput.soft_target inp = Some s -> nonneg (value s).

Lemma nonneg_ltb (x y : double) : nonneg x -> nonneg y -> (x <? y)%float = (val x <? val y).
Proof. intros [Hx _] [Hy _]. apply ltb_val; assumption. Qed.

Lemma nonneg_leb (x y : double) : nonneg x -> nonneg y -> (x <=? y)%float = (val x <=? val y).
Proof. intros [Hx _] [Hy _]. apply leb_val; assumption. Qed.

Lemma nonneg_is_non_negative (c : Watts) : nonneg (value c) -> is_non_negative c = true.
Proof. intros Hc. unfold is_non_negative. rewrite nonneg_leb by (assumption || apply (clamp_nonneg 0)). rewrite val_zero. destruct Hc. lia. Qed.

(** What the accumulator of [consider] says of the caps seen so far. *)
Definition lowest (l : list Watts) (acc : option Watts) : Prop :=
  match acc with
  | None => l = []
  | Some w => w ∈ l /\ forall c, c ∈ l -> val (value w) <= val (value c)
  end.

Lemma consider_lowest (l : list Watts) (cap : option Watts) (kind : string) (acc : option Watts * string) :
  (forall c, c ∈ l ++ option_list cap -> nonneg (value c)) -> lowest l acc.1 ->
  lowest (l ++ option_list cap) (consider cap kind acc).1.
Proof.
  intros Hn Hl. destruct cap as [c|]; cbn [option_list] in *; [|rewrite app_nil_r; exact Hl].
  assert (Hc : nonneg (value c)) by (apply Hn, elem_of_app; right; left).
  unfold consider. rewrite nonneg_is_non_negative by exact Hc. destruct acc as [[w|] k]; cbn [fst lowest] in *.
  - destruct Hl as [Hw Hle]. rewrite nonneg_ltb by (exact Hc || (apply Hn, elem_of_app; auto)).
    destruct (Z.ltb_spec (val (value c)) (val (value w))); cbn [fst lowest]; (split;
      [apply elem_of_app; first [right; left|left; assumption]|]); intros x Hx;
      apply elem_of_app in Hx as [Hx|Hx]; try (apply list_elem_of_singleton in Hx as ->); try specialize (Hle x Hx); lia.
  - subst l. split; [left|]. intros x Hx. apply list_elem_of_singleton in Hx as ->. lia.
Qed.

Lemma caps_list (inp : DecisionInput.t) :
  caps inp = (([] ++ option_list (DecisionInput.hardware_cap inp)) ++ option_list (DecisionInput.budget_available inp))
              ++ option_list (DecisionInput.thermal_ceiling inp).
Proof.
  unfold caps. destruct (DecisionInput.hardware_cap inp), (DecisionInput.budget_available inp), (DecisionInput.thermal_ceiling inp);
    reflexivity.
Qed.

Lemma ceiling_lowest (inp : DecisionInput.t) : valid_input inp -> lowest (caps inp) (ceiling_of inp).1.
Proof.
  intros [Hn _]. rewrite caps_list in *. unfold ceiling_of.
  apply consider_lowest; [exact Hn|]. apply consider_lowest; [intros c Hc; apply Hn, elem_of_app; left; exact Hc|].
  apply consider_lowest; [|reflexivity]. intros c Hc. apply Hn. rewrite elem_of_app. left. apply elem_of_app. left. exact Hc.
Qed.

(** ** The tests against the ceiling, cap by cap *)
Definition exceeds (r : double) (c : double) : bool := (c + eps <? r)%float.
Definition no_capacity (r : double) (c : double) : bool := (c <? r)%float && (c <=? eps)%float.

Lemma infinity_test (r : double) : isfinite r = true ->
  exceeds r PrimFloat.infinity = false /\ no_capacity r PrimFloat.infinity = false /\ (r <=? PrimFloat.infinity)%float = true.
Proof.
  intros Hr. unfold exceeds, no_capacity. change (PrimFloat.infinity + eps)%float with PrimFloat.infinity.
  rewrite (infinity_ltb false PrimFloat.infinity r) by (reflexivity || exact Hr). rewrite (leb_infinity false PrimFloat.infinity r) by (reflexivity || exact Hr).
  split_and!; reflexivity.
Qed.

Lemma nonneg_eps : nonneg eps.
Proof. split; [reflexivity|vm_compute; discriminate]. Qed.

(** A test passes against the ceiling exactly when it passes against each cap. *)
Lemma ceiling_tests (inp : DecisionInput.t) : valid_input inp ->
  let r := value (DecisionInput.requested_power inp) in
  let ceiling := ceiling_value (ceiling_of inp).1 in
  (exceeds r ceiling = false <-> forall c, c ∈ caps inp -> exceeds r (value c) = false) /\
  (no_capacity r ceiling = false <-> forall c, c ∈ caps inp -> no_capacity r (value c) = false) /\
  ((r <=? ceiling)%float = true <-> forall c, c ∈ caps inp -> (r <=? value c)%float = true).
Proof.
  intros Hv r ceiling. pose proof (ceiling_lowest inp Hv) as Hl. destruct Hv as (Hn & Hr & _). fold r in Hr.
  unfold ceiling. destruct (ceiling_of inp) as [[w|] k]; cbn [fst ceiling_value lowest] in *.
  - destruct Hl as [Hw Hle]. pose proof (Hn w Hw) as Hwn. split_and!.
    + split; [|auto]. intros Ht c Hc. apply (room_test_mono (value w)); auto. apply Hr.
    + split; [|auto]. unfold no_capacity. intros Ht c Hc. specialize (Hle c Hc). pose proof (Hn c Hc) as Hcn.
      rewrite !nonneg_ltb, !nonneg_leb in * by (assumption || apply nonneg_eps). lia.
    + split; [|auto]. intros Ht c Hc. specialize (Hle c Hc). pose proof (Hn c Hc).
      rewrite nonneg_leb in * by assumption. lia.
  - rewrite Hl. destruct (infinity_test r (proj1 Hr)) as (-> & -> & ->). split_and!; (split; [|reflexivity]);
      intros _ c Hc; apply elem_of_nil in Hc as [].
Qed.

(** ** What [make_verdict] returns *)
Lemma make_verdict_Ret (inp : DecisionInput.t) (now : Timestamp) (v : DecisionVerdict) (reasons : list string)
    (limit : option Watts) (kind : string) (e : t) :
  exists d e', make_verdict inp now v reasons limit kind e = (Ret d, e') /\
    Decision.verdict d = v /\ Decision.recommended_limit d = limit /\ Decision.reasons d = reasons /\
    Decision.generation d = gen_next (gen_ e) /\ Decision.digest d = digest_hex (Decision.json d) /\
    Decision.id d = mkId (next_decision e) /\
    last_ e' = Some (v, now) /\ gen_ e' = gen_ e /\ next_decision e' = u64 (next_decision e + 1).
Proof.
  unfold make_verdict. rewrite sbind_sget. unfold allocate. rewrite sbind_sput. unfold sret.
  do 2 eexists. split; [reflexivity|]. split_and!; reflexivity.
Qed.

(** [evaluate] is one of the three ways to reach [make_verdict]. *)
Lemma evaluate_cases (inp : DecisionInput.t) (now : Timestamp) (e : t) (o : outcome Decision.t) (e' : t) :
  evaluate inp now e = (o, e') ->
  (negb (DecisionInput.policy_current inp) || is_stale (DecisionInput.power_freshness inp) = true /\
     exists reasons kind, make_verdict inp now REVALIDATION_REQUIRED reasons None kind e = (o, e')) \/
  (negb (DecisionInput.policy_current inp) || is_stale (DecisionInput.power_freshness inp) = false /\
     exists v reasons limit kind,
       constrained_verdict inp (ceiling_of inp).1 (ceiling_of inp).2 = Some (v, reasons, limit, kind) /\
       make_verdict inp now v reasons limit kind e = (o, e')) \/
  (negb (DecisionInput.policy_current inp) || is_stale (DecisionInput.power_freshness inp) = false /\
     constrained_verdict inp (ceiling_of inp).1 (ceiling_of inp).2 = None /\
     default_verdict inp now (ceiling_of inp).1 (ceiling_of inp).2 e = (o, e')).
Proof.
  unfold evaluate. destruct (_ || _); intros H; [left; eauto|]. right.
  destruct (ceiling_of inp) as [limit kind]. cbn [fst snd] in *.
  destruct (constrained_verdict inp limit kind) as [[[[v reasons] l] k]|]; [left|right]; eauto 10.
Qed.

(** The hold of the previous verdict. *)
Definition held (e : t) (inp : DecisionInput.t) (now : Timestamp) (v : DecisionVerdict) : Prop :=
  exists at_ dt, last_ e = Some (v, at_) /\ v <> ALLOW /\ elapsed_since now at_ = Ret dt /\
    duration_ltb dt (PowerPolicy.min_stable_duration (DecisionInput.policy inp)) = true.

Lemma default_verdict_cases (inp : DecisionInput.t) (now : Timestamp) (limit : option Watts) (kind : string)
    (e : t) (d : Decision.t) (e' : t) :
  default_verdict inp now limit kind e = (Ret d, e') ->
  last_ e' = Some (Decision.verdict d, now) /\
  ((Decision.verdict d = ALLOW /\ (forall v, ~ held e inp now v) /\ Decision.recommended_limit d = limit) \/
   (held e inp now (Decision.verdict d) /\
     (Decision.recommended_limit d = limit \/
      (limit = None /\ Decision.recommended_limit d = DecisionInput.soft_target inp)))).
Proof.
  unfold default_verdict. rewrite sbind_sget. destruct (last_ e) as [[v at_]|] eqn:El.
  2: { intros [= <- <-]. split; [reflexivity|]. left. split_and!; try reflexivity. intros v (at_ & dt & E & _). congruence. }
  case_bool_decide as Hv.
  { intros [= <- <-]. split; [reflexivity|]. left. split_and!; try reflexivity.
    intros v' (at' & dt & E & Hne & _). congruence. }
  unfold sbind, slift. destruct (elapsed_since now at_) as [dt|x| |] eqn:Edt; try discriminate.
  destruct (duration_ltb dt _) eqn:Elt.
  - destruct (bool_decide _ && _) eqn:Eb; intros [= <- <-]; (split; [reflexivity|]); right;
      (split; [exists at_, dt; auto|]); [right|left; reflexivity].
    apply andb_prop in Eb as [_ Eb]. destruct limit; [discriminate|]. auto.
  - intros [= <- <-]. split; [reflexivity|]. left. split_and!; try reflexivity.
    intros v' (at' & dt' & E & _ & E' & Hlt). assert (at' = at_) as -> by congruence.
    assert (dt' = dt) as -> by congruence. congruence.
Qed.

(** ** Properties *)

(** The thermal state, when it is known. *)
Definition in_state (inp : DecisionInput.t) (s : ThermalState) : Prop :=
  DecisionInput.thermal_known inp = true /\ DecisionInput.thermal_state inp = s.

Definition over_soft_target (inp : DecisionInput.t) : bool :=
  match DecisionInput.soft_target inp with
  | Some s => (value s <? value (DecisionInput.requested_power inp))%float
  | None => false
  end.

Lemma in_stateb (inp : DecisionInput.t) (s : ThermalState) :
  DecisionInput.thermal_known inp && bool_decide (DecisionInput.thermal_state inp = s) = true <-> in_state inp s.
Proof. rewrite andb_true_iff, bool_decide_eq_true. reflexivity. Qed.

Lemma in_stateb_false (inp : DecisionInput.t) (s : ThermalState) :
  DecisionInput.thermal_known inp && bool_decide (DecisionInput.thermal_state inp = s) = false <-> ~ in_state inp s.
Proof. rewrite <- in_stateb. symmetry. apply not_true_iff_false. Qed.

(** When steps 3 to 7 allow, and when they leave the default. *)
Lemma constrained_verdict_cases (inp : DecisionInput.t) (limit : option Watts) (kind : string) :
  let r := value (DecisionInput.requested_power inp) in
  let c := ceiling_value limit in
  match constrained_verdict inp limit kind with
  | None => no_capacity r c = false /\ exceeds r c = false /\ ~ in_state inp THERMALLY_CONSTRAINED /\
      ~ in_state inp RECOVERING /\ over_soft_target inp = false /\ energy_exceeded inp = false
  | Some (v, _, l, _) =>
      (v <> ALLOW /\ l = limit /\
        (no_capacity r c = true \/ exceeds r c = true \/ in_state inp THERMALLY_CONSTRAINED \/ in_state inp RECOVERING \/
         (over_soft_target inp = false /\ energy_exceeded inp = true))) \/
      (no_capacity r c = false /\ exceeds r c = false /\ ~ in_state inp THERMALLY_CONSTRAINED /\
       ~ in_state inp RECOVERING /\ over_soft_target inp = true /\
        ((v = ALLOW /\ l = limit /\ DecisionInput.burst_available inp && (r <=? c)%float = true) \/
         (v = ALLOW_WITH_LIMIT /\ l = DecisionInput.soft_target inp /\ DecisionInput.burst_available inp && (r <=? c)%float = false)))
  end.
Proof.
  intros r c. unfold constrained_verdict. cbv zeta. fold (over_soft_target inp). fold r. fold c.
  fold (no_capacity r c). fold (exceeds r c).
  pose proof (in_stateb inp THERMALLY_CONSTRAINED) as C1. pose proof (in_stateb_false inp THERMALLY_CONSTRAINED) as C2.
  pose proof (in_stateb inp RECOVERING) as R1. pose proof (in_stateb_false inp RECOVERING) as R2.
  destruct (_ && bool_decide (DecisionInput.thermal_state inp = THERMALLY_CONSTRAINED)).
  - destruct (no_capacity r c); [left; split_and!; auto; discriminate|].
    destruct (exceeds r c); [destruct (_ && true); left; split_and!; auto; discriminate|].
    left. split_and!; auto; try discriminate. right. right. left. apply C1. reflexivity.
  - destruct (no_capacity r c); [left; split_and!; auto; discriminate|].
    destruct (_ && bool_decide (DecisionInput.thermal_state inp = RECOVERING)).
    + rewrite andb_false_r. destruct (exceeds r c); left; split_and!; auto; try discriminate.
      right. right. right. left. apply R1. reflexivity.
    + rewrite andb_false_r. destruct (exceeds r c); [left; split_and!; auto; discriminate|].
      specialize (proj1 C2 eq_refl). specialize (proj1 R2 eq_refl). clear C1 C2 R1 R2. intros HR HC.
      destruct (over_soft_target inp).
      * destruct (_ && (r <=? c)%float) eqn:Eb; right; split_and!; auto.
      * destruct (energy_exceeded inp); [left; split_and!; auto 10; discriminate|]. split_and!; auto.
Qed.

(** What ALLOW says of the input. *)
Lemma allow_facts (inp : DecisionInput.t) (now : Timestamp) (e e' : t) (d : Decision.t) :
  valid_input inp -> evaluate inp now e = (Ret d, e') -> Decision.verdict d = ALLOW ->
  is_stale (DecisionInput.power_freshness inp) = false /\
  ~ in_state inp THERMALLY_CONSTRAINED /\ ~ in_state inp RECOVERING /\
  forall c, c ∈ caps inp -> exceeds (value (DecisionInput.requested_power inp)) (value c) = false.
Proof.
  intros Hv Hev Hd. destruct (ceiling_tests inp Hv) as (Hx & _ & _). cbv zeta in Hx.
  pose proof (constrained_verdict_cases inp (ceiling_of inp).1 (ceiling_of inp).2) as Hc. cbv zeta in Hc.
  destruct (evaluate_cases inp now e _ e' Hev) as [(Hs & reasons & kind & Hm)|[(Hs & v & reasons & limit & kind & E & Hm)|(Hs & E & Hm)]].
  - destruct (make_verdict_Ret inp now REVALIDATION_REQUIRED reasons None kind e) as (d' & e2 & Em & Hd' & _).
    rewrite Em in Hm. injection Hm as <- _. congruence.
  - rewrite E in Hc. apply orb_false_iff in Hs as [_ Hst]. split; [exact Hst|].
    destruct (make_verdict_Ret inp now v reasons limit kind e) as (d' & e2 & Em & Hd' & _).
    rewrite Em in Hm. injection Hm as <- _. rewrite Hd in Hd'. subst v.
    destruct Hc as [(Hne & _)|(_ & H2 & H3 & H4 & _)]; [congruence|]. split_and!; auto. apply Hx, H2.
  - rewrite E in Hc. destruct Hc as (_ & H2 & H3 & H4 & _). apply orb_false_iff in Hs as [_ Hst].
    split_and!; auto. apply Hx, H2.
Qed.

(** Stale telemetry decides nothing. *)
Lemma stale_facts (inp : DecisionInput.t) (now : Timestamp) (e e' : t) (d : Decision.t) :
  is_stale (DecisionInput.power_freshness inp) = true -> evaluate inp now e = (Ret d, e') ->
  Decision.verdict d = REVALIDATION_REQUIRED /\ Decision.recommended_limit d = None.
Proof.
  intros Hs Hev. destruct (evaluate_cases inp now e _ e' Hev) as [(_ & reasons & kind & Hm)|[(H & _)|(H & _)]];
    [|rewrite Hs, orb_true_r in H; discriminate..].
  destruct (make_verdict_Ret inp now REVALIDATION_REQUIRED reasons None kind e) as (d' & e2 & Em & Hv & Hl & _).
  rewrite Em in Hm. injection Hm as <- _. auto.
Qed.

(** C11: the engine answers ALLOW exactly when the policy is current and the
    telemetry is not stale, the device is neither constrained nor recovering,
    the request passes the capacity tests against every ceiling, and either it
    is over the soft target and covered by a burst within every ceiling, or it
    is within the soft target and the energy window and no earlier restrictive
    verdict is held. *)
Theorem allow_iff (inp : DecisionInput.t) (now : Timestamp) (e e' : t) (d : Decision.t) :
  valid_input inp -> evaluate inp now e = (Ret d, e') ->
  let r := value (DecisionInput.requested_power inp) in
  Decision.verdict d = ALLOW <->
  DecisionInput.policy_current inp = true /\ is_stale (DecisionInput.power_freshness inp) = false /\
  ~ in_state inp THERMALLY_CONSTRAINED /\ ~ in_state inp RECOVERING /\
  (forall c, c ∈ caps inp -> exceeds r (value c) = false /\ no_capacity r (value c) = false) /\
  if over_soft_target inp
  then DecisionInput.burst_available inp = true /\ forall c, c ∈ caps inp -> (r <=? value c)%float = true
  else energy_exceeded inp = false /\ forall v, ~ held e inp now v.
Proof.
  intros Hv Hev r. destruct (ceiling_tests inp Hv) as (Hx & Hn & Hb). fold r in Hx, Hn, Hb.
  pose proof (constrained_verdict_cases inp (ceiling_of inp).1 (ceiling_of inp).2) as Hc. cbv zeta in Hc. fold r in Hc.
  assert (Hcaps : (forall c, c ∈ caps inp -> exceeds r (value c) = false /\ no_capacity r (value c) = false) <->
    exceeds r (ceiling_value (ceiling_of inp).1) = false /\ no_capacity r (ceiling_value (ceiling_of inp).1) = false).
  { rewrite Hx, Hn. split; [intros H; split; intros c Hin; apply (H c Hin)|intros [H1 H2] c Hin; auto]. }
  assert (Hif : (if over_soft_target inp
    then DecisionInput.burst_available inp = true /\ forall c, c ∈ caps inp -> (r <=? value c)%float = true
    else energy_exceeded inp = false /\ forall v, ~ held e inp now v) <->
    (if over_soft_target inp
     then DecisionInput.burst_available inp = true /\ (r <=? ceiling_value (ceiling_of inp).1)%float = true
     else energy_exceeded inp = false /\ forall v, ~ held e inp now v)) by (destruct (over_soft_target inp); tauto).
  rewrite Hcaps, Hif. clear Hx Hn Hb Hcaps Hif.
  destruct (evaluate_cases inp now e _ e' Hev) as [(Hs & reasons & kind & Hm)|[(Hs & v & reasons & limit & kind & E & Hm)|(Hs & E & Hm)]].
  - destruct (make_verdict_Ret inp now REVALIDATION_REQUIRED reasons None kind e) as (d' & e2 & Em & Hd & _).
    rewrite Em in Hm. injection Hm as <- _. rewrite Hd. split; [discriminate|]. intros (Hp & Hst & _).
    rewrite Hp, Hst in Hs. discriminate.
  - rewrite E in Hc. apply orb_false_iff in Hs as [Hp Hst]. apply negb_false_iff in Hp.
    destruct (make_verdict_Ret inp now v reasons limit kind e) as (d' & e2 & Em & Hd & _).
    rewrite Em in Hm. injection Hm as <- _. rewrite Hd. clear Em Hd Hev E.
    destruct Hc as [(Hne & _ & Hwhy)|(H1 & H2 & H3 & H4 & H5 & Hbr)].
    + split; [congruence|]. intros (_ & _ & Nc & Nr & [Hex Hno] & Hsoft). exfalso.
      destruct Hwhy as [?|[?|[?|[?|[Hso Hen]]]]]; try congruence; try tauto. rewrite Hso in Hsoft. destruct Hsoft. congruence.
    + rewrite H5, H1, H2. destruct Hbr as [(-> & _ & Hbt)|(-> & _ & Hbt)].
      * apply andb_prop in Hbt as [-> ->]. tauto.
      * split; [discriminate|]. intros (_ & _ & _ & _ & _ & Hbu & Hle). rewrite Hbu, Hle in Hbt. discriminate.
  - rewrite E in Hc. destruct Hc as (H1 & H2 & H3 & H4 & H5 & H6). apply orb_false_iff in Hs as [Hp Hst]. apply negb_false_iff in Hp.
    rewrite H5, H1, H2. apply default_verdict_cases in Hm as [_ [(Hd & Hno & _)|(Hh & _)]].
    + rewrite Hd. tauto.
    + split.
      * intros Hd. exfalso. destruct Hh as (at_ & dt & _ & Hne & _). apply Hne, Hd.
      * intros (_ & _ & _ & _ & _ & _ & Hno). exfalso. exact (Hno _ Hh).
Qed.

(** C12: whatever the verdict, the recommended limit exceeds no ceiling, up to
    the tolerance: it is the lowest ceiling, or the soft target. *)
Theorem recommended_limit_within_caps (inp : DecisionInput.t) (now : Timestamp) (e e' : t) (d : Decision.t) (w c : Watts) :
  valid_input inp -> evaluate inp now e = (Ret d, e') -> Decision.recommended_limit d = Some w -> c ∈ caps inp ->
  val (value w) <= rnd (val (value c) + val eps) /\ (w ∈ caps inp \/ DecisionInput.soft_target inp = Some w).
Proof.
  intros Hv Hev Hw Hc. pose proof (ceiling_lowest inp Hv) as Hl. destruct (ceiling_tests inp Hv) as (Hx & _ & _).
  pose proof Hv as (Hn & Hr & Hsoft). pose proof (Hn c Hc) as Hcn. pose proof val_eps_pos as Heps.
  assert (Hmin : (ceiling_of inp).1 = Some w -> val (value w) <= rnd (val (value c) + val eps) /\ (w ∈ caps inp \/ DecisionInput.soft_target inp = Some w)).
  { intros E. rewrite E in Hl. destruct Hl as [Hin Hle]. split; [|auto]. specialize (Hle c Hc).
    pose proof (rnd_mono (val (value c)) (val (value c) + val eps) ltac:(lia)). rewrite rnd_val in *. lia. }
  pose proof (constrained_verdict_cases inp (ceiling_of inp).1 (ceiling_of inp).2) as Hcv. cbv zeta in Hcv.
  destruct (evaluate_cases inp now e _ e' Hev) as [(_ & reasons & kind & Hm)|[(_ & v & reasons & limit & kind & E & Hm)|(_ & E & Hm)]].
  - destruct (make_verdict_Ret inp now REVALIDATION_REQUIRED reasons None kind e) as (d' & e2 & Em & _ & Hlim & _).
    rewrite Em in Hm. injection Hm as <- _. congruence.
  - rewrite E in Hcv. destruct (make_verdict_Ret inp now v reasons limit kind e) as (d' & e2 & Em & _ & Hlim & _).
    rewrite Em in Hm. injection Hm as <- _. rewrite Hlim in Hw. clear Em Hlim.
    destruct Hcv as [(_ & -> & _)|(_ & Hex & _ & _ & Hos & [(_ & -> & _)|(_ & Hls & _)])]; [auto|auto|].
    rewrite Hls in Hw. split; [|auto]. unfold over_soft_target in Hos. rewrite Hw in Hos.
    rewrite nonneg_ltb in Hos by auto. pose proof (proj1 Hx Hex c Hc) as Hle. unfold exceeds in Hle.
    apply add_ltb_false in Hle; [lia|apply Hcn|apply eps_finite|apply Hr].
  - apply default_verdict_cases in Hm as [_ [(_ & _ & Hlim)|(_ & [Hlim|[Hnone _]])]].
    + apply Hmin. congruence.
    + apply Hmin. congruence.
    + rewrite Hnone in Hl. change (caps inp = []) in Hl. rewrite Hl in Hc. apply elem_of_nil in Hc as [].
Qed.

(** A request of 80 W from a device with a hardware cap and room in its budget. *)
Definition sample_input (request : double) (soft : option Watts) : DecisionInput.t :=
  DecisionInput.mk (mkQ 50) true W0 false J0 false (mkQ request) J0 0
    (Some (mkQ 100)) (Some (mkQ 90)) soft (Some (mkQ 95))
    NORMAL true (mkQ 0.5) true THROUGHPUT (default_rule_for THROUGHPUT)
    (PowerPolicy.defaults (mkId 1) "default") true CURRENT MEASURED false false false 0 BALANCED
    (Some leaf_id) [root_id] 0.

Lemma sample_input_valid (request : double) (soft : option Watts) :
  nonneg request -> (forall s, soft = Some s -> nonneg (value s)) -> valid_input (sample_input request soft).
Proof.
  intros Hr Hs. split; [|split; [exact Hr|exact Hs]]. intros c Hc. cbn in Hc.
  rewrite !elem_of_cons, elem_of_nil in Hc. destruct Hc as [->|[->|[->|[]]]]; apply nonnegb; vm_compute; reflexivity.
Qed.

Definition sample_engine : t := init 1.
Definition sample_decision (request : double) (soft : option Watts) : Decision.t :=
  match (evaluate (sample_input request soft) (mkTime 1000) sample_engine).1 with
  | Ret d => d
  | _ => Decision.mk invalid_id gen_null never UNKNOWN [] BALANCED None
           (fill_explanation (sample_input request soft) None EmptyString []) EmptyString EmptyString
  end.

Lemma sample_evaluates (request : double) (soft : option Watts) :
  (match (evaluate (sample_input request soft) (mkTime 1000) sample_engine).1 with Ret _ => true | _ => false end) = true ->
  evaluate (sample_input request soft) (mkTime 1000) sample_engine =
    (Ret (sample_decision request soft), (evaluate (sample_input request soft) (mkTime 1000) sample_engine).2).
Proof. unfold sample_decision. destruct (evaluate _ _ _) as [[d|x| |] e']; cbn; congruence. Qed.

Lemma allow_iff_witness :
  Decision.verdict (sample_decision 80 None) = ALLOW <->
  DecisionInput.policy_current (sample_input 80 None) = true /\
  is_stale (DecisionInput.power_freshness (sample_input 80 None)) = false /\
  ~ in_state (sample_input 80 None) THERMALLY_CONSTRAINED /\ ~ in_state (sample_input 80 None) RECOVERING /\
  (forall c, c ∈ caps (sample_input 80 None) -> exceeds 80 (value c) = false /\ no_capacity 80 (value c) = false) /\
  if over_soft_target (sample_input 80 None)
  then DecisionInput.burst_available (sample_input 80 None) = true /\
    forall c, c ∈ caps (sample_input 80 None) -> (80 <=? value c)%float = true
  else energy_exceeded (sample_input 80 None) = false /\
    forall v, ~ held sample_engine (sample_input 80 None) (mkTime 1000) v.
Proof.
  apply (allow_iff (sample_input 80 None) (mkTime 1000) sample_engine
    (evaluate (sample_input 80 None) (mkTime 1000) sample_engine).2 (sample_decision 80 None)).
  - apply sample_input_valid; [apply nonnegb; vm_compute; reflexivity|discriminate].
  - apply sample_evaluates. vm_compute. reflexivity.
Defined.

Lemma recommended_limit_within_caps_witness :
  val 70 <= rnd (val 90 + val eps) /\
  (mkQ 70 ∈ caps (sample_input 80 (Some (mkQ 70))) \/ DecisionInput.soft_target (sample_input 80 (Some (mkQ 70))) = Some (mkQ 70)).
Proof.
  apply (recommended_limit_within_caps (sample_input 80 (Some (mkQ 70))) (mkTime 1000) sample_engine
    (evaluate (sample_input 80 (Some (mkQ 70))) (mkTime 1000) sample_engine).2 (sample_decision 80 (Some (mkQ 70))) (mkQ 70) (mkQ 90)).
  - apply sample_input_valid; [apply nonnegb; vm_compute; reflexivity|].
    intros s [= <-]. apply nonnegb. vm_compute. reflexivity.
  - apply sample_evaluates. vm_compute. reflexivity.
  - vm_compute. reflexivity.
  - right. left.
Defined.

(** ** The hysteresis *)
Definition evaluate_all (l : list (DecisionInput.t * Timestamp)) (e : t) : list (outcome Decision.t) * t :=
  foldl (fun acc p => let '(o, e') := evaluate p.1 p.2 acc.2 in (acc.1 ++ [o], e')) ([], e) l.

(** An input that nothing restricts: only the hold can keep it from ALLOW. *)
Definition unrestricted (inp : DecisionInput.t) : Prop :=
  DecisionInput.policy_current inp = true /\ is_stale (DecisionInput.power_freshness inp) = false /\
  constrained_verdict inp (ceiling_of inp).1 (ceiling_of inp).2 = None.

(** Each evaluation comes within the stable duration of the one before it. *)
Fixpoint frequent (before : Timestamp) (l : list (DecisionInput.t * Timestamp)) : Prop :=
  match l with
  | [] => True
  | (inp, now) :: l =>
      valid_time now /\
      Z.max 0 (time_ns now - time_ns before) < ns (PowerPolicy.min_stable_duration (DecisionInput.policy inp)) /\
      frequent now l
  end.

Lemma hold_step (inp : DecisionInput.t) (now at_ : Timestamp) (v : DecisionVerdict) (e : t) :
  unrestricted inp -> last_ e = Some (v, at_) -> v <> ALLOW -> valid_time at_ -> valid_time now ->
  Z.max 0 (time_ns now - time_ns at_) < ns (PowerPolicy.min_stable_duration (DecisionInput.policy inp)) ->
  exists d e', evaluate inp now e = (Ret d, e') /\ Decision.verdict d = v /\ last_ e' = Some (v, now).
Proof.
  intros (Hp & Hs & Hc) El Hv Ha Hn Hgap. unfold evaluate. rewrite Hp, Hs. cbn [negb orb].
  destruct (ceiling_of inp) as [limit kind]. cbn [fst snd] in Hc. rewrite Hc.
  unfold default_verdict. rewrite sbind_sget, El, bool_decide_false by exact Hv.
  rewrite elapsed_since_valid, sbind_lift by assumption. unfold duration_ltb. cbn [ns].
  rewrite (proj2 (Z.ltb_lt _ _) Hgap).
  destruct (_ && _); edestruct make_verdict_Ret as (d & e' & Em & Hd & _ & _ & _ & _ & _ & Hl & _);
    exists d, e'; split_and!; eauto.
Qed.

(** The hysteresis does not end.  Every held verdict is remembered with the
    time of its own evaluation, so as long as evaluations come within the stable
    duration of one another, a restrictive verdict is repeated for ever, however
    long ago the restriction ended. *)
Theorem hysteresis_holds_for_ever (l : list (DecisionInput.t * Timestamp)) (e : t) (v : DecisionVerdict) (at_ : Timestamp) :
  last_ e = Some (v, at_) -> v <> ALLOW -> valid_time at_ ->
  Forall (fun p => unrestricted p.1) l -> frequent at_ l ->
  Forall (fun o => exists d, o = Ret d /\ Decision.verdict d = v) (evaluate_all l e).1.
Proof.
  intros El Hv Ha Hl Hf.
  assert (Hgen : forall l e at_ acc, last_ e = Some (v, at_) -> valid_time at_ -> Forall (fun p => unrestricted p.1) l ->
    frequent at_ l -> Forall (fun o => exists d, o = Ret d /\ Decision.verdict d = v) acc ->
    Forall (fun o => exists d, o = Ret d /\ Decision.verdict d = v)
      (foldl (fun acc p => let '(o, e') := evaluate p.1 p.2 acc.2 in (acc.1 ++ [o], e')) (acc, e) l).1).
  { clear -Hv. induction l as [|[inp now] l IH]; intros e at_ acc El Ha Hl Hf Hacc; cbn [foldl fst snd]; [exact Hacc|].
    inversion Hl as [|? ? Hu Hl']; subst. destruct Hf as (Hn & Hgap & Hf).
    destruct (hold_step inp now at_ v e Hu El Hv Ha Hn Hgap) as (d & e' & Ee & Hd & El'). rewrite Ee.
    apply (IH e' now); auto. apply Forall_app. split; [exact Hacc|]. repeat constructor. eauto. }
  apply (Hgen l e at_ []); auto.
Qed.

(** A throttled device, polled every 100 ms after the restriction is gone. *)
Definition throttled_engine : t := mk (Some (THROTTLE, mkTime 0)) gen_first 1.
Definition polls : list (DecisionInput.t * Timestamp) :=
  (fun i => (sample_input 80 None, mkTime (100000000 * Z.of_nat i))) <$> seq 1 50.

Lemma hysteresis_holds_for_ever_witness :
  Forall (fun o => exists d, o = Ret d /\ Decision.verdict d = THROTTLE) (evaluate_all polls throttled_engine).1.
Proof.
  apply (hysteresis_holds_for_ever polls throttled_engine THROTTLE (mkTime 0)); [reflexivity|discriminate|split; vm_compute; discriminate| |].
  - apply Forall_forall. intros p Hp. apply list_elem_of_fmap in Hp as (i & -> & _). split_and!; vm_compute; reflexivity.
  - vm_compute. repeat split; discriminate.
Defined.

(** All decisions of an engine carry the same generation: the engine never
    advances it. *)
Lemma generation_constant (inp : DecisionInput.t) (now : Timestamp) (e e' : t) (d : Decision.t) :
  evaluate inp now e = (Ret d, e') -> Decision.generation d = gen_next (gen_ e) /\ gen_ e' = gen_ e.
Proof.
  intros Hev. destruct (evaluate_cases inp now e _ e' Hev) as [(_ & reasons & kind & Hm)|[(_ & v & reasons & limit & kind & _ & Hm)|(_ & _ & Hm)]].
  - destruct (make_verdict_Ret inp now REVALIDATION_REQUIRED reasons None kind e) as (d' & e2 & Em & H). rewrite Em in Hm.
    injection Hm as <- <-. tauto.
  - destruct (make_verdict_Ret inp now v reasons limit kind e) as (d' & e2 & Em & H). rewrite Em in Hm. injection Hm as <- <-. tauto.
  - unfold default_verdict in Hm. rewrite sbind_sget in Hm.
    repeat match type of Hm with
    | context [match ?x with _ => _ end] => destruct x
    | sbind (slift ?o) _ _ = _ => destruct o; [rewrite sbind_lift in Hm|discriminate|discriminate|discriminate]
    end; injection Hm as <- <-; split; reflexivity.
Qed.
