(* ===== verification/Equality.v ===== *)
(** * The comparisons of the data (the [operator==] of the headers)

    Each comparison as the source writes it, member by member.  [operator==] compares
    doubles as doubles and optional values with their presence.  The comparisons are
    reflexive on data the constructors accept; that of policies leaves two members out
    ([policy_equality_blind]), so equal policies can rule differently. *)
From S2P Require Import Prelude Binary64 Units Ids Clock Budget Authority WorkloadClass Thermal Policy Reservation DecisionEngine.
Local Open Scope Z_scope.
#[local] Set Warnings "-inexact-float".

(** [std::optional]: both empty, or both present and equal. *)
Definition option_eqb {A : Type} (eqb : A -> A -> bool) (a b : option A) : bool :=
  match a, b with Some a, Some b => eqb a b | None, None => true | _, _ => false end.
Definition duration_eqb (a b : Duration) : bool := ns a =? ns b.
Definition time_eqb (a b : Timestamp) : bool := time_ns a =? time_ns b.
Definition bool_eqb (a b : bool) : bool := Bool.eqb a b.

Definition energy_window_eqb (a b : EnergyWindow) : bool :=
  q_eqb (ew_budget a) (ew_budget b) && duration_eqb (ew_window a) (ew_window b) && bool_eqb (ew_enforce a) (ew_enforce b).

Definition burst_limits_eqb (a b : BurstLimits) : bool :=
  q_eqb (allowance a) (allowance b) && duration_eqb (burst_limit_window a) (burst_limit_window b)
  && duration_eqb (refill a) (refill b) && bool_eqb (enabled a) (enabled b).

Definition oversubscription_eqb (a b : OversubscriptionPolicy) : bool :=
  bool_eqb (oversubscription_allowed a) (oversubscription_allowed b)
  && (max_overcommit_factor a =? max_overcommit_factor b)%float && bool_eqb (require_authority a) (require_authority b).

Definition controls_eqb (a b : HardwareControlPermissions) : bool :=
  bool_eqb (perm_set_power_limit a) (perm_set_power_limit b) && bool_eqb (perm_set_clocks a) (perm_set_clocks b).

Definition class_rule_eqb (a b : WorkloadClassRule) : bool :=
  bool_decide (rule_cls a = rule_cls b) && (rule_priority a =? rule_priority b)
  && option_eqb q_eqb (max_power_share a) (max_power_share b) && option_eqb q_eqb (energy_target a) (energy_target b)
  && bool_eqb (burst_eligible a) (burst_eligible b) && (latency_sensitivity a =? latency_sensitivity b)
  && (throttling_tolerance a =? throttling_tolerance b) && (min_service_level a =? min_service_level b)%float.

Definition perf_set_eqb (a b : PerformanceStateSet) : bool :=
  bool_decide (requested a = requested b) && bool_decide (effective a = effective b)
  && bool_decide (observed a = observed b) && bool_eqb (throttling_inferred a) (throttling_inferred b).

Definition envelope_eqb (a b : AuthorityEnvelope) : bool :=
  gen_eqb (env_epoch a) (env_epoch b) && id_eqb (env_boot a) (env_boot b) && gen_eqb (env_policy a) (env_policy b)
  && gen_eqb (env_budget a) (env_budget b) && gen_eqb (env_reservation a) (env_reservation b)
  && gen_eqb (env_observation a) (env_observation b) && gen_eqb (env_decision a) (env_decision b)
  && gen_eqb (env_device a) (env_device b).

Module PolicyEquality.
Import PowerPolicy.
Definition eqb (a b : t) : bool :=
  id_eqb (id a) (id b) && gen_eqb (generation a) (generation b) && String.eqb (name a) (name b)
  && option_eqb q_eqb (fleet_hard_cap a) (fleet_hard_cap b) && option_eqb q_eqb (node_hard_cap a) (node_hard_cap b)
  && option_eqb q_eqb (device_hard_cap a) (device_hard_cap b) && option_eqb q_eqb (soft_target a) (soft_target b)
  && energy_window_eqb (energy_window a) (energy_window b) && burst_limits_eqb (burst_limits a) (burst_limits b)
  && (default_priority a =? default_priority b) && (min_reserve_fraction a =? min_reserve_fraction b)%float
  && oversubscription_eqb (oversubscription a) (oversubscription b) && bool_decide (degraded_mode a = degraded_mode b)
  && controls_eqb (hardware_controls a) (hardware_controls b)
  && duration_eqb (observation_freshness a) (observation_freshness b)
  && duration_eqb (observation_stale a) (observation_stale b)
  && duration_eqb (observation_expired a) (observation_expired b)
  && duration_eqb (min_stable_duration a) (min_stable_duration b)
  && duration_eqb (decision_hysteresis a) (decision_hysteresis b)
  && duration_eqb (recovery_threshold a) (recovery_threshold b).
End PolicyEquality.

Module BudgetEquality.
Import PowerBudget.
Definition eqb (a b : t) : bool :=
  id_eqb (id a) (id b) && gen_eqb (generation a) (generation b) && id_eqb (domain a) (domain b)
  && gen_eqb (policy_generation a) (policy_generation b) && option_eqb id_eqb (parent a) (parent b)
  && String.eqb (name a) (name b) && q_eqb (hard_max a) (hard_max b) && q_eqb (soft_target a) (soft_target b)
  && q_eqb (min_reserve a) (min_reserve b) && q_eqb (burst_allowance a) (burst_allowance b)
  && duration_eqb (burst_window a) (burst_window b) && duration_eqb (recovery a) (recovery b)
  && (priority a =? priority b) && bool_eqb (authoritative a) (authoritative b).
End BudgetEquality.

Module ReservationEquality.
Import Reservation.
Definition eqb (a b : t) : bool :=
  id_eqb (id a) (id b) && gen_eqb (generation a) (generation b) && id_eqb (workload a) (workload b)
  && id_eqb (request_class a) (request_class b) && bool_decide (power_class a = power_class b)
  && id_eqb (scope a) (scope b) && id_eqb (budget a) (budget b) && q_eqb (requested_power a) (requested_power b)
  && q_eqb (requested_energy a) (requested_energy b) && gen_eqb (policy_generation a) (policy_generation b)
  && gen_eqb (device_generation a) (device_generation b) && gen_eqb (budget_generation a) (budget_generation b)
  && time_eqb (created a) (created b) && duration_eqb (validity a) (validity b) && bool_decide (state a = state b)
  && q_eqb (reserved_power a) (reserved_power b) && q_eqb (energy_used a) (energy_used b).
End ReservationEquality.

Module DecisionEquality.
Import Decision.
Definition eqb (a b : t) : bool :=
  bool_decide (verdict a = verdict b) && option_eqb q_eqb (recommended_limit a) (recommended_limit b)
  && gen_eqb (generation a) (generation b) && String.eqb (digest a) (digest b).
End DecisionEquality.

(** ** Facts *)
Lemma option_eqb_refl {A : Type} (eqb : A -> A -> bool) (o : option A) :
  (forall a, o = Some a -> eqb a a = true) -> option_eqb eqb o o = true.
Proof. destruct o; cbn; auto. Qed.

Lemma q_eqb_refl {Tag : Set} (q : Quantity Tag) : isfinite (value q) = true -> q_eqb q q = true.
Proof.
  intros H. unfold q_eqb. rewrite FloatAxioms.eqb_spec. unfold SFeqb. rewrite compare_val by exact H.
  rewrite Z.compare_refl. reflexivity.
Qed.

Lemma id_eqb_refl {Tag : Set} (i : StrongId Tag) : id_eqb i i = true.
Proof. apply id_eqb_eq. reflexivity. Qed.
Lemma gen_eqb_refl {Tag : Set} (g : Generation Tag) : gen_eqb g g = true.
Proof. apply gen_eqb_eq. reflexivity. Qed.

(** A reservation is recognised whatever happened to its authority and its times. *)
Lemma reservation_equality_blind (r : Reservation.t) (a : AuthorityEnvelope) (x y : Timestamp) :
  isfinite (value (Reservation.requested_power r)) = true -> isfinite (value (Reservation.requested_energy r)) = true ->
  isfinite (value (Reservation.reserved_power r)) = true -> isfinite (value (Reservation.energy_used r)) = true ->
  ReservationEquality.eqb r
    (Reservation.mk (Reservation.id r) (Reservation.generation r) (Reservation.workload r) (Reservation.request_class r)
       (Reservation.power_class r) (Reservation.scope r) (Reservation.budget r) (Reservation.requested_power r)
       (Reservation.requested_energy r) (Reservation.policy_generation r) (Reservation.device_generation r)
       (Reservation.budget_generation r) a (Reservation.created r) (Reservation.validity r) (Reservation.state r)
       (Reservation.reserved_power r) (Reservation.energy_used r) x y) = true.
Proof.
  intros H1 H2 H3 H4. unfold ReservationEquality.eqb, time_eqb, duration_eqb. cbn -[q_eqb id_eqb gen_eqb Z.eqb bool_decide].
  rewrite !id_eqb_refl, !gen_eqb_refl, !Z.eqb_refl, !q_eqb_refl, !bool_decide_true by (assumption || reflexivity). reflexivity.
Qed.

(** The quantities of a policy are those a constructor accepted. *)
Definition finite_caps (p : PowerPolicy.t) : Prop :=
  (forall w, PowerPolicy.fleet_hard_cap p = Some w \/ PowerPolicy.node_hard_cap p = Some w \/
     PowerPolicy.device_hard_cap p = Some w \/ PowerPolicy.soft_target p = Some w -> isfinite (value w) = true) /\
  isfinite (value (ew_budget (PowerPolicy.energy_window p))) = true /\
  isfinite (value (allowance (PowerPolicy.burst_limits p))) = true /\
  isfinite (PowerPolicy.min_reserve_fraction p) = true /\
  isfinite (max_overcommit_factor (PowerPolicy.oversubscription p)) = true.

Definition with_rules (th : ThermalThresholds) (rules : gmap WorkloadPowerClass WorkloadClassRule) (p : PowerPolicy.t) : PowerPolicy.t :=
  PowerPolicy.mk (PowerPolicy.id p) (PowerPolicy.generation p) (PowerPolicy.name p) (PowerPolicy.fleet_hard_cap p)
    (PowerPolicy.node_hard_cap p) (PowerPolicy.device_hard_cap p) (PowerPolicy.soft_target p) (PowerPolicy.energy_window p)
    (PowerPolicy.burst_limits p) th (PowerPolicy.default_priority p) (PowerPolicy.min_reserve_fraction p)
    (PowerPolicy.oversubscription p) (PowerPolicy.degraded_mode p) (PowerPolicy.hardware_controls p)
    (PowerPolicy.observation_freshness p) (PowerPolicy.observation_stale p) (PowerPolicy.observation_expired p)
    (PowerPolicy.min_stable_duration p) (PowerPolicy.decision_hysteresis p) (PowerPolicy.recovery_threshold p) rules.

Lemma float_eqb_refl (x : double) : isfinite x = true -> (x =? x)%float = true.
Proof. apply (q_eqb_refl (Tag := WattsTag) (mkQ x)). Qed.

(** Every policy is equal to itself with any thermal thresholds and any rules for the
    classes of workloads. *)
Lemma policy_equality_blind (p : PowerPolicy.t) (th : ThermalThresholds) (rules : gmap WorkloadPowerClass WorkloadClassRule) :
  finite_caps p -> PolicyEquality.eqb p (with_rules th rules p) = true.
Proof.
  intros (Hc & He & Hb & Hm & Ho). unfold PolicyEquality.eqb, energy_window_eqb, burst_limits_eqb, oversubscription_eqb, controls_eqb, duration_eqb, bool_eqb. cbn -[q_eqb id_eqb gen_eqb Z.eqb bool_decide String.eqb option_eqb PrimFloat.eqb Bool.eqb].
  rewrite !id_eqb_refl, !gen_eqb_refl, !Z.eqb_refl, !String.eqb_refl, !Bool.eqb_reflx, !bool_decide_true by reflexivity.
  rewrite !q_eqb_refl, !float_eqb_refl by assumption.
  rewrite !option_eqb_refl by (intros; apply q_eqb_refl, Hc; auto). reflexivity.
Qed.
