(* ===== verification/Crc.v ===== *)
(** * What the CRC-32 of util.hpp detects

    One step of the register is a bijection of the 32-bit values, so feeding a
    byte never merges two registers; and feeding [n] bytes is feeding the
    register xored with the little-endian word they spell.  Two messages that
    differ only inside four consecutive bytes therefore have different sums. *)
From S2P Require Import Prelude Rounding Util.
Local Open Scope Z_scope.
#[local] Arguments Z.mul : simpl never.
#[local] Arguments Z.add : simpl never.
#[local] Arguments Z.pow : simpl never.
#[local] Arguments crc32_bit : simpl never.

(** The word a list of bytes spells, the first byte lowest. *)
Fixpoint le_word (l : list Z) : Z :=
  match l with
  | [] => 0
  | b :: l => Z.lxor b (Z.shiftl (le_word l) 8)
  end.

(** ** Values of a given width, by their bits *)
Lemma in_u_bits (w z : Z) : 0 <= w -> in_u w z <-> 0 <= z /\ forall i, w <= i -> Z.testbit z i = false.
Proof.
  intros Hw. split.
  - intros [H0 H1]. split; [assumption|]. intros i Hi.
    rewrite <- (Z.mod_small z (2 ^ w)) by lia. apply Z.mod_pow2_bits_high. lia.
  - intros [H0 H]. split; [assumption|]. destruct (Z.eq_dec z 0) as [->|Hz]; [apply Z.pow_pos_nonneg; lia|].
    apply Z.log2_lt_pow2; [lia|]. apply Z.nle_gt. intros Hl.
    assert (E : Z.testbit z (Z.log2 z) = true) by (apply Z.bit_log2; lia).
    rewrite H in E by assumption. discriminate.
Qed.

Lemma in_u_lxor (w a b : Z) : 0 <= w -> in_u w a -> in_u w b -> in_u w (Z.lxor a b).
Proof.
  intros Hw Ha Hb. apply in_u_bits in Ha as [Ha0 Ha], Hb as [Hb0 Hb]; [|assumption..].
  apply in_u_bits; [assumption|]. split; [apply Z.lxor_nonneg; intuition lia|].
  intros i Hi. rewrite Z.lxor_spec, Ha, Hb by assumption. reflexivity.
Qed.

Lemma lxor_cancel_l (a b c : Z) : Z.lxor a b = Z.lxor a c -> b = c.
Proof.
  intros H. rewrite <- (Z.lxor_0_l b), <- (Z.lxor_0_l c), <- (Z.lxor_nilpotent a), !Z.lxor_assoc, H. reflexivity.
Qed.

(** Bits below [w] and bits from [w] on do not meet. *)
Lemma land_disjoint (w r b : Z) : 0 <= w -> in_u w r -> Z.land r (Z.shiftl b w) = 0.
Proof.
  intros Hw Hr. apply Z.bits_inj'. intros i Hi. rewrite Z.land_spec, Z.shiftl_spec, Z.bits_0 by lia.
  apply in_u_bits in Hr as [_ Hr]; [|assumption]. destruct (Z.ltb_spec i w).
  - rewrite (Z.testbit_neg_r _ (i - w)) by lia. apply andb_false_r.
  - rewrite Hr by lia. reflexivity.
Qed.

(** ** One step *)
Lemma crc32_bit_odd (c : Z) : crc32_bit c = Z.lxor (Z.shiftr c 1) (if Z.odd c then crc_poly else 0).
Proof.
  unfold crc32_bit. f_equal. change 1 with (Z.ones 1) at 1. rewrite Z.land_ones by lia.
  change (2 ^ 1) with 2. rewrite Zmod_odd. destruct (Z.odd c); reflexivity.
Qed.

Lemma crc32_bit_range (c : Z) : in_u 32 c -> in_u 32 (crc32_bit c).
Proof.
  intros Hc. rewrite crc32_bit_odd. apply in_u_lxor; [lia| |].
  - rewrite Z.shiftr_div_pow2 by lia. unfold in_u in *. change (2 ^ 1) with 2. split.
    + apply Z.div_pos; lia.
    + apply Z.div_lt_upper_bound; lia.
  - destruct (Z.odd c); unfold in_u, crc_poly; lia.
Qed.

(** The top bit of the result is the bit shifted out. *)
Lemma crc32_bit_top (c : Z) : in_u 32 c -> Z.testbit (crc32_bit c) 31 = Z.odd c.
Proof.
  intros Hc. apply in_u_bits in Hc as [_ Hc]; [|lia]. rewrite crc32_bit_odd, Z.lxor_spec, Z.shiftr_spec by lia.
  change (31 + 1) with 32. rewrite Hc by lia. destruct (Z.odd c); reflexivity.
Qed.

Lemma crc32_bit_inj (c d : Z) : in_u 32 c -> in_u 32 d -> crc32_bit c = crc32_bit d -> c = d.
Proof.
  intros Hc Hd H. assert (Ho : Z.odd c = Z.odd d) by (rewrite <- !crc32_bit_top, H by assumption; reflexivity).
  rewrite !crc32_bit_odd, Ho in H. set (p := if Z.odd d then crc_poly else 0) in H.
  rewrite !(Z.lxor_comm _ p) in H. apply lxor_cancel_l in H.
  rewrite (Z.div2_odd c), (Z.div2_odd d), Ho, !Z.div2_spec, H. reflexivity.
Qed.

(** A change above the bit shifted out only moves down. *)
Lemma crc32_bit_shift (x y : Z) : crc32_bit (Z.lxor x (2 * y)) = Z.lxor (crc32_bit x) y.
Proof.
  rewrite !crc32_bit_odd, Z.shiftr_lxor. replace (Z.shiftr (2 * y) 1) with y.
  - replace (Z.odd (Z.lxor x (2 * y))) with (Z.odd x).
    + rewrite !Z.lxor_assoc. f_equal. apply Z.lxor_comm.
    + rewrite <- !Z.bit0_odd, Z.lxor_spec, (Z.bit0_odd (2 * y)), Z.odd_mul. cbn. rewrite xorb_false_r. reflexivity.
  - rewrite Z.shiftr_div_pow2 by lia. change (2 ^ 1) with 2. rewrite Z.mul_comm, Z.div_mul by lia. reflexivity.
Qed.

(** ** Several steps *)
Lemma crc32_bits_range (k : nat) (c : Z) : in_u 32 c -> in_u 32 (crc32_bits k c).
Proof. revert c. induction k; intros c Hc; cbn [crc32_bits]; auto using crc32_bit_range. Qed.

Lemma crc32_bits_inj (k : nat) (c d : Z) : in_u 32 c -> in_u 32 d -> crc32_bits k c = crc32_bits k d -> c = d.
Proof.
  revert c d. induction k as [|k IH]; intros c d Hc Hd; cbn [crc32_bits]; [auto|].
  intros H. apply IH in H; auto using crc32_bit_range, crc32_bit_inj.
Qed.

Lemma crc32_bits_add (j k : nat) (c : Z) : crc32_bits (j + k) c = crc32_bits k (crc32_bits j c).
Proof. revert c. induction j; intros c; cbn; auto. Qed.

Lemma crc32_bits_shift (k : nat) (x y : Z) :
  crc32_bits k (Z.lxor x (Z.shiftl y (Z.of_nat k))) = Z.lxor (crc32_bits k x) y.
Proof.
  revert x. induction k as [|k IH]; intros x; cbn [crc32_bits]; [rewrite Z.shiftl_0_r; reflexivity|].
  replace (Z.shiftl y (Z.of_nat (S k))) with (2 * Z.shiftl y (Z.of_nat k)).
  - rewrite crc32_bit_shift. apply IH.
  - rewrite !Z.shiftl_mul_pow2, Nat2Z.inj_succ, Z.pow_succ_r by lia. lia.
Qed.

Lemma crc32_update_app (c : Z) (l l' : list Z) : crc32_update c (l ++ l') = crc32_update (crc32_update c l) l'.
Proof. apply foldl_app. Qed.

Lemma crc32_update_range (c : Z) (l : list Z) : in_u 32 c -> Forall (in_u 8) l -> in_u 32 (crc32_update c l).
Proof.
  intros Hc Hl. revert c Hc. induction Hl as [|b l Hb Hl IH]; intros c Hc; [exact Hc|].
  apply IH, crc32_bits_range, in_u_lxor; [lia|assumption|]. unfold in_u in *. lia.
Qed.

(** The register forgets nothing of what it held. *)
Lemma crc32_update_inj (l : list Z) (c d : Z) : in_u 32 c -> in_u 32 d -> Forall (in_u 8) l ->
  crc32_update c l = crc32_update d l -> c = d.
Proof.
  intros Hc Hd Hl. revert c d Hc Hd. induction Hl as [|b l Hb Hl IH]; intros c d Hc Hd H; [exact H|].
  assert (Hb' : in_u 32 b) by (unfold in_u in *; lia).
  apply IH in H; [|apply crc32_bits_range, in_u_lxor; (assumption || lia)..].
  apply crc32_bits_inj in H; [|apply in_u_lxor; (assumption || lia)..].
  rewrite !(Z.lxor_comm _ b) in H. exact (lxor_cancel_l _ _ _ H).
Qed.

(** ** The word the bytes spell *)
Lemma crc32_update_word (l : list Z) (c : Z) :
  crc32_update c l = crc32_bits (8 * length l) (Z.lxor c (le_word l)).
Proof.
  revert c. induction l as [|b l IH]; intros c; cbn [le_word length].
  { cbn. rewrite Z.lxor_0_r. reflexivity. }
  change (crc32_update c (b :: l)) with (crc32_update (crc32_bits 8 (Z.lxor c b)) l).
  rewrite IH, <- Z.lxor_assoc. replace (8 * S (length l))%nat with (8 + 8 * length l)%nat by lia.
  rewrite crc32_bits_add. f_equal. symmetry. exact (crc32_bits_shift 8 _ _).
Qed.

Lemma le_word_cons (b : Z) (l : list Z) : in_u 8 b -> le_word (b :: l) = b + 256 * le_word l.
Proof.
  intros Hb. cbn [le_word]. rewrite <- Z.add_nocarry_lxor by (apply land_disjoint; [lia|assumption]).
  rewrite Z.shiftl_mul_pow2 by lia. lia.
Qed.

Lemma le_word_range (l : list Z) : Forall (in_u 8) l -> in_u (8 * Z.of_nat (length l)) (le_word l).
Proof.
  intros Hl. induction Hl as [|b l Hb Hl IH]; [unfold in_u; cbn; lia|].
  rewrite le_word_cons by assumption. cbn [length].
  replace (8 * Z.of_nat (S (length l))) with (8 + 8 * Z.of_nat (length l)) by lia.
  unfold in_u in *. rewrite Z.pow_add_r by lia. change (2 ^ 8) with 256 in *. lia.
Qed.

Lemma le_word_inj (l l' : list Z) : Forall (in_u 8) l -> Forall (in_u 8) l' ->
  length l = length l' -> le_word l = le_word l' -> l = l'.
Proof.
  intros Hl. revert l'. induction Hl as [|b l Hb Hl IH]; intros [|b' l'] Hl' Hlen; try discriminate; [reflexivity|].
  apply Forall_cons_1 in Hl' as [Hb' Hl']. injection Hlen as Hlen. rewrite !le_word_cons by assumption.
  unfold in_u in Hb, Hb'. change (2 ^ 8) with 256 in *. intros H. f_equal; [lia|].
  apply IH; [assumption..|lia].
Qed.

(** ** Error detection *)

(** Two strings of bytes that differ, inside at most four consecutive bytes. *)
Definition burst (d d' : list Z) : Prop :=
  exists pre l l' post, d = pre ++ l ++ post /\ d' = pre ++ l' ++ post /\
    length l' = length l /\ (length l <= 4)%nat /\ l' <> l.

Lemma burst_length (d d' : list Z) : burst d d' -> length d' = length d.
Proof. intros (pre & l & l' & post & -> & -> & H & _). rewrite !length_app, H. reflexivity. Qed.

Lemma crc32_update_burst (c : Z) (d d' : list Z) : in_u 32 c -> Forall (in_u 8) d -> Forall (in_u 8) d' ->
  burst d d' -> crc32_update c d' <> crc32_update c d.
Proof.
  intros Hc Hd Hd' (pre & l & l' & post & -> & -> & Hlen & H4 & Hne) H.
  apply Forall_app in Hd as [Hpre Hd], Hd' as [_ Hd']. apply Forall_app in Hd as [Hl Hpost], Hd' as [Hl' _].
  rewrite !crc32_update_app in H. set (s := crc32_update c pre) in *.
  assert (Hs : in_u 32 s) by (apply crc32_update_range; assumption).
  apply crc32_update_inj in H; [|auto using crc32_update_range..]. rewrite !crc32_update_word, Hlen in H.
  assert (Hw : forall m, Forall (in_u 8) m -> length m = length l -> in_u 32 (le_word m)).
  { intros m Hm Em. apply le_word_range in Hm. unfold in_u in *. split; [lia|].
    apply (Z.lt_le_trans _ (2 ^ (8 * Z.of_nat (length m)))); [lia|]. apply Z.pow_le_mono_r; lia. }
  apply crc32_bits_inj in H; [|apply in_u_lxor; [lia|assumption|auto]..].
  apply lxor_cancel_l in H. apply le_word_inj in H; auto.
Qed.

Lemma crc32_range (l : list Z) : Forall (in_u 8) l -> in_u 32 (crc32 l).
Proof.
  intros Hl. apply in_u_lxor; [lia| |unfold in_u; lia]. apply crc32_update_range; [unfold in_u; lia|assumption].
Qed.

(** The register a message leaves when its own sum follows it. *)
Definition crc_residue : Z := crc32_bits 32 0xFFFFFFFF.

Lemma crc32_residue (body trailer : list Z) :
  Forall (in_u 8) body -> Forall (in_u 8) trailer -> length trailer = 4%nat ->
  le_word trailer = crc32 body <-> crc32_update 0xFFFFFFFF (body ++ trailer) = crc_residue.
Proof.
  intros Hb Ht H4. rewrite crc32_update_app, crc32_update_word, H4. unfold crc32.
  set (s := crc32_update 0xFFFFFFFF body). change (8 * 4)%nat with 32%nat. split.
  - intros ->. rewrite <- Z.lxor_assoc, Z.lxor_nilpotent, Z.lxor_0_l. reflexivity.
  - intros H. apply crc32_bits_inj in H; [| |unfold in_u; lia].
    + rewrite <- H, <- Z.lxor_assoc, Z.lxor_nilpotent, Z.lxor_0_l. reflexivity.
    + apply le_word_range in Ht. rewrite H4 in Ht. apply in_u_lxor; [lia| |exact Ht].
      apply crc32_update_range; [unfold in_u; lia|assumption].
Qed.
