(* ===== verification/Wire.v ===== *)
(** * Little-endian wire format (the writers and readers of protocol.hpp)

    A writer appends bytes; a reader consumes them from the front of what
    remains, and fails when too few are left.  [reads enc dec] is the round trip
    every composite codec is built from, and [Stable dec] says that a reader
    that succeeds does not look past the bytes it takes, which makes a codec
    that ends in [at_end] refuse truncated and extended input.  [sealed] is the
    record with its CRC-32 behind it that frames and envelopes share. *)
From S2P Require Import Prelude Rounding Binary64 Util Crc.
Local Open Scope Z_scope.
#[local] Arguments Z.mul : simpl never.
#[local] Arguments Z.add : simpl never.
#[local] Arguments Z.pow : simpl never.

(** ** Writers *)

(** [for (i = 0; i < k; ++i) u8(v >> (i * 8))] *)
Fixpoint put_bytes (k i : nat) (v : Z) : list Z :=
  match k with
  | O => []
  | S k => u8 (Z.shiftr v (Z.of_nat i * 8)) :: put_bytes k (S i) v
  end.

Definition put_u8 (v : Z) : list Z := [u8 v].
Definition put_u16 (v : Z) : list Z := put_u8 v ++ put_u8 (Z.shiftr v 8).
Definition put_u32 (v : Z) : list Z := put_bytes 4 0 v.
Definition put_u64 (v : Z) : list Z := put_bytes 8 0 v.
Definition put_i64 (v : Z) : list Z := put_u64 (u64 v).
Definition put_i32 (v : Z) : list Z := put_u32 (u32 v).
Definition put_bool (b : bool) : list Z := put_u8 (if b then 1 else 0).

(** [str] throws when the size does not fit 32 bits. *)
Definition put_str (s : string) : outcome (list Z) :=
  let l := bytes_of_string s in
  if 2 ^ 32 - 1 <? Z.of_nat (length l) then Throw (overflow_error "pg wire: string too long")
  else Ret (put_u32 (Z.of_nat (length l)) ++ l).

(** [f32]: three decimals; the conversion of a value out of range is undefined. *)
Definition put_f32 (v : double) : outcome (list Z) :=
  match truncate (v * 1000)%float with
  | Some z => let! z := i64_checked z in Ret (put_i64 z)
  | None => Undefined
  end.

(** ** Readers *)
Definition reader (A : Type) : Type := list Z -> option (A * list Z).

Definition rret {A : Type} (a : A) : reader A := fun l => Some (a, l).
Definition rbind {A B : Type} (m : reader A) (k : A -> reader B) : reader B :=
  fun l => match m l with Some (a, l') => k a l' | None => None end.
Definition rfail {A : Type} : reader A := fun _ => None.

Notation "'get!' x '<-' m ';' k" := (rbind m (fun x => k))
  (at level 10, x pattern, m at level 100, k at level 200,
   format "'[v' 'get!'  x  '<-'  m ';' '/' k ']'") : pg_scope.

Definition get_u8 : reader Z := fun l => match l with b :: l => Some (b, l) | [] => None end.

(** [r |= b << (i * 8)] over the bytes. *)
Fixpoint get_bytes (k i : nat) (r : Z) : reader Z :=
  match k with
  | O => rret r
  | S k => get! b <- get_u8; get_bytes k (S i) (Z.lor r (Z.shiftl b (Z.of_nat i * 8)))
  end.

Definition get_u16 : reader Z := get! a <- get_u8; get! b <- get_u8; rret (Z.lor a (Z.shiftl b 8)).
Definition get_u32 : reader Z := get_bytes 4 0 0.
Definition get_u64 : reader Z := get_bytes 8 0 0.

(** The conversion to a signed type is modular. *)
Definition to_signed (w z : Z) : Z := if z <? 2 ^ (w - 1) then z else z - 2 ^ w.
Definition get_i64 : reader Z := get! u <- get_u64; rret (to_signed 64 u).
Definition get_i32 : reader Z := get! u <- get_u32; rret (to_signed 32 u).
Definition get_bool : reader bool := get! v <- get_u8; rret (negb (v =? 0)).

Definition get_str : reader string :=
  get! len <- get_u32;
  fun l => if Z.of_nat (length l) <? len then None
           else Some (string_of_bytes (take (Z.to_nat len) l), drop (Z.to_nat len) l).
Definition get_f32 : reader double := get! x <- get_i64; rret (of_millis x).

Definition get_blob : reader (list Z) :=
  get! len <- get_u32;
  fun l => if Z.of_nat (length l) <? len then None else Some (take (Z.to_nat len) l, drop (Z.to_nat len) l).

(** [if (!r.at_end()) return std::nullopt] *)
Definition at_end {A : Type} (a : A) : reader A := fun l => match l with [] => Some (a, l) | _ => None end.
(** A check on what was read. *)
Definition guard (b : bool) : reader () := fun l => if b then Some (tt, l) else None.

Definition run_reader {A : Type} (m : reader A) (l : list Z) : option A := fst <$> m l.

(** ** Round trips *)
Definition reads {A : Type} (enc : list Z) (dec : reader A) (a : A) : Prop :=
  forall rest, dec (enc ++ rest) = Some (a, rest).

Lemma reads_bind {A B : Type} (enc rest : list Z) (dec : reader A) (k : A -> reader B) (a : A) :
  reads enc dec a -> rbind dec k (enc ++ rest) = k a rest.
Proof. intros H. unfold rbind. rewrite H. reflexivity. Qed.

Lemma lor_byte (v : Z) (n : Z) : 0 <= n -> 0 <= v ->
  Z.lor (v mod 2 ^ n) (Z.shiftl (u8 (Z.shiftr v n)) n) = v mod 2 ^ (n + 8).
Proof.
  intros Hn Hv. apply Z.bits_inj'. intros i Hi. unfold u8, wrap.
  rewrite Z.lor_spec, Z.shiftl_spec, !Z.testbit_mod_pow2 by lia.
  destruct (Z.ltb_spec i n).
  - rewrite (Z.testbit_neg_r _ (i - n)) by lia. rewrite andb_false_r, orb_false_r.
    destruct (Z.ltb_spec i (n + 8)); [reflexivity|lia].
  - rewrite Z.shiftr_spec by lia. cbn [andb orb]. replace (i - n + n) with i by lia.
    f_equal. destruct (Z.ltb_spec (i - n) 8), (Z.ltb_spec i (n + 8)); lia.
Qed.

Lemma get_put_bytes (k i : nat) (v : Z) : 0 <= v ->
  reads (put_bytes k i v) (get_bytes k i (v mod 2 ^ (Z.of_nat i * 8))) (v mod 2 ^ (Z.of_nat (i + k) * 8)).
Proof.
  intros Hv. revert i. induction k as [|k IH]; intros i rest; cbn [put_bytes get_bytes].
  { rewrite Nat.add_0_r. reflexivity. }
  unfold rbind. cbn [app get_u8]. rewrite lor_byte by lia.
  replace (Z.of_nat i * 8 + 8) with (Z.of_nat (S i) * 8) by lia. rewrite IH.
  replace (S i + k)%nat with (i + S k)%nat by lia. reflexivity.
Qed.

Lemma reads_u32 (v : Z) : in_u 32 v -> reads (put_u32 v) get_u32 v.
Proof.
  intros Hv rest. unfold get_u32. pose proof (get_put_bytes 4 0 v ltac:(unfold in_u in Hv; lia) rest) as H.
  change (2 ^ (Z.of_nat 0 * 8)) with 1 in H. rewrite Z.mod_1_r in H. unfold put_u32. rewrite H.
  change (Z.of_nat (0 + 4) * 8) with 32. rewrite Z.mod_small by exact Hv. reflexivity.
Qed.

Lemma reads_u64 (v : Z) : in_u 64 v -> reads (put_u64 v) get_u64 v.
Proof.
  intros Hv rest. unfold get_u64. pose proof (get_put_bytes 8 0 v ltac:(unfold in_u in Hv; lia) rest) as H.
  change (2 ^ (Z.of_nat 0 * 8)) with 1 in H. rewrite Z.mod_1_r in H. unfold put_u64. rewrite H.
  change (Z.of_nat (0 + 8) * 8) with 64. rewrite Z.mod_small by exact Hv. reflexivity.
Qed.

Lemma reads_u8 (v : Z) : in_u 8 v -> reads (put_u8 v) get_u8 v.
Proof. intros Hv rest. cbn. unfold u8. rewrite wrap_small by exact Hv. reflexivity. Qed.

Lemma reads_u16 (v : Z) : in_u 16 v -> reads (put_u16 v) get_u16 v.
Proof.
  intros Hv rest. unfold in_u in Hv. unfold put_u16, put_u8, get_u16, rbind, rret. cbn [app get_u8].
  pose proof (lor_byte v 8 ltac:(lia) ltac:(lia)) as H. change (8 + 8) with 16 in H.
  unfold u8 at 1, wrap at 1. rewrite H, Z.mod_small by lia. reflexivity.
Qed.

Lemma to_signed_wrap (w z : Z) : 0 < w -> - 2 ^ (w - 1) <= z < 2 ^ (w - 1) -> to_signed w (wrap w z) = z.
Proof.
  intros Hw Hz. assert (E : 2 ^ w = 2 * 2 ^ (w - 1)) by (replace w with (w - 1 + 1) at 1 by lia; apply pow2_succ; lia).
  unfold to_signed, wrap. destruct (Z.le_gt_cases 0 z).
  - rewrite Z.mod_small by lia. destruct (Z.ltb_spec z (2 ^ (w - 1))); lia.
  - assert (Em : z mod 2 ^ w = z + 2 ^ w) by (symmetry; apply (Z.mod_unique_pos _ _ (-1)); lia).
    rewrite Em. destruct (Z.ltb_spec (z + 2 ^ w) (2 ^ (w - 1))); lia.
Qed.

Lemma reads_i64 (v : Z) : in_i64 v -> reads (put_i64 v) get_i64 v.
Proof.
  intros Hv rest. unfold get_i64, put_i64. rewrite (reads_bind _ _ _ _ (u64 v)).
  - unfold rret, u64. rewrite to_signed_wrap by (lia || exact Hv). reflexivity.
  - apply reads_u64, wrap_range. lia.
Qed.

Definition in_i32 (z : Z) : Prop := - 2 ^ 31 <= z < 2 ^ 31.
Lemma reads_i32 (v : Z) : in_i32 v -> reads (put_i32 v) get_i32 v.
Proof.
  intros Hv rest. unfold get_i32, put_i32. rewrite (reads_bind _ _ _ _ (u32 v)).
  - unfold rret, u32. rewrite to_signed_wrap by (lia || exact Hv). reflexivity.
  - apply reads_u32, wrap_range. lia.
Qed.

Lemma reads_bool (b : bool) : reads (put_bool b) get_bool b.
Proof. intros rest. destruct b; reflexivity. Qed.

Lemma length_bytes_of_string (s : string) : length (bytes_of_string s) = String.length s.
Proof. unfold bytes_of_string. rewrite length_fmap. induction s; cbn; auto. Qed.

Definition short_string (s : string) : Prop := Z.of_nat (String.length s) < 2 ^ 32.

Definition str_bytes (s : string) : list Z := put_u32 (Z.of_nat (String.length s)) ++ bytes_of_string s.

Lemma put_str_short (s : string) : short_string s -> put_str s = Ret (str_bytes s).
Proof.
  intros Hs. unfold put_str, str_bytes. rewrite length_bytes_of_string. unfold short_string in Hs.
  destruct (Z.ltb_spec (2 ^ 32 - 1) (Z.of_nat (String.length s))); [lia|reflexivity].
Qed.

Lemma reads_str (s : string) : short_string s ->
  reads (str_bytes s) get_str s.
Proof.
  intros Hs rest. unfold get_str, str_bytes. rewrite <- app_assoc. unfold short_string in Hs.
  rewrite (reads_bind _ _ _ _ (Z.of_nat (String.length s))) by (apply reads_u32; unfold in_u; lia).
  pose proof (length_bytes_of_string s) as El. rewrite length_app, El, Nat2Z.inj_add, Nat2Z.id.
  destruct (Z.ltb_spec (Z.of_nat (String.length s) + Z.of_nat (length rest)) (Z.of_nat (String.length s))); [lia|].
  rewrite <- El, take_app_length, drop_app_length, string_of_bytes_of_string. reflexivity.
Qed.

Lemma reads_guard {A : Type} (b : bool) (k : () -> reader A) (l : list Z) : b = true -> rbind (guard b) k l = k tt l.
Proof. intros ->. reflexivity. Qed.

Create HintDb wire.
#[export] Hint Resolve reads_u8 reads_u16 reads_u32 reads_u64 reads_i64 reads_i32 reads_bool reads_str : wire.

(** Read one field off the front of an encoding. *)
Ltac read_field := first
  [ rewrite <- app_assoc
  | rewrite reads_guard by (assumption || reflexivity || lia)
  | erewrite reads_bind by (eauto with wire; fail) ].

(** ** Readers do not look ahead *)
Class Stable {A : Type} (m : reader A) : Prop :=
  stable : forall l a r x, m l = Some (a, r) -> m (l ++ x) = Some (a, r ++ x).

#[export] Instance stable_ret {A : Type} (a : A) : Stable (rret a).
Proof. intros l b r x [= -> ->]. reflexivity. Qed.
#[export] Instance stable_bind {A B : Type} (m : reader A) (k : A -> reader B) :
  Stable m -> (forall a, Stable (k a)) -> Stable (rbind m k).
Proof.
  intros Hm Hk l b r x. unfold rbind. destruct (m l) as [[a l']|] eqn:E; [|discriminate].
  rewrite (Hm _ _ _ x E). apply Hk.
Qed.
#[export] Instance stable_guard (b : bool) : Stable (guard b).
Proof. intros l a r x. unfold guard. destruct b; [intros [= <- <-]; reflexivity|discriminate]. Qed.
#[export] Instance stable_u8 : Stable get_u8.
Proof. intros [|b l] a r x; [discriminate|]. intros [= -> ->]. reflexivity. Qed.
#[export] Instance stable_bytes (k i : nat) (r : Z) : Stable (get_bytes k i r).
Proof. revert i r. induction k; intros; cbn [get_bytes]; apply _. Qed.
#[export] Instance stable_u16 : Stable get_u16.
Proof. unfold get_u16. apply _. Qed.
#[export] Instance stable_u32 : Stable get_u32.
Proof. unfold get_u32. apply _. Qed.
#[export] Instance stable_u64 : Stable get_u64.
Proof. unfold get_u64. apply _. Qed.
#[export] Instance stable_i64 : Stable get_i64.
Proof. unfold get_i64. apply _. Qed.
#[export] Instance stable_i32 : Stable get_i32.
Proof. unfold get_i32. apply _. Qed.
#[export] Instance stable_bool : Stable get_bool.
Proof. unfold get_bool. apply _. Qed.
#[export] Instance stable_str : Stable get_str.
Proof.
  unfold get_str. apply stable_bind; [apply _|]. intros len l a r x.
  destruct (Z.ltb_spec (Z.of_nat (length l)) len); [discriminate|]. intros [= <- <-].
  rewrite length_app, Nat2Z.inj_add. destruct (Z.ltb_spec (Z.of_nat (length l) + Z.of_nat (length x)) len); [lia|].
  rewrite take_app_le, drop_app_le by lia. reflexivity.
Qed.

(** Reading to the end: the last statement of every decoder. *)
Definition whole {A : Type} (m : reader A) : reader A := get! a <- m; at_end a.

Lemma whole_reads {A : Type} (enc : list Z) (m : reader A) (a : A) : reads enc m a -> run_reader (whole m) enc = Some a.
Proof.
  intros H. unfold run_reader, whole. rewrite <- (app_nil_r enc), (reads_bind _ _ _ _ _ H). reflexivity.
Qed.

(** Of an input and an extension of it, at most one is accepted. *)
Lemma whole_exact {A : Type} (m : reader A) `{!Stable m} (l x : list Z) :
  is_Some (run_reader (whole m) l) -> x <> [] -> run_reader (whole m) (l ++ x) = None.
Proof.
  unfold run_reader, whole, rbind. intros [a Ha] Hx. destruct (m l) as [[b r]|] eqn:E; [|discriminate].
  rewrite (stable _ _ _ x E). destruct r; [|discriminate]. destruct x; [congruence|reflexivity].
Qed.

(** ** What the readers make of arbitrary bytes *)
Lemma lor_shifted (n r b : Z) : 0 <= n -> in_u n r -> Z.lor r (Z.shiftl b n) = r + b * 2 ^ n.
Proof.
  intros Hn Hr. pose proof (land_disjoint n r b Hn Hr) as E.
  rewrite <- Z.lxor_lor, <- Z.add_nocarry_lxor, Z.shiftl_mul_pow2 by (assumption || lia). reflexivity.
Qed.

Lemma get_bytes_word (l : list Z) (i : nat) (r : Z) (rest : list Z) :
  Forall (in_u 8) l -> in_u (Z.of_nat i * 8) r ->
  get_bytes (length l) i r (l ++ rest) = Some (r + le_word l * 2 ^ (Z.of_nat i * 8), rest).
Proof.
  intros Hl. revert i r. induction Hl as [|b l Hb Hl IH]; intros i r Hr.
  { cbn. unfold rret. do 2 f_equal. lia. }
  cbn [get_bytes length app]. unfold rbind. cbn [get_u8].
  rewrite lor_shifted by (assumption || lia). rewrite IH.
  - rewrite le_word_cons by assumption. replace (Z.of_nat (S i) * 8) with (Z.of_nat i * 8 + 8) by lia.
    rewrite Z.pow_add_r by lia. change (2 ^ 8) with 256. do 2 f_equal. lia.
  - replace (Z.of_nat (S i) * 8) with (Z.of_nat i * 8 + 8) by lia. unfold in_u in *.
    rewrite Z.pow_add_r by lia. nia.
Qed.

Lemma get_u32_word (l rest : list Z) : Forall (in_u 8) l -> length l = 4%nat -> get_u32 (l ++ rest) = Some (le_word l, rest).
Proof.
  intros Hl H4. unfold get_u32. rewrite <- H4. rewrite get_bytes_word by (assumption || unfold in_u; cbn; lia).
  change (2 ^ (Z.of_nat 0 * 8)) with 1. do 2 f_equal. lia.
Qed.

Lemma put_bytes_range (k i : nat) (v : Z) : Forall (in_u 8) (put_bytes k i v).
Proof. revert i. induction k; intros i; cbn [put_bytes]; constructor; auto. apply wrap_range. lia. Qed.

Lemma put_bytes_length (k i : nat) (v : Z) : length (put_bytes k i v) = k.
Proof. revert i. induction k; intros i; cbn [put_bytes length]; auto. Qed.

Lemma put_u32_word (v : Z) : in_u 32 v -> le_word (put_u32 v) = v.
Proof.
  intros Hv. pose proof (reads_u32 v Hv []) as H.
  rewrite get_u32_word in H by (apply put_bytes_range || apply put_bytes_length). congruence.
Qed.

(** Deciding that a list is made of bytes. *)
Definition bytesb (l : list Z) : bool := forallb (fun b => (0 <=? b) && (b <? 2 ^ 8)) l.
Lemma bytesb_range (l : list Z) : bytesb l = true -> Forall (in_u 8) l.
Proof.
  unfold bytesb. rewrite forallb_forall, Forall_forall. intros H b Hb. apply list_elem_of_In in Hb.
  specialize (H b Hb). unfold in_u. lia.
Qed.

(** What a reader yields on bytes: values that satisfy [Q], and bytes left to read. *)
Definition yields {A : Type} (m : reader A) (Q : A -> Prop) : Prop :=
  forall l a r, Forall (in_u 8) l -> m l = Some (a, r) -> Q a /\ Forall (in_u 8) r.

Lemma yields_bind {A B : Type} (m : reader A) (k : A -> reader B) (Q : A -> Prop) (R : B -> Prop) :
  yields m Q -> (forall a, Q a -> yields (k a) R) -> yields (rbind m k) R.
Proof.
  intros Hm Hk l b r Hl. unfold rbind. destruct (m l) as [[a l']|] eqn:E; [|discriminate].
  destruct (Hm _ _ _ Hl E) as [Ha Hl']. apply Hk; assumption.
Qed.

Lemma yields_ret {A : Type} (a : A) (Q : A -> Prop) : Q a -> yields (rret a) Q.
Proof. intros Ha l b r Hl [= <- <-]. auto. Qed.

Lemma yields_u8 : yields get_u8 (in_u 8).
Proof. intros [|b l] a r Hl; [discriminate|]. intros [= <- <-]. inversion Hl; auto. Qed.

Lemma yields_bytes (k i : nat) (r : Z) : in_u (Z.of_nat i * 8) r ->
  yields (get_bytes k i r) (in_u (Z.of_nat (i + k) * 8)).
Proof.
  revert i r. induction k as [|k IH]; intros i r Hr; cbn [get_bytes].
  { apply yields_ret. rewrite Nat.add_0_r. assumption. }
  apply (yields_bind _ _ _ _ yields_u8). intros b Hb. replace (i + S k)%nat with (S i + k)%nat by lia. apply IH.
  rewrite lor_shifted by (assumption || lia). replace (Z.of_nat (S i) * 8) with (Z.of_nat i * 8 + 8) by lia.
  unfold in_u in *. rewrite Z.pow_add_r by lia. nia.
Qed.

Lemma yields_u32 : yields get_u32 (in_u 32).
Proof. apply (yields_bytes 4 0 0). unfold in_u. cbn. lia. Qed.
Lemma yields_u64 : yields get_u64 (in_u 64).
Proof. apply (yields_bytes 8 0 0). unfold in_u. cbn. lia. Qed.

Lemma yields_i64 : yields get_i64 in_i64.
Proof.
  apply (yields_bind _ _ _ _ yields_u64). intros u Hu. apply yields_ret. unfold to_signed, in_i64, in_u in *.
  change (2 ^ (64 - 1)) with (2 ^ 63). destruct (Z.ltb_spec u (2 ^ 63)); lia.
Qed.

Lemma yields_f32 : yields get_f32 (fun v => exists z, in_i64 z /\ v = of_millis z).
Proof. apply (yields_bind _ _ _ _ yields_i64). intros z Hz. apply yields_ret. eauto. Qed.

(** Three decimals are not kept: the conversion truncates a product that is rounded, so
    that one watt and one thousandth is written as one watt. *)
Lemma f32_loses_a_thousandth :
  put_f32 (of_millis 1001) = Ret (put_i64 1000) /\ val (of_millis 1000) < val (of_millis 1001).
Proof. split; vm_compute; reflexivity. Qed.

Lemma yields_bool : yields get_bool (fun _ => True).
Proof. apply (yields_bind _ _ _ _ yields_u8). intros v _. apply yields_ret. auto. Qed.

Lemma yields_i32 : yields get_i32 in_i32.
Proof.
  apply (yields_bind _ _ _ _ yields_u32). intros u Hu. apply yields_ret. unfold to_signed, in_i32, in_u in *.
  change (2 ^ (32 - 1)) with (2 ^ 31). destruct (Z.ltb_spec u (2 ^ 31)); lia.
Qed.

Lemma yields_str : yields get_str (fun _ => True).
Proof.
  apply (yields_bind _ _ _ _ yields_u32). intros len _ l a r Hl.
  destruct (Z.of_nat (length l) <? len); [discriminate|]. intros [= <- <-]. auto using Forall_drop.
Qed.

Lemma yields_at_end {A : Type} (a : A) (Q : A -> Prop) : Q a -> yields (at_end a) Q.
Proof. intros Ha [|b l] x r Hl; [|discriminate]. intros [= <- <-]. auto. Qed.

(** ** Records with their checksum behind them *)
Definition seal (body : list Z) : list Z := body ++ put_u32 (crc32 body).

Lemma seal_length (l : list Z) : length (seal l) = (length l + 4)%nat.
Proof. unfold seal. rewrite length_app. f_equal. Qed.

Lemma seal_range (l : list Z) : Forall (in_u 8) l -> Forall (in_u 8) (seal l).
Proof. intros H. apply Forall_app. split; [assumption|apply put_bytes_range]. Qed.

(** The 32-bit value in memory at an offset (a little-endian machine). *)
Definition peek_u32 (k : nat) (data : list Z) : Z :=
  match get_u32 (drop k data) with Some (v, _) => v | None => 0 end.

(** [stored_crc == crc32(data, k)] *)
Definition crc_matches (k : nat) (data : list Z) : bool := peek_u32 k data =? crc32 (take k data).

Lemma peek_seal (body rest : list Z) : Forall (in_u 8) body ->
  crc_matches (length body) (seal body ++ rest) = true.
Proof.
  intros Hb. unfold crc_matches, peek_u32, seal. rewrite <- app_assoc, drop_app_length, take_app_length.
  rewrite reads_u32 by (apply crc32_range; assumption). apply Z.eqb_refl.
Qed.

Lemma crc_matches_residue (k : nat) (data : list Z) : Forall (in_u 8) data -> length data = (k + 4)%nat ->
  crc_matches k data = true <-> crc32_update 0xFFFFFFFF data = crc_residue.
Proof.
  intros Hd Hk. unfold crc_matches, peek_u32. rewrite <- (app_nil_r (drop k data)).
  rewrite get_u32_word by (auto using Forall_drop || rewrite length_drop; lia).
  rewrite Z.eqb_eq, crc32_residue by (auto using Forall_drop, Forall_take || rewrite length_drop; lia).
  rewrite take_drop. reflexivity.
Qed.

(** An altered record of the same shape fails the check. *)
Lemma crc_matches_burst (k : nat) (data data' : list Z) : Forall (in_u 8) data -> Forall (in_u 8) data' ->
  length data = (k + 4)%nat -> crc_matches k data = true -> burst data data' -> crc_matches k data' = false.
Proof.
  intros Hd Hd' Hk Hm Hb. apply not_true_is_false. intros Hm'.
  apply crc_matches_residue in Hm; [|assumption..].
  apply crc_matches_residue in Hm'; [|assumption|rewrite (burst_length _ _ Hb); assumption].
  apply (crc32_update_burst 0xFFFFFFFF data data'); [unfold in_u; lia|assumption..|congruence].
Qed.

Lemma run_reader_stable {A : Type} (m : reader A) `{!Stable m} (l x : list Z) (a : A) :
  run_reader m l = Some a -> run_reader m (l ++ x) = Some a.
Proof.
  unfold run_reader. destruct (m l) as [[b r]|] eqn:E; [|discriminate]. rewrite (stable _ _ _ x E). auto.
Qed.
