(* ===== verification/Cursor.v ===== *)
(** * The writer and reader classes as they are: a buffer and a cursor

    [Wire.v] writes and reads lists of bytes.  The classes of protocol.hpp and
    persistence.hpp append to a buffer, and read through a pointer, a size and a
    position, testing the bounds in the arithmetic of [size_t].  [WireReader] models them
    with the memory behind the pointer, where a read out of bounds is undefined; the
    refinement shows that they are the readers of [Wire.v], for every input, and that no
    read is ever out of bounds. *)
From S2P Require Import Prelude Binary64 Util Wire.
Local Open Scope Z_scope.
#[local] Arguments Z.mul : simpl never.
#[local] Arguments Z.add : simpl never.
#[local] Arguments Z.pow : simpl never.

(** ** Writing *)
Module WireWriter.
Abbreviation t := (list Z).
Definition empty : t := [].

Definition u8 (v : Z) (buf_ : t) : t := buf_ ++ [Prelude.u8 v].
Definition u16 (v : Z) (buf_ : t) : t := u8 (Z.shiftr v 8) (u8 v buf_).
(** [for (i = 0; i < k; ++i) u8(v >> (i * 8))] *)
Definition bytes_loop (k : nat) (v : Z) (buf_ : t) : t :=
  fold_left (fun b i => u8 (Z.shiftr v (Z.of_nat i * 8)) b) (seq 0 k) buf_.
Definition u32 (v : Z) (buf_ : t) : t := bytes_loop 4 v buf_.
Definition u64 (v : Z) (buf_ : t) : t := bytes_loop 8 v buf_.
Definition i64 (v : Z) (buf_ : t) : t := u64 (Prelude.u64 v) buf_.
Definition i32 (v : Z) (buf_ : t) : t := u32 (Prelude.u32 v) buf_.
Definition bool_ (b : bool) (buf_ : t) : t := u8 (if b then 1 else 0) buf_.
(** The limit of the length is [numeric_limits<uint32_t>::max()]. *)
Definition str_of (message : string) (s : string) (buf_ : t) : outcome t :=
  let l := bytes_of_string s in
  if 2 ^ 32 - 1 <? Z.of_nat (length l) then Throw (overflow_error message)
  else Ret (u32 (Z.of_nat (length l)) buf_ ++ l).
Definition str : string -> t -> outcome t := str_of "pg wire: string too long".
Definition f32 (v : double) (buf_ : t) : outcome t :=
  match truncate (v * 1000)%float with
  | Some z => let! z := i64_checked z in Ret (i64 z buf_)
  | None => Undefined
  end.
Definition size (buf_ : t) : Z := Z.of_nat (length buf_).
(** [take] moves the buffer out. *)
Definition take (buf_ : t) : list Z * t := (buf_, []).
End WireWriter.

Module BinWriter.
Definition u8 := WireWriter.u8.
Definition u16 := WireWriter.u16.
Definition u32 := WireWriter.u32.
Definition u64 := WireWriter.u64.
Definition i32 := WireWriter.i32.
Definition i64 := WireWriter.i64.
Definition bool_ := WireWriter.bool_.
Definition str : string -> list Z -> outcome (list Z) := WireWriter.str_of "pg persist: string too long".
Definition f64 := WireWriter.f32.
Definition size := WireWriter.size.
Definition take := WireWriter.take.
End BinWriter.

(** ** Reading *)
Module WireReader.
(** [p_] is the memory behind the pointer. *)
Record t := mk { p_ : list Z; n_ : Z; pos_ : Z }.

(** The two constructors. *)
Definition of_pointer (p : list Z) (n : Z) : t := mk p n 0.
Definition of_vector (v : list Z) : t := mk v (Z.of_nat (length v)) 0.

(** A method returns [false], or [true] with its out-parameter. *)
Definition method (A : Type) : Type := M t (option A).
Definition fail {A : Type} : method A := sret None.
Definition yield_ {A : Type} (a : A) : method A := sret (Some a).
(** [if (!m(x)) return false;] *)
Definition then_ {A B : Type} (m : method A) (k : A -> method B) : method B :=
  do! o <- m; match o with Some a => k a | None => fail end.

Definition need (k : Z) (r : t) : bool := u64 (pos_ r + k) <=? n_ r.

(** [p_[pos_]]: reading outside the memory is undefined. *)
Definition at_pos : M t Z := fun r => (match p_ r !! Z.to_nat (pos_ r) with Some b => Ret b | None => Undefined end, r).
Definition advance (k : Z) : M t () := smodify (fun r => mk (p_ r) (n_ r) (u64 (pos_ r + k))).

Definition u8 : method Z :=
  do! r <- sget;
  if need 1 r then do! b <- at_pos; do! _ <- advance 1; yield_ b else fail.

Definition u16 : method Z := then_ u8 (fun a => then_ u8 (fun b => yield_ (Z.lor a (Z.shiftl b 8)))).

(** The loop of [u32] and [u64]: [i] counts up, [r] accumulates. *)
Fixpoint bytes_loop (k i : nat) (r : Z) : method Z :=
  match k with
  | O => yield_ r
  | S k => then_ u8 (fun b => bytes_loop k (S i) (Z.lor r (Z.shiftl b (Z.of_nat i * 8))))
  end.
Definition u32 : method Z := bytes_loop 4 0 0.
Definition u64_ : method Z := bytes_loop 8 0 0.
Definition i64 : method Z := then_ u64_ (fun u => yield_ (to_signed 64 u)).
Definition i32 : method Z := then_ u32 (fun u => yield_ (to_signed 32 u)).
Definition bool_ : method bool := then_ u8 (fun v => yield_ (negb (v =? 0))).

(** [n_ - pos_], in [size_t]. *)
Definition remaining (r : t) : Z := Prelude.u64 (n_ r - pos_ r).
Definition at_end (r : t) : bool := pos_ r =? n_ r.

(** The bytes from [p_ + pos_] to [p_ + pos_ + len]. *)
Definition slice (len : Z) : M t (list Z) :=
  fun r => (if pos_ r + len <=? Z.of_nat (length (p_ r)) then Ret (take (Z.to_nat len) (drop (Z.to_nat (pos_ r)) (p_ r))) else Undefined, r).

Definition bytes : method (list Z) :=
  then_ u32 (fun len =>
    do! r <- sget;
    if remaining r <? len then fail
    else do! l <- slice len; do! _ <- advance len; yield_ l).
Definition str : method string := then_ bytes (fun l => yield_ (string_of_bytes l)).
Definition f32 : method double := then_ i64 (fun x => yield_ (of_millis x)).
End WireReader.

Module BinReader.
Definition of_pointer := WireReader.of_pointer.
Definition of_vector := WireReader.of_vector.
Definition u8 := WireReader.u8.
Definition u16 := WireReader.u16.
Definition u32 := WireReader.u32.
Definition u64 := WireReader.u64_.
Definition i32 := WireReader.i32.
Definition i64 := WireReader.i64.
Definition bool_ := WireReader.bool_.
Definition str := WireReader.str.
Definition f64 := WireReader.f32.
Definition bytes := WireReader.bytes.
Definition remaining := WireReader.remaining.
Definition at_end := WireReader.at_end.
End BinReader.

(** ** The writers append the encodings *)
Module WriterFacts.
Import WireWriter.

Lemma bytes_loop_from (k i : nat) (v : Z) (buf : t) :
  fold_left (fun b j => u8 (Z.shiftr v (Z.of_nat j * 8)) b) (seq i k) buf = buf ++ put_bytes k i v.
Proof.
  revert i buf. induction k as [|k IH]; intros i buf; cbn [seq fold_left put_bytes]; [rewrite app_nil_r; reflexivity|].
  rewrite IH. unfold u8. rewrite <- app_assoc. reflexivity.
Qed.

Lemma u32_appends (v : Z) (buf : t) : u32 v buf = buf ++ put_u32 v.
Proof. apply bytes_loop_from. Qed.
Lemma u64_appends (v : Z) (buf : t) : u64 v buf = buf ++ put_u64 v.
Proof. apply bytes_loop_from. Qed.

Lemma str_appends (message : string) (s : string) (buf : t) : short_string s ->
  str_of message s buf = Ret (buf ++ str_bytes s).
Proof.
  intros Hs. unfold str_of, str_bytes. rewrite length_bytes_of_string. unfold short_string in Hs.
  destruct (Z.ltb_spec (2 ^ 32 - 1) (Z.of_nat (String.length s))); [lia|]. rewrite u32_appends, <- app_assoc. reflexivity.
Qed.

Lemma f32_appends (v : double) (buf : t) :
  f32 v buf = let! b := put_f32 v in Ret (buf ++ b).
Proof.
  unfold f32, put_f32. destruct (truncate _) as [z|]; [|reflexivity]. destruct (i64_checked z); try reflexivity.
  cbn [obind]. unfold i64. rewrite u64_appends. reflexivity.
Qed.
End WriterFacts.

(** ** The cursor reads what the list holds *)
Module ReaderFacts.
Import WireReader.

(** The position is within the size, the size within the memory, which holds bytes; and
    the successor of the size is still a [size_t]. *)
Definition ok (r : t) : Prop :=
  0 <= pos_ r <= n_ r /\ n_ r <= Z.of_nat (length (p_ r)) /\ n_ r < 2 ^ 64 - 1 /\ Forall (in_u 8) (p_ r).

(** The bytes not read yet. *)
Definition ahead (r : t) : list Z := drop (Z.to_nat (pos_ r)) (take (Z.to_nat (n_ r)) (p_ r)).

(** A method of the cursor simulates a reader of lists: it ends without undefined
    behaviour, succeeds exactly when the reader does, with the same value, and is left
    before the same bytes. *)
Definition simulates {A : Type} (m : method A) (d : reader A) : Prop :=
  forall r, ok r ->
    match d (ahead r) with
    | Some (a, l) => exists r', m r = (Ret (Some a), r') /\ ok r' /\ ahead r' = l
    | None => exists r', m r = (Ret None, r') /\ ok r'
    end.

Lemma simulates_ret {A : Type} (a : A) : simulates (yield_ a) (rret a).
Proof. intros r Hr. exists r. auto. Qed.

Lemma ahead_bytes (r : t) : ok r -> Forall (in_u 8) (ahead r).
Proof. intros (_ & _ & _ & H). apply Forall_drop, Forall_take, H. Qed.

Lemma simulates_bind {A B : Type} (Q : A -> Prop) (m : method A) (d : reader A) (k : A -> method B) (e : A -> reader B) :
  simulates m d -> (forall l a r, Forall (in_u 8) l -> d l = Some (a, r) -> Q a) -> (forall a, Q a -> simulates (k a) (e a)) -> simulates (then_ m k) (rbind d e).
Proof.
  intros Hm Hd Hk r Hr. specialize (Hm r Hr). unfold rbind. destruct (d (ahead r)) as [[a l]|] eqn:Ed.
  - pose proof (Hd _ _ _ (ahead_bytes r Hr) Ed) as Ha.
    destruct Hm as (r1 & E1 & H1 & El). specialize (Hk a Ha r1 H1). rewrite El in Hk. unfold then_, sbind. rewrite E1.
    exact Hk.
  - destruct Hm as (r1 & E1 & H1). exists r1. unfold then_, sbind. rewrite E1. auto.
Qed.

Lemma ahead_length (r : t) : ok r -> Z.of_nat (length (ahead r)) = n_ r - pos_ r.
Proof. intros (H1 & H2 & _ & _). unfold ahead. rewrite length_drop, length_take. lia. Qed.

(** Moving over [k] bytes that are there. *)
Lemma advanced (r : t) (k : Z) : ok r -> 0 <= k <= n_ r - pos_ r ->
  let r' := mk (p_ r) (n_ r) (Prelude.u64 (pos_ r + k)) in ok r' /\ ahead r' = drop (Z.to_nat k) (ahead r).
Proof.
  intros (H1 & H2 & H3 & H4) Hk. assert (E : Prelude.u64 (pos_ r + k) = pos_ r + k) by (apply wrap_small; unfold in_u; lia).
  unfold ok, ahead. cbn [pos_ n_ p_]. rewrite E, drop_drop. split; [split_and!; lia || exact H4|]. f_equal. lia.
Qed.

Lemma simulates_u8 : simulates u8 get_u8.
Proof.
  intros r Hr. pose proof (ahead_length r Hr) as Hlen. pose proof Hr as (H1 & H2 & H3 & _).
  assert (En : Prelude.u64 (pos_ r + 1) = pos_ r + 1) by (apply wrap_small; unfold in_u; lia).
  unfold u8, need. rewrite sbind_sget. destruct (ahead r) as [|b l] eqn:El; cbn [get_u8].
  - cbn [length] in Hlen. replace (Prelude.u64 (pos_ r + 1) <=? n_ r) with false by lia. exists r. auto.
  - cbn [length] in Hlen. replace (Prelude.u64 (pos_ r + 1) <=? n_ r) with true by lia.
    assert (Eb : p_ r !! Z.to_nat (pos_ r) = Some b).
    { pose proof (f_equal (lookup 0%nat) El) as H0. unfold ahead in H0. rewrite lookup_drop, Nat.add_0_r, lookup_take_lt in H0 by lia. exact H0. }
    destruct (advanced r 1 Hr ltac:(lia)) as [Hok Hd]. rewrite El in Hd.
    eexists. split; [unfold sbind, at_pos, advance, smodify; rewrite Eb; reflexivity|]. split; [exact Hok|exact Hd].
Qed.

Lemma simulates_loop (k i : nat) (acc : Z) : simulates (bytes_loop k i acc) (get_bytes k i acc).
Proof.
  revert i acc. induction k as [|k IH]; intros i acc; cbn [bytes_loop get_bytes]; [apply simulates_ret|].
  apply (simulates_bind (in_u 8)); [apply simulates_u8|intros l a r Hl E; apply (yields_u8 _ _ _ Hl E)|]. intros b _. apply IH.
Qed.

Lemma simulates_blob : simulates bytes get_blob.
Proof.
  unfold bytes, get_blob. apply (simulates_bind (in_u 32)); [apply simulates_loop|intros l a r Hl E; apply (yields_u32 _ _ _ Hl E)|]. intros len Hl r Hr.
  pose proof (ahead_length r Hr) as Hlen. pose proof Hr as (H1 & H2 & H3 & _). rewrite sbind_sget. unfold remaining.
  rewrite Hlen. assert (Er : Prelude.u64 (n_ r - pos_ r) = n_ r - pos_ r) by (apply wrap_small; unfold in_u; lia). rewrite Er.
  destruct (Z.ltb_spec (n_ r - pos_ r) len); [exists r; auto|]. unfold in_u in Hl.
  destruct (advanced r len Hr ltac:(lia)) as [Hok Hd]. eexists. split; [|split; [exact Hok|exact Hd]].
  unfold sbind, slice, advance, smodify. replace (pos_ r + len <=? Z.of_nat (length (p_ r))) with true by lia.
  unfold yield_, sret. do 3 f_equal. unfold ahead. rewrite skipn_firstn_comm, take_take. f_equal. lia.
Qed.

(** A value computed from what was read. *)
Lemma simulates_map {A B : Type} (m : method A) (d : reader A) (f : A -> B) :
  simulates m d -> simulates (then_ m (fun a => yield_ (f a))) (rbind d (fun a => rret (f a))).
Proof.
  intros Hm. apply (simulates_bind (fun _ => True)); [exact Hm|auto|]. intros a _. apply simulates_ret.
Qed.

Lemma simulates_u16 : simulates u16 get_u16.
Proof.
  apply (simulates_bind (fun _ => True)); [apply simulates_u8|auto|]. intros a _. apply simulates_map, simulates_u8.
Qed.

Lemma simulates_i64 : simulates i64 get_i64.
Proof. apply simulates_map, simulates_loop. Qed.

(** [get_str] is [get_blob] read as characters. *)
Lemma get_str_blob (l : list Z) : get_str l = rbind get_blob (fun b => rret (string_of_bytes b)) l.
Proof.
  unfold get_str, get_blob, rbind, rret. destruct (get_u32 l) as [[len l']|]; [|reflexivity].
  destruct (_ <? len); reflexivity.
Qed.

Lemma simulates_str : simulates str get_str.
Proof. intros r Hr. rewrite get_str_blob. apply (simulates_map _ _ string_of_bytes simulates_blob r Hr). Qed.

Lemma at_end_ahead (r : t) : ok r -> at_end r = true <-> ahead r = [].
Proof.
  intros Hr. pose proof (ahead_length r Hr) as Hl. unfold at_end. rewrite Z.eqb_eq. split.
  - intros E. apply length_zero_iff_nil. lia.
  - intros E. rewrite E in Hl. cbn in Hl. lia.
Qed.

Lemma of_vector_ok (v : list Z) : Forall (in_u 8) v -> Z.of_nat (length v) < 2 ^ 64 - 1 -> ok (of_vector v) /\ ahead (of_vector v) = v.
Proof.
  intros Hv Hn. split; [split_and!; cbn; lia || exact Hv|]. unfold ahead, of_vector. cbn [pos_ n_ p_].
  rewrite Nat2Z.id, firstn_all. reflexivity.
Qed.
End ReaderFacts.
Import ReaderFacts.

(** C26: the readers never read out of bounds, and read what the list holds.  On a cursor
    within its memory (of fewer than [2^64 - 1] bytes), each method of the class ends,
    without undefined behaviour; it succeeds exactly when the reader of the format
    succeeds on the bytes ahead, with the same value, and leaves the cursor within its
    memory, before the same bytes; and methods called one after the other, each after the
    success of the last, read what the readers in sequence read. *)
Theorem readers_refine_format :
  simulates WireReader.u8 get_u8 /\ simulates WireReader.u16 get_u16 /\ simulates WireReader.u32 get_u32 /\
  simulates WireReader.u64_ get_u64 /\ simulates WireReader.i64 get_i64 /\ simulates WireReader.i32 get_i32 /\
  simulates WireReader.bool_ get_bool /\ simulates WireReader.str get_str /\ simulates WireReader.f32 get_f32 /\
  simulates WireReader.bytes get_blob /\
  (forall r, ok r -> WireReader.at_end r = true <-> at_end tt (ahead r) = Some (tt, ahead r)) /\
  (forall (A B : Type) (Q : A -> Prop) (m : WireReader.method A) d (k : A -> WireReader.method B) e,
     simulates m d -> (forall l a r, Forall (in_u 8) l -> d l = Some (a, r) -> Q a) -> (forall a, Q a -> simulates (k a) (e a)) ->
     simulates (WireReader.then_ m k) (rbind d e)).
Proof.
  split; [apply simulates_u8|]. split; [apply simulates_u16|]. split; [apply simulates_loop|]. split; [apply simulates_loop|].
  split; [apply simulates_i64|]. split; [apply simulates_map, simulates_loop|]. split; [apply simulates_map, simulates_u8|].
  split; [apply simulates_str|]. split; [apply simulates_map, simulates_i64|]. split; [apply simulates_blob|]. split.
  - intros r Hr. rewrite (at_end_ahead r Hr). unfold at_end. destruct (ahead r); split; congruence.
  - intros A B Q m d k e. apply simulates_bind.
Qed.

(** A position at the end of a memory of [2^64 - 1] bytes would wrap to a position that
    passes the test. *)
Lemma need_wraps : WireReader.need 1 (WireReader.mk [] (2 ^ 64 - 1) (2 ^ 64 - 1)) = true.
Proof. vm_compute. reflexivity. Qed.

Example cursor_reads :
  let w := WireWriter.u16 0x1234 (WireWriter.u32 7 WireWriter.empty) in
  (WireReader.then_ WireReader.u32 (fun a => WireReader.then_ WireReader.u16 (fun b => WireReader.yield_ (a, b))) (WireReader.of_vector w)).1
    = Ret (Some (7, 0x1234)) /\
  (WireReader.then_ WireReader.u64_ (fun a => WireReader.yield_ a) (WireReader.of_vector w)).1 = Ret None.
Proof. vm_compute. split; reflexivity. Qed.

Lemma readers_refine_format_witness :
  exists r', WireReader.u8 (WireReader.of_vector [5; 6]) = (Ret (Some 5), r') /\ ok r' /\ ahead r' = [6].
Proof.
  exact (proj1 readers_refine_format (WireReader.of_vector [5; 6])
    (proj1 (of_vector_ok [5; 6] ltac:(repeat constructor; cbn; lia) eq_refl))).
Defined.
