(* ===== verification/Protocol.v ===== *)
(** * The wire protocol (protocol.hpp)

    Frames, and the seven message payloads with their encoders and decoders.
    The decoders end in [at_end]: they refuse what follows the message. *)
From S2P Require Import Prelude Rounding Binary64 Util Ids Crc Wire.
Local Open Scope Z_scope.
#[local] Arguments Z.mul : simpl never.
#[local] Arguments Z.add : simpl never.
#[local] Arguments Z.pow : simpl never.
#[local] Arguments crc32 : simpl never.

(** ** Frames *)
Definition FRAME_MAGIC : Z := 0x43544750.
Definition PROTOCOL_MAJOR : Z := 1.
Definition MAX_FRAME : Z := 16 * 1024 * 1024.
Definition HEADER_SIZE : Z := 4 + 2 + 2 + 4.
Definition TRAILER_SIZE : Z := 4.

Inductive MsgType :=
| HELLO | REGISTER | POWER_OBSERVATION | THERMAL_OBSERVATION
| SET_POLICY | SET_BUDGET | RESERVE | ACTIVATE | RELEASE
| DECISION_REQUEST | DECISION_RESPONSE | THROTTLE_REPORT
| SNAPSHOT_REQUEST | SNAPSHOT_RESPONSE | ACK | ERROR.

#[export] Instance MsgType_eq_dec : EqDecision MsgType.
Proof. solve_decision. Defined.

Definition msg_type_code (t : MsgType) : Z :=
  match t with
  | HELLO => 1 | REGISTER => 2 | POWER_OBSERVATION => 3 | THERMAL_OBSERVATION => 4
  | SET_POLICY => 5 | SET_BUDGET => 6 | RESERVE => 7 | ACTIVATE => 8 | RELEASE => 9
  | DECISION_REQUEST => 10 | DECISION_RESPONSE => 11 | THROTTLE_REPORT => 12
  | SNAPSHOT_REQUEST => 13 | SNAPSHOT_RESPONSE => 14 | ACK => 15 | ERROR => 16
  end.

Definition is_valid_msg_type (t : Z) : bool := (1 <=? t) && (t <=? 16).

(** [static_cast<MsgType>(t)] of a code [is_valid_msg_type] admits; the default
    is not reached. *)
Definition msg_type_cast (t : Z) : MsgType :=
  match t with
  | 2 => REGISTER | 3 => POWER_OBSERVATION | 4 => THERMAL_OBSERVATION
  | 5 => SET_POLICY | 6 => SET_BUDGET | 7 => RESERVE | 8 => ACTIVATE | 9 => RELEASE
  | 10 => DECISION_REQUEST | 11 => DECISION_RESPONSE | 12 => THROTTLE_REPORT
  | 13 => SNAPSHOT_REQUEST | 14 => SNAPSHOT_RESPONSE | 15 => ACK | 16 => ERROR
  | _ => HELLO
  end.

Record Frame := mkFrame { f_type : MsgType; payload : list Z }.

(** [FrameResult]: [ok] with the frame and the number of bytes it took, or the
    error. *)
Inductive FrameResult :=
| frame_ok (f : Frame) (consumed : Z)
| frame_error (e : string).

Definition encode_frame (ty : MsgType) (p : list Z) : Frame := mkFrame ty p.

Definition frame_header (f : Frame) : list Z :=
  put_u32 FRAME_MAGIC ++ put_u16 PROTOCOL_MAJOR ++ put_u16 (msg_type_code (f_type f))
    ++ put_u32 (Z.of_nat (length (payload f))).

Definition serialize_frame (f : Frame) : outcome (list Z) :=
  if MAX_FRAME <? Z.of_nat (length (payload f))
  then Throw (length_error "pg wire: frame exceeds MAX_FRAME")
  else Ret (seal (frame_header f ++ payload f)).

Definition read_frame_header : reader (Z * Z * Z * Z) :=
  get! magic <- get_u32; get! major <- get_u16; get! type <- get_u16; get! len <- get_u32;
  rret (magic, major, type, len).

Definition deserialize_frame (data : list Z) : FrameResult :=
  let n := Z.of_nat (length data) in
  if n <? HEADER_SIZE + TRAILER_SIZE then frame_error "frame too small" else
  match run_reader read_frame_header data with
  | None => frame_error "malformed header"
  | Some (magic, major, type, len) =>
      if negb (magic =? FRAME_MAGIC) then frame_error "bad magic"
      else if negb (major =? PROTOCOL_MAJOR) then frame_error "unsupported protocol version"
      else if negb (is_valid_msg_type type) then frame_error "invalid message type"
      else if MAX_FRAME <? len then frame_error "oversized frame"
      else
        let total := HEADER_SIZE + len + TRAILER_SIZE in
        if n <? total then frame_error "truncated payload"
        else if negb (crc_matches (Z.to_nat (HEADER_SIZE + len)) data) then frame_error "crc mismatch"
        else frame_ok (mkFrame (msg_type_cast type)
                         (take (Z.to_nat len) (drop (Z.to_nat HEADER_SIZE) data))) total
  end.

(** ** Facts about frames *)
Lemma msg_type_code_cast (t : MsgType) :
  is_valid_msg_type (msg_type_code t) = true /\ msg_type_cast (msg_type_code t) = t /\ in_u 16 (msg_type_code t).
Proof. destruct t; repeat split; cbn; lia. Qed.

Lemma frame_header_length (f : Frame) : length (frame_header f) = 12%nat.
Proof. reflexivity. Qed.

Lemma frame_header_range (f : Frame) : Forall (in_u 8) (frame_header f).
Proof. repeat constructor; apply wrap_range; lia. Qed.

Definition valid_frame (f : Frame) : Prop :=
  Forall (in_u 8) (payload f) /\ Z.of_nat (length (payload f)) <= MAX_FRAME.

Lemma reads_header (f : Frame) : valid_frame f ->
  reads (frame_header f) read_frame_header
    (FRAME_MAGIC, PROTOCOL_MAJOR, msg_type_code (f_type f), Z.of_nat (length (payload f))).
Proof.
  intros [_ Hlen] rest. unfold MAX_FRAME in Hlen. destruct (msg_type_code_cast (f_type f)) as (_ & _ & Hc).
  assert (in_u 32 FRAME_MAGIC /\ in_u 16 PROTOCOL_MAJOR) as [Hm Hp] by (split; split; reflexivity || discriminate).
  assert (Hl : in_u 32 (Z.of_nat (length (payload f)))) by (unfold in_u; lia).
  unfold frame_header, read_frame_header. repeat read_field. reflexivity.
Qed.

Lemma serialize_frame_ok (f : Frame) : valid_frame f -> serialize_frame f = Ret (seal (frame_header f ++ payload f)).
Proof. intros [_ H]. unfold serialize_frame. destruct (Z.ltb_spec MAX_FRAME (Z.of_nat (length (payload f)))); [lia|reflexivity]. Qed.

Lemma deserialize_sealed (f : Frame) (rest : list Z) : valid_frame f ->
  deserialize_frame (seal (frame_header f ++ payload f) ++ rest)
  = frame_ok f (Z.of_nat (length (payload f)) + 16).
Proof.
  intros Hf. pose proof Hf as [Hr Hlen]. destruct (msg_type_code_cast (f_type f)) as (Hv & Hcast & _).
  set (n := Z.of_nat (length (payload f))) in *.
  assert (Hb : Forall (in_u 8) (frame_header f ++ payload f)) by (apply Forall_app; auto using frame_header_range).
  assert (Hk : Z.to_nat (HEADER_SIZE + n) = length (frame_header f ++ payload f)).
  { rewrite length_app, frame_header_length. unfold HEADER_SIZE. lia. }
  unfold deserialize_frame.
  replace (Z.of_nat (length (seal (frame_header f ++ payload f) ++ rest))) with (n + 16 + Z.of_nat (length rest))
    by (rewrite length_app, seal_length, length_app, frame_header_length; lia).
  destruct (Z.ltb_spec (n + 16 + Z.of_nat (length rest)) (HEADER_SIZE + TRAILER_SIZE));
    [unfold HEADER_SIZE, TRAILER_SIZE in *; lia|].
  assert (Hh : run_reader read_frame_header (seal (frame_header f ++ payload f) ++ rest)
    = Some (FRAME_MAGIC, PROTOCOL_MAJOR, msg_type_code (f_type f), n)).
  { unfold run_reader, seal. rewrite <- !app_assoc. rewrite (reads_header f Hf). reflexivity. }
  rewrite Hh, Hk, peek_seal, !Z.eqb_refl, Hv by assumption. cbn [negb].
  destruct (Z.ltb_spec MAX_FRAME n); [lia|].
  destruct (Z.ltb_spec (n + 16 + Z.of_nat (length rest)) (HEADER_SIZE + n + TRAILER_SIZE));
    [unfold HEADER_SIZE, TRAILER_SIZE in *; lia|].
  f_equal; [|unfold HEADER_SIZE, TRAILER_SIZE; lia]. rewrite Hcast. destruct f as [ty p]. cbn [f_type payload] in *. f_equal.
  unfold seal. rewrite <- !app_assoc. change (Z.to_nat HEADER_SIZE) with (length (frame_header (mkFrame ty p))).
  rewrite drop_app_length. unfold n. rewrite Nat2Z.id, take_app_length. reflexivity.
Qed.

(** The length a header announces is that of its last four bytes. *)
Lemma header_length (data : list Z) (magic major type len : Z) :
  run_reader read_frame_header data = Some (magic, major, type, len) -> len = peek_u32 8 data.
Proof. do 12 (destruct data as [|? data]; [discriminate|]). intros [= _ _ _ <-]. reflexivity. Qed.

Lemma peek_field (k : nat) (data : list Z) : peek_u32 k data = peek_u32 0 (take 4 (drop k data)).
Proof. unfold peek_u32. rewrite drop_0. destruct (drop k data) as [|a [|b [|c [|d l]]]]; reflexivity. Qed.

(** What an accepted buffer contains. *)
Lemma deserialize_inv (data : list Z) (f : Frame) (c : Z) : deserialize_frame data = frame_ok f c ->
  exists len, len = peek_u32 8 data /\ c = len + 16 /\ c <= Z.of_nat (length data) /\ crc_matches (Z.to_nat (12 + len)) data = true.
Proof.
  unfold deserialize_frame, HEADER_SIZE, TRAILER_SIZE. destruct (_ <? _); [discriminate|].
  destruct (run_reader _ _) as [[[[magic major] type] len]|] eqn:Eh; [|discriminate]. apply header_length in Eh.
  repeat (destruct (negb _); [discriminate|]). destruct (MAX_FRAME <? len); [discriminate|].
  destruct (Z.ltb_spec (Z.of_nat (length data)) (4 + 2 + 2 + 4 + len + 4)); [discriminate|].
  destruct (crc_matches _ _) eqn:E; [|discriminate]. cbn [negb]. intros [= _ <-].
  exists len. repeat split; [exact Eh|lia|lia|]. replace (12 + len) with (4 + 2 + 2 + 4 + len) by lia. exact E.
Qed.

(** C28: a frame that was serialized is read back as it was, whatever bytes
    follow it in the buffer, and [consumed] tells where the next one starts. *)
Theorem frame_roundtrip (f : Frame) (rest : list Z) : valid_frame f ->
  exists bytes, serialize_frame f = Ret bytes /\
    deserialize_frame (bytes ++ rest) = frame_ok f (Z.of_nat (length bytes)).
Proof.
  intros Hf. exists (seal (frame_header f ++ payload f)). split; [apply serialize_frame_ok, Hf|].
  rewrite deserialize_sealed, seal_length, length_app, frame_header_length by assumption. f_equal. lia.
Qed.

Lemma frame_roundtrip_witness : exists bytes,
  serialize_frame (mkFrame ACK [1; 2; 255]) = Ret bytes /\
  deserialize_frame (bytes ++ [7]) = frame_ok (mkFrame ACK [1; 2; 255]) (Z.of_nat (length bytes)).
Proof.
  apply (frame_roundtrip (mkFrame ACK [1; 2; 255]) [7]).
  split; [repeat constructor; cbn; lia|cbn; unfold MAX_FRAME; lia].
Defined.

(** C27: a frame altered inside four consecutive bytes, wherever they are (the length and
    the checksum included), is not accepted as it stands.  [deserialize_frame] takes nothing
    from the altered buffer, unless the length field is among what was altered and now
    announces less than the buffer holds: what it takes then is a strict prefix of the
    buffer, never the whole of it. *)
Theorem altered_frame_rejected (f : Frame) (bytes bytes' : list Z) :
  valid_frame f -> serialize_frame f = Ret bytes -> Forall (in_u 8) bytes' -> burst bytes bytes' ->
  forall g c, deserialize_frame bytes' = frame_ok g c ->
    c < Z.of_nat (length bytes') /\ take 4 (drop 8 bytes') <> take 4 (drop 8 bytes).
Proof.
  intros Hf Hs Hr Hb g c Hg. rewrite serialize_frame_ok in Hs by assumption.
  assert (E : bytes = seal (frame_header f ++ payload f)) by congruence. clear Hs. subst bytes.
  apply deserialize_inv in Hg as (len & Hlen & Hc & Hle & Hm). pose proof (burst_length _ _ Hb) as Hl.
  assert (Hbody : Forall (in_u 8) (frame_header f ++ payload f))
    by (apply Forall_app; split; [apply frame_header_range|apply Hf]).
  assert (Hlt : c <> Z.of_nat (length bytes')).
  { intros ->. rewrite Hl, seal_length in Hc. replace (Z.to_nat (12 + len)) with (length (frame_header f ++ payload f)) in Hm by lia.
    pose proof (peek_seal (frame_header f ++ payload f) [] Hbody) as Hp. rewrite app_nil_r in Hp.
    rewrite (crc_matches_burst _ _ _ (seal_range _ Hbody) Hr (seal_length _) Hp Hb) in Hm. discriminate. }
  split; [lia|]. intros E. apply Hlt. rewrite Hc, Hlen, peek_field, E, <- peek_field, Hl, seal_length, length_app, frame_header_length.
  rewrite <- (header_length _ FRAME_MAGIC PROTOCOL_MAJOR (msg_type_code (f_type f)) (Z.of_nat (length (payload f)))); [lia|].
  unfold run_reader, seal. rewrite <- app_assoc, (reads_header f Hf). reflexivity.
Qed.

(** The length can be altered so that a shorter frame, which the payload carries, is
    accepted. *)
Definition inner_header : list Z := frame_header (mkFrame ACK [5]).
Definition carrier : Frame := mkFrame ACK ([5] ++ put_u32 (crc32 (inner_header ++ [5])) ++ [9]).
Definition shortened : list Z := inner_header ++ drop 12 (seal (frame_header carrier ++ payload carrier)).

Lemma shorter_frame_accepted :
  serialize_frame carrier = Ret (seal (frame_header carrier ++ payload carrier)) /\
  burst (seal (frame_header carrier ++ payload carrier)) shortened /\
  deserialize_frame shortened = frame_ok (mkFrame ACK [5]) 17.
Proof.
  split; [reflexivity|]. split; [|vm_compute; reflexivity].
  exists (take 8 inner_header), (put_u32 6), (put_u32 1), (drop 12 (seal (frame_header carrier ++ payload carrier))).
  split; [reflexivity|]. split; [reflexivity|]. split; [reflexivity|]. split; [cbn; lia|discriminate].
Qed.

(** It is shorter than the buffer, and the length field has changed. *)
Lemma altered_frame_rejected_witness :
  17 < Z.of_nat (length shortened) /\
  take 4 (drop 8 shortened) <> take 4 (drop 8 (seal (frame_header carrier ++ payload carrier))).
Proof.
  apply (altered_frame_rejected carrier (seal (frame_header carrier ++ payload carrier)) shortened) with (g := mkFrame ACK [5]).
  - split; [apply bytesb_range; vm_compute; reflexivity|vm_compute; discriminate].
  - reflexivity.
  - apply bytesb_range. vm_compute. reflexivity.
  - exists (take 8 inner_header), (put_u32 6), (put_u32 1), (drop 12 (seal (frame_header carrier ++ payload carrier))).
    split; [reflexivity|]. split; [reflexivity|]. split; [reflexivity|]. split; [cbn; lia|discriminate].
  - vm_compute. reflexivity.
Defined.

(** ** Messages *)
Ltac open_ids := repeat match goal with i : StrongId _ |- _ => destruct i | g : Generation _ |- _ => destruct g end.

(** The encoding of a message is read field by field. *)
Ltac solve_reads m :=
  intros Hv; red in Hv; destruct_and? Hv;
  match goal with |- exists l, ?e _ = _ /\ _ => unfold e end;
  rewrite ?put_str_short by assumption; cbn [obind];
  eexists; split; [reflexivity|]; intros rest;
  match goal with |- ?f _ = _ => unfold f end;
  repeat read_field; destruct m; open_ids; reflexivity.

Module RegisterMsg.
Record t := mk {
  worker : WorkerId; boot : WorkerBootId; node : NodeId; name : string }.

Definition valid (m : t) : Prop :=
  in_u 64 (id_raw (worker m)) /\ in_u 64 (id_raw (boot m)) /\ in_u 64 (id_raw (node m)) /\
  short_string (name m).

Definition encode_register (m : t) : outcome (list Z) :=
  let! s := put_str (name m) in
  Ret (put_u64 (id_raw (worker m)) ++ put_u64 (id_raw (boot m)) ++ put_u64 (id_raw (node m)) ++ s).

Definition fields : reader t :=
  get! worker <- get_u64; get! boot <- get_u64; get! node <- get_u64; get! name <- get_str;
  rret (mk (mkId worker) (mkId boot) (mkId node) name).

Definition decode_register (f : Frame) : option t := run_reader (whole fields) (payload f).

#[export] Instance register_stable : Stable fields.
Proof. unfold fields. apply _. Qed.

Lemma register_reads (m : t) : valid m -> exists l, encode_register m = Ret l /\ reads l fields m.
Proof. solve_reads m. Qed.
End RegisterMsg.

Module PowerObsMsg.
Record t := mk {
  worker : WorkerId; boot : WorkerBootId; epoch : CoordinatorEpoch; accel : AcceleratorId;
  device_gen : DeviceGeneration; obs_gen : ObservationGeneration; timestamp_ns : Z; has_power : bool;
  power_mw : Z; has_temp : bool; temp_centi : Z; sm_mhz : Z; mem_mhz : Z; has_util : bool;
  utilization_bp : Z; has_energy : bool; energy_mj : Z; throttled : bool; provenance : Z; source : string }.

Definition valid (m : t) : Prop :=
  in_u 64 (id_raw (worker m)) /\ in_u 64 (id_raw (boot m)) /\ in_u 64 (gen_raw (epoch m)) /\
  in_u 64 (id_raw (accel m)) /\ in_u 64 (gen_raw (device_gen m)) /\ in_u 64 (gen_raw (obs_gen m)) /\
  in_i64 (timestamp_ns m) /\ in_i64 (power_mw m) /\ in_i32 (temp_centi m) /\ in_u 32 (sm_mhz m) /\
  in_u 32 (mem_mhz m) /\ in_u 16 (utilization_bp m) /\ in_i64 (energy_mj m) /\ in_u 8 (provenance m) /\
  short_string (source m).

Definition encode_power_obs (m : t) : outcome (list Z) :=
  let! s := put_str (source m) in
  Ret (put_u64 (id_raw (worker m)) ++ put_u64 (id_raw (boot m)) ++ put_u64 (gen_raw (epoch m)) ++
       put_u64 (id_raw (accel m)) ++ put_u64 (gen_raw (device_gen m)) ++ put_u64 (gen_raw (obs_gen m)) ++
       put_i64 (timestamp_ns m) ++ put_bool (has_power m) ++ put_i64 (power_mw m) ++ put_bool (has_temp m) ++
       put_i32 (temp_centi m) ++ put_u32 (sm_mhz m) ++ put_u32 (mem_mhz m) ++ put_bool (has_util m) ++
       put_u16 (utilization_bp m) ++ put_bool (has_energy m) ++ put_i64 (energy_mj m) ++
       put_bool (throttled m) ++ put_u8 (provenance m) ++ s).

Definition fields : reader t :=
  get! worker <- get_u64; get! boot <- get_u64; get! epoch <- get_u64; get! accel <- get_u64;
  get! device_gen <- get_u64; get! obs_gen <- get_u64; get! timestamp_ns <- get_i64;
  get! has_power <- get_bool; get! power_mw <- get_i64; get! has_temp <- get_bool;
  get! temp_centi <- get_i32; get! sm_mhz <- get_u32; get! mem_mhz <- get_u32; get! has_util <- get_bool;
  get! utilization_bp <- get_u16; get! has_energy <- get_bool; get! energy_mj <- get_i64;
  get! throttled <- get_bool; get! provenance <- get_u8; get! source <- get_str;
  rret (mk (mkId worker) (mkId boot) (mkGen epoch) (mkId accel) (mkGen device_gen) (mkGen obs_gen) timestamp_ns
           has_power power_mw has_temp temp_centi sm_mhz mem_mhz has_util utilization_bp has_energy energy_mj
           throttled provenance source).

Definition decode_power_obs (f : Frame) : option t := run_reader (whole fields) (payload f).

#[export] Instance power_obs_stable : Stable fields.
Proof. unfold fields. apply _. Qed.

Lemma power_obs_reads (m : t) : valid m -> exists l, encode_power_obs m = Ret l /\ reads l fields m.
Proof. solve_reads m. Qed.
End PowerObsMsg.

Module ThermalObsMsg.
Record t := mk {
  worker : WorkerId; boot : WorkerBootId; epoch : CoordinatorEpoch; accel : AcceleratorId;
  therm_gen : ThermalGeneration; obs_gen : ObservationGeneration; timestamp_ns : Z; has_temp : bool;
  temp_centi : Z; state : Z }.

Definition valid (m : t) : Prop :=
  in_u 64 (id_raw (worker m)) /\ in_u 64 (id_raw (boot m)) /\ in_u 64 (gen_raw (epoch m)) /\
  in_u 64 (id_raw (accel m)) /\ in_u 64 (gen_raw (therm_gen m)) /\ in_u 64 (gen_raw (obs_gen m)) /\
  in_i64 (timestamp_ns m) /\ in_i32 (temp_centi m) /\ in_u 8 (state m) /\ state m <= 6.

Definition encode_thermal_obs (m : t) : outcome (list Z) :=
  Ret (put_u64 (id_raw (worker m)) ++ put_u64 (id_raw (boot m)) ++ put_u64 (gen_raw (epoch m)) ++
       put_u64 (id_raw (accel m)) ++ put_u64 (gen_raw (therm_gen m)) ++ put_u64 (gen_raw (obs_gen m)) ++
       put_i64 (timestamp_ns m) ++ put_bool (has_temp m) ++ put_i32 (temp_centi m) ++ put_u8 (state m)).

Definition fields : reader t :=
  get! worker <- get_u64; get! boot <- get_u64; get! epoch <- get_u64; get! accel <- get_u64;
  get! therm_gen <- get_u64; get! obs_gen <- get_u64; get! timestamp_ns <- get_i64;
  get! has_temp <- get_bool; get! temp_centi <- get_i32; get! state <- get_u8;
  get! _ <- guard (state <=? 6);
  rret (mk (mkId worker) (mkId boot) (mkGen epoch) (mkId accel) (mkGen therm_gen) (mkGen obs_gen) timestamp_ns
           has_temp temp_centi state).

Definition decode_thermal_obs (f : Frame) : option t := run_reader (whole fields) (payload f).

#[export] Instance thermal_obs_stable : Stable fields.
Proof. unfold fields. apply _. Qed.

Lemma thermal_obs_reads (m : t) : valid m -> exists l, encode_thermal_obs m = Ret l /\ reads l fields m.
Proof. solve_reads m. Qed.
End ThermalObsMsg.

Module BudgetMsg.
Record t := mk {
  budget : BudgetId; generation : BudgetGeneration; domain : PowerDomainId; parent : BudgetId;
  name : string; hard_max_mw : Z; soft_mw : Z; min_reserve_mw : Z; burst_mw : Z; burst_window_ns : Z;
  recovery_ns : Z; priority : Z; authoritative : bool; policy_gen : Z }.

Definition valid (m : t) : Prop :=
  in_u 64 (id_raw (budget m)) /\ in_u 64 (gen_raw (generation m)) /\ in_u 64 (id_raw (domain m)) /\
  in_u 64 (id_raw (parent m)) /\ short_string (name m) /\ in_i64 (hard_max_mw m) /\ in_i64 (soft_mw m) /\
  in_i64 (min_reserve_mw m) /\ in_i64 (burst_mw m) /\ in_i64 (burst_window_ns m) /\
  in_i64 (recovery_ns m) /\ in_i32 (priority m) /\ in_u 64 (policy_gen m).

Definition encode_budget (m : t) : outcome (list Z) :=
  let! s := put_str (name m) in
  Ret (put_u64 (id_raw (budget m)) ++ put_u64 (gen_raw (generation m)) ++ put_u64 (id_raw (domain m)) ++
       put_u64 (id_raw (parent m)) ++ s ++ put_i64 (hard_max_mw m) ++ put_i64 (soft_mw m) ++
       put_i64 (min_reserve_mw m) ++ put_i64 (burst_mw m) ++ put_i64 (burst_window_ns m) ++
       put_i64 (recovery_ns m) ++ put_i32 (priority m) ++ put_bool (authoritative m) ++ put_u64 (policy_gen m)).

Definition fields : reader t :=
  get! budget <- get_u64; get! generation <- get_u64; get! domain <- get_u64; get! parent <- get_u64;
  get! name <- get_str; get! hard_max_mw <- get_i64; get! soft_mw <- get_i64;
  get! min_reserve_mw <- get_i64; get! burst_mw <- get_i64; get! burst_window_ns <- get_i64;
  get! recovery_ns <- get_i64; get! priority <- get_i32; get! authoritative <- get_bool;
  get! policy_gen <- get_u64;
  rret (mk (mkId budget) (mkGen generation) (mkId domain) (mkId parent) name hard_max_mw soft_mw min_reserve_mw
           burst_mw burst_window_ns recovery_ns priority authoritative policy_gen).

Definition decode_budget (f : Frame) : option t := run_reader (whole fields) (payload f).

#[export] Instance budget_stable : Stable fields.
Proof. unfold fields. apply _. Qed.

Lemma budget_reads (m : t) : valid m -> exists l, encode_budget m = Ret l /\ reads l fields m.
Proof. solve_reads m. Qed.
End BudgetMsg.

Module ReserveMsg.
Record t := mk {
  reservation : ReservationId; budget : BudgetId; requested_mw : Z; requested_mj : Z;
  budget_gen : BudgetGeneration; reservation_gen : ReservationGeneration; policy_gen : PolicyGeneration;
  device_gen : DeviceGeneration; workload : WorkloadId; cls : Z; scope : PowerDomainId;
  epoch : CoordinatorEpoch; boot : WorkerBootId; timestamp_ns : Z; validity_ns : Z }.

Definition valid (m : t) : Prop :=
  in_u 64 (id_raw (reservation m)) /\ in_u 64 (id_raw (budget m)) /\ in_i64 (requested_mw m) /\
  in_i64 (requested_mj m) /\ in_u 64 (gen_raw (budget_gen m)) /\ in_u 64 (gen_raw (reservation_gen m)) /\
  in_u 64 (gen_raw (policy_gen m)) /\ in_u 64 (gen_raw (device_gen m)) /\ in_u 64 (id_raw (workload m)) /\
  in_u 8 (cls m) /\ cls m <= 7 /\ in_u 64 (id_raw (scope m)) /\ in_u 64 (gen_raw (epoch m)) /\
  in_u 64 (id_raw (boot m)) /\ in_i64 (timestamp_ns m) /\ in_i64 (validity_ns m).

Definition encode_reserve (m : t) : outcome (list Z) :=
  Ret (put_u64 (id_raw (reservation m)) ++ put_u64 (id_raw (budget m)) ++ put_i64 (requested_mw m) ++
       put_i64 (requested_mj m) ++ put_u64 (gen_raw (budget_gen m)) ++ put_u64 (gen_raw (reservation_gen m)) ++
       put_u64 (gen_raw (policy_gen m)) ++ put_u64 (gen_raw (device_gen m)) ++ put_u64 (id_raw (workload m)) ++
       put_u8 (cls m) ++ put_u64 (id_raw (scope m)) ++ put_u64 (gen_raw (epoch m)) ++
       put_u64 (id_raw (boot m)) ++ put_i64 (timestamp_ns m) ++ put_i64 (validity_ns m)).

Definition fields : reader t :=
  get! reservation <- get_u64; get! budget <- get_u64; get! requested_mw <- get_i64;
  get! requested_mj <- get_i64; get! budget_gen <- get_u64; get! reservation_gen <- get_u64;
  get! policy_gen <- get_u64; get! device_gen <- get_u64; get! workload <- get_u64; get! cls <- get_u8;
  get! scope <- get_u64; get! epoch <- get_u64; get! boot <- get_u64; get! timestamp_ns <- get_i64;
  get! validity_ns <- get_i64; get! _ <- guard (cls <=? 7);
  rret (mk (mkId reservation) (mkId budget) requested_mw requested_mj (mkGen budget_gen) (mkGen reservation_gen)
           (mkGen policy_gen) (mkGen device_gen) (mkId workload) cls (mkId scope) (mkGen epoch) (mkId boot)
           timestamp_ns validity_ns).

Definition decode_reserve (f : Frame) : option t := run_reader (whole fields) (payload f).

#[export] Instance reserve_stable : Stable fields.
Proof. unfold fields. apply _. Qed.

Lemma reserve_reads (m : t) : valid m -> exists l, encode_reserve m = Ret l /\ reads l fields m.
Proof. solve_reads m. Qed.
End ReserveMsg.

Module BudgetActionMsg.
Record t := mk {
  reservation : ReservationId; budget : BudgetId; amount_mw : Z; budget_gen : BudgetGeneration;
  epoch : CoordinatorEpoch; boot : WorkerBootId }.

Definition valid (m : t) : Prop :=
  in_u 64 (id_raw (reservation m)) /\ in_u 64 (id_raw (budget m)) /\ in_i64 (amount_mw m) /\
  in_u 64 (gen_raw (budget_gen m)) /\ in_u 64 (gen_raw (epoch m)) /\ in_u 64 (id_raw (boot m)).

Definition encode_budget_action (m : t) : outcome (list Z) :=
  Ret (put_u64 (id_raw (reservation m)) ++ put_u64 (id_raw (budget m)) ++ put_i64 (amount_mw m) ++
       put_u64 (gen_raw (budget_gen m)) ++ put_u64 (gen_raw (epoch m)) ++ put_u64 (id_raw (boot m))).

Definition fields : reader t :=
  get! reservation <- get_u64; get! budget <- get_u64; get! amount_mw <- get_i64;
  get! budget_gen <- get_u64; get! epoch <- get_u64; get! boot <- get_u64;
  rret (mk (mkId reservation) (mkId budget) amount_mw (mkGen budget_gen) (mkGen epoch) (mkId boot)).

Definition decode_budget_action (f : Frame) : option t := run_reader (whole fields) (payload f).

#[export] Instance budget_action_stable : Stable fields.
Proof. unfold fields. apply _. Qed.

Lemma budget_action_reads (m : t) : valid m -> exists l, encode_budget_action m = Ret l /\ reads l fields m.
Proof. solve_reads m. Qed.
End BudgetActionMsg.

Module AckMsg.
Record t := mk {
  message_id : Z; ok : bool; message : string }.

Definition valid (m : t) : Prop :=
  in_u 64 (message_id m) /\ short_string (message m).

Definition encode_ack (m : t) : outcome (list Z) :=
  let! s := put_str (message m) in
  Ret (put_u64 (message_id m) ++ put_bool (ok m) ++ s).

Definition fields : reader t :=
  get! message_id <- get_u64; get! ok <- get_bool; get! message <- get_str;
  rret (mk message_id ok message).

Definition decode_ack (f : Frame) : option t := run_reader (whole fields) (payload f).

#[export] Instance ack_stable : Stable fields.
Proof. unfold fields. apply _. Qed.

Lemma ack_reads (m : t) : valid m -> exists l, encode_ack m = Ret l /\ reads l fields m.
Proof. solve_reads m. Qed.
End AckMsg.
(** *** The contract of a codec

    The payload of a valid message decodes to the message; no truncation and no
    extension of a payload the decoder accepts is accepted. *)
Class Codec (A : Type) := {
  codec_valid : A -> Prop;
  codec_encode : A -> outcome (list Z);
  codec_decode : Frame -> option A }.

Record CodecLaws (A : Type) `{Codec A} : Prop := {
  decode_encode : forall (m : A) (ty : MsgType), codec_valid m ->
    exists l, codec_encode m = Ret l /\ codec_decode (mkFrame ty l) = Some m;
  decode_exact : forall (ty : MsgType) (l x : list Z), x <> [] ->
    is_Some (codec_decode (mkFrame ty l)) -> codec_decode (mkFrame ty (l ++ x)) = None }.

#[export] Instance Register_codec : Codec RegisterMsg.t :=
  {| codec_valid := RegisterMsg.valid; codec_encode := RegisterMsg.encode_register; codec_decode := RegisterMsg.decode_register |}.
#[export] Instance PowerObs_codec : Codec PowerObsMsg.t :=
  {| codec_valid := PowerObsMsg.valid; codec_encode := PowerObsMsg.encode_power_obs; codec_decode := PowerObsMsg.decode_power_obs |}.
#[export] Instance ThermalObs_codec : Codec ThermalObsMsg.t :=
  {| codec_valid := ThermalObsMsg.valid; codec_encode := ThermalObsMsg.encode_thermal_obs; codec_decode := ThermalObsMsg.decode_thermal_obs |}.
#[export] Instance Budget_codec : Codec BudgetMsg.t :=
  {| codec_valid := BudgetMsg.valid; codec_encode := BudgetMsg.encode_budget; codec_decode := BudgetMsg.decode_budget |}.
#[export] Instance Reserve_codec : Codec ReserveMsg.t :=
  {| codec_valid := ReserveMsg.valid; codec_encode := ReserveMsg.encode_reserve; codec_decode := ReserveMsg.decode_reserve |}.
#[export] Instance BudgetAction_codec : Codec BudgetActionMsg.t :=
  {| codec_valid := BudgetActionMsg.valid; codec_encode := BudgetActionMsg.encode_budget_action;
     codec_decode := BudgetActionMsg.decode_budget_action |}.
#[export] Instance Ack_codec : Codec AckMsg.t :=
  {| codec_valid := AckMsg.valid; codec_encode := AckMsg.encode_ack; codec_decode := AckMsg.decode_ack |}.

(** A decoder that reads the whole payload with a stable reader of the encoding. *)
Lemma codec_laws {A : Type} `{Codec A} (fields : reader A) `{!Stable fields} :
  (forall f, codec_decode f = run_reader (whole fields) (payload f)) ->
  (forall m, codec_valid m -> exists l, codec_encode m = Ret l /\ reads l fields m) -> CodecLaws A.
Proof.
  intros Hd He. split.
  - intros m ty Hm. destruct (He m Hm) as (l & Hl & Hr). exists l. split; [assumption|].
    rewrite Hd. apply whole_reads, Hr.
  - intros ty l x Hx. rewrite !Hd. cbn [payload]. intros Hl. exact (whole_exact fields l x Hl Hx).
Qed.

(** C29: every payload of the protocol keeps the contract of a codec: what a peer
    encodes within the widths of the fields is what the other decodes, and a
    payload cut short or followed by anything is refused. *)
Theorem messages_roundtrip :
  CodecLaws RegisterMsg.t /\ CodecLaws PowerObsMsg.t /\ CodecLaws ThermalObsMsg.t /\ CodecLaws BudgetMsg.t /\
  CodecLaws ReserveMsg.t /\ CodecLaws BudgetActionMsg.t /\ CodecLaws AckMsg.t.
Proof.
  repeat split_and.
  - exact (codec_laws RegisterMsg.fields (fun _ => eq_refl) RegisterMsg.register_reads).
  - exact (codec_laws PowerObsMsg.fields (fun _ => eq_refl) PowerObsMsg.power_obs_reads).
  - exact (codec_laws ThermalObsMsg.fields (fun _ => eq_refl) ThermalObsMsg.thermal_obs_reads).
  - exact (codec_laws BudgetMsg.fields (fun _ => eq_refl) BudgetMsg.budget_reads).
  - exact (codec_laws ReserveMsg.fields (fun _ => eq_refl) ReserveMsg.reserve_reads).
  - exact (codec_laws BudgetActionMsg.fields (fun _ => eq_refl) BudgetActionMsg.budget_action_reads).
  - exact (codec_laws AckMsg.fields (fun _ => eq_refl) AckMsg.ack_reads).
Qed.
