(* ===== verification/Net.v ===== *)
(** * Framed transport (net.hpp)

    The socket is what the peer has sent and the program has not received yet, as
    the segments [recv] will deliver: one call returns at most what it asks for
    of one segment, and nothing once the peer has closed.  [sock_recv_exact]
    loops over [recv], [recv_frame] reads a header, then what it announces.
    Sending is the reverse: [send] takes as much as it likes of what it is given. *)
From S2P Require Import Prelude Rounding Util Crc Wire Protocol.
Local Open Scope Z_scope.

(** ** Receiving *)

(** The stream of a connection: segments, none of them empty. *)
Definition stream : Type := list (list Z).
Definition stream_ok (s : stream) : Prop := Forall (fun seg => seg <> []) s.

(** [::recv(s, buf, n, 0)] with [n > 0]: the empty answer is an orderly shutdown. *)
Definition recv (n : nat) (s : stream) : list Z * stream :=
  match s with
  | [] => ([], [])
  | seg :: s => (take n seg, if decide (drop n seg = []) then s else drop n seg :: s)
  end.

(** [while (off < n)]: every turn receives at least one byte or stops, so [n]
    turns are enough. *)
Fixpoint sock_recv_loop (fuel n : nat) (buf : list Z) (s : stream) : option (list Z) * stream :=
  match n with
  | O => (Some buf, s)
  | S _ =>
      match fuel with
      | O => (None, s)
      | S fuel =>
          let '(got, s) := recv n s in
          if decide (got = []) then (None, s)
          else sock_recv_loop fuel (n - length got) (buf ++ got) s
      end
  end.
Definition sock_recv_exact (n : nat) (s : stream) : option (list Z) * stream := sock_recv_loop n n [] s.

(** The fields [recv_frame] assembles by hand are those the header reader reads. *)
Definition recv_frame (s : stream) : option Frame * stream :=
  match sock_recv_exact (Z.to_nat HEADER_SIZE) s with
  | (None, s) => (None, s)
  | (Some header, s) =>
      match run_reader read_frame_header header with
      | None => (None, s)
      | Some (magic, major, type, len) =>
          if negb (magic =? FRAME_MAGIC) then (None, s)
          else if MAX_FRAME <? len then (None, s)
          else
            match sock_recv_exact (Z.to_nat (len + TRAILER_SIZE)) s with
            | (None, s) => (None, s)
            | (Some body, s) =>
                match deserialize_frame (header ++ body) with
                | frame_ok f _ => (Some f, s)
                | frame_error _ => (None, s)
                end
            end
      end
  end.

(** The loop of a connection's thread: frames until one fails to arrive. *)
Fixpoint recv_frames (k : nat) (s : stream) : list Frame * stream :=
  match k with
  | O => ([], s)
  | S k =>
      match recv_frame s with
      | (Some f, s) => let '(fs, s) := recv_frames k s in (f :: fs, s)
      | (None, s) => ([], s)
      end
  end.

(** ** Sending *)
Section Sending.
(** [::send(s, p, n, 0)]: how many of the [n] bytes offered were taken; a result
    that is not positive is a failure. *)
Context (send : nat -> list Z -> Z).

(** The bytes that reached the connection, and whether all did. *)
Fixpoint sock_send_loop (fuel : nat) (turn : nat) (data : list Z) : bool * list Z :=
  match data with
  | [] => (true, [])
  | _ =>
      match fuel with
      | O => (false, [])
      | S fuel =>
          let sent := send turn data in
          if sent <=? 0 then (false, [])
          else
            let '(ok, out) := sock_send_loop fuel (S turn) (drop (Z.to_nat sent) data) in
            (ok, take (Z.to_nat sent) data ++ out)
      end
  end.
Definition sock_send_all (data : list Z) : bool * list Z := sock_send_loop (length data) 0 data.

Definition send_frame (f : Frame) : outcome (bool * list Z) :=
  let! bytes := serialize_frame f in Ret (sock_send_all bytes).

(** Frames one after the other on the same connection. *)
Fixpoint send_frames (fs : list Frame) : outcome (bool * list Z) :=
  match fs with
  | [] => Ret (true, [])
  | f :: fs =>
      let! r := send_frame f in
      let '(ok, out) := r in
      if ok then let! r := send_frames fs in Ret (r.1, out ++ r.2) else Ret (false, out)
  end.

(** A connection that is up: every call takes something of what it is offered. *)
Definition send_progress : Prop :=
  forall turn data, data <> [] -> 1 <= send turn data <= Z.of_nat (length data).

Lemma sock_send_loop_all (fuel turn : nat) (data : list Z) : send_progress -> (length data <= fuel)%nat ->
  sock_send_loop fuel turn data = (true, data).
Proof.
  intros Hp. revert turn data. induction fuel as [|fuel IH]; intros turn [|b data] Hlen; try reflexivity.
  { cbn in Hlen. lia. }
  cbn [sock_send_loop]. specialize (Hp turn (b :: data) ltac:(discriminate)).
  set (sent := send turn (b :: data)) in *. destruct (Z.leb_spec sent 0); [lia|].
  rewrite IH by (rewrite length_drop; cbn [length] in *; lia). rewrite take_drop. reflexivity.
Qed.

Lemma send_frame_all (f : Frame) : send_progress -> valid_frame f ->
  send_frame f = Ret (true, seal (frame_header f ++ payload f)).
Proof.
  intros Hp Hf. unfold send_frame. rewrite serialize_frame_ok by assumption. cbn [obind].
  unfold sock_send_all. rewrite sock_send_loop_all by (assumption || lia). reflexivity.
Qed.
End Sending.

(** ** Facts *)
Lemma recv_spec (n : nat) (s : stream) : (0 < n)%nat -> stream_ok s -> s <> [] ->
  exists got s', recv n s = (got, s') /\ got <> [] /\ (length got <= n)%nat /\
    concat s = got ++ concat s' /\ stream_ok s'.
Proof.
  intros Hn Hs Hne. destruct s as [|seg s]; [congruence|]. apply Forall_cons_1 in Hs as [Hseg Hs].
  cbn [recv]. eexists _, _. split; [reflexivity|]. split; [|split; [rewrite length_take; lia|]].
  - destruct seg; [congruence|]. destruct n; [lia|]. discriminate.
  - cbn [concat]. destruct (decide (drop n seg = [])) as [E|E].
    + split; [|assumption]. rewrite <- (take_drop n seg) at 1. rewrite E, app_nil_r. reflexivity.
    + split; [|constructor; assumption]. cbn [concat]. rewrite app_assoc, take_drop. reflexivity.
Qed.

Lemma sock_recv_loop_spec (fuel n : nat) (buf : list Z) (s : stream) (l rest : list Z) :
  (n <= fuel)%nat -> stream_ok s -> concat s = l ++ rest -> length l = n ->
  exists s', sock_recv_loop fuel n buf s = (Some (buf ++ l), s') /\ stream_ok s' /\ concat s' = rest.
Proof.
  revert n buf s l. induction fuel as [|fuel IH]; intros n buf s l Hn Hs Hc Hl.
  { assert (l = []) as -> by (apply length_zero_iff_nil; lia). assert (n = O) as -> by lia.
    exists s. rewrite app_nil_r. auto. }
  destruct n as [|n].
  { apply length_zero_iff_nil in Hl as ->. exists s. rewrite app_nil_r. auto. }
  assert (Hne : s <> []) by (intros ->; destruct l; discriminate).
  destruct (recv_spec (S n) s ltac:(lia) Hs Hne) as (got & s1 & E & Hg & Hlen & Hc1 & Hs1).
  cbn [sock_recv_loop]. rewrite E. rewrite decide_False by assumption.
  rewrite Hc1 in Hc. assert (Hgl : got = take (length got) l).
  { rewrite <- (take_app_le l rest) by lia. rewrite <- Hc, take_app_length. reflexivity. }
  destruct (IH (S n - length got)%nat (buf ++ got) s1 (drop (length got) l)) as (s2 & E2 & Hs2 & Hc2).
  - destruct got; [congruence|]. cbn [length] in *. lia.
  - assumption.
  - rewrite <- drop_app_le by lia. rewrite <- Hc, drop_app_length. reflexivity.
  - rewrite length_drop. lia.
  - exists s2. split; [|auto]. rewrite E2, <- app_assoc. rewrite Hgl at 1. rewrite take_drop. reflexivity.
Qed.

Lemma sock_recv_exact_spec (s : stream) (l rest : list Z) : stream_ok s -> concat s = l ++ rest ->
  exists s', sock_recv_exact (length l) s = (Some l, s') /\ stream_ok s' /\ concat s' = rest.
Proof. intros Hs Hc. exact (sock_recv_loop_spec (length l) (length l) [] s l rest ltac:(lia) Hs Hc eq_refl). Qed.

(** One frame, however its bytes are cut into segments. *)
Lemma recv_frame_spec (s : stream) (f : Frame) (rest : list Z) : valid_frame f -> stream_ok s ->
  concat s = seal (frame_header f ++ payload f) ++ rest ->
  exists s', recv_frame s = (Some f, s') /\ stream_ok s' /\ concat s' = rest.
Proof.
  intros Hf Hs Hc. pose proof Hf as [_ Hlen]. unfold seal in Hc. rewrite <- !app_assoc in Hc.
  destruct (sock_recv_exact_spec s _ _ Hs Hc) as (s1 & E1 & Hs1 & Hc1). rewrite app_assoc in Hc1.
  destruct (sock_recv_exact_spec s1 _ _ Hs1 Hc1) as (s2 & E2 & Hs2 & Hc2).
  exists s2. split; [|auto]. unfold recv_frame.
  change (Z.to_nat HEADER_SIZE) with (length (frame_header f)). rewrite E1.
  assert (Eh : run_reader read_frame_header (frame_header f)
    = Some (FRAME_MAGIC, PROTOCOL_MAJOR, msg_type_code (f_type f), Z.of_nat (length (payload f)))).
  { unfold run_reader. rewrite <- (app_nil_r (frame_header f)), (reads_header f Hf). reflexivity. }
  rewrite Eh, Z.eqb_refl. cbn [negb]. destruct (Z.ltb_spec MAX_FRAME (Z.of_nat (length (payload f)))); [lia|].
  replace (Z.to_nat (Z.of_nat (length (payload f)) + TRAILER_SIZE))
    with (length (payload f ++ put_u32 (crc32 (frame_header f ++ payload f)))).
  - rewrite E2. pose proof (deserialize_sealed f [] Hf) as E. unfold seal in E.
    rewrite app_nil_r, <- app_assoc in E. rewrite E. reflexivity.
  - unfold put_u32. rewrite length_app, put_bytes_length. unfold TRAILER_SIZE. lia.
Qed.

(** C31: frames sent one after the other on a connection that is up arrive as they
    were and in order, however [send] splits them and however the transport cuts
    the bytes into segments, and the receiver is left exactly at the first byte
    after them. *)
Theorem stream_delivers_frames (send : nat -> list Z -> Z) (fs : list Frame) :
  send_progress send -> Forall valid_frame fs ->
  exists sent, send_frames send fs = Ret (true, sent) /\
    forall (s : stream) (rest : list Z), stream_ok s -> concat s = sent ++ rest ->
      exists s', recv_frames (length fs) s = (fs, s') /\ stream_ok s' /\ concat s' = rest.
Proof.
  intros Hp Hfs. induction Hfs as [|f fs Hf Hfs (sent & Es & IH)].
  { exists []. split; [reflexivity|]. intros s rest Hs Hc. exists s. auto. }
  exists (seal (frame_header f ++ payload f) ++ sent). split.
  - cbn [send_frames]. rewrite send_frame_all by assumption. cbn [obind]. rewrite Es. reflexivity.
  - intros s rest Hs Hc. rewrite <- app_assoc in Hc.
    destruct (recv_frame_spec s f _ Hf Hs Hc) as (s1 & E1 & Hs1 & Hc1).
    destruct (IH s1 rest Hs1 Hc1) as (s2 & E2 & Hs2 & Hc2).
    exists s2. split; [|auto]. cbn [length recv_frames]. rewrite E1, E2. reflexivity.
Qed.

Definition two_frames : list Frame := [mkFrame HELLO []; mkFrame ACK [1; 2; 3]].

Lemma stream_delivers_frames_witness :
  exists sent, send_frames (fun _ _ => 1) two_frames = Ret (true, sent) /\
    forall (s : stream) (rest : list Z), stream_ok s -> concat s = sent ++ rest ->
      exists s', recv_frames (length two_frames) s = (two_frames, s') /\ stream_ok s' /\ concat s' = rest.
Proof.
  apply (stream_delivers_frames (fun _ _ => 1) two_frames).
  - intros turn [|b data] H; [congruence|]. cbn [length]. lia.
  - repeat constructor; cbn; unfold MAX_FRAME; lia.
Defined.
