(* ===== verification/Sockets.v ===== *)
(** * Opening and closing sockets (net.hpp)

    [pg_net_init], [TcpListener] and [connect_socket] over the calls of the socket
    library, which are the parameter [SocketApi] with the laws [SocketLaws] of the handles
    it gives out.  Every way out of the code is shown to keep or close what it opened. *)
From S2P Require Import Prelude.
Local Open Scope Z_scope.

Record sockaddr_in := mkAddr { sin_port : Z; sin_addr : Z }.

(** The calls, on a state [W] of the library: [None] is [INVALID_SOCKET], [false] is
    [SOCKET_ERROR]. *)
Class SocketApi (W : Type) := {
  WSAStartup : W -> Z * W;
  api_socket : W -> option Z * W;
  setsockopt_reuseaddr : Z -> Z -> W -> W;
  api_bind : Z -> sockaddr_in -> W -> bool * W;
  api_listen : Z -> Z -> W -> bool * W;
  api_accept : option Z -> W -> option Z * W;
  api_connect : Z -> sockaddr_in -> W -> bool * W;
  closesocket : Z -> W -> W;
  htons : Z -> Z;
  inet_addr : string -> Z;
  (** The handles that are open. *)
  open_handles : W -> gset Z }.

(** A call that gives out a handle gives out a new one, and nothing but
    [closesocket] closes one. *)
Definition gives_out {W : Type} `{SocketApi W} (r : option Z * W) (w : W) : Prop :=
  match r.1 with
  | Some s => (s ∉ open_handles w) /\ open_handles r.2 = {[s]} ∪ open_handles w
  | None => open_handles r.2 = open_handles w
  end.

Class SocketLaws (W : Type) `{SocketApi W} : Prop := {
  startup_keeps : forall w, open_handles (WSAStartup w).2 = open_handles w;
  socket_gives : forall w, gives_out (api_socket w) w;
  option_keeps : forall s v w, open_handles (setsockopt_reuseaddr s v w) = open_handles w;
  bind_keeps : forall s a w, open_handles (api_bind s a w).2 = open_handles w;
  listen_keeps : forall s n w, open_handles (api_listen s n w).2 = open_handles w;
  accept_gives : forall s w, gives_out (api_accept s w) w;
  connect_keeps : forall s a w, open_handles (api_connect s a w).2 = open_handles w;
  close_closes : forall s w, open_handles (closesocket s w) = open_handles w ∖ {[s]} }.

(** ** The code *)
Section Sockets.
Context {W : Type} `{SocketApi W}.

(** The process: the static [done] of [pg_net_init], and the library. *)
Record process := mkProcess { net_done : bool; world : W }.

Definition call {A : Type} (f : W -> A * W) : M process A :=
  fun p => let '(a, w) := f (world p) in (Ret a, mkProcess (net_done p) w).
Definition call_ (f : W -> W) : M process unit := call (fun w => (tt, f w)).

Definition pg_net_init : M process bool :=
  do! p <- sget;
  if net_done p then sret true
  else
    do! rc <- call WSAStartup;
    if negb (rc =? 0) then sret false
    else do! _ <- smodify (fun p => mkProcess true (world p)); sret true.

Definition close_socket (s : option Z) : M process unit :=
  match s with Some s => call_ (closesocket s) | None => sret tt end.

(** [TcpListener::listen] on a listener whose socket is [sock]: the answer and the socket. *)
Definition listener_listen (sock : option Z) (host : string) (port : Z) : M process (bool * option Z) :=
  do! ok <- pg_net_init;
  if negb (ok : bool) then sret (false, sock)
  else
    do! s <- call api_socket;
    match s with
    | None => sret (false, None)
    | Some s =>
        do! _ <- call_ (setsockopt_reuseaddr s 1);
        let addr := mkAddr (htons port) (inet_addr host) in
        do! bound <- call (api_bind s addr);
        if negb (bound : bool) then do! _ <- call_ (closesocket s); sret (false, None)
        else
          do! listening <- call (api_listen s 16);
          if negb (listening : bool) then do! _ <- call_ (closesocket s); sret (false, None)
          else sret (true, Some s)
    end.

Definition listener_accept (sock : option Z) : M process (bool * option Z) :=
  do! peer <- call (api_accept sock);
  sret (bool_decide (is_Some peer), peer).

(** The socket after [close] is [INVALID_SOCKET]. *)
Definition listener_close (sock : option Z) : M process (option Z) :=
  do! _ <- close_socket sock; sret None.

Definition connect_socket (host : string) (port : Z) : M process (option Z) :=
  do! ok <- pg_net_init;
  if negb (ok : bool) then sret None
  else
    do! s <- call api_socket;
    match s with
    | None => sret None
    | Some s =>
        let addr := mkAddr (htons port) (inet_addr host) in
        do! connected <- call (api_connect s addr);
        if negb (connected : bool) then do! _ <- call_ (closesocket s); sret None
        else sret (Some s)
    end.

(** The coordinator between its start and its shutdown, as the turns of its threads: the
    accepting thread takes a connection and hands it to a new thread of a worker, until
    an [accept] fails; the thread of a worker ends, and closes its connection on every
    path.  [live] are the connections whose threads run. *)
Inductive turn := Accepts | Ends (thread : nat).

Fixpoint run_turns (turns : list turn) (sock : option Z) (accepting : bool) (live : list Z) : M process (list Z) :=
  match turns with
  | [] => sret live
  | Accepts :: turns =>
      if negb accepting then run_turns turns sock accepting live
      else
        do! r <- listener_accept sock;
        match r with
        | (true, Some peer) => run_turns turns sock true (peer :: live)
        | _ => run_turns turns sock false live
        end
  | Ends thread :: turns =>
      match live !! thread with
      | Some s => do! _ <- close_socket (Some s); run_turns turns sock accepting (delete thread live)
      | None => run_turns turns sock accepting live
      end
  end.

Fixpoint close_all (l : list Z) : M process unit :=
  match l with
  | [] => sret tt
  | s :: l => do! _ <- close_socket (Some s); close_all l
  end.

(** The sockets of a coordinator.  After the shutdown the threads that still run end in
    the order [order]. *)
Definition serve (host : string) (port : Z) (turns : list turn) (order : list Z -> list Z) : M process bool :=
  do! r <- listener_listen None host port;
  match r with
  | (false, _) => sret false
  | (true, sock) =>
      do! live <- run_turns turns sock true [];
      do! _ <- listener_close sock;
      do! _ <- close_all (order live);
      sret true
  end.

(** The socket of a worker around the rest of its run. *)
Definition client (host : string) (port : Z) (body : M process unit) : M process bool :=
  do! s <- connect_socket host port;
  match s with
  | None => sret false
  | Some s => do! _ <- body; do! _ <- close_socket (Some s); sret true
  end.
End Sockets.
#[global] Arguments process W : clear implicits.

(** ** What stays open *)
Section Handles.
Context {W : Type} `{SocketLaws W}.

Definition opened (p : process W) : gset Z := open_handles (world p).
(** What a call that may open one socket leaves: that socket, or what there was. *)
Definition opens (s : option Z) (before after : gset Z) : Prop :=
  match s with Some h => (h ∉ before) /\ after = {[h]} ∪ before | None => after = before end.

Lemma call_keeps {A : Type} (f : W -> A * W) (p : process W) :
  (forall w, open_handles (f w).2 = open_handles w) -> exists a p', call f p = (Ret a, p') /\ opened p' = opened p.
Proof.
  intros Hf. unfold call, opened. destruct (f (world p)) as [a w] eqn:E. do 2 eexists. split; [reflexivity|].
  cbn [world]. rewrite <- (Hf (world p)), E. reflexivity.
Qed.

Lemma call_gives (f : W -> option Z * W) (p : process W) :
  (forall w, gives_out (f w) w) -> exists s p', call f p = (Ret s, p') /\ opens s (opened p) (opened p').
Proof.
  intros Hf. unfold call, opened. destruct (f (world p)) as [a w] eqn:E. do 2 eexists. split; [reflexivity|].
  pose proof (Hf (world p)) as Hg. rewrite E in Hg. exact Hg.
Qed.

Lemma net_init_keeps (p : process W) : exists ok p', pg_net_init p = (Ret ok, p') /\ opened p' = opened p.
Proof.
  unfold pg_net_init. rewrite sbind_sget. destruct (net_done p); [do 2 eexists; split; reflexivity|].
  destruct (call_keeps WSAStartup p startup_keeps) as (rc & p1 & E & Ho). rewrite (sbind_step _ _ _ _ _ E).
  destruct (negb (rc =? 0)); do 2 eexists; (split; [reflexivity|exact Ho]).
Qed.

(** Closing a socket just opened. *)
Lemma close_socket_ok (s : option Z) (before : gset Z) (p : process W) :
  opens s before (opened p) -> exists p', close_socket s p = (Ret tt, p') /\ opened p' = before.
Proof.
  destruct s as [h|]; cbn; [|intros Hp; eexists; split; [reflexivity|exact Hp]].
  intros [Hn Ho]. eexists. split; [reflexivity|]. unfold opened in *. cbn [world]. rewrite close_closes, Ho. set_solver.
Qed.

(** Run a call that leaves the handles alone. *)
Local Ltac run_call f a q :=
  match goal with
  | |- context [sbind (call f) _ ?p] =>
      let E := fresh "E" in let Ho := fresh "Ho" in
      destruct (call_keeps f p) as (a & q & E & Ho);
      [intros ?; first [apply bind_keeps | apply listen_keeps | apply connect_keeps | apply option_keeps]|];
      rewrite (sbind_step _ _ _ _ _ E)
  end.

(** Give up: close the socket [h]. *)
Lemma close_after_failure {A : Type} (h : Z) (a : A) (before : gset Z) (p : process W) :
  opens (Some h) before (opened p) ->
  exists p', (do! _ <- call_ (closesocket h); sret a)%pg p = (Ret a, p') /\ opened p' = before.
Proof.
  intros Ho. destruct (close_socket_ok (Some h) before p Ho) as (p' & E & Hp). exists p'. split; [|exact Hp].
  exact (sbind_step (close_socket (Some h)) (fun _ => sret a) _ _ _ E).
Qed.

(** Listening opens the socket of the listener, or nothing. *)
Lemma listen_opens (sock : option Z) (host : string) (port : Z) (p : process W) :
  exists ok s p', listener_listen sock host port p = (Ret (ok, s), p') /\
    opens (if ok then s else None) (opened p) (opened p') /\ (ok = true -> s <> None).
Proof.
  destruct (net_init_keeps p) as (ok & p1 & E & Ho). unfold listener_listen. rewrite (sbind_step _ _ _ _ _ E). rewrite <- Ho.
  destruct ok; cbn [negb]; [|do 3 eexists; split; [reflexivity|]; split; [reflexivity|discriminate]].
  destruct (call_gives api_socket p1 socket_gives) as (s & p2 & Es & Hs). rewrite (sbind_step _ _ _ _ _ Es).
  destruct s as [h|]; [|do 3 eexists; split; [reflexivity|]; split; [exact Hs|discriminate]].
  unfold call_ at 1. run_call (fun w => (tt, setsockopt_reuseaddr h 1 w)) u p3. set (addr := mkAddr _ _).
  run_call (api_bind h addr) bound p4.
  destruct bound; cbn [negb].
  2: { destruct (close_after_failure h (false, @None Z) (opened p1) p4) as (q & Eq & Hq); [congruence|].
       exists false, None, q. split; [exact Eq|]. split; [exact Hq|discriminate]. }
  run_call (api_listen h 16) listening p5.
  destruct listening; cbn [negb].
  - do 3 eexists. split; [reflexivity|]. split; [congruence|discriminate].
  - destruct (close_after_failure h (false, @None Z) (opened p1) p5) as (q & Eq & Hq); [congruence|].
    exists false, None, q. split; [exact Eq|]. split; [exact Hq|discriminate].
Qed.

(** Connecting opens the socket it answers, or nothing. *)
Lemma connect_opens (host : string) (port : Z) (p : process W) :
  exists s p', connect_socket host port p = (Ret s, p') /\ opens s (opened p) (opened p').
Proof.
  destruct (net_init_keeps p) as (ok & p1 & E & Ho). unfold connect_socket. rewrite (sbind_step _ _ _ _ _ E). rewrite <- Ho.
  destruct ok; cbn [negb]; [|do 2 eexists; split; reflexivity].
  destruct (call_gives api_socket p1 socket_gives) as (s & p2 & Es & Hs). rewrite (sbind_step _ _ _ _ _ Es).
  destruct s as [h|]; [|do 2 eexists; split; [reflexivity|exact Hs]]. set (addr := mkAddr _ _).
  run_call (api_connect h addr) connected p3. destruct connected; cbn [negb].
  - do 2 eexists. split; [reflexivity|]. congruence.
  - destruct (close_after_failure h (@None Z) (opened p1) p3) as (q & Eq & Hq); [congruence|]. exists None, q. split; [exact Eq|exact Hq].
Qed.

Lemma close_all_ok (l : list Z) (p : process W) :
  exists p', close_all l p = (Ret tt, p') /\ opened p' = opened p ∖ list_to_set l.
Proof.
  revert p. induction l as [|h l IH]; intros p; cbn [close_all].
  - eexists. split; [reflexivity|]. cbn. set_solver.
  - destruct (IH (mkProcess (net_done p) (closesocket h (world p)))) as (p' & E & Ho). exists p'. split; [exact E|].
    rewrite Ho. unfold opened. cbn [world list_to_set]. rewrite close_closes. set_solver.
Qed.

(** The connections of the threads that run, beside the sockets [base]. *)
Definition holds (live : list Z) (base : gset Z) (p : process W) : Prop :=
  NoDup live /\ Forall (fun h => h ∉ base) live /\ opened p = list_to_set live ∪ base.

Lemma holds_accept (h : Z) (live : list Z) (base : gset Z) (p p' : process W) :
  holds live base p -> opens (Some h) (opened p) (opened p') -> holds (h :: live) base p'.
Proof.
  intros (Hd & Hf & Hp) [Hn Ho]. rewrite Hp in *. split_and!.
  - constructor; [|exact Hd]. intros Hin. apply Hn. rewrite elem_of_union, elem_of_list_to_set. auto.
  - constructor; [|exact Hf]. set_solver.
  - rewrite Ho. cbn. set_solver.
Qed.

Lemma holds_end (h : Z) (n : nat) (live : list Z) (base : gset Z) (p p' : process W) :
  holds live base p -> live !! n = Some h -> opened p' = opened p ∖ {[h]} -> holds (delete n live) base p'.
Proof.
  intros (Hd & Hf & Hp) El Ho. pose proof (delete_Permutation live n h El) as Hperm. rewrite Hperm in Hd, Hf.
  inversion Hd as [|? ? Hni Hd']; subst. inversion Hf as [|? ? Hb Hf']; subst. split_and!; [exact Hd'|exact Hf'|].
  rewrite Ho, Hp, (list_to_set_perm_L _ _ Hperm). cbn. apply set_eq. intros x.
  rewrite elem_of_difference, !elem_of_union, !elem_of_singleton, !elem_of_list_to_set. split; [tauto|].
  intros Hx. split; [tauto|]. intros ->. tauto.
Qed.

Lemma close_opened (s : Z) (p : process W) : exists p', close_socket (Some s) p = (Ret tt, p') /\ opened p' = opened p ∖ {[s]}.
Proof. eexists. split; [reflexivity|]. unfold opened. cbn [world]. apply close_closes. Qed.

Lemma run_turns_holds (turns : list turn) (sock : option Z) (base : gset Z) :
  forall (accepting : bool) (live : list Z) (p : process W), holds live base p ->
  exists live' p', run_turns turns sock accepting live p = (Ret live', p') /\ holds live' base p'.
Proof.
  induction turns as [|[|n] turns IH]; intros accepting live p Hp; cbn [run_turns].
  - do 2 eexists. split; [reflexivity|exact Hp].
  - destruct accepting; cbn [negb]; [|apply IH; exact Hp].
    destruct (call_gives (api_accept sock) p (accept_gives sock)) as (peer & p1 & E & Ho).
    assert (Ea : listener_accept sock p = (Ret (bool_decide (is_Some peer), peer), p1))
      by (unfold listener_accept; rewrite (sbind_step _ _ _ _ _ E); reflexivity).
    rewrite (sbind_step _ _ _ _ _ Ea). destruct peer as [h|]; cbn.
    + apply IH. apply (holds_accept h live base p p1 Hp Ho).
    + apply IH. destruct Hp as (Hd & Hf & Hp). split_and!; [exact Hd|exact Hf|]. rewrite <- Hp. exact Ho.
  - destruct (live !! n) as [h|] eqn:El; [|apply IH; exact Hp].
    destruct (close_opened h p) as (p1 & E & Ho). rewrite (sbind_step _ _ _ _ _ E).
    apply IH. apply (holds_end h n live base p p1 Hp El Ho).
Qed.

(** The listener and the last connections closed, what was open before is. *)
Lemma shutdown_closes (h : Z) (live rest : list Z) (before closed : gset Z) :
  rest ≡ₚ live -> h ∉ before -> Forall (fun x => x ∉ ({[h]} ∪ before : gset Z)) live ->
  closed = (list_to_set live ∪ ({[h]} ∪ before)) ∖ {[h]} ->
  closed ∖ list_to_set rest = before.
Proof.
  intros Hr Hn Hf ->. rewrite (list_to_set_perm_L _ _ Hr). rewrite Forall_forall in Hf. apply set_eq. intros x.
  specialize (Hf x). rewrite !elem_of_difference, !elem_of_union, !elem_of_singleton, elem_of_list_to_set in *.
  split; [tauto|]. intros Hx. split_and!; [|intros ->; tauto|]; tauto.
Qed.

(** No socket outlives the two programs that open them.  A coordinator that listens,
    accepts connections and closes each when its thread ends, in any interleaving, then
    closes its listener and, as the remaining threads end, their connections, has the
    sockets open that were open before it started, whether or not it could listen; so has
    a worker that connects, runs anything that opens and closes no socket, and closes. *)
Theorem no_socket_left (host : string) (port : Z) (turns : list turn) (order : list Z -> list Z) (body : M (process W) unit)
    (p : process W) :
  (forall l, order l ≡ₚ l) ->
  (forall p, exists p', body p = (Ret tt, p') /\ opened p' = opened p) ->
  (exists ok p', serve host port turns order p = (Ret ok, p') /\ opened p' = opened p) /\
  (exists ok p', client host port body p = (Ret ok, p') /\ opened p' = opened p).
Proof.
  intros Hp Hb. split.
  - destruct (listen_opens None host port p) as (ok & s & p1 & E & Ho & Hs). unfold serve. rewrite (sbind_step _ _ _ _ _ E).
    destruct ok; [|do 2 eexists; split; [reflexivity|exact Ho]].
    destruct s as [h|]; [|contradiction (Hs eq_refl eq_refl)]. destruct Ho as [Hn Ho].
    destruct (run_turns_holds turns (Some h) ({[h]} ∪ opened p) true [] p1) as (live & p2 & E2 & _ & Hf & H2).
    { split_and!; [constructor|constructor|]. rewrite Ho. cbn. set_solver. }
    rewrite (sbind_step _ _ _ _ _ E2). destruct (close_opened h p2) as (p3 & E3 & H3).
    assert (Ec : listener_close (Some h) p2 = (Ret None, p3)) by (unfold listener_close; rewrite (sbind_step _ _ _ _ _ E3); reflexivity).
    rewrite (sbind_step _ _ _ _ _ Ec). destruct (close_all_ok (order live) p3) as (p4 & E4 & H4). rewrite (sbind_step _ _ _ _ _ E4).
    do 2 eexists. split; [reflexivity|]. rewrite H4. apply (shutdown_closes h live); [apply Hp|exact Hn|exact Hf|].
    rewrite H3, H2. reflexivity.
  - destruct (connect_opens host port p) as (s & p1 & E & Ho). unfold client. rewrite (sbind_step _ _ _ _ _ E).
    destruct s as [h|]; [|do 2 eexists; split; [reflexivity|exact Ho]].
    destruct (Hb p1) as (p2 & E2 & H2). rewrite (sbind_step _ _ _ _ _ E2).
    destruct (close_socket_ok (Some h) (opened p) p2) as (p3 & E3 & H3); [rewrite H2; exact Ho|].
    rewrite (sbind_step _ _ _ _ _ E3). do 2 eexists. split; [reflexivity|exact H3].
Qed.
End Handles.

(** ** A library with these laws: handles are numbered, and a port is bound once *)
Module SampleSockets.
Record t := mk { next : Z; open_ : gset Z; bound : list Z }.
Definition fresh (w : t) : Z := 1 + set_fold Z.max (next w) (open_ w).
Definition give (w : t) : option Z * t := (Some (fresh w), mk (fresh w) ({[fresh w]} ∪ open_ w) (bound w)).
Definition bind_port (a : sockaddr_in) (w : t) : bool * t :=
  if bool_decide (sin_port a ∈ bound w) then (false, w) else (true, mk (next w) (open_ w) (sin_port a :: bound w)).

#[export] Instance api : SocketApi t := {
  WSAStartup w := (0, w);
  api_socket := give;
  setsockopt_reuseaddr _ _ w := w;
  api_bind _ a w := bind_port a w;
  api_listen _ _ w := (true, w);
  api_accept s w := match s with Some _ => give w | None => (None, w) end;
  api_connect _ a w := (bool_decide (sin_port a ∈ bound w), w);
  closesocket s w := mk (next w) (open_ w ∖ {[s]}) (bound w);
  htons := id;
  inet_addr _ := 0;
  open_handles := open_ }.

Lemma fresh_above (w : t) : forall s, s ∈ open_ w -> s < fresh w.
Proof.
  unfold fresh.
  refine (set_fold_ind_L (fun (r : Z) (X : gset Z) => forall s, s ∈ X -> s < 1 + r) Z.max (next w) _ _ (open_ w)); [set_solver|].
  intros x X r Hx IH s Hs. apply elem_of_union in Hs as [->%elem_of_singleton|Hs]; [lia|]. specialize (IH s Hs). lia.
Qed.

Lemma give_gives (w : t) : gives_out (give w) w.
Proof. split; [|reflexivity]. intros Hin. pose proof (fresh_above w _ Hin). lia. Qed.

#[export] Instance laws : SocketLaws t.
Proof.
  split; try reflexivity.
  - exact give_gives.
  - intros s a w. cbn. unfold bind_port. destruct (bool_decide _); reflexivity.
  - intros [s|] w; [apply give_gives|reflexivity].
Qed.

(** Three connections, one of which ends before the shutdown; then a second listener on
    the port, which cannot bind and gives its socket back. *)
Example coordinator_leaves_no_socket :
  let start := mkProcess false (mk 0 ∅ []) in
  let run := serve "127.0.0.1" 8080 [Accepts; Accepts; Ends 1; Accepts] (@rev Z) start in
  run.1 = Ret true /\ opened run.2 = ∅ /\
  (serve "127.0.0.1" 8080 [Accepts] (@rev Z) run.2).1 = Ret false /\ opened (serve "127.0.0.1" 8080 [Accepts] (@rev Z) run.2).2 = ∅.
Proof. vm_compute. auto. Qed.
End SampleSockets.
