(* ===== verification/Persistence.v ===== *)
(** * Persistence (persistence.hpp)

    [BinWriter] and [BinReader] are the writers and readers of Wire.v under other
    names ([f64] is [put_f32]).  An envelope is a blob behind a header and before
    a CRC-32; [persist_write] replaces a file by way of a temporary one. *)
From S2P Require Import Prelude Rounding Util Crc Wire.
Local Open Scope Z_scope.
#[local] Arguments Z.mul : simpl never.
#[local] Arguments Z.add : simpl never.
#[local] Arguments Z.pow : simpl never.
#[local] Arguments crc32 : simpl never.

(** ** Envelopes *)
Definition PERSIST_MAGIC : Z := 0x53504750.
Definition PERSIST_SCHEMA : Z := 1.
Definition PERSIST_MAX : Z := 256 * 1024 * 1024.

Record PersistEnvelope := mkEnvelope { schema : Z; blob : list Z }.

Inductive EnvelopeResult :=
| envelope_ok (e : PersistEnvelope)
| envelope_error (e : string).

Definition envelope_header (e : PersistEnvelope) : list Z :=
  put_u32 PERSIST_MAGIC ++ put_u32 (schema e) ++ put_u32 (Z.of_nat (length (blob e))).

Definition encode_envelope (e : PersistEnvelope) : outcome (list Z) :=
  if PERSIST_MAX <? Z.of_nat (length (blob e))
  then Throw (length_error "pg persist: blob exceeds PERSIST_MAX")
  else Ret (seal (envelope_header e ++ blob e)).

Definition envelope_H : Z := 4 + 4 + 4.

Definition read_envelope_header : reader (Z * Z * Z) :=
  get! magic <- get_u32; get! schema <- get_u32; get! len <- get_u32; rret (magic, schema, len).

Definition decode_envelope (data : list Z) : EnvelopeResult :=
  let n := Z.of_nat (length data) in
  if n <? envelope_H + 4 then envelope_error "truncated persistence record" else
  match run_reader read_envelope_header data with
  | None => envelope_error "malformed header"
  | Some (magic, schema, len) =>
      if negb (magic =? PERSIST_MAGIC) then envelope_error "bad persistence magic"
      else if negb (schema =? PERSIST_SCHEMA) then envelope_error "unsupported schema version"
      else if PERSIST_MAX <? len then envelope_error "oversized persistence record"
      else
        let total := envelope_H + len + 4 in
        if n <? total then envelope_error "truncated persistence payload"
        else if negb (crc_matches (Z.to_nat (envelope_H + len)) data) then envelope_error "crc mismatch"
        else if negb (n =? total) then envelope_error "trailing garbage after persistence record"
        else envelope_ok (mkEnvelope schema (take (Z.to_nat len) (drop (Z.to_nat envelope_H) data)))
  end.

Definition valid_envelope (e : PersistEnvelope) : Prop :=
  schema e = PERSIST_SCHEMA /\ Forall (in_u 8) (blob e) /\ Z.of_nat (length (blob e)) <= PERSIST_MAX.

(** ** Files *)

(** The file system: the contents of the files that exist. *)
Abbreviation files := (gmap string (list Z)).

(** What the operating system makes of the calls of one [persist_write]: whether
    the temporary file opens, the sizes it is seen to have while it is written,
    whether the stream is good after [flush], whether the rename succeeds, and whether
    the temporary is removed when it does not (nothing looks at that). *)
Record io := mkIo { open_ok : bool; sizes_seen : list nat; write_ok : bool; rename_ok : bool; remove_ok : bool }.

Definition tmp_path (path : string) : string := (path +:+ ".tmp")%string.

(** The states the file system goes through, the result and [err]; the last state
    is the one the call leaves.  The rename replaces the target in one step. *)
Definition persist_write (env : io) (path : string) (data : list Z) (fs : files)
  : list files * bool * string :=
  let tmp := tmp_path path in
  if negb (open_ok env) then ([fs], false, "open tmp failed"%string) else
  let opened := <[tmp := []]> fs in
  let partial := (fun k => <[tmp := take k data]> fs) <$> sizes_seen env in
  if negb (write_ok env) then (fs :: opened :: partial, false, "write failed"%string) else
  let written := <[tmp := data]> fs in
  if rename_ok env
  then (fs :: opened :: partial ++ [written; <[path := data]> (delete tmp written)], true, EmptyString)
  else
    let removed := if remove_ok env then delete tmp written else written in
    (fs :: opened :: partial ++ [written; removed], false, "atomic replace failed"%string).

(** [persist_read], on a file system that returns what it holds. *)
Definition persist_read (path : string) (fs : files) : option (list Z) := fs !! path.

(** ** Facts about envelopes *)
Lemma envelope_header_range (e : PersistEnvelope) : Forall (in_u 8) (envelope_header e).
Proof. repeat apply Forall_app_2; apply put_bytes_range. Qed.

Lemma envelope_header_length (e : PersistEnvelope) : length (envelope_header e) = 12%nat.
Proof. reflexivity. Qed.

Lemma envelope_body_range (e : PersistEnvelope) : valid_envelope e -> Forall (in_u 8) (envelope_header e ++ blob e).
Proof. intros (_ & H & _). apply Forall_app_2; [apply envelope_header_range|exact H]. Qed.

Lemma reads_envelope_header (e : PersistEnvelope) : valid_envelope e ->
  reads (envelope_header e) read_envelope_header (PERSIST_MAGIC, PERSIST_SCHEMA, Z.of_nat (length (blob e))).
Proof.
  intros (Hs & _ & Hlen) rest. unfold PERSIST_MAX in Hlen.
  assert (in_u 32 PERSIST_MAGIC /\ in_u 32 PERSIST_SCHEMA) as [Hm Hp] by (split; split; reflexivity || discriminate).
  assert (Hl : in_u 32 (Z.of_nat (length (blob e)))) by (unfold in_u; lia).
  unfold envelope_header, read_envelope_header. rewrite Hs. repeat read_field. reflexivity.
Qed.

Lemma encode_envelope_valid (e : PersistEnvelope) : valid_envelope e ->
  encode_envelope e = Ret (seal (envelope_header e ++ blob e)).
Proof.
  intros (_ & _ & H). unfold encode_envelope.
  destruct (Z.ltb_spec PERSIST_MAX (Z.of_nat (length (blob e)))); [lia|reflexivity].
Qed.

Lemma envelope_length (e : PersistEnvelope) :
  Z.of_nat (length (seal (envelope_header e ++ blob e))) = Z.of_nat (length (blob e)) + 16.
Proof.
  unfold seal. rewrite !length_app, envelope_header_length. unfold put_u32 at 1.
  rewrite put_bytes_length. lia.
Qed.

Lemma decode_encoded (e : PersistEnvelope) : valid_envelope e ->
  decode_envelope (seal (envelope_header e ++ blob e)) = envelope_ok e.
Proof.
  intros He. pose proof He as (Hs & _ & Hlen). set (n := Z.of_nat (length (blob e))) in *.
  assert (Hk : Z.to_nat (envelope_H + n) = length (envelope_header e ++ blob e)).
  { rewrite length_app, envelope_header_length. unfold envelope_H. lia. }
  unfold decode_envelope. rewrite envelope_length. fold n.
  destruct (Z.ltb_spec (n + 16) (envelope_H + 4)); [unfold envelope_H in *; lia|].
  assert (Hh : run_reader read_envelope_header (seal (envelope_header e ++ blob e))
    = Some (PERSIST_MAGIC, PERSIST_SCHEMA, n)).
  { unfold run_reader, seal. rewrite <- app_assoc, (reads_envelope_header e He). reflexivity. }
  pose proof (peek_seal (envelope_header e ++ blob e) [] (envelope_body_range e He)) as Hp.
  rewrite app_nil_r in Hp. rewrite Hh, Hk, Hp, !Z.eqb_refl. cbn [negb].
  destruct (Z.ltb_spec PERSIST_MAX n); [lia|].
  replace (envelope_H + n + 4) with (n + 16) by (unfold envelope_H; lia).
  rewrite Z.ltb_irrefl, Z.eqb_refl. cbn [negb]. f_equal. destruct e as [sc b]. cbn [schema blob] in *. subst sc.
  f_equal. unfold seal. rewrite <- !app_assoc.
  change (Z.to_nat envelope_H) with (length (envelope_header (mkEnvelope PERSIST_SCHEMA b))).
  rewrite drop_app_length. unfold n. rewrite Nat2Z.id, take_app_length. reflexivity.
Qed.

(** What an accepted record is. *)
Lemma decode_envelope_inv (data : list Z) (e : PersistEnvelope) : decode_envelope data = envelope_ok e ->
  schema e = PERSIST_SCHEMA /\
  exists h len, run_reader read_envelope_header data = Some (h, len) /\
    0 <= len /\ Z.of_nat (length data) = len + 16 /\ crc_matches (Z.to_nat (12 + len)) data = true.
Proof.
  unfold decode_envelope. destruct (Z.ltb_spec (Z.of_nat (length data)) (envelope_H + 4)); [discriminate|].
  destruct (run_reader _ _) as [[[magic sc] len]|] eqn:Eh; [|discriminate].
  destruct (negb _); [discriminate|]. destruct (Z.eqb_spec sc PERSIST_SCHEMA); [|discriminate]. cbn [negb].
  destruct (PERSIST_MAX <? len); [discriminate|]. destruct (_ <? _); [discriminate|].
  destruct (crc_matches _ _) eqn:E; [|discriminate]. cbn [negb].
  destruct (Z.eqb_spec (Z.of_nat (length data)) (envelope_H + len + 4)) as [Hn|]; [|discriminate]. cbn [negb].
  intros [= <-]. split; [assumption|]. exists (magic, sc), len. unfold envelope_H in *.
  split; [reflexivity|]. split; [lia|]. split; [lia|].
  replace (12 + len) with (4 + 4 + 4 + len) by lia. exact E.
Qed.

(** An envelope of the current schema is read back as it was written. *)
Theorem envelope_roundtrip (e : PersistEnvelope) : valid_envelope e ->
  exists data, encode_envelope e = Ret data /\ decode_envelope data = envelope_ok e.
Proof.
  intros He. exists (seal (envelope_header e ++ blob e)).
  split; [apply encode_envelope_valid, He|apply decode_encoded, He].
Qed.

Lemma envelope_roundtrip_witness :
  exists data, encode_envelope (mkEnvelope 1 [0; 9; 255]) = Ret data /\
    decode_envelope data = envelope_ok (mkEnvelope 1 [0; 9; 255]).
Proof.
  apply (envelope_roundtrip (mkEnvelope 1 [0; 9; 255])).
  split; [reflexivity|split; [repeat constructor; cbn; lia|cbn; unfold PERSIST_MAX; lia]].
Defined.

#[export] Instance read_envelope_header_stable : Stable read_envelope_header.
Proof. unfold read_envelope_header. apply _. Qed.

(** The header fixes the length of a record, so no accepted record extends another. *)
Lemma accepted_no_extension (l x : list Z) (e e' : PersistEnvelope) :
  decode_envelope l = envelope_ok e -> decode_envelope (l ++ x) = envelope_ok e' -> x = [].
Proof.
  intros H H'. apply decode_envelope_inv in H as (_ & h & len & Hh & _ & Hl & _).
  apply decode_envelope_inv in H' as (_ & h' & len' & Hh' & _ & Hl' & _).
  apply (run_reader_stable _ _ x) in Hh. assert (len' = len) by congruence. subst len'.
  rewrite length_app in Hl'. apply length_zero_iff_nil. lia.
Qed.

(** Nor is one of another content within a burst of it. *)
Lemma accepted_no_burst (l l' : list Z) (e e' : PersistEnvelope) : Forall (in_u 8) l -> Forall (in_u 8) l' ->
  burst l l' -> decode_envelope l = envelope_ok e -> decode_envelope l' <> envelope_ok e'.
Proof.
  intros Hr Hr' Hb H H'. apply decode_envelope_inv in H as (_ & _ & len & _ & H0 & Hl & Hm).
  apply decode_envelope_inv in H' as (_ & _ & len' & _ & _ & Hl' & Hm').
  rewrite (burst_length _ _ Hb), Hl in Hl'. replace len' with len in Hm' by lia.
  rewrite (crc_matches_burst (Z.to_nat (12 + len)) l l' Hr Hr' ltac:(lia) Hm Hb) in Hm'. discriminate.
Qed.

(** A stored envelope whose bytes were altered inside four consecutive
    positions, or that was cut short or extended, is refused. *)
Theorem damaged_envelope_rejected (e : PersistEnvelope) (data data' : list Z) :
  valid_envelope e -> encode_envelope e = Ret data -> Forall (in_u 8) data' ->
  burst data data' \/ (exists x, x <> [] /\ (data = data' ++ x \/ data' = data ++ x)) ->
  forall e', decode_envelope data' <> envelope_ok e'.
Proof.
  intros He Hd Hr Hdam e' Hok. rewrite encode_envelope_valid in Hd by assumption.
  assert (E : data = seal (envelope_header e ++ blob e)) by congruence. clear Hd.
  pose proof (decode_encoded e He) as Hdec. rewrite <- E in Hdec. destruct Hdam as [Hb|(x & Hx & [Hc|Hc])].
  - apply (accepted_no_burst data data' e e'); try assumption.
    rewrite E. apply seal_range, envelope_body_range, He.
  - apply Hx, (accepted_no_extension data' x e' e); congruence.
  - apply Hx, (accepted_no_extension data x e e'); congruence.
Qed.

Lemma damaged_envelope_rejected_witness :
  let data := seal (envelope_header (mkEnvelope 1 [0; 9; 255]) ++ [0; 9; 255]) in
  encode_envelope (mkEnvelope 1 [0; 9; 255]) = Ret data /\
  forall e', decode_envelope (data ++ [10]) <> envelope_ok e'.
Proof.
  cbv zeta. split; [reflexivity|].
  apply (damaged_envelope_rejected (mkEnvelope 1 [0; 9; 255]) (seal (envelope_header (mkEnvelope 1 [0; 9; 255]) ++ [0; 9; 255]))).
  - split; [reflexivity|split; [repeat constructor; cbn; lia|cbn; unfold PERSIST_MAX; lia]].
  - reflexivity.
  - apply Forall_app_2; [|repeat constructor; cbn; lia].
    apply seal_range, Forall_app_2; [apply envelope_header_range|repeat constructor; cbn; lia].
  - right. exists [10]. split; [discriminate|right; reflexivity].
Defined.

(** ** Facts about files *)
Lemma tmp_path_other (path : string) : tmp_path path <> path.
Proof.
  unfold tmp_path. induction path as [|c path IH]; [discriminate|]. intros [= H]. exact (IH H).
Qed.

(** What a state of the file system may look like while a file is replaced. *)
Definition intact (path : string) (data : list Z) (fs s : files) : Prop :=
  (persist_read path s = persist_read path fs \/ persist_read path s = Some data) /\
  forall p, p <> path -> p <> tmp_path path -> s !! p = fs !! p.

Lemma intact_refl (path : string) (data : list Z) (fs : files) : intact path data fs fs.
Proof. split; auto. Qed.

Lemma intact_tmp (path : string) (data l : list Z) (fs : files) : intact path data fs (<[tmp_path path := l]> fs).
Proof.
  split; [left; apply lookup_insert_ne, tmp_path_other|]. intros p _ Hp. apply lookup_insert_ne. congruence.
Qed.

Lemma intact_removed (path : string) (data l : list Z) (fs : files) :
  intact path data fs (delete (tmp_path path) (<[tmp_path path := l]> fs)).
Proof.
  pose proof (tmp_path_other path). split.
  - left. unfold persist_read. rewrite lookup_delete_ne, lookup_insert_ne by congruence. reflexivity.
  - intros p _ Hp. rewrite lookup_delete_ne, lookup_insert_ne by congruence. reflexivity.
Qed.

Lemma intact_replaced (path : string) (data l : list Z) (fs : files) :
  intact path data fs (<[path := data]> (delete (tmp_path path) (<[tmp_path path := l]> fs))).
Proof.
  split; [right; apply lookup_insert_eq|]. intros p Hp Ht.
  rewrite lookup_insert_ne, lookup_delete_ne, lookup_insert_ne by congruence. reflexivity.
Qed.

Lemma intact_partial (path : string) (data : list Z) (fs : files) (l : list nat) :
  Forall (intact path data fs) ((fun k => <[tmp_path path := take k data]> fs) <$> l).
Proof. apply Forall_fmap, Forall_true. intros k. apply intact_tmp. Qed.

Lemma persist_states_intact (env : io) (path : string) (data : list Z) (fs : files) :
  Forall (intact path data fs) (persist_write env path data fs).1.1.
Proof.
  unfold persist_write. destruct (open_ok env), (write_ok env), (rename_ok env), (remove_ok env); cbn [negb fst];
    repeat first [ apply Forall_cons_2 | apply Forall_app_2 | apply Forall_nil_2 | apply intact_partial
                 | apply intact_refl | apply intact_tmp | apply intact_removed | apply intact_replaced ].
Qed.

(** The temporary file as it is when the write failed. *)
Lemma last_tmp_state (path : string) (data : list Z) (fs : files) (sizes : list nat) :
  exists l, last (fs :: <[tmp_path path := []]> fs :: ((fun k => <[tmp_path path := take k data]> fs) <$> sizes))
    = Some (<[tmp_path path := l]> fs).
Proof.
  induction sizes as [|k sizes _] using rev_ind; [exists []; reflexivity|].
  exists (take k data). rewrite fmap_app, !app_comm_cons, last_app. reflexivity.
Qed.

(** What a write leaves: the new content exactly when every step of it went well. *)
Definition works (env : io) : bool := open_ok env && write_ok env && rename_ok env.

Lemma persist_last (env : io) (path : string) (data : list Z) (fs : files) : exists states err final,
  persist_write env path data fs = (states, works env, err) /\ last states = Some final /\
  if works env then final !! path = Some data /\ final !! tmp_path path = None
  else final !! path = fs !! path /\ err <> EmptyString.
Proof.
  pose proof (tmp_path_other path) as Ht. unfold persist_write, works.
  destruct (last_tmp_state path data fs (sizes_seen env)) as (l & E).
  destruct (open_ok env), (write_ok env), (rename_ok env), (remove_ok env); cbn [negb andb]; do 3 eexists; (split; [reflexivity|]);
    try (split; [exact E|split; [apply lookup_insert_ne; assumption|discriminate]]);
    try (split; [reflexivity|split; [reflexivity|discriminate]]);
    (rewrite app_comm_cons, app_comm_cons, last_app; split; [reflexivity|]).
  1-2: rewrite lookup_insert_eq, lookup_insert_ne, lookup_delete_eq by congruence; auto.
  - rewrite lookup_delete_ne, lookup_insert_ne by congruence. split; [reflexivity|discriminate].
  - rewrite lookup_insert_ne by congruence. split; [reflexivity|discriminate].
Qed.

(** C33: whatever moment a [persist_write] is interrupted at, the file it writes
    holds its previous content or the whole new one, and no file but it and its
    temporary is touched; the call reports success exactly when the new content
    is in place at the end, and then the temporary is gone. *)
Theorem persist_write_atomic (env : io) (path : string) (data : list Z) (fs : files) :
  let '(states, ok, err) := persist_write env path data fs in
  Forall (intact path data fs) states /\
  exists final, last states = Some final /\
    if ok then persist_read path final = Some data /\ final !! tmp_path path = None
    else persist_read path final = persist_read path fs /\ err <> EmptyString.
Proof.
  pose proof (persist_states_intact env path data fs) as H.
  destruct (persist_last env path data fs) as (states & err & final & E & El & Hf). rewrite E in *.
  split; [exact H|]. exists final. split; [exact El|]. unfold persist_read. destruct (works env); exact Hf.
Qed.
