(* ===== verification/Governor.v ===== *)
(** * The governor (governor.hpp)

    [Governor.t] is the state the shared mutex guards, with the allocators of the
    identifiers it hands out.  Each public method is one step on it, run while the
    lock is held; the clock is the time [clock_.now()] returns, an argument.  The
    backend is given by its interface: the methods that call it return its new
    state next to theirs.  The persisted form of the state is in
    [GovernorState.v]. *)
From S2P Require Import Prelude Binary64 Util Units Ids Clock Budget Authority WorkloadClass Thermal Policy.
From S2P Require Import Energy Reservation ReservationSpec Index PowerDomain Backend DecisionEngine.
Local Open Scope Z_scope.
#[local] Set Warnings "-inexact-float".

Record GovernorConfig := mkConfig {
  cfg_id : GovernorId;
  cfg_node : NodeId;
  cfg_boot : WorkerBootId;
  cfg_epoch : CoordinatorEpoch }.

Module DeviceState.
Record t := mk {
  accel : AcceleratorId;
  caps : BackendCapabilities;
  latest : option BackendSample;
  last_observed : Timestamp;
  obs_gen : ObservationGeneration;
  device_gen : DeviceGeneration;
  power_window : PowerWindow.t;
  meter : EnergyMeter.t;
  thermal : ThermalGovernor.t;
  burst : BurstBudget.t;
  perf : PerformanceStateSet;
  hardware_cap : option Watts }.

Definition default_caps : BackendCapabilities :=
  mkCapabilities UNAVAILABLE UNAVAILABLE UNAVAILABLE UNAVAILABLE UNAVAILABLE UNAVAILABLE UNAVAILABLE.

(** What [devices_[accel]] creates. *)
Definition init : t :=
  mk invalid_id default_caps None never gen_null gen_null (PowerWindow.init (mkDuration 2000000000))
    EnergyMeter.init (ThermalGovernor.make default_thresholds invalid_id) (BurstBudget.make default_burst_limits)
    default_perf None.

Definition set_head (a : AcceleratorId) (c : BackendCapabilities) (g : ObservationGeneration) (d : t) : t :=
  mk a c (latest d) (last_observed d) g (device_gen d) (power_window d) (meter d) (thermal d) (burst d) (perf d)
    (hardware_cap d).
Definition set_latest (s : BackendSample) (now : Timestamp) (d : t) : t :=
  mk (accel d) (caps d) (Some s) now (obs_gen d) (device_gen d) (power_window d) (meter d) (thermal d) (burst d)
    (perf d) (hardware_cap d).
Definition set_window (w : PowerWindow.t) (d : t) : t :=
  mk (accel d) (caps d) (latest d) (last_observed d) (obs_gen d) (device_gen d) w (meter d) (thermal d) (burst d)
    (perf d) (hardware_cap d).
Definition set_cap (c : option Watts) (d : t) : t :=
  mk (accel d) (caps d) (latest d) (last_observed d) (obs_gen d) (device_gen d) (power_window d) (meter d)
    (thermal d) (burst d) (perf d) c.
Definition set_meter (m : EnergyMeter.t) (d : t) : t :=
  mk (accel d) (caps d) (latest d) (last_observed d) (obs_gen d) (device_gen d) (power_window d) m (thermal d)
    (burst d) (perf d) (hardware_cap d).
Definition set_thermal (g : ThermalGovernor.t) (d : t) : t :=
  mk (accel d) (caps d) (latest d) (last_observed d) (obs_gen d) (device_gen d) (power_window d) (meter d) g
    (burst d) (perf d) (hardware_cap d).
Definition set_burst (b : BurstBudget.t) (d : t) : t :=
  mk (accel d) (caps d) (latest d) (last_observed d) (obs_gen d) (device_gen d) (power_window d) (meter d)
    (thermal d) b (perf d) (hardware_cap d).

(** One device of [invalidate_live_telemetry]. *)
Definition invalidate (d : t) : t :=
  mk (accel d) (caps d) None never gen_null (device_gen d) (power_window d) (meter d)
    (ThermalGovernor.reset (thermal d)) (burst d) (perf d) (hardware_cap d).
End DeviceState.

Module Governor.
Record t := mk {
  cfg : GovernorConfig;
  domains : PowerDomainTree.t;
  rm : ReservationManager.t BudgetManager.t;
  res_index : ReservationIndex.t;
  policy : PowerPolicy.t;
  engine : DecisionEngine.t;
  authority : AuthorityGate.t;
  history : ChangeHistory.t;
  devices : gmap AcceleratorId DeviceState.t;
  workload_meter : gmap WorkloadId EnergyMeter.t;
  total_meter : EnergyMeter.t;
  default_accel : AcceleratorId;
  next_policy : Z;
  next_observation : Z }.

Definition budgets (g : t) : BudgetManager.t := ReservationManager.budgets (rm g).

Definition set_cfg (c : GovernorConfig) (g : t) : t :=
  mk c (domains g) (rm g) (res_index g) (policy g) (engine g) (authority g) (history g) (devices g)
    (workload_meter g) (total_meter g) (default_accel g) (next_policy g) (next_observation g).
Definition set_domains (d : PowerDomainTree.t) (g : t) : t :=
  mk (cfg g) d (rm g) (res_index g) (policy g) (engine g) (authority g) (history g) (devices g)
    (workload_meter g) (total_meter g) (default_accel g) (next_policy g) (next_observation g).
Definition set_rm (m : ReservationManager.t BudgetManager.t) (g : t) : t :=
  mk (cfg g) (domains g) m (res_index g) (policy g) (engine g) (authority g) (history g) (devices g)
    (workload_meter g) (total_meter g) (default_accel g) (next_policy g) (next_observation g).
Definition set_budgets (b : BudgetManager.t) (g : t) : t := set_rm (ReservationManager.set_budgets b (rm g)) g.
Definition set_index (x : ReservationIndex.t) (g : t) : t :=
  mk (cfg g) (domains g) (rm g) x (policy g) (engine g) (authority g) (history g) (devices g)
    (workload_meter g) (total_meter g) (default_accel g) (next_policy g) (next_observation g).
Definition set_policy (p : PowerPolicy.t) (g : t) : t :=
  mk (cfg g) (domains g) (rm g) (res_index g) p (engine g) (authority g) (history g) (devices g)
    (workload_meter g) (total_meter g) (default_accel g) (next_policy g) (next_observation g).
Definition set_engine (e : DecisionEngine.t) (g : t) : t :=
  mk (cfg g) (domains g) (rm g) (res_index g) (policy g) e (authority g) (history g) (devices g)
    (workload_meter g) (total_meter g) (default_accel g) (next_policy g) (next_observation g).
Definition set_authority (a : AuthorityGate.t) (g : t) : t :=
  mk (cfg g) (domains g) (rm g) (res_index g) (policy g) (engine g) a (history g) (devices g)
    (workload_meter g) (total_meter g) (default_accel g) (next_policy g) (next_observation g).
Definition set_history (h : ChangeHistory.t) (g : t) : t :=
  mk (cfg g) (domains g) (rm g) (res_index g) (policy g) (engine g) (authority g) h (devices g)
    (workload_meter g) (total_meter g) (default_accel g) (next_policy g) (next_observation g).
Definition set_devices (d : gmap AcceleratorId DeviceState.t) (g : t) : t :=
  mk (cfg g) (domains g) (rm g) (res_index g) (policy g) (engine g) (authority g) (history g) d
    (workload_meter g) (total_meter g) (default_accel g) (next_policy g) (next_observation g).
Definition set_meters (w : gmap WorkloadId EnergyMeter.t) (m : EnergyMeter.t) (g : t) : t :=
  mk (cfg g) (domains g) (rm g) (res_index g) (policy g) (engine g) (authority g) (history g) (devices g)
    w m (default_accel g) (next_policy g) (next_observation g).
Definition set_counters (p o : Z) (g : t) : t :=
  mk (cfg g) (domains g) (rm g) (res_index g) (policy g) (engine g) (authority g) (history g) (devices g)
    (workload_meter g) (total_meter g) (default_accel g) p o.

(** The constructor, given the values of the identifier allocators. *)
Definition make (c : GovernorConfig) (next_res next_pol next_obs next_dec : Z) : t :=
  let '(pid, next_pol) := allocate next_pol in
  mk c ∅ (ReservationManager.mk ∅ next_res ∅) ReservationIndex.empty
    (PowerPolicy.set_generation gen_null (PowerPolicy.defaults pid "default"))
    (DecisionEngine.init next_dec) (AuthorityGate.make (cfg_epoch c) (cfg_boot c))
    (ChangeHistory.make ChangeHistory.default_max) ∅ ∅ EnergyMeter.init (mkId 1) next_pol next_obs.

Definition log (k : ChangeKind) (msg : string) (now : Timestamp) : M t () :=
  smodify (fun g => set_history (ChangeHistory.append (history g) k msg now) g).

Definition id_string {Tag : Set} (i : StrongId Tag) : string := to_string_int (id_raw i).
Definition gen_string {Tag : Set} (x : Generation Tag) : string := to_string_int (gen_raw x).

(** *** The domain tree *)
Definition add_domain (id : PowerDomainId) (ty : PowerDomainType) (parent : option PowerDomainId) (name : string)
    (physical : bool) : M t PowerDomainId :=
  do! g <- sget;
  do! r <- slift (PowerDomainTree.add (domains g) id ty parent name physical);
  do! _ <- smodify (set_domains r.2);
  sret r.1.
Definition has_domain (g : t) (id : PowerDomainId) : bool := bool_decide (is_Some (domains g !! id)).

(** *** Policies and budgets *)
Definition install_policy (clock : Timestamp) (p : PowerPolicy.t) : M t bool :=
  do! g <- sget;
  if negb (is_valid (PowerPolicy.id p)) then sret false
  else if gen_leb (PowerPolicy.generation p) (PowerPolicy.generation (policy g)) then sret false
  else if bool_decide (PowerPolicy.class_rules p = ∅) then sret false
  else
    do! _ <- smodify (set_policy p);
    do! _ <- smodify (fun g => set_authority (AuthorityGate.set_policy (PowerPolicy.generation p) (authority g)) g);
    do! _ <- log POLICY_CHANGED ("policy gen " +:+ gen_string (PowerPolicy.generation p)) clock;
    sret true.

Definition install_budget (clock : Timestamp) (b : PowerBudget.t) : M t bool :=
  do! g <- sget;
  let '(ok, m) := BudgetManager.install (budgets g) b in
  do! _ <- smodify (set_budgets m);
  if ok then do! _ <- log BUDGET_CHANGED ("budget " +:+ id_string (PowerBudget.id b)) clock; sret true
  else sret false.
Definition has_budget (g : t) (id : BudgetId) : bool := BudgetManager.has (budgets g) id.
Definition budget_available (g : t) (id : BudgetId) : outcome Watts := BudgetManager.available (budgets g) id.

(** *** Reservations *)
Definition make_envelope (g : t) : AuthorityEnvelope :=
  let a := authority g in
  mkEnvelope (AuthorityGate.epoch a) (AuthorityGate.boot a) (AuthorityGate.policy a) (AuthorityGate.budget a)
    (AuthorityGate.reservation a) (AuthorityGate.observation a) (AuthorityGate.decision a) (AuthorityGate.device a).

Definition update_index_state (id : ReservationId) (s : ReservationState) : M t () :=
  do! g <- sget;
  do! r <- slift (ReservationManager.get (rm g) id);
  smodify (fun g => set_index (ReservationIndex.set_state (res_index g) id (Reservation.budget r) (Reservation.workload r) s) g).

Definition plan_reservation (wl : WorkloadId) (cls : WorkloadPowerClass) (scope : PowerDomainId) (budget : BudgetId)
    (power : Watts) (energy : Joules) (pol : PolicyGeneration) (dev : DeviceGeneration) (now : Timestamp)
    (validity : Duration) : M t ReservationManager.Result :=
  do! g <- sget;
  do! r <- zoom rm set_rm (ReservationManager.plan wl cls scope budget power energy pol dev (make_envelope g) now validity);
  if ReservationManager.ok r then
    do! _ <- smodify (fun g => set_index (ReservationIndex.add (res_index g) (ReservationManager.res_id r) budget wl PLANNED) g);
    do! _ <- log RESERVATION_PLANNED ("reservation " +:+ id_string (ReservationManager.res_id r) +:+ " planned") now;
    sret r
  else sret r.

(** The shape of the other five: an operation of the manager, then the index when
    it succeeded. *)
Definition reservation_step (id : ReservationId) (s : ReservationState)
    (m : M (ReservationManager.t BudgetManager.t) ReservationManager.Result) : M t ReservationManager.Result :=
  do! r <- zoom rm set_rm m;
  if ReservationManager.ok r then do! _ <- update_index_state id s; sret r else sret r.

Definition validate_reservation (id : ReservationId) (pol : PolicyGeneration) (now : Timestamp)
  : M t ReservationManager.Result := reservation_step id VALIDATED (ReservationManager.validate id pol).
Definition reserve_reservation (id : ReservationId) (bg : BudgetGeneration) (now : Timestamp)
  : M t ReservationManager.Result := reservation_step id RESERVED (ReservationManager.reserve id bg now).
Definition admit_reservation (id : ReservationId) (now : Timestamp)
  : M t ReservationManager.Result := reservation_step id ADMITTED (ReservationManager.admit_ id now).
Definition activate_reservation (id : ReservationId) (bg : BudgetGeneration) (now : Timestamp)
  : M t ReservationManager.Result := reservation_step id ACTIVE (ReservationManager.activate id bg now).
Definition release_reservation (id : ReservationId) (bg : BudgetGeneration) (now : Timestamp)
  : M t ReservationManager.Result := reservation_step id RELEASED (ReservationManager.release id bg now).

Definition reservation_state (g : t) (id : ReservationId) : ReservationState := ReservationManager.state (rm g) id.
(** The reservation that [reservation] refers to, when it is called. *)
Definition reservation (g : t) (id : ReservationId) : outcome Reservation.t := ReservationManager.get (rm g) id.
Definition active_reservations (g : t) : nat := ReservationManager.active_count (rm g).
Definition reservations_by_budget (g : t) (b : BudgetId) : list ReservationId :=
  ReservationIndex.by_budget (res_index g) b.
Definition accounting_consistent (clock : Timestamp) (g : t) : outcome bool :=
  if BudgetManager.accounting_consistent (budgets g)
  then ReservationManager.audit_no_leaks (rm g) clock else Ret false.

(** *** Observations *)

(** [devices_[accel]] *)
Definition device_at (g : t) (a : AcceleratorId) : DeviceState.t := default DeviceState.init (devices g !! a).
Definition update_device (a : AcceleratorId) (f : DeviceState.t -> DeviceState.t) : M t () :=
  smodify (fun g => set_devices (<[a := f (device_at g a)]> (devices g)) g).
(** A member of the device's record, run as its own component. *)
Definition on_device {S A : Type} (a : AcceleratorId) (get : DeviceState.t -> S) (put : S -> DeviceState.t -> DeviceState.t)
    (m : M S A) : M t A :=
  zoom (fun g => get (device_at g a)) (fun s g => set_devices (<[a := put s (device_at g a)]> (devices g)) g) m.

Definition ingest_power (a : AcceleratorId) (smp : BackendSample) (now : Timestamp) : M t () :=
  match smp_power smp with
  | Some p =>
      do! _ <- update_device a (DeviceState.set_latest smp now);
      do! _ <- on_device a DeviceState.power_window DeviceState.set_window (PowerWindow.record now p);
      update_device a (DeviceState.set_cap (smp_power_limit smp))
  | None => sret tt
  end.

Definition ingest_thermal (a : AcceleratorId) (smp : BackendSample) (now : Timestamp) : M t () :=
  match smp_temperature smp with
  | Some c =>
      do! s <- on_device a DeviceState.thermal DeviceState.set_thermal
                 (fun g => let '(s, g) := ThermalGovernor.observe (Some c) now g in (Ret s, g));
      if bool_decide (s = THERMALLY_CONSTRAINED)
      then log DEVICE_THERMALLY_CONSTRAINED "device thermally constrained" now
      else if bool_decide (s = RECOVERING) then log DEVICE_RECOVERED "device recovering" now
      else sret tt
  | None => sret tt
  end.

Definition ingest_locked (caps : BackendCapabilities) (smp : BackendSample) (now : Timestamp) : M t ObservationId :=
  do! g <- sget;
  let a := default_accel g in
  let og := gen_next (DeviceState.obs_gen (device_at g a)) in
  let '(id, next) := allocate (next_observation g) in
  do! _ <- update_device a (DeviceState.set_head a caps og);
  do! _ <- smodify (fun g => set_counters (next_policy g) next g);
  do! _ <- ingest_power a smp now;
  do! _ <- ingest_thermal a smp now;
  do! _ <- smodify (fun g => set_authority (AuthorityGate.advance_observation og (authority g)) g);
  do! _ <- log OBSERVATION_ACCEPTED ("power observation " +:+ id_string id) now;
  sret id.

Definition invalidate_live_telemetry (g : t) : t := set_devices (DeviceState.invalidate <$> devices g) g.
(** The copy that [load] uses, which holds the lock. *)
Definition invalidate_live_telemetry_locked (g : t) : t := set_devices (DeviceState.invalidate <$> devices g) g.

(** *** Energy *)

(** The loop over the devices: each meter in turn. *)
Fixpoint meter_devices (energy : Joules) (prov : EnergyProvenance) (now : Timestamp) (l : list AcceleratorId) : M t () :=
  match l with
  | [] => sret tt
  | a :: l =>
      do! g <- sget;
      do! m <- slift (EnergyMeter.add (DeviceState.meter (device_at g a)) energy prov now);
      do! _ <- update_device a (DeviceState.set_meter m);
      meter_devices energy prov now l
  end.

Definition account_energy (wl : WorkloadId) (energy : Joules) (prov : EnergyProvenance) (now : Timestamp) : M t () :=
  do! g <- sget;
  let m := default EnergyMeter.init (workload_meter g !! wl) in
  do! _ <- smodify (fun g => set_meters (<[wl := m]> (workload_meter g)) (total_meter g) g);
  do! m <- slift (EnergyMeter.add m energy prov now);
  do! _ <- smodify (fun g => set_meters (<[wl := m]> (workload_meter g)) (total_meter g) g);
  do! _ <- meter_devices energy prov now (map_to_list (devices g)).*1;
  do! g <- sget;
  do! m <- slift (EnergyMeter.add (total_meter g) energy prov now);
  smodify (fun g => set_meters (workload_meter g) m g).
Definition total_energy (g : t) : Joules := EnergyMeter.total (total_meter g).

Definition reset_hysteresis (g : t) : t := set_engine (DecisionEngine.reset_hysteresis (engine g)) g.

(** *** Decisions *)

(** The lambda [tighten]: the lowest nonnegative cap so far. *)
Definition tighten (v cap : option Watts) : outcome (option Watts) :=
  match v with
  | Some w =>
      if is_non_negative w then
        match cap with
        | Some c => let! q := quantity (BudgetManager.fmin (value c) (value w)) in Ret (Some q)
        | None => Ret v
        end
      else Ret cap
  | None => Ret cap
  end.

Definition hard_ceiling (p : PowerPolicy.t) (device_cap : option Watts) : outcome (option Watts) :=
  let! cap := tighten (PowerPolicy.fleet_hard_cap p) None in
  let! cap := tighten (PowerPolicy.node_hard_cap p) cap in
  let! cap := tighten (PowerPolicy.device_hard_cap p) cap in
  tighten device_cap cap.

Definition requested_perf_for (c : WorkloadPowerClass) : PerformanceState :=
  match c with LATENCY_CRITICAL => MAX_PERFORMANCE | ENERGY_OPTIMIZED => ECO | _ => BALANCED end.

Definition is_more_restrictive (v : DecisionVerdict) : bool :=
  match v with
  | THROTTLE | DEFER | REJECT | ALLOW_WITH_LIMIT | REVALIDATION_REQUIRED => true
  | ALLOW | DRAIN_RECOMMENDED | UNKNOWN => false
  end.

(** [freshness_of_locked] *)
Definition freshness_of (p : PowerPolicy.t) (d : DeviceState.t) (now : Timestamp) : outcome FreshnessState :=
  if time_is_zero (DeviceState.last_observed d) then Ret Policy.EXPIRED
  else FreshnessClassifier.classify
         (mkFreshness (PowerPolicy.observation_freshness p) (PowerPolicy.observation_stale p)
            (PowerPolicy.observation_expired p)) now (DeviceState.last_observed d).

(** [device_ptr_locked]: the first device. *)
Definition device_ptr (g : t) : option (AcceleratorId * DeviceState.t) := head (map_to_list (devices g)).

(** The members of the input that the device fills. *)
Record DeviceFacts := mkFacts {
  df_power : option Watts;
  df_average_known : bool;
  df_average : Watts;
  df_thermal : ThermalState;
  df_ceiling : option Watts;
  df_throttled : bool;
  df_burst : bool;
  df_burst_utilization : double;
  df_freshness : FreshnessState;
  df_evidence : EnergyProvenance }.

Definition no_device : DeviceFacts :=
  mkFacts None false W0 Thermal.UNKNOWN None false false 0 Policy.EXPIRED Energy.UNKNOWN.

(** The temperature the ceiling is computed from. *)
Definition ceiling_temperature (d : DeviceState.t) : option Celsius :=
  match DeviceState.latest d with
  | Some smp => match smp_temperature smp with
                | Some c => Some c
                | None => ThermalGovernor.last_temp (DeviceState.thermal d)
                end
  | None => ThermalGovernor.last_temp (DeviceState.thermal d)
  end.

Definition thermal_ceiling (d : DeviceState.t) (cap : option Watts) : outcome (option Watts) :=
  match cap with
  | Some c =>
      if is_positive c then
        ThermalGovernor.permitted_power (ThermalGovernor.thresholds (DeviceState.thermal d)) c (ceiling_temperature d)
      else Ret None
  | None => Ret None
  end.

(** [std::max(s, 0.0)] *)
Definition fmax0 (s : double) : double := if (s <? 0)%float then 0%float else s.

Definition device_facts (a : AcceleratorId) (d : DeviceState.t) (p : PowerPolicy.t) (cap : option Watts)
    (requested : Watts) (duration_s : double) (now : Timestamp) : M t DeviceFacts :=
  do! avg <- slift (PowerWindow.average_power (DeviceState.power_window d));
  do! avg <- slift (quantity avg);
  do! ceil <- slift (thermal_ceiling d cap);
  do! burst_energy <- slift (quantity (value requested * fmax0 duration_s));
  do! burst <- on_device a DeviceState.burst DeviceState.set_burst (BurstBudget.can_burst burst_energy now);
  do! util <- on_device a DeviceState.burst DeviceState.set_burst (BurstBudget.utilization now);
  do! fresh <- slift (noexcept (freshness_of p d now));
  sret (mkFacts (match DeviceState.latest d with Some smp => smp_power smp | None => None end)
          (2 <=? length (PowerWindow.samples (DeviceState.power_window d)))%nat avg
          (ThermalGovernor.state (DeviceState.thermal d)) ceil
          (match DeviceState.latest d with Some smp => smp_throttled smp | None => false end)
          burst util fresh
          (match DeviceState.latest d with Some smp => smp_provenance smp | None => Energy.UNKNOWN end)).

Definition decision_input (p : PowerPolicy.t) (cls : WorkloadPowerClass) (requested : Watts) (energy : Joules)
    (duration_s : double) (cap : option Watts) (f : DeviceFacts) (has_device : bool) (avail : option Watts)
    (applied : option BudgetId) (parents : list BudgetId) (active : nat) : DecisionInput.t :=
  {| DecisionInput.current_power := default W0 (df_power f);
     DecisionInput.power_known := is_some (df_power f);
     DecisionInput.average_power := df_average f;
     DecisionInput.average_known := df_average_known f;
     DecisionInput.energy_window_used := J0;
     DecisionInput.energy_known := false;
     DecisionInput.requested_power := requested;
     DecisionInput.requested_energy := energy;
     DecisionInput.requested_duration_s := duration_s;
     DecisionInput.hardware_cap := cap;
     DecisionInput.budget_available := avail;
     DecisionInput.soft_target := if has_device then PowerPolicy.soft_target p else None;
     DecisionInput.thermal_ceiling := df_ceiling f;
     DecisionInput.thermal_state := df_thermal f;
     DecisionInput.thermal_known := negb (bool_decide (df_thermal f = Thermal.UNKNOWN));
     DecisionInput.utilization := mkQ 0;
     DecisionInput.utilization_known := false;
     DecisionInput.power_class := cls;
     DecisionInput.rule := PowerPolicy.rule_for p cls;
     DecisionInput.policy := p;
     DecisionInput.policy_current := true;
     DecisionInput.power_freshness := df_freshness f;
     DecisionInput.evidence := df_evidence f;
     DecisionInput.hardware_throttled := df_throttled f;
     DecisionInput.in_thermal_recovery := false;
     DecisionInput.burst_available := df_burst f;
     DecisionInput.burst_utilization := df_burst_utilization f;
     DecisionInput.requested_perf := requested_perf_for cls;
     DecisionInput.budget_applied := applied;
     DecisionInput.parent_budgets := parents;
     DecisionInput.active_reservations := Z.of_nat active |}.

Definition decide_locked (budget : BudgetId) (wl : WorkloadId) (cls : WorkloadPowerClass) (requested : Watts)
    (energy : Joules) (duration_s : double) (now : Timestamp) : M t Decision.t :=
  do! g <- sget;
  let p := policy g in
  let dev := device_ptr g in
  do! cap <- slift (hard_ceiling p (match dev with Some (_, d) => DeviceState.hardware_cap d | None => None end));
  do! f <- (match dev with
            | Some (a, d) => device_facts a d p cap requested duration_s now
            | None => sret no_device
            end);
  let known := is_valid budget && BudgetManager.has (budgets g) budget in
  do! avail <- slift (if known then let! w := BudgetManager.available (budgets g) budget in Ret (Some w) else Ret None);
  let inp := decision_input p cls requested energy duration_s cap f (is_some dev) avail
               (if known then Some budget else None) (if known then BudgetManager.chain (budgets g) budget else [])
               (ReservationManager.active_count (rm g)) in
  do! d <- zoom engine set_engine (DecisionEngine.evaluate inp now);
  if is_more_restrictive (Decision.verdict d)
  then do! _ <- log DECISION_CHANGED ("decision " +:+ verdict_to_string (Decision.verdict d) +:+ " " +:+ Decision.digest d) now;
       sret d
  else sret d.

(** [decide_for] takes the lock; a step of the model is a section under it. *)
Definition decide_for := decide_locked.

(** *** The backend *)
Section WithBackend.
Context {B : Type} `{ControlBackend B}.

(** [observe_backend]: the capabilities are asked of the backend. *)
Definition observe_backend (b : B) (smp : BackendSample) (now : Timestamp) : M t ObservationId :=
  ingest_locked (capabilities b) smp now.

(** [poll]: the sample is taken before the lock. *)
Definition poll (clock : Timestamp) (b : B) (now : Timestamp) : M t (ObservationId * B) :=
  let x := if time_is_zero now then clock else now in
  do! r <- slift (sample b);
  let '(smp, b) := r in
  do! id <- ingest_locked (capabilities b) smp x;
  sret (id, b).

Definition set_power_limit (clock : Timestamp) (b : B) (limit : option Watts) : M t (ControlResult * B) :=
  do! r <- slift (Backend.set_power_limit b limit);
  let '(r, b) := r in
  if bool_decide (r = APPLIED) then
    do! _ <- log POWER_CONTROL_CAPABILITY_CHANGED
               (match limit with Some w => "power limit set to " +:+ q_to_string w | None => "power limit cleared" end) clock;
    sret (r, b)
  else sret (r, b).
Definition restore_power_limit (b : B) : outcome (ControlResult * B) := Backend.restore_power_limit b.
Definition applied_limit (b : B) : option Watts := Backend.applied_limit b.
End WithBackend.
End Governor.
