(* ===== verification/GovernorSpec.v ===== *)
(** * Properties of the governor

    Histories of calls on a governor, what each call leaves alone, and the
    guarantees that hold after any history: budgets are not overcommitted, the
    policy is never rolled back, the index mirrors the reservations; and what a
    decision promises. *)
From S2P Require Import Prelude Rounding Binary64 Util Units Ids Clock Budget BudgetSpec Authority.
From S2P Require Import WorkloadClass Thermal Policy Energy Reservation ReservationFacts ReservationSpec Index.
From S2P Require Import PowerDomain Backend DecisionEngine DecisionSpec Governor.
Local Open Scope Z_scope.
#[local] Set Warnings "-inexact-float".
#[local] Arguments Z.mul : simpl never.
#[local] Arguments Z.add : simpl never.
#[local] Arguments Z.pow : simpl never.
Import Governor.

(** ** Histories *)

(** A call of a method that changes the state.  [EvObserve] is [observe_backend]
    and what [poll] does under the lock; [EvLog] is what [set_power_limit] does. *)
Inductive event :=
| EvAddDomain (id : PowerDomainId) (ty : PowerDomainType) (parent : option PowerDomainId) (name : string) (physical : bool)
| EvInstallPolicy (clock : Timestamp) (p : PowerPolicy.t)
| EvInstallBudget (clock : Timestamp) (b : PowerBudget.t)
| EvPlan (wl : WorkloadId) (cls : WorkloadPowerClass) (scope : PowerDomainId) (budget : BudgetId) (power : Watts)
    (energy : Joules) (pol : PolicyGeneration) (dev : DeviceGeneration) (now : Timestamp) (validity : Duration)
| EvValidate (id : ReservationId) (pol : PolicyGeneration) (now : Timestamp)
| EvReserve (id : ReservationId) (bg : BudgetGeneration) (now : Timestamp)
| EvAdmit (id : ReservationId) (now : Timestamp)
| EvActivate (id : ReservationId) (bg : BudgetGeneration) (now : Timestamp)
| EvRelease (id : ReservationId) (bg : BudgetGeneration) (now : Timestamp)
| EvObserve (caps : BackendCapabilities) (smp : BackendSample) (now : Timestamp)
| EvAccount (wl : WorkloadId) (energy : Joules) (prov : EnergyProvenance) (now : Timestamp)
| EvDecide (budget : BudgetId) (wl : WorkloadId) (cls : WorkloadPowerClass) (requested : Watts) (energy : Joules)
    (duration_s : double) (now : Timestamp)
| EvLog (k : ChangeKind) (msg : string) (now : Timestamp)
| EvResetHysteresis
| EvInvalidate.

(** A method run for its effect. *)
Definition ignore {S A : Type} (m : M S A) : M S () := do! _ <- m; sret tt.

Definition run_event (e : event) : M t () :=
  match e with
  | EvAddDomain id ty parent name physical => ignore (add_domain id ty parent name physical)
  | EvInstallPolicy clock p => ignore (install_policy clock p)
  | EvInstallBudget clock b => ignore (install_budget clock b)
  | EvPlan wl cls scope budget power energy pol dev now validity =>
      ignore (plan_reservation wl cls scope budget power energy pol dev now validity)
  | EvValidate id pol now => ignore (validate_reservation id pol now)
  | EvReserve id bg now => ignore (reserve_reservation id bg now)
  | EvAdmit id now => ignore (admit_reservation id now)
  | EvActivate id bg now => ignore (activate_reservation id bg now)
  | EvRelease id bg now => ignore (release_reservation id bg now)
  | EvObserve caps smp now => ignore (ingest_locked caps smp now)
  | EvAccount wl energy prov now => account_energy wl energy prov now
  | EvDecide budget wl cls requested energy duration_s now =>
      ignore (decide_locked budget wl cls requested energy duration_s now)
  | EvLog k msg now => log k msg now
  | EvResetHysteresis => smodify reset_hysteresis
  | EvInvalidate => smodify invalidate_live_telemetry
  end.

(** The state after a call, however it ended. *)
Definition after (e : event) (g : t) : t := (run_event e g).2.
Definition history_of (l : list event) (g : t) : t := foldl (fun g e => after e g) g l.

Lemma ignore_state {S A : Type} (m : M S A) (s : S) : (ignore m s).2 = (m s).2.
Proof. unfold ignore, sbind, sret. destruct (m s) as [[]]; reflexivity. Qed.

(** ** What the calls leave alone *)
Section Frames.
Context {X : Type} (f : t -> X).

Lemma keeps_ignore {A : Type} (m : M t A) : Keeps f m -> Keeps f (ignore m).
Proof. intros H s. rewrite ignore_state. apply H. Qed.

Lemma keeps_log (k : ChangeKind) (msg : string) (now : Timestamp) :
  (forall h g, f (set_history h g) = f g) -> Keeps f (log k msg now).
Proof. intros H. apply keeps_modify. intros g. apply H. Qed.

(** The telemetry calls write the devices, the history, the observation mark, the
    engine and the meters. *)
Class TelemetryFree : Prop := {
  tf_history h g : f (set_history h g) = f g;
  tf_devices d g : f (set_devices d g) = f g;
  tf_engine e g : f (set_engine e g) = f g;
  tf_meters w m g : f (set_meters w m g) = f g;
  tf_observation x g : f (set_authority (AuthorityGate.advance_observation x (authority g)) g) = f g;
  tf_counter o g : f (set_counters (next_policy g) o g) = f g }.

Context {HF : TelemetryFree}.

Lemma keeps_observe (caps : BackendCapabilities) (smp : BackendSample) (now : Timestamp) : Keeps f (ingest_locked caps smp now).
Proof. destruct HF. unfold ingest_locked, ingest_power, ingest_thermal, update_device, on_device, log. solve_keeps. Qed.

Lemma keeps_decide (budget : BudgetId) (wl : WorkloadId) (cls : WorkloadPowerClass) (requested : Watts) (energy : Joules)
    (duration_s : double) (now : Timestamp) : Keeps f (decide_locked budget wl cls requested energy duration_s now).
Proof. destruct HF. unfold decide_locked, device_facts, on_device, log. solve_keeps. Qed.

Lemma keeps_meter_devices (energy : Joules) (prov : EnergyProvenance) (now : Timestamp) (l : list AcceleratorId) :
  Keeps f (meter_devices energy prov now l).
Proof. destruct HF. induction l as [|a l IH]; cbn [meter_devices]; unfold update_device; solve_keeps. Qed.

Lemma keeps_account (wl : WorkloadId) (energy : Joules) (prov : EnergyProvenance) (now : Timestamp) :
  Keeps f (account_energy wl energy prov now).
Proof.
  pose proof (fun e p n l => keeps_meter_devices e p n l) as Hm. destruct HF. unfold account_energy.
  repeat first [ apply Hm | progress solve_keeps ].
Qed.

(** So do the calls that only move telemetry. *)
Definition telemetry_event (e : event) : bool :=
  match e with
  | EvObserve _ _ _ | EvAccount _ _ _ _ | EvDecide _ _ _ _ _ _ _ | EvLog _ _ _ | EvResetHysteresis | EvInvalidate => true
  | _ => false
  end.

Lemma telemetry_event_keeps (e : event) (g : t) : telemetry_event e = true -> f (after e g) = f g.
Proof.
  intros He. unfold after. assert (H : Keeps f (run_event e)); [|apply H].
  destruct e; try discriminate He; cbn [run_event].
  - apply keeps_ignore, keeps_observe.
  - apply keeps_account.
  - apply keeps_ignore, keeps_decide.
  - destruct HF. apply keeps_log. assumption.
  - destruct HF. apply keeps_modify. intros. unfold reset_hysteresis. auto.
  - destruct HF. apply keeps_modify. intros. unfold invalidate_live_telemetry. auto.
Qed.
End Frames.

#[export] Instance rm_telemetry_free : TelemetryFree rm.
Proof. split; reflexivity. Qed.
#[export] Instance index_telemetry_free : TelemetryFree res_index.
Proof. split; reflexivity. Qed.
#[export] Instance policy_telemetry_free : TelemetryFree policy.
Proof. split; reflexivity. Qed.
#[export] Instance mark_telemetry_free : TelemetryFree (fun g => AuthorityGate.policy (authority g)).
Proof.
  split; try reflexivity. intros x g. cbn. unfold AuthorityGate.advance_observation.
  destruct (gen_ltb _ _); reflexivity.
Qed.

(** ** The calls on reservations and budgets *)

(** The operation of the reservation manager a call makes. *)
Definition event_op (e : event) (g : t) : option ReservationManager.op :=
  match e with
  | EvPlan wl cls scope budget power energy pol dev now validity =>
      Some (ReservationManager.OpPlan wl cls scope budget power energy pol dev (make_envelope g) now validity)
  | EvValidate id pol _ => Some (ReservationManager.OpValidate id pol)
  | EvReserve id bg now => Some (ReservationManager.OpReserve id bg now)
  | EvAdmit id now => Some (ReservationManager.OpAdmit id now)
  | EvActivate id bg now => Some (ReservationManager.OpActivate id bg now)
  | EvRelease id bg now => Some (ReservationManager.OpRelease id bg now)
  | _ => None
  end.

Lemma update_index_keeps_rm (id : ReservationId) (s : ReservationState) : Keeps rm (update_index_state id s).
Proof. unfold update_index_state. solve_keeps. Qed.

Lemma reservation_step_rm (id : ReservationId) (s : ReservationState) m (g : t) :
  rm (reservation_step id s m g).2 = (m (rm g)).2.
Proof.
  apply zoom_bind_state; [reflexivity|]. intros r. destruct (ReservationManager.ok r); [|apply keeps_ret].
  apply keeps_bind; [apply update_index_keeps_rm|intros; apply keeps_ret].
Qed.

Lemma event_op_rm (e : event) (g : t) (o : ReservationManager.op) :
  event_op e g = Some o -> rm (after e g) = (ReservationManager.run o (rm g)).2.
Proof.
  unfold after. destruct e; cbn [event_op]; intros [= <-]; cbn [run_event]; rewrite ignore_state;
    try apply reservation_step_rm.
  unfold plan_reservation. rewrite sbind_sget. apply zoom_bind_state; [reflexivity|].
  intros r. unfold log. solve_keeps.
Qed.

Lemma install_budget_rm (clock : Timestamp) (b : PowerBudget.t) (g : t) :
  rm (after (EvInstallBudget clock b) g)
  = ReservationManager.set_budgets (BudgetManager.install (budgets g) b).2 (rm g).
Proof.
  unfold after. cbn [run_event]. rewrite ignore_state. unfold install_budget. rewrite sbind_sget.
  destruct (BudgetManager.install (budgets g) b) as [[] m]; reflexivity.
Qed.

Lemma add_domain_keeps {X : Type} (f : t -> X) id ty parent name physical g :
  (forall d g, f (set_domains d g) = f g) -> f (after (EvAddDomain id ty parent name physical) g) = f g.
Proof. intros H. unfold after. assert (Hk : Keeps f (run_event (EvAddDomain id ty parent name physical))); [|apply Hk].
  cbn [run_event]. apply keeps_ignore. unfold add_domain. solve_keeps.
Qed.

Lemma install_policy_keeps_rm (clock : Timestamp) (p : PowerPolicy.t) (g : t) :
  rm (after (EvInstallPolicy clock p) g) = rm g.
Proof.
  unfold after. assert (Hk : Keeps rm (run_event (EvInstallPolicy clock p))); [|apply Hk].
  cbn [run_event]. apply keeps_ignore. unfold install_policy, log. solve_keeps.
Qed.

(** Every call either leaves the reservations alone, or is one operation of the
    manager, or installs a budget. *)
Lemma event_rm (e : event) (g : t) :
  rm (after e g) = rm g \/
  (exists o, event_op e g = Some o /\ rm (after e g) = (ReservationManager.run o (rm g)).2) \/
  (exists clock b, e = EvInstallBudget clock b /\
     rm (after e g) = ReservationManager.set_budgets (BudgetManager.install (budgets g) b).2 (rm g)).
Proof.
  destruct (event_op e g) as [o|] eqn:Eo; [right; left; eauto using event_op_rm|].
  destruct (telemetry_event e) eqn:Et; [left; apply telemetry_event_keeps; [apply _|assumption]|].
  destruct e; try discriminate.
  - left. apply add_domain_keeps. reflexivity.
  - left. apply install_policy_keeps_rm.
  - right. right. eauto using install_budget_rm.
Qed.

(** ** Safety of the budgets *)

(** What the caller of a method is to respect: budgets of nonnegative size that are not
    lowered by a re-issue, and not put at or above their own parent; and requests of a
    real amount. *)
Definition event_ok (g : t) (e : event) : Prop :=
  match e with
  | EvInstallBudget _ b =>
      BudgetFacts.valid_budget b /\ BudgetFacts.not_lowered (budgets g) b /\
      BudgetFacts.not_above (budgets g) b
  | EvPlan _ _ _ _ power _ _ _ _ _ => BudgetFacts.real_amount power
  | _ => True
  end.

Fixpoint events_ok (l : list event) (g : t) : Prop :=
  match l with [] => True | e :: l => event_ok g e /\ events_ok l (after e g) end.

Definition safe (s : rmanager) : Prop :=
  BudgetFacts.manager_ok (ReservationManager.budgets s) /\
  forall id r, ReservationManager.map_ s !! id = Some r -> BudgetFacts.real_amount (Reservation.requested_power r).

Lemma map_insert_forall `{Countable K} {A : Type} (P : A -> Prop) (m : gmap K A) (k : K) (a : A) :
  P a -> (forall i x, m !! i = Some x -> P x) -> forall i x, <[k := a]> m !! i = Some x -> P x.
Proof. intros Ha Hm i x. rewrite lookup_insert_Some. intros [[_ <-]|[_ E]]; eauto. Qed.

Lemma step_of_safe (power : option Watts) (s s' : rmanager) (id : ReservationId) :
  (forall p, power = Some p -> BudgetFacts.real_amount p) -> step_of power s id s' -> safe s -> safe s'.
Proof.
  intros Hp Hs [Hm Hr]. destruct Hs as [|next|r next Hn _ _ _ Epw|r r' E Hq|r g m E _ Hb|r g now m E _ _ Hb|r g now m m' E _ Hb Em];
    (split; cbn [ReservationManager.budgets ReservationManager.map_ ReservationManager.set_map]; auto).
  - apply map_insert_forall; [apply Hp, Epw|exact Hr].
  - apply map_insert_forall; [|exact Hr]. apply Hr in E.
    destruct Hq; exact E.
  - apply (BudgetFacts.step_ok _ m Hm). eapply BudgetFacts.step_reserve; [apply Hr in E; exact E|exact Hb].
  - apply map_insert_forall; [|exact Hr]. apply Hr in E. exact E.
  - apply (BudgetFacts.step_ok _ m Hm). eapply BudgetFacts.step_activate; [apply Hr in E; exact E|exact Hb].
  - apply map_insert_forall; [|exact Hr]. apply Hr in E. exact E.
  - assert (H1 : BudgetFacts.manager_ok m) by (apply (BudgetFacts.step_ok _ m Hm); eapply BudgetFacts.step_release; exact Hb).
    subst m'. case_bool_decide; [|exact H1].
    destruct (b_deactivate m _ _ id g) as [[] m'] eqn:Ed; cbn [snd].
    + apply (BudgetFacts.step_ok _ m' H1). eapply BudgetFacts.step_deactivate. exact Ed.
    + apply BudgetFacts.deactivate_false in Ed. subst m'. exact H1.
  - apply map_insert_forall; [|exact Hr]. apply Hr in E. exact E.
Qed.

Lemma event_safe (e : event) (g : t) : event_ok g e -> safe (rm g) -> safe (rm (after e g)).
Proof.
  intros He Hs. destruct (event_rm e g) as [->|[(o & Eo & ->)|(clock & b & -> & ->)]]; [exact Hs| |].
  - apply (step_of_safe (ReservationFacts.op_power o) (rm g) _ (ReservationManager.op_id (rm g) o)); [|apply run_step_of|exact Hs].
    intros p Ep. destruct e; try discriminate Eo; injection Eo as <-; try discriminate Ep.
    injection Ep as <-. exact He.
  - destruct He as (Hv & Hl & Hac), Hs as [Hm Hr]. split; [|exact Hr]. cbn [ReservationManager.set_budgets ReservationManager.budgets].
    destruct (BudgetManager.install (budgets g) b) as [[] m] eqn:Ei; cbn [snd] in *.
    + apply (BudgetFacts.step_ok _ m Hm). eapply BudgetFacts.step_install; eassumption.
    + unfold BudgetManager.install in Ei. destruct (budgets g !! _); [|discriminate].
      destruct (gen_leb _ _); [|discriminate]. injection Ei as <-. exact Hm.
Qed.

Lemma history_safe (l : list event) (g : t) : events_ok l g -> safe (rm g) -> safe (rm (history_of l g)).
Proof.
  unfold history_of. revert g. induction l as [|e l IH]; intros g Hl Hs; cbn; [exact Hs|].
  destruct Hl as [He Hl]. apply IH; [exact Hl|]. apply event_safe; assumption.
Qed.

Lemma make_safe (c : GovernorConfig) (nr np no nd : Z) : safe (rm (make c nr np no nd)).
Proof. split; [apply BudgetFacts.empty_ok|]. intros id r. cbn. rewrite lookup_empty. discriminate. Qed.

(** C2: no budget of a governor is overcommitted.  Take any history of calls on a new
    governor (all but [load], whose effect is [GovernorLoad]'s), observations, decisions,
    failed calls and exceptions included, in which the callers respect what the code does
    not check: a budget that is given to [install_budget] has a maximum that is finite, not
    negative and not lower than that of the budget it replaces, and is not itself its parent
    or an ancestor of its parent; and a power that is planned is zero or above [1e-9] W.
    Then what is reserved and used under each budget is finite, nonnegative, and together at
    most its hard maximum, up to the tolerance [1e-9] and a relative error of [2^-50]. *)
Theorem governor_never_overcommits (c : GovernorConfig) (nr np no nd : Z) (l : list event) (b : BudgetId)
    (st : BudgetManager.State) :
  events_ok l (make c nr np no nd) -> budgets (history_of l (make c nr np no nd)) !! b = Some st ->
  let reserved := value (BudgetManager.reserved_ st) in
  let used := value (BudgetManager.used_ st) in
  nonneg reserved /\ nonneg used /\
  2 ^ 50 * (val reserved + val used)
    <= (2 ^ 50 + 1) * (val (value (PowerBudget.hard_max (BudgetManager.cfg st))) + val eps).
Proof.
  intros Hl E. destruct (history_safe l _ Hl (make_safe c nr np no nd)) as [[_ Hok] _].
  destruct (Hok b st E) as [(_ & HR & HU) Hb]. split_and!; assumption.
Qed.

Definition sample_config : GovernorConfig := mkConfig (mkId 1) (mkId 1) (mkId 1) (mkGen 1).
Definition sample_governor : t := make sample_config 1 1 1 1.
Definition sample_plan : event :=
  EvPlan (mkId 9) THROUGHPUT (mkId 1) leaf_id (mkQ 20) J0 gen_first gen_first (mkTime 5) (mkDuration 1000).
Definition sample_events : list event :=
  [EvInstallBudget (mkTime 1) rack; EvInstallBudget (mkTime 2) node; sample_plan;
   EvReserve (mkId 1) (mkGen 1) (mkTime 6); EvActivate (mkId 1) (mkGen 1) (mkTime 7)].

Lemma real_20 : BudgetFacts.real_amount (mkQ 20).
Proof. right. vm_compute. reflexivity. Qed.

Lemma install_event_ok (g : t) (clock : Timestamp) (b : PowerBudget.t) :
  gridb (value (PowerBudget.hard_max b)) = true -> budgets g !! PowerBudget.id b = None ->
  not_aboveb (budgets g) b = true -> event_ok g (EvInstallBudget clock b).
Proof.
  intros Hg Hn Hup. split; [apply valid_budgetb, Hg|]. split; [|apply not_aboveb_spec, Hup].
  intros st E. congruence.
Qed.

Lemma sample_events_ok : events_ok sample_events sample_governor.
Proof.
  split; [apply install_event_ok; vm_compute; reflexivity|].
  split; [apply install_event_ok; vm_compute; reflexivity|].
  split; [exact real_20|]. repeat split.
Qed.

Definition sample_leaf_state : BudgetManager.State := BudgetManager.mkState node (mkQ 20) (mkQ 20).

Lemma governor_never_overcommits_witness :
  nonneg 20 /\ nonneg 20 /\ 2 ^ 50 * (val 20 + val 20) <= (2 ^ 50 + 1) * (val 60 + val eps).
Proof.
  apply (governor_never_overcommits sample_config 1 1 1 1 sample_events leaf_id sample_leaf_state);
    [apply sample_events_ok|vm_compute; reflexivity].
Defined.

(** ** The policy *)
Lemma install_policy_state (clock : Timestamp) (p : PowerPolicy.t) (g : t) :
  let g' := after (EvInstallPolicy clock p) g in
  (policy g' = policy g /\ authority g' = authority g) \/
  (policy g' = p /\ gen_leb (PowerPolicy.generation p) (PowerPolicy.generation (policy g)) = false /\
   authority g' = AuthorityGate.set_policy (PowerPolicy.generation p) (authority g)).
Proof.
  unfold after. cbn [run_event]. rewrite ignore_state. unfold install_policy. rewrite sbind_sget.
  destruct (negb (is_valid _)); [left; auto|]. destruct (gen_leb _ _) eqn:E; [left; auto|].
  case_bool_decide; [left; auto|]. right. auto.
Qed.

(** The policy and its mark are untouched by the other calls. *)
Lemma event_policy (e : event) (g : t) :
  (forall clock p, e <> EvInstallPolicy clock p) ->
  policy (after e g) = policy g /\ AuthorityGate.policy (authority (after e g)) = AuthorityGate.policy (authority g).
Proof.
  intros Hne. destruct (telemetry_event e) eqn:Et.
  { split; [apply telemetry_event_keeps; [apply _|assumption]|].
    exact (telemetry_event_keeps (fun g => AuthorityGate.policy (authority g)) e g Et). }
  enough (Hk : Keeps (fun g => (policy g, authority g)) (run_event e)).
  { specialize (Hk g). unfold after. injection Hk as -> ->. auto. }
  destruct e; try discriminate Et; try (exfalso; eapply Hne; reflexivity);
    cbn [run_event]; apply keeps_ignore;
    unfold add_domain, install_budget, plan_reservation, validate_reservation, reserve_reservation, admit_reservation,
      activate_reservation, release_reservation, reservation_step, update_index_state, log; solve_keeps.
Qed.

(** C23: no call but [load] rolls the policy back: from a governor whose authority mark for
    policies is the generation of its policy (a new one, for example), through any history
    of the other calls, the generation of the installed policy never decreases, a call that
    changes the policy raises it strictly, and the mark is that generation.  [load] replaces
    the policy by that of the file, whatever its generation
    ([GovernorLoad.load_rolls_policy_back]). *)
Theorem policy_never_rolls_back (l l' : list event) (g : t) :
  AuthorityGate.policy (authority g) = PowerPolicy.generation (policy g) ->
  let g1 := history_of l g in
  let g2 := history_of (l ++ l') g in
  gen_raw (PowerPolicy.generation (policy g1)) <= gen_raw (PowerPolicy.generation (policy g2)) /\
  (gen_raw (PowerPolicy.generation (policy g1)) = gen_raw (PowerPolicy.generation (policy g2)) -> policy g1 = policy g2) /\
  AuthorityGate.policy (authority g2) = PowerPolicy.generation (policy g2).
Proof.
  intros Hg g1 g2.
  assert (Hstep : forall l g, AuthorityGate.policy (authority g) = PowerPolicy.generation (policy g) ->
    let g' := history_of l g in
    gen_raw (PowerPolicy.generation (policy g)) <= gen_raw (PowerPolicy.generation (policy g')) /\
    (gen_raw (PowerPolicy.generation (policy g)) = gen_raw (PowerPolicy.generation (policy g')) -> policy g = policy g') /\
    AuthorityGate.policy (authority g') = PowerPolicy.generation (policy g')).
  { clear. intros l. unfold history_of. induction l as [|e l IH]; intros g Hg; cbn; [auto with lia|].
    assert (H1 : gen_raw (PowerPolicy.generation (policy g)) <= gen_raw (PowerPolicy.generation (policy (after e g))) /\
      (gen_raw (PowerPolicy.generation (policy g)) = gen_raw (PowerPolicy.generation (policy (after e g))) -> policy g = policy (after e g)) /\
      AuthorityGate.policy (authority (after e g)) = PowerPolicy.generation (policy (after e g))).
    { assert (Hcase : (exists clock p, e = EvInstallPolicy clock p) \/ forall clock p, e <> EvInstallPolicy clock p)
        by (destruct e; first [left; eauto; fail | right; discriminate]).
      destruct Hcase as [(clock & p & ->)|Hne]; [|destruct (event_policy e g Hne) as [-> ->]; auto with lia].
      destruct (install_policy_state clock p g) as [[-> ->]|(-> & Hl & ->)]; [auto with lia|].
      unfold gen_leb in Hl. split; [lia|]. split; [lia|reflexivity]. }
    destruct H1 as (H1 & H2 & H3). destruct (IH _ H3) as (H4 & H5 & H6).
    split; [lia|]. split; [|exact H6]. intros E. rewrite H2 by lia. apply H5. lia. }
  destruct (Hstep l g Hg) as (_ & _ & H1). destruct (Hstep l' g1 H1) as (H2 & H3 & H4).
  subst g2. unfold history_of. rewrite foldl_app. auto.
Qed.

Definition sample_policy : PowerPolicy.t :=
  PowerPolicy.set_generation (mkGen 3) (PowerPolicy.defaults (mkId 4) "site").

Lemma policy_never_rolls_back_witness :
  let g1 := history_of [EvInstallPolicy (mkTime 1) sample_policy] sample_governor in
  let g2 := history_of ([EvInstallPolicy (mkTime 1) sample_policy] ++ sample_events) sample_governor in
  gen_raw (PowerPolicy.generation (policy g1)) <= gen_raw (PowerPolicy.generation (policy g2)) /\
  (gen_raw (PowerPolicy.generation (policy g1)) = gen_raw (PowerPolicy.generation (policy g2)) -> policy g1 = policy g2) /\
  AuthorityGate.policy (authority g2) = PowerPolicy.generation (policy g2).
Proof.
  apply (policy_never_rolls_back [EvInstallPolicy (mkTime 1) sample_policy] sample_events sample_governor). reflexivity.
Defined.

(** ** Decisions *)

(** Quantities built by their constructors. *)
Definition cap_ok (v : option Watts) : Prop := forall w, v = Some w -> nonneg (value w).

Definition quantities_ok (g : t) : Prop :=
  cap_ok (PowerPolicy.fleet_hard_cap (policy g)) /\ cap_ok (PowerPolicy.node_hard_cap (policy g)) /\
  cap_ok (PowerPolicy.device_hard_cap (policy g)) /\ cap_ok (PowerPolicy.soft_target (policy g)) /\
  forall a d, devices g !! a = Some d -> cap_ok (DeviceState.hardware_cap d).

(** A cap that is at most every cap of a list. *)
Definition below (l : list (option Watts)) (cap : option Watts) : Prop :=
  cap_ok cap /\ forall w, Some w ∈ l -> exists c, cap = Some c /\ val (value c) <= val (value w).

Lemma tighten_below (v cap cap' : option Watts) (l : list (option Watts)) :
  cap_ok v -> below l cap -> tighten v cap = Ret cap' -> below (l ++ [v]) cap'.
Proof.
  intros Hv [Hc Hl] Ht. unfold tighten in Ht. destruct v as [w|].
  2: { injection Ht as <-. split; [exact Hc|]. intros x Hx. apply Hl. apply elem_of_app in Hx as [Hx|Hx]; [exact Hx|].
       apply list_elem_of_singleton in Hx. discriminate. }
  specialize (Hv w eq_refl). rewrite nonneg_is_non_negative in Ht by assumption. destruct cap as [c|].
  - apply obind_Ret in Ht as (q & Hq & [= <-]). apply quantity_valid in Hq as [Eq Vq].
    specialize (Hc c eq_refl). apply valid_nonneg in Vq; [|apply nonneg_Watts].
    assert (Hmin : val (value q) <= val (value c) /\ val (value q) <= val (value w)).
    { rewrite Eq. unfold BudgetManager.fmin. rewrite nonneg_ltb by assumption.
      destruct (Z.ltb_spec (val (value w)) (val (value c))); lia. }
    split; [intros x [= <-]; exact Vq|]. intros x Hx. exists q. split; [reflexivity|].
    apply elem_of_app in Hx as [Hx|Hx].
    + destruct (Hl x Hx) as (c' & [= <-] & Hle). lia.
    + apply list_elem_of_singleton in Hx. injection Hx as ->. lia.
  - injection Ht as <-. split; [intros x [= <-]; exact Hv|]. intros x Hx. exists w. split; [reflexivity|].
    apply elem_of_app in Hx as [Hx|Hx]; [destruct (Hl x Hx) as (c & [=] & _)|].
    apply list_elem_of_singleton in Hx. injection Hx as ->. lia.
Qed.

Lemma hard_ceiling_below (p : PowerPolicy.t) (dcap cap : option Watts) :
  cap_ok (PowerPolicy.fleet_hard_cap p) -> cap_ok (PowerPolicy.node_hard_cap p) ->
  cap_ok (PowerPolicy.device_hard_cap p) -> cap_ok dcap -> hard_ceiling p dcap = Ret cap ->
  below [PowerPolicy.fleet_hard_cap p; PowerPolicy.node_hard_cap p; PowerPolicy.device_hard_cap p; dcap] cap.
Proof.
  intros H1 H2 H3 H4 Hc. unfold hard_ceiling in Hc.
  apply obind_Ret in Hc as (c1 & E1 & Hc). apply obind_Ret in Hc as (c2 & E2 & Hc). apply obind_Ret in Hc as (c3 & E3 & Hc).
  assert (H0 : below [] None) by (split; [intros w [=]|intros w Hw; apply elem_of_nil in Hw as []]).
  pose proof (tighten_below _ _ _ _ H1 H0 E1) as B1. pose proof (tighten_below _ _ _ _ H2 B1 E2) as B2.
  pose proof (tighten_below _ _ _ _ H3 B2 E3) as B3. exact (tighten_below _ _ _ _ H4 B3 Hc).
Qed.

(** What the device contributes to a decision. *)
Definition facts_of (g : t) (cap : option Watts) (now : Timestamp) (f : DeviceFacts) : Prop :=
  match device_ptr g with
  | None => f = no_device
  | Some (a, d) =>
      freshness_of (policy g) d now = Ret (df_freshness f) /\
      df_thermal f = ThermalGovernor.state (DeviceState.thermal d) /\
      thermal_ceiling d cap = Ret (df_ceiling f)
  end.

Lemma device_facts_Ret (a : AcceleratorId) (d : DeviceState.t) (p : PowerPolicy.t) (cap : option Watts)
    (requested : Watts) (duration_s : double) (now : Timestamp) (g g' : t) (f : DeviceFacts) :
  device_facts a d p cap requested duration_s now g = (Ret f, g') ->
  freshness_of p d now = Ret (df_freshness f) /\
  df_thermal f = ThermalGovernor.state (DeviceState.thermal d) /\ thermal_ceiling d cap = Ret (df_ceiling f).
Proof.
  unfold device_facts. intros H.
  apply sbind_Ret in H as (? & ? & _ & H). apply sbind_Ret in H as (? & ? & _ & H).
  apply sbind_Ret in H as (ceil & ? & E & H). injection E as E _.
  do 3 apply sbind_Ret in H as (? & ? & _ & H).
  apply sbind_Ret in H as (fresh & ? & Ef & H). injection Ef as Ef _. apply (proj1 (noexcept_Ret _ _)) in Ef.
  injection H as <- _. auto.
Qed.

Lemma device_facts_keeps_engine (a : AcceleratorId) (d : DeviceState.t) (p : PowerPolicy.t) (cap : option Watts)
    (requested : Watts) (duration_s : double) (now : Timestamp) :
  Keeps (fun g => (engine g, rm g)) (device_facts a d p cap requested duration_s now).
Proof. unfold device_facts, on_device. solve_keeps. Qed.

(** A decision is an evaluation of the input assembled from the state. *)
Lemma decide_Ret (budget : BudgetId) (wl : WorkloadId) (cls : WorkloadPowerClass) (requested : Watts) (energy : Joules)
    (duration_s : double) (now : Timestamp) (g g' : t) (d : Decision.t) :
  decide_locked budget wl cls requested energy duration_s now g = (Ret d, g') ->
  exists cap f avail applied parents active e',
    hard_ceiling (policy g) (match device_ptr g with Some (_, d) => DeviceState.hardware_cap d | None => None end) = Ret cap /\
    facts_of g cap now f /\
    (if is_valid budget && BudgetManager.has (budgets g) budget
     then exists w, BudgetManager.available (budgets g) budget = Ret w /\ avail = Some w else avail = None) /\
    DecisionEngine.evaluate (decision_input (policy g) cls requested energy duration_s cap f (is_some (device_ptr g))
      avail applied parents active) now (engine g) = (Ret d, e').
Proof.
  unfold decide_locked. rewrite sbind_sget. intros H.
  apply sbind_Ret in H as (cap & g1 & Ecap & H). injection Ecap as Ecap <-.
  apply sbind_Ret in H as (f & g1 & Ef & H).
  assert (Hf : facts_of g cap now f /\ engine g1 = engine g).
  { unfold facts_of. destruct (device_ptr g) as [[a dev]|].
    - split; [exact (device_facts_Ret _ _ _ _ _ _ _ _ _ _ Ef)|].
      pose proof (device_facts_keeps_engine a dev (policy g) cap requested duration_s now g) as Hk.
      rewrite Ef in Hk. injection Hk as Hk _. exact Hk.
    - injection Ef as <- <-. auto. }
  destruct Hf as [Hf He]. apply sbind_Ret in H as (avail & g2 & Eav & H). injection Eav as Eav <-.
  apply sbind_Ret in H as (d0 & g2 & Ed & H). unfold zoom in Ed.
  destruct (DecisionEngine.evaluate _ now (engine g1)) as [o e'] eqn:Eev. injection Ed as -> _. rewrite He in Eev.
  assert (d0 = d) as ->.
  { destruct (is_more_restrictive _); [|injection H as -> _; reflexivity].
    unfold log in H. apply sbind_Ret in H as (? & ? & _ & H). injection H as -> _. reflexivity. }
  exists cap, f, avail. do 3 eexists. exists e'. split; [exact Ecap|]. split; [exact Hf|]. split; [|exact Eev].
  destruct (is_valid budget && _); [|congruence]. apply obind_Ret in Eav as (w & Ew & [= <-]). eauto.
Qed.

Lemma thermal_ceiling_ok (d : DeviceState.t) (cap c : option Watts) : thermal_ceiling d cap = Ret c -> cap_ok c.
Proof.
  unfold thermal_ceiling, ThermalGovernor.permitted_power. destruct cap as [w|]; [|intros [= <-] x [=]].
  destruct (is_positive w); [|intros [= <-] x [=]]. destruct (ceiling_temperature d) as [tc|]; [|intros [= <-] x [=]].
  intros H. apply (proj1 (noexcept_Ret _ _)) in H. apply obind_Ret in H as (q & Hq & [= <-]).
  apply quantity_valid in Hq as [_ Vq]. intros x [= <-]. apply valid_nonneg in Vq; [exact Vq|apply nonneg_Watts].
Qed.

Lemma available_nonneg (m : BudgetManager.t) (b : BudgetId) (w : Watts) :
  BudgetManager.available m b = Ret w -> nonneg (value w).
Proof.
  unfold BudgetManager.available. destruct (m !! b) as [st|].
  - destruct (available_loop_spec m (BudgetManager.chain m b) (BudgetManager.own_available st) (clamp_nonneg _))
      as (a & E & Ha & _). rewrite E. intros [= <-]. exact Ha.
  - intros H. apply quantity_valid in H as [_ H]. apply valid_nonneg in H; [exact H|apply nonneg_Watts].
Qed.

Lemma facts_ceiling_ok (g : t) (cap : option Watts) (now : Timestamp) (f : DeviceFacts) :
  facts_of g cap now f -> cap_ok (df_ceiling f).
Proof.
  unfold facts_of. destruct (device_ptr g) as [[a d]|]; [intros (_ & _ & H); exact (thermal_ceiling_ok _ _ _ H)|].
  intros ->. intros w [=].
Qed.

Lemma device_ptr_lookup (g : t) (a : AcceleratorId) (d : DeviceState.t) :
  device_ptr g = Some (a, d) -> devices g !! a = Some d.
Proof. unfold device_ptr. intros H. apply elem_of_map_to_list. apply head_Some_elem_of in H. exact H. Qed.

(** An amount within the tolerance of a limit. *)
Definition within_limit (requested limit : Watts) : Prop := exceeds (value requested) (value limit) = false.

(** C9: what an ALLOW means end to end.  In a state whose caps are finite and not negative
    (as their constructors make them), when the governor allows a finite request that is not
    negative: a device was observed, its telemetry is CURRENT or AGING, it is neither
    thermally constrained nor recovering, and the request is within the fleet, node and
    device caps of the policy that are set, within the hardware limit the backend reported,
    if any, and, when the budget named has a valid identifier and is installed, within the
    power available under it, parents included.  (Within: by the comparison of the engine,
    up to its tolerance of [1e-9] W.  For a budget that is not installed the code applies no
    limit of a budget.) *)
Theorem allowed_within_every_limit (budget : BudgetId) (wl : WorkloadId) (cls : WorkloadPowerClass) (requested : Watts)
    (energy : Joules) (duration_s : double) (now : Timestamp) (g g' : t) (d : Decision.t) :
  quantities_ok g -> nonneg (value requested) ->
  decide_locked budget wl cls requested energy duration_s now g = (Ret d, g') -> Decision.verdict d = ALLOW ->
  (forall w, Some w ∈ [PowerPolicy.fleet_hard_cap (policy g); PowerPolicy.node_hard_cap (policy g);
                       PowerPolicy.device_hard_cap (policy g)] -> within_limit requested w) /\
  (is_valid budget = true -> BudgetManager.has (budgets g) budget = true ->
     exists av, BudgetManager.available (budgets g) budget = Ret av /\ within_limit requested av) /\
  exists a dev fresh, device_ptr g = Some (a, dev) /\
    freshness_of (policy g) dev now = Ret fresh /\ DecisionEngine.is_stale fresh = false /\
    ThermalGovernor.state (DeviceState.thermal dev) <> THERMALLY_CONSTRAINED /\
    ThermalGovernor.state (DeviceState.thermal dev) <> RECOVERING /\
    forall w, DeviceState.hardware_cap dev = Some w -> within_limit requested w.
Proof.
  intros (H1 & H2 & H3 & Hsoft & Hdev) Hreq Hdec Hallow.
  destruct (decide_Ret _ _ _ _ _ _ _ _ _ _ Hdec) as (cap & f & avail & applied & parents & active & e' & Ecap & Hf & Hav & Hev).
  assert (Hd : cap_ok (match device_ptr g with Some (_, d) => DeviceState.hardware_cap d | None => None end)).
  { destruct (device_ptr g) as [[a dev]|] eqn:E; [exact (Hdev a dev (device_ptr_lookup g a dev E))|intros w [=]]. }
  pose proof (hard_ceiling_below _ _ _ H1 H2 H3 Hd Ecap) as [Hcap Hbelow].
  set (inp := decision_input _ _ _ _ _ _ _ _ _ _ _ _) in Hev.
  assert (Havail : cap_ok avail).
  { destruct (is_valid budget && _); [destruct Hav as (w & Ew & ->); intros x [= <-]; exact (available_nonneg _ _ _ Ew)|].
    subst avail. intros w [=]. }
  assert (Hv : valid_input inp).
  { split_and!; [|exact Hreq|].
    - intros c Hc. unfold caps in Hc. apply list_elem_of_omap in Hc as (o & Ho & ->). cbn in Ho.
      rewrite !elem_of_cons, elem_of_nil in Ho. destruct Ho as [E|[E|[E|[]]]]; symmetry in E.
      + exact (Hcap c E).
      + exact (Havail c E).
      + exact (facts_ceiling_ok g cap now f Hf c E).
    - intros s Es. cbn in Es. destruct (is_some (device_ptr g)); [exact (Hsoft s Es)|discriminate]. }
  destruct (allow_facts inp now _ _ d Hv Hev Hallow) as (Hst & Hc & Hr & Hex).
  assert (Hin : forall w, Some w ∈ [PowerPolicy.fleet_hard_cap (policy g); PowerPolicy.node_hard_cap (policy g);
      PowerPolicy.device_hard_cap (policy g); match device_ptr g with Some (_, d) => DeviceState.hardware_cap d | None => None end] ->
      nonneg (value w) -> within_limit requested w).
  { intros w Hw Hwn. destruct (Hbelow w Hw) as (c & Ec & Hle). pose proof (Hcap c Ec) as Hcn.
    apply (room_test_mono (value c)); [exact Hcn|exact Hwn|exact (proj1 Hreq)|exact Hle|]. apply Hex.
    unfold caps. apply list_elem_of_omap. exists (Some c). split; [|reflexivity]. cbn. rewrite Ec. left. }
  split; [|split].
  - intros w Hw. rewrite !elem_of_cons, elem_of_nil in Hw. apply Hin; [rewrite !elem_of_cons; tauto|].
    destruct Hw as [E|[E|[E|[]]]]; symmetry in E; auto.
  - intros Hb1 Hb2. rewrite Hb1, Hb2 in Hav. destruct Hav as (av & Eav & ->). exists av. split; [exact Eav|].
    apply Hex. unfold caps. apply list_elem_of_omap. exists (Some av). split; [|reflexivity]. right. left.
  - unfold facts_of in Hf. destruct (device_ptr g) as [[a dev]|] eqn:Edev; [|subst f; discriminate Hst].
    destruct Hf as (Hfresh & Hth & _). exists a, dev, (df_freshness f). split; [reflexivity|].
    split; [exact Hfresh|]. split; [exact Hst|].
    assert (Hstate : forall s, s <> Thermal.UNKNOWN -> ~ in_state inp s -> ThermalGovernor.state (DeviceState.thermal dev) <> s).
    { intros s Hs Hns E. apply Hns. split; cbn; rewrite Hth, E; [|reflexivity]. rewrite bool_decide_false by assumption. reflexivity. }
    split; [apply Hstate; [discriminate|exact Hc]|]. split; [apply Hstate; [discriminate|exact Hr]|].
    intros w Hw. apply Hin; [rewrite Hw, !elem_of_cons; tauto|]. exact (Hdev a dev (device_ptr_lookup g a dev Edev) w Hw).
Qed.

Definition cap_okb (v : option Watts) : bool :=
  match v with Some w => isfinite (value w) && (0 <=? val (value w)) | None => true end.
Definition quantities_okb (g : t) : bool :=
  let p := policy g in
  forallb cap_okb [PowerPolicy.fleet_hard_cap p; PowerPolicy.node_hard_cap p; PowerPolicy.device_hard_cap p; PowerPolicy.soft_target p]
  && forallb (fun d => cap_okb (DeviceState.hardware_cap d.2)) (map_to_list (devices g)).

Lemma cap_okb_ok (v : option Watts) : cap_okb v = true -> cap_ok v.
Proof. destruct v as [w|]; cbn; intros H x [= <-]. apply andb_prop in H as [Hf Hv]. split; [exact Hf|lia]. Qed.

Lemma quantities_okb_ok (g : t) : quantities_okb g = true -> quantities_ok g.
Proof.
  intros H. apply andb_prop in H as [H Hd]. cbn in H. repeat (apply andb_prop in H as [? H]).
  split_and!; try (apply cap_okb_ok; assumption). intros a d E. apply elem_of_map_to_list, list_elem_of_In in E.
  rewrite forallb_forall in Hd. exact (cap_okb_ok _ (Hd _ E)).
Qed.

(** The value a run returned. *)
Definition returned {S A : Type} (a : A) (r : outcome A * S) : A := match r.1 with Ret x => x | _ => a end.
Definition is_ret {S A : Type} (r : outcome A * S) : bool := match r.1 with Ret _ => true | _ => false end.
Lemma returned_eq {S A : Type} (a : A) (r : outcome A * S) : is_ret r = true -> r = (Ret (returned a r), r.2).
Proof. destruct r as [[x|e| |] s]; cbn; intros H; congruence || discriminate. Qed.

Definition sample_reading : BackendSample :=
  mkSample (Some (mkQ 100)) (Some (mkQ 50)) None None None None (Some (mkQ 250)) false [] MEASURED "nvml".
Definition observed_governor : t :=
  history_of [EvInstallPolicy (mkTime 1) sample_policy; EvInstallBudget (mkTime 1) rack; EvInstallBudget (mkTime 2) node;
              EvObserve DeviceState.default_caps sample_reading (mkTime 5)] sample_governor.
Definition sample_request (now : Timestamp) : M t Decision.t :=
  decide_locked leaf_id (mkId 9) THROUGHPUT (mkQ 20) J0 1 now.
Definition sample_answer (now : Timestamp) (g : t) : Decision.t := returned (sample_decision 80 None) (sample_request now g).
Lemma sample_answers (now : Timestamp) (g : t) : is_ret (sample_request now g) = true ->
  decide_locked leaf_id (mkId 9) THROUGHPUT (mkQ 20) J0 1 now g = (Ret (sample_answer now g), (sample_request now g).2).
Proof. exact (returned_eq (sample_decision 80 None) (sample_request now g)). Qed.

Lemma allowed_within_every_limit_witness :
  (forall w, Some w ∈ [PowerPolicy.fleet_hard_cap (policy observed_governor); PowerPolicy.node_hard_cap (policy observed_governor);
                       PowerPolicy.device_hard_cap (policy observed_governor)] -> within_limit (mkQ 20) w) /\
  (is_valid leaf_id = true -> BudgetManager.has (budgets observed_governor) leaf_id = true ->
     exists av, BudgetManager.available (budgets observed_governor) leaf_id = Ret av /\ within_limit (mkQ 20) av) /\
  exists a dev fresh, device_ptr observed_governor = Some (a, dev) /\
    freshness_of (policy observed_governor) dev (mkTime 10) = Ret fresh /\ DecisionEngine.is_stale fresh = false /\
    ThermalGovernor.state (DeviceState.thermal dev) <> THERMALLY_CONSTRAINED /\
    ThermalGovernor.state (DeviceState.thermal dev) <> RECOVERING /\
    forall w, DeviceState.hardware_cap dev = Some w -> within_limit (mkQ 20) w.
Proof.
  apply (allowed_within_every_limit leaf_id (mkId 9) THROUGHPUT (mkQ 20) J0 1 (mkTime 10) observed_governor
    (sample_request (mkTime 10) observed_governor).2 (sample_answer (mkTime 10) observed_governor)).
  - apply quantities_okb_ok. vm_compute. reflexivity.
  - apply nonnegb. vm_compute. reflexivity.
  - apply sample_answers. vm_compute. reflexivity.
  - vm_compute. reflexivity.
Defined.

(** Telemetry that is not to be decided on: no device, a device whose readings were
    cleared, or a last reading as old as the stale threshold. *)
Definition telemetry_stale (g : t) (now : Timestamp) : Prop :=
  forall a d, device_ptr g = Some (a, d) ->
    time_is_zero (DeviceState.last_observed d) = true \/
    (ns (PowerPolicy.observation_freshness (policy g)) <= ns (PowerPolicy.observation_stale (policy g)) /\
     valid_time now /\ valid_time (DeviceState.last_observed d) /\
     ns (PowerPolicy.observation_stale (policy g)) <= time_ns now - time_ns (DeviceState.last_observed d)).

Lemma stale_facts_of (g : t) (cap : option Watts) (now : Timestamp) (f : DeviceFacts) :
  telemetry_stale g now -> facts_of g cap now f -> DecisionEngine.is_stale (df_freshness f) = true.
Proof.
  unfold telemetry_stale, facts_of. destruct (device_ptr g) as [[a d]|]; [|intros _ ->; reflexivity].
  intros Hs (Hf & _). specialize (Hs a d eq_refl). unfold freshness_of in Hf.
  destruct (time_is_zero (DeviceState.last_observed d)) eqn:Ez; [injection Hf as <-; reflexivity|].
  destruct Hs as [Hs|(Hth & Hn & Ho & Hage)]; [discriminate|].
  rewrite FreshnessClassifier.classify_valid, Ez in Hf by assumption. injection Hf as <-.
  unfold FreshnessClassifier.age_from_duration, duration_ltb. cbn [fresh stale expired ns].
  destruct (Z.ltb_spec (Z.max 0 (time_ns now - time_ns (DeviceState.last_observed d))) (ns (PowerPolicy.observation_freshness (policy g)))); [lia|].
  destruct (Z.ltb_spec (Z.max 0 (time_ns now - time_ns (DeviceState.last_observed d))) (ns (PowerPolicy.observation_stale (policy g)))); [lia|].
  destruct (_ <? _); reflexivity.
Qed.

(** Clearing the telemetry makes it stale at any time. *)
Lemma invalidated_stale (g : t) (now : Timestamp) : telemetry_stale (after EvInvalidate g) now.
Proof.
  intros a d E. left. apply device_ptr_lookup in E. cbn in E. rewrite lookup_fmap in E.
  destruct (devices g !! a); [|discriminate]. injection E as <-. reflexivity.
Qed.

(** C10: stale telemetry, and telemetry recovered from a file, never drives a decision:
    on a state whose telemetry is stale, as any state is just after its live telemetry
    was invalidated, the answer can only be REVALIDATION_REQUIRED, without a limit. *)
Theorem stale_telemetry_revalidates (budget : BudgetId) (wl : WorkloadId) (cls : WorkloadPowerClass) (requested : Watts)
    (energy : Joules) (duration_s : double) (now : Timestamp) (g g' : t) (d : Decision.t) :
  telemetry_stale g now \/ (exists g0, g = after EvInvalidate g0) ->
  decide_locked budget wl cls requested energy duration_s now g = (Ret d, g') ->
  Decision.verdict d = REVALIDATION_REQUIRED /\ Decision.recommended_limit d = None.
Proof.
  intros Hg Hdec. assert (Hs : telemetry_stale g now) by (destruct Hg as [Hs|(g0 & ->)]; [exact Hs|apply invalidated_stale]).
  destruct (decide_Ret _ _ _ _ _ _ _ _ _ _ Hdec) as (cap & f & avail & applied & parents & active & e' & _ & Hf & _ & Hev).
  eapply stale_facts; [|exact Hev]. exact (stale_facts_of g cap now f Hs Hf).
Qed.

Lemma stale_telemetry_revalidates_witness :
  Decision.verdict (sample_answer (mkTime 10) (after EvInvalidate observed_governor)) = REVALIDATION_REQUIRED /\
  Decision.recommended_limit (sample_answer (mkTime 10) (after EvInvalidate observed_governor)) = None.
Proof.
  apply (stale_telemetry_revalidates leaf_id (mkId 9) THROUGHPUT (mkQ 20) J0 1 (mkTime 10) (after EvInvalidate observed_governor)
    (sample_request (mkTime 10) (after EvInvalidate observed_governor)).2).
  - right. exists observed_governor. reflexivity.
  - apply sample_answers. vm_compute. reflexivity.
Defined.
