(* ===== verification/GovernorIndex.v ===== *)
(** * The index of the governor mirrors its reservations

    The governor keeps the reservations in the manager and, beside them, an index by
    budget, workload and state that every method updates by hand.  This file shows
    that the two agree after any history, except that the index does not learn of an
    expiry: the methods that discover one answer with a failure. *)
From S2P Require Import Prelude Rounding Binary64 Util Units Ids Clock Budget BudgetSpec Authority.
From S2P Require Import WorkloadClass Reservation ReservationFacts ReservationSpec Index Governor GovernorSpec.
Local Open Scope Z_scope.
#[local] Arguments Z.mul : simpl never.
#[local] Arguments Z.add : simpl never.
#[local] Arguments Z.pow : simpl never.
Import ReservationManager.

(** ** How an operation on a reservation ends *)
Section Outcomes.
Context {B : Type} {HO : BudgetOps B}.
#[local] Abbreviation manager := (ReservationManager.t B).

(** Done: the reservation is in the target state.  Or it was found expired.  Or
    nothing happened to the table; then the call did not succeed. *)
Inductive op_outcome (id : ReservationId) (target : ReservationState) (s : manager) : outcome Result -> manager -> Prop :=
| oo_done res r r' s' : ok res = true -> map_ s !! id = Some r -> map_ s' = <[id := r']> (map_ s) -> next_id s' = next_id s ->
    Reservation.budget r' = Reservation.budget r -> Reservation.workload r' = Reservation.workload r ->
    Reservation.state r' = target -> op_outcome id target s (Ret res) s'
| oo_expired res r s' : ok res = false -> map_ s !! id = Some r ->
    map_ s' = <[id := Reservation.with_state EXPIRED r]> (map_ s) -> next_id s' = next_id s ->
    op_outcome id target s (Ret res) s'
| oo_same out s' : map_ s' = map_ s -> next_id s' = next_id s -> (forall res, out = Ret res -> ok res = false) ->
    op_outcome id target s out s'.

Lemma oo_failed (id : ReservationId) (target : ReservationState) (s : manager) (msg : string) :
  op_outcome id target s (Ret (result false msg)) s.
Proof. apply oo_same; try reflexivity. intros res [= <-]. reflexivity. Qed.

Lemma oo_unknown (id : ReservationId) (target : ReservationState) (s : manager) (e : exn) :
  op_outcome id target s (Throw e) s.
Proof. apply oo_same; try reflexivity. discriminate. Qed.

(** The test of expiry in front of an operation. *)
Lemma oo_expiry (r : Reservation.t) (id : ReservationId) (target : ReservationState) (now : Timestamp) (k : M manager Result) (s : manager) :
  map_ s !! id = Some r -> op_outcome id target s (k s).1 (k s).2 ->
  let m := do! e <- slift (expired r now);
           if e then do! _ <- store id (Reservation.with_state EXPIRED r); sret (result false "reservation expired") else k in
  op_outcome id target s (m s).1 (m s).2.
Proof.
  intros E Hk m. subst m. unfold sbind at 1 3, slift. destruct (expired r now) as [[]|x| |]; cbn [fst snd].
  - rewrite store_bind. eapply oo_expired; [reflexivity|exact E|reflexivity|reflexivity].
  - exact Hk.
  - apply oo_unknown.
  - apply oo_same; try reflexivity. discriminate.
  - apply oo_same; try reflexivity. discriminate.
Qed.

Ltac start_op := rewrite mutable_get_bind; match goal with
  | |- context [map_ ?s !! ?id] => destruct (map_ s !! id) as [r|] eqn:E; [|apply oo_unknown] end.

Lemma validate_outcome (id : ReservationId) (g : PolicyGeneration) (s : manager) :
  op_outcome id VALIDATED s (validate id g s).1 (validate id g s).2.
Proof.
  unfold validate. start_op. destruct (negb (bool_decide _)); [apply oo_failed|]. destruct (negb _); [apply oo_failed|].
  rewrite store_bind. eapply oo_done; [reflexivity|exact E|reflexivity..].
Qed.

Lemma reserve_outcome (id : ReservationId) (g : BudgetGeneration) (now : Timestamp) (s : manager) :
  op_outcome id RESERVED s (reserve id g now s).1 (reserve id g now s).2.
Proof.
  unfold reserve. start_op. destruct (_ && _); [apply oo_failed|]. apply oo_expiry; [exact E|].
  rewrite call_bind. destruct (b_reserve (budgets s) _ _ id g) as [[] m]; cbn [fst snd negb].
  - rewrite store_bind. eapply oo_done; [reflexivity|exact E|reflexivity..].
  - apply oo_same; try reflexivity. intros res [= <-]. reflexivity.
Qed.

Lemma admit_outcome (id : ReservationId) (now : Timestamp) (s : manager) :
  op_outcome id ADMITTED s (admit_ id now s).1 (admit_ id now s).2.
Proof.
  unfold admit_. start_op. destruct (negb _); [apply oo_failed|]. apply oo_expiry; [exact E|].
  rewrite store_bind. eapply oo_done; [reflexivity|exact E|reflexivity..].
Qed.

Lemma activate_outcome (id : ReservationId) (g : BudgetGeneration) (now : Timestamp) (s : manager) :
  op_outcome id ACTIVE s (activate id g now s).1 (activate id g now s).2.
Proof.
  unfold activate. start_op. destruct (_ && _); [apply oo_failed|]. apply oo_expiry; [exact E|].
  destruct (negb _); [apply oo_failed|].
  rewrite call_bind. destruct (b_activate (budgets s) _ _ id g) as [[] m]; cbn [fst snd negb].
  - rewrite store_bind. eapply oo_done; [reflexivity|exact E|reflexivity..].
  - apply oo_same; try reflexivity. intros res [= <-]. reflexivity.
Qed.

Lemma release_outcome (id : ReservationId) (g : BudgetGeneration) (now : Timestamp) (s : manager) :
  op_outcome id RELEASED s (release id g now s).1 (release id g now s).2.
Proof.
  unfold release. start_op. do 3 (destruct (_ : bool); [apply oo_failed|]).
  rewrite call_bind. destruct (b_release (budgets s) _ _ id g) as [[] m]; cbn [fst snd negb].
  - match goal with |- context [sbind ?u _ ?s0] => assert (Hu : exists s1, u s0 = (Ret tt, s1) /\ map_ s1 = map_ s /\ next_id s1 = next_id s) end.
    { destruct (_ || _ || _); [|eexists; split; [reflexivity|auto]].
      rewrite call_bind. eexists. split; [reflexivity|auto]. }
    destruct Hu as (s1 & Hu & Em & En). rewrite (sbind_step _ _ _ _ _ Hu), store_bind.
    eapply oo_done; [reflexivity|exact E|cbn; rewrite Em; reflexivity|exact En|reflexivity..].
  - apply oo_same; try reflexivity. intros res [= <-]. reflexivity.
Qed.
End Outcomes.

(** ** The mirror *)
Import ReservationIndex.

(** An index entry says what the reservation is, its state aside when it expired. *)
Definition entry_of (r : Reservation.t) (m : Meta) : Prop :=
  m_budget m = Reservation.budget r /\ m_workload m = Reservation.workload r /\
  (m_state m = Reservation.state r \/ Reservation.state r = EXPIRED).

Definition agree (tbl : gmap ReservationId Reservation.t) (mem : gmap ReservationId Meta) : Prop :=
  forall id, match tbl !! id, mem !! id with
             | Some r, Some m => entry_of r m
             | None, None => True
             | _, _ => False
             end.

(** Identifiers handed out so far: valid, and before the next one. *)
Definition allocated (tbl : gmap ReservationId Reservation.t) (next : Z) : Prop :=
  1 <= next /\ forall id, is_Some (tbl !! id) -> 1 <= id_raw id < next.

Definition mirrors (tbl : gmap ReservationId Reservation.t) (next : Z) (x : ReservationIndex.t) : Prop :=
  consistent x /\ agree tbl (members x) /\ allocated tbl next.

Lemma agree_insert (tbl : gmap ReservationId Reservation.t) (mem : gmap ReservationId Meta) (id : ReservationId)
    (r : Reservation.t) (m : Meta) : agree tbl mem -> entry_of r m -> agree (<[id := r]> tbl) (<[id := m]> mem).
Proof. intros Ha Hr i. rewrite !lookup_insert. case_decide; [exact Hr|apply Ha]. Qed.

Lemma agree_expire (tbl : gmap ReservationId Reservation.t) (mem : gmap ReservationId Meta) (id : ReservationId)
    (r : Reservation.t) : agree tbl mem -> tbl !! id = Some r -> agree (<[id := Reservation.with_state EXPIRED r]> tbl) mem.
Proof.
  intros Ha E i. rewrite lookup_insert. case_decide as Ei; [subst i|apply Ha].
  specialize (Ha id). rewrite E in Ha. destruct (mem !! id); [|exact Ha]. destruct Ha as (H1 & H2 & _).
  split; [exact H1|]. split; [exact H2|]. right. reflexivity.
Qed.

Lemma allocated_insert (tbl : gmap ReservationId Reservation.t) (next : Z) (id : ReservationId) (r r' : Reservation.t) :
  allocated tbl next -> tbl !! id = Some r -> allocated (<[id := r']> tbl) next.
Proof.
  intros [H1 H2] E. split; [exact H1|]. intros i. rewrite lookup_insert. case_decide as Ei; [subst i; eauto|apply H2].
Qed.

Lemma members_set_state (x : ReservationIndex.t) (id : ReservationId) (b : BudgetId) (w : WorkloadId) (s : ReservationState) :
  is_Some (members x !! id) -> members (set_state x id b w s) = <[id := mkMeta b w s]> (members x).
Proof. intros [m E]. unfold set_state. rewrite E. reflexivity. Qed.

Lemma agree_some (tbl : gmap ReservationId Reservation.t) (mem : gmap ReservationId Meta) (id : ReservationId)
    (r : Reservation.t) : agree tbl mem -> tbl !! id = Some r -> is_Some (mem !! id).
Proof. intros Ha E. specialize (Ha id). rewrite E in Ha. destruct (mem !! id); [eauto|contradiction]. Qed.

Definition mirrored (g : Governor.t) : Prop :=
  mirrors (map_ (Governor.rm g)) (next_id (Governor.rm g)) (Governor.res_index g).

(** The five methods on an existing reservation. *)
Lemma reservation_step_mirrored (id : ReservationId) (target : ReservationState) m (g : Governor.t) :
  op_outcome id target (Governor.rm g) (m (Governor.rm g)).1 (m (Governor.rm g)).2 ->
  mirrored g -> mirrored (Governor.reservation_step id target m g).2.
Proof.
  intros Ho (Hc & Ha & Hn). unfold mirrored. rewrite reservation_step_rm.
  unfold Governor.reservation_step, sbind. rewrite zoom_eq.
  destruct (m (Governor.rm g)) as [out s'] eqn:Em. cbn [fst snd] in *.
  destruct Ho as [res r r' s' Hok E Emap Enext Eb Ew Es|res r s' Hok E Emap Enext|out s' Emap Enext Hno].
  - rewrite Hok. unfold Governor.update_index_state, sbind. cbn [sget slift]. cbn [Governor.rm Governor.set_rm].
    unfold ReservationManager.get. rewrite Emap, lookup_insert_eq. cbn [fst snd smodify sret Governor.set_index Governor.set_rm Governor.res_index].
    rewrite Enext. split; [apply set_state_consistent, Hc|]. split; [|eapply allocated_insert; eassumption].
    rewrite members_set_state by (eapply agree_some; eassumption). apply agree_insert; [exact Ha|].
    split; [reflexivity|]. split; [reflexivity|]. left. symmetry. exact Es.
  - rewrite Hok. cbn [sret snd Governor.set_rm Governor.res_index]. rewrite Emap, Enext.
    split; [exact Hc|]. split; [apply agree_expire; assumption|eapply allocated_insert; eassumption].
  - assert (Eidx : Governor.res_index (match out with
      | Ret r => (if ok r then do! _ <- Governor.update_index_state id target; sret r else sret r) (Governor.set_rm s' g)
      | Throw e => (Throw e, Governor.set_rm s' g) | Terminate => (Terminate, Governor.set_rm s' g)
      | Undefined => (Undefined, Governor.set_rm s' g) end).2 = Governor.res_index g).
    { destruct out as [res|x| |]; try reflexivity. rewrite (Hno res eq_refl). reflexivity. }
    unfold sbind in Eidx. rewrite Eidx, Emap, Enext. split_and!; assumption.
Qed.

Lemma plan_fresh wl cls scope budget power energy pol dev auth now validity (s : rmanager) :
  map_ s !! mkId (next_id s) = None ->
  exists r, plan wl cls scope budget power energy pol dev auth now validity s =
    (Ret (mkResult true "planned" (mkId (next_id s))),
     ReservationManager.mk (<[mkId (next_id s) := r]> (map_ s)) (u64 (next_id s + 1)) (budgets s)) /\
    Reservation.budget r = budget /\ Reservation.workload r = wl /\ Reservation.state r = PLANNED.
Proof.
  intros E. unfold plan. rewrite sbind_sget. unfold allocate. rewrite sbind_sput, E, store_bind.
  eexists. split; [reflexivity|]. auto.
Qed.

(** A plan takes the next identifier. *)
Lemma plan_mirrored wl cls scope budget power energy pol dev now validity (g : Governor.t) :
  next_id (Governor.rm g) < 2 ^ 64 - 1 -> mirrored g ->
  let g' := (Governor.plan_reservation wl cls scope budget power energy pol dev now validity g).2 in
  mirrored g' /\ next_id (Governor.rm g') = next_id (Governor.rm g) + 1.
Proof.
  intros Hlt (Hc & Ha & Hn & Hids) g'. set (id := mkId (next_id (Governor.rm g)) : ReservationId).
  assert (Enone : map_ (Governor.rm g) !! id = None).
  { destruct (map_ (Governor.rm g) !! id) eqn:E; [|reflexivity]. specialize (Hids id (ex_intro _ _ E)). cbn in Hids. lia. }
  destruct (plan_fresh wl cls scope budget power energy pol dev (Governor.make_envelope g) now validity _ Enone)
    as (r & Ep & Eb & Ew & Es). fold id in Ep. unfold u64 in Ep. rewrite wrap_small in Ep by (unfold in_u; lia).
  assert (Eg : exists h, g' = Governor.set_history h (Governor.set_index (add (Governor.res_index g) id budget wl PLANNED)
      (Governor.set_rm (ReservationManager.mk (<[id := r]> (map_ (Governor.rm g))) (next_id (Governor.rm g) + 1) (budgets (Governor.rm g))) g))).
  { subst g'. unfold Governor.plan_reservation. rewrite sbind_sget. eexists.
    rewrite (sbind_step _ _ _ _ _ (zoom_step _ _ _ _ _ _ Ep)). reflexivity. }
  destruct Eg as (h & Eg). rewrite Eg. split; [|reflexivity]. pose proof (Ha id) as Hid. rewrite Enone in Hid.
  destruct (members (Governor.res_index g) !! id) eqn:Emem; [contradiction|].
  assert (Hvalid : is_valid id = true) by (unfold is_valid; cbn; destruct (Z.eqb_spec (next_id (Governor.rm g)) 0); [lia|reflexivity]).
  split; [apply add_consistent; assumption|]. split.
  - cbn. unfold add. rewrite Hvalid. cbn [negb members]. apply agree_insert; [exact Ha|].
    split; [symmetry; exact Eb|]. split; [symmetry; exact Ew|]. left. symmetry. exact Es.
  - cbn. split; [lia|]. intros i. rewrite lookup_insert. case_decide as Ei; [subst i; cbn; lia|].
    intros Hi. specialize (Hids i Hi). lia.
Qed.

(** The other calls touch neither. *)
Lemma other_mirrored (e : event) (g : Governor.t) : event_op e g = None ->
  (Governor.res_index (after e g), map_ (Governor.rm (after e g)), next_id (Governor.rm (after e g)))
  = (Governor.res_index g, map_ (Governor.rm g), next_id (Governor.rm g)).
Proof.
  intros He. destruct (telemetry_event e) eqn:Et.
  { rewrite !(telemetry_event_keeps Governor.rm), (telemetry_event_keeps Governor.res_index) by assumption. reflexivity. }
  enough (Hk : Keeps (fun g => (Governor.res_index g, map_ (Governor.rm g), next_id (Governor.rm g))) (run_event e)) by exact (Hk g).
  destruct e; try discriminate; cbn [run_event]; apply keeps_ignore;
    unfold Governor.add_domain, Governor.install_policy, Governor.install_budget, Governor.log; solve_keeps.
Qed.

Lemma event_op_step (e : event) (g : Governor.t) o : event_op e g = Some o -> mirrored g ->
  next_id (Governor.rm g) < 2 ^ 64 - 1 ->
  mirrored (after e g) /\ next_id (Governor.rm g) <= next_id (Governor.rm (after e g)) <= next_id (Governor.rm g) + 1.
Proof.
  intros Eo Hg Hlt. unfold after.
  assert (Hstep : forall id target m, (forall s, op_outcome id target s (m s).1 (m s).2) ->
    mirrored (ignore (Governor.reservation_step id target m) g).2 /\
    next_id (Governor.rm g) <= next_id (Governor.rm (ignore (Governor.reservation_step id target m) g).2)
      <= next_id (Governor.rm g) + 1).
  { intros id target m Hm. rewrite ignore_state, reservation_step_rm. split; [apply reservation_step_mirrored; auto|].
    assert (En : next_id (m (Governor.rm g)).2 = next_id (Governor.rm g)) by (destruct (Hm (Governor.rm g)); assumption). lia. }
  destruct e; try discriminate; cbn [run_event].
  - rewrite ignore_state. pose proof (plan_mirrored wl cls scope budget power energy pol dev now validity g Hlt Hg) as [H1 H2].
    split; [exact H1|]. lia.
  - apply Hstep. intros s. apply validate_outcome.
  - apply Hstep. intros s. apply reserve_outcome.
  - apply Hstep. intros s. apply admit_outcome.
  - apply Hstep. intros s. apply activate_outcome.
  - apply Hstep. intros s. apply release_outcome.
Qed.

Lemma history_mirrored (l : list event) (g : Governor.t) : mirrored g ->
  next_id (Governor.rm g) + Z.of_nat (length l) < 2 ^ 64 -> mirrored (history_of l g).
Proof.
  unfold history_of. revert g. induction l as [|e l IH]; intros g Hg Hn; cbn; [exact Hg|]. cbn [length] in Hn.
  destruct (event_op e g) as [o|] eqn:Eo.
  - destruct (event_op_step e g o Eo Hg ltac:(lia)) as [H1 H2]. apply IH; [exact H1|lia].
  - pose proof (other_mirrored e g Eo) as H. injection H as H1 H2 H3.
    apply IH; [unfold mirrored; rewrite H1, H2, H3; exact Hg|lia].
Qed.

Lemma make_mirrored (c : GovernorConfig) (nr np no nd : Z) : 1 <= nr -> mirrored (Governor.make c nr np no nd).
Proof.
  intros Hn. split; [apply empty_consistent|]. split; [intros id; cbn; rewrite !lookup_empty; exact I|].
  split; [exact Hn|]. intros id [r E]. cbn in E. rewrite lookup_empty in E. discriminate.
Qed.

(** C24: after any history of calls on a new governor (one that hands out fewer
    than [2^64] identifiers), [reservations_by_budget] answers with exactly the
    reservations planned under the budget, each once, and a reservation is filed
    under its state, except that one found expired stays filed under an older one. *)
Theorem index_mirrors_reservations (c : GovernorConfig) (nr np no nd : Z) (l : list event) (b : BudgetId)
    (id : ReservationId) (s : ReservationState) :
  1 <= nr -> nr + Z.of_nat (length l) < 2 ^ 64 ->
  let g := history_of l (Governor.make c nr np no nd) in
  let tbl := map_ (Governor.rm g) in
  NoDup (Governor.reservations_by_budget g b) /\
  (id ∈ Governor.reservations_by_budget g b <-> exists r, tbl !! id = Some r /\ Reservation.budget r = b) /\
  (id ∈ ReservationIndex.by_state (Governor.res_index g) s ->
     exists r, tbl !! id = Some r /\ (Reservation.state r = s \/ Reservation.state r = EXPIRED)) /\
  (forall r, tbl !! id = Some r -> Reservation.state r = s -> s <> EXPIRED ->
     id ∈ ReservationIndex.by_state (Governor.res_index g) s).
Proof.
  intros Hn Hl g tbl. destruct (history_mirrored l _ (make_mirrored c nr np no nd Hn) Hl) as ((Hb & _ & Hs) & Ha & _).
  fold g in Hb, Hs, Ha. fold tbl in Ha. specialize (Ha id). split; [apply Hb|]. split; [|split].
  - unfold Governor.reservations_by_budget, by_budget. rewrite (proj2 (Hb b) id). split.
    + intros (m & Em & Ekey). rewrite Em in Ha. destruct (tbl !! id) as [r|]; [|contradiction].
      destruct Ha as (E1 & _). exists r. split; [reflexivity|congruence].
    + intros (r & Er & Ekey). rewrite Er in Ha. destruct (members _ !! id) as [m|] eqn:Em; [|contradiction].
      destruct Ha as (E1 & _). exists m. split; [reflexivity|congruence].
  - intros Hin. apply (proj2 (Hs s) id) in Hin as (m & Em & Ekey). rewrite Em in Ha.
    destruct (tbl !! id) as [r|]; [|contradiction]. destruct Ha as (_ & _ & E3). exists r. split; [reflexivity|].
    destruct E3; [left; congruence|right; assumption].
  - intros r Er Est Hne. rewrite Er in Ha. destruct (members _ !! id) as [m|] eqn:Em; [|contradiction].
    destruct Ha as (_ & _ & [E3|E3]); [|congruence]. apply (proj2 (Hs s) id). exists m. split; [exact Em|congruence].
Qed.

Lemma index_mirrors_reservations_witness :
  let g := history_of sample_events sample_governor in
  let tbl := map_ (Governor.rm g) in
  NoDup (Governor.reservations_by_budget g leaf_id) /\
  (mkId 1 ∈ Governor.reservations_by_budget g leaf_id <-> exists r, tbl !! mkId 1 = Some r /\ Reservation.budget r = leaf_id) /\
  (mkId 1 ∈ ReservationIndex.by_state (Governor.res_index g) ACTIVE ->
     exists r, tbl !! mkId 1 = Some r /\ (Reservation.state r = ACTIVE \/ Reservation.state r = EXPIRED)) /\
  (forall r, tbl !! mkId 1 = Some r -> Reservation.state r = ACTIVE -> ACTIVE <> EXPIRED ->
     mkId 1 ∈ ReservationIndex.by_state (Governor.res_index g) ACTIVE).
Proof. apply (index_mirrors_reservations sample_config 1 1 1 1 sample_events leaf_id (mkId 1) ACTIVE); vm_compute; congruence. Defined.

(** The index does not learn of an expiry: the reservation planned at 5 for 1000 ns is
    found expired at 2000, and stays filed under PLANNED. *)
Lemma index_misses_expiry :
  let g := history_of [EvInstallBudget (mkTime 1) rack; EvInstallBudget (mkTime 2) node; sample_plan;
                       EvReserve (mkId 1) (mkGen 1) (mkTime 2000)] sample_governor in
  Governor.reservation_state g (mkId 1) = EXPIRED /\
  ReservationIndex.by_state (Governor.res_index g) PLANNED = [mkId 1] /\
  ReservationIndex.by_state (Governor.res_index g) EXPIRED = [].
Proof. vm_compute. auto. Qed.
