(* ===== verification/GovernorState.v ===== *)
(** * The persisted state of the governor (governor.hpp, encode_state and decode_state)

    [encode_state] writes the scalars of the configuration and the policy, then the
    budgets, the reservations and the energy of the workloads; [decode_state] reads
    them back into a governor, statement by statement: it changes the state while it
    reads, so that a failure part of the way leaves what was applied before it. *)
From S2P Require Import Prelude Binary64 Util Units Ids Clock Budget BudgetSpec Authority WorkloadClass.
From S2P Require Import Thermal Policy Energy Reservation ReservationSpec Index Crc Wire Persistence Governor.
From S2P Require Import GovernorSpec.
Local Open Scope Z_scope.
#[local] Set Warnings "-inexact-float".
Import Governor.

(** ** Encoding *)
Fixpoint concat_outcomes (l : list (outcome (list Z))) : outcome (list Z) :=
  match l with
  | [] => Ret []
  | o :: l => let! a := o in let! b := concat_outcomes l in Ret (a ++ b)
  end.

(** [BinWriter::str] has its own message; [f64] is [f32] of the wire. *)
Definition put_bin_str (s : string) : outcome (list Z) :=
  match put_str s with Throw _ => Throw (overflow_error "pg persist: string too long") | o => o end.
Definition put_f64 (v : double) : outcome (list Z) := put_f32 v.
Definition put_cap (v : option Watts) : outcome (list Z) :=
  match v with
  | Some w => let! b := put_f64 (value w) in Ret (put_bool true ++ b)
  | None => Ret (put_bool false)
  end.

Definition encode_budget (b : PowerBudget.t) : outcome (list Z) :=
  concat_outcomes
    [Ret (put_u64 (id_raw (PowerBudget.id b)) ++ put_u64 (gen_raw (PowerBudget.generation b))
          ++ put_u64 (id_raw (PowerBudget.domain b))
          ++ put_u64 (match PowerBudget.parent b with Some p => if is_valid p then id_raw p else 0 | None => 0 end));
     put_bin_str (PowerBudget.name b); put_f64 (value (PowerBudget.hard_max b)); put_f64 (value (PowerBudget.soft_target b));
     put_f64 (value (PowerBudget.min_reserve b)); put_f64 (value (PowerBudget.burst_allowance b));
     Ret (put_i64 (ns (PowerBudget.burst_window b)) ++ put_i64 (ns (PowerBudget.recovery b))
          ++ put_i32 (PowerBudget.priority b) ++ put_bool (PowerBudget.authoritative b))].

Definition encode_reservation (r : Reservation.t) : outcome (list Z) :=
  concat_outcomes
    [Ret (put_u64 (id_raw (Reservation.id r)) ++ put_u64 (id_raw (Reservation.budget r))
          ++ put_u64 (id_raw (Reservation.workload r)) ++ put_u8 (class_to_int (Reservation.power_class r)));
     put_f64 (value (Reservation.requested_power r)); put_f64 (value (Reservation.requested_energy r));
     Ret (put_u64 (gen_raw (Reservation.policy_generation r)) ++ put_u64 (gen_raw (Reservation.device_generation r))
          ++ put_u64 (gen_raw (Reservation.budget_generation r)) ++ put_u64 (gen_raw (env_epoch (Reservation.authority r)))
          ++ put_u64 (id_raw (env_boot (Reservation.authority r))) ++ put_i64 (time_ns (Reservation.created r))
          ++ put_i64 (ns (Reservation.validity r)) ++ put_u8 (reservation_state_to_int (Reservation.state r)));
     put_f64 (value (Reservation.reserved_power r)); put_f64 (value (Reservation.energy_used r))].

Definition encode_meter (p : WorkloadId * EnergyMeter.t) : outcome (list Z) :=
  let! e := put_f64 (value (EnergyMeter.total p.2)) in Ret (put_u64 (id_raw p.1) ++ e).

(** The three tables, as their iteration lists them. *)
Definition encode_listing (g : t) (budgets : list PowerBudget.t) (reses : list Reservation.t)
    (meters : list (WorkloadId * EnergyMeter.t)) : outcome (list Z) :=
  concat_outcomes
    ([Ret (put_u64 (gen_raw (cfg_epoch (cfg g))) ++ put_u64 (id_raw (cfg_boot (cfg g)))
           ++ put_u64 (id_raw (cfg_node (cfg g))) ++ put_u64 (gen_raw (PowerPolicy.generation (policy g))));
      put_bin_str (PowerPolicy.name (policy g));
      put_cap (PowerPolicy.fleet_hard_cap (policy g)); put_cap (PowerPolicy.node_hard_cap (policy g));
      put_cap (PowerPolicy.device_hard_cap (policy g)); put_cap (PowerPolicy.soft_target (policy g));
      Ret (put_u32 (Z.of_nat (length budgets)))] ++ (encode_budget <$> budgets)
     ++ [Ret (put_u32 (Z.of_nat (length reses)))] ++ (encode_reservation <$> reses)
     ++ [Ret (put_u32 (Z.of_nat (length meters)))] ++ (encode_meter <$> meters)).

(** The reservations are sorted; the budgets and the meters come in the order of their
    hash tables, which the language leaves open.  The model takes the order of its own
    maps; the theorems about recovery hold for any order. *)
Definition encode_state (g : t) : outcome (list Z) :=
  encode_listing g (BudgetManager.snapshots (budgets g)) (ReservationManager.all (rm g)) (map_to_list (workload_meter g)).

(** ** Decoding

    The state of the function is the governor and the bytes not read yet; [None] is
    [return false]. *)
Definition D (A : Type) : Type := M (t * list Z) (option A).
Definition dret {A : Type} (a : A) : D A := sret (Some a).
Definition dfail {A : Type} : D A := sret None.
Definition dbind {A C : Type} (m : D A) (k : A -> D C) : D C :=
  do! o <- m; match o with Some a => k a | None => dfail end.
Notation "'try!' x '<-' m ';' k" := (dbind m (fun x => k))
  (at level 10, x pattern, m at level 100, k at level 200,
   format "'[v' 'try!'  x  '<-'  m ';' '/' k ']'") : pg_scope.

(** [if (!r.read(x)) return false;] *)
Definition rd {A : Type} (r : reader A) : D A :=
  fun s => match r s.2 with Some (a, l) => (Ret (Some a), (s.1, l)) | None => (Ret None, s) end.
(** [if (bad) return false;] *)
Definition reject_if (b : bool) : D () := if b then dfail else dret tt.
(** A constructor that can throw. *)
Definition construct {A : Type} (o : outcome A) : D A := do! a <- slift o; dret a.
(** A step of the governor. *)
Definition on_governor {A : Type} (m : M t A) : D A :=
  do! a <- zoom fst (fun g s => (g, s.2)) m; dret a.

(** [for (i = 0; i < n; ++i)] *)
Fixpoint repeat_n (n : nat) (body : D ()) : D () :=
  match n with O => dret tt | S n => try! _ <- body; repeat_n n body end.

Definition get_f64 : reader double := get_f32.
Definition read_cap : D (option Watts) :=
  try! b <- rd get_bool;
  if (b : bool) then try! v <- rd get_f64; try! w <- construct (quantity v); dret (Some w) else dret None.

Definition negative (v : double) : bool := (v <? 0)%float.

(** One budget of the loop: read, checked, constructed, installed. *)
Definition read_budget : D () :=
  try! bid <- rd get_u64; try! bgen <- rd get_u64; try! dom <- rd get_u64; try! parent <- rd get_u64;
  try! name <- rd get_str;
  try! hmax <- rd get_f64; try! soft <- rd get_f64; try! reserve <- rd get_f64; try! burst <- rd get_f64;
  try! bw <- rd get_i64; try! rec <- rd get_i64; try! pri <- rd get_i32; try! auth <- rd get_bool;
  try! _ <- reject_if (negative hmax || negative soft || negative reserve || negative burst);
  try! hmax <- construct (quantity hmax); try! soft <- construct (quantity soft);
  try! reserve <- construct (quantity reserve); try! burst <- construct (quantity burst);
  try! bw <- construct (duration bw); try! rec <- construct (duration rec);
  let b := PowerBudget.mk (mkId bid) (mkGen bgen) (mkId dom) gen_null (Some (mkId parent)) name hmax soft reserve burst
             bw rec pri auth in
  try! ok <- on_governor (fun g => let '(ok, m) := BudgetManager.install (budgets g) b in (Ret ok, set_budgets m g));
  reject_if (negb ok).

(** *** The hierarchy *)
Definition find_budget (l : list PowerBudget.t) (id : BudgetId) : option PowerBudget.t :=
  head (filter (fun c => PowerBudget.id c = id) l).

(** The walk from a budget's parent; the guard counts the parents followed and fails
    at the 257th. *)
Fixpoint hierarchy_loop (l : list PowerBudget.t) (self : BudgetId) (fuel : nat) (cur : option BudgetId) : bool :=
  match cur with
  | Some c =>
      if is_valid c then
        if id_eqb c self then false
        else match find_budget l c with
             | None => true
             | Some b => match fuel with O => false | S fuel => hierarchy_loop l self fuel (PowerBudget.parent b) end
             end
      else true
  | None => true
  end.
Definition hierarchy_guard : nat := 256.

Definition parent_exists (m : BudgetManager.t) (b : PowerBudget.t) : bool :=
  match PowerBudget.parent b with Some p => negb (is_valid p) || BudgetManager.has m p | None => true end.

Definition validate_budget_hierarchy (m : BudgetManager.t) : bool :=
  forallb (parent_exists m) (BudgetManager.snapshots m) &&
  forallb (fun b => hierarchy_loop (BudgetManager.snapshots m) (PowerBudget.id b) hierarchy_guard (PowerBudget.parent b))
    (BudgetManager.snapshots m).

(** One reservation of the loop: restored, indexed, and its power claimed again. *)
Definition reclaims (r : Reservation.t) : bool :=
  (bool_decide (Reservation.state r = RESERVED) || bool_decide (Reservation.state r = ACTIVE)
   || bool_decide (Reservation.state r = ADMITTED)) && is_positive (Reservation.reserved_power r).

Definition restore_reservation (r : Reservation.t) : D () :=
  try! ok <- on_governor (fun g => let '(ok, s) := ReservationManager.restore r (rm g) in (Ret ok, set_rm s g));
  try! _ <- reject_if (negb ok);
  on_governor (smodify (fun g =>
    let g := set_index (ReservationIndex.add (res_index g) (Reservation.id r) (Reservation.budget r)
                          (Reservation.workload r) (Reservation.state r)) g in
    if reclaims r && BudgetManager.has (budgets g) (Reservation.budget r)
    then set_budgets (BudgetManager.reserve (budgets g) (Reservation.budget r) (Reservation.reserved_power r)
                        (Reservation.id r) (Reservation.budget_generation r)).2 g
    else g)).

(** [static_cast]s of values the checks admit. *)
Definition class_cast (z : Z) : WorkloadPowerClass := default THROUGHPUT (class_of_int z).
Definition state_cast (z : Z) : ReservationState := default PLANNED (reservation_state_of_int z).

Definition read_reservation : D () :=
  try! rid <- rd get_u64; try! bid <- rd get_u64; try! wl <- rd get_u64; try! cls <- rd get_u8;
  try! power <- rd get_f64; try! energy <- rd get_f64;
  try! rpol <- rd get_u64; try! rdev <- rd get_u64; try! rbg <- rd get_u64;
  try! repoch <- rd get_u64; try! rboot <- rd get_u64;
  try! created <- rd get_i64; try! validity <- rd get_i64; try! state <- rd get_u8;
  try! reserved <- rd get_f64; try! energy_used <- rd get_f64;
  try! _ <- reject_if ((7 <? cls) || (6 <? state));
  try! _ <- reject_if (negb (isfinite power) || negb (isfinite energy) || negative power
                       || negb (isfinite reserved) || negative reserved
                       || negb (isfinite energy_used) || negative energy_used);
  try! power <- construct (quantity power); try! energy <- construct (quantity energy);
  try! validity <- construct (duration validity);
  try! reserved <- construct (quantity reserved); try! energy_used <- construct (quantity energy_used);
  restore_reservation
    (Reservation.mk (mkId rid) gen_null (mkId wl) invalid_id (class_cast cls) invalid_id (mkId bid) power energy
       (mkGen rpol) (mkGen rdev) (mkGen rbg)
       (Authority.mkEnvelope (mkGen repoch) (mkId rboot) gen_null gen_null gen_null gen_null gen_null gen_null)
       (mkTime created) validity (state_cast state) reserved energy_used never never).

Definition read_meter (clock : Timestamp) : D () :=
  try! wl <- rd get_u64; try! en <- rd get_f64;
  try! _ <- reject_if (negative en || negb (isfinite en));
  try! _ <- on_governor (smodify (fun g =>
    set_meters (<[mkId wl := EnergyMeter.init]> (workload_meter g)) (total_meter g) g));
  try! j <- construct (quantity en);
  try! m <- construct (EnergyMeter.add EnergyMeter.init j DERIVED clock);
  on_governor (smodify (fun g => set_meters (<[mkId wl := m]> (workload_meter g)) (total_meter g) g)).

(** A counted section: at most [100000] entries. *)
Definition section (body : D ()) : D () :=
  try! n <- rd get_u32; try! _ <- reject_if (100000 <? n); repeat_n (Z.to_nat n) body.

Definition with_caps (nm : string) (x : PolicyGeneration) (f n d s : option Watts) (p : PowerPolicy.t) : PowerPolicy.t :=
  PowerPolicy.mk (PowerPolicy.id p) x nm f n d s (PowerPolicy.energy_window p) (PowerPolicy.burst_limits p)
    (PowerPolicy.thermal_thresholds p) (PowerPolicy.default_priority p) (PowerPolicy.min_reserve_fraction p)
    (PowerPolicy.oversubscription p) (PowerPolicy.degraded_mode p) (PowerPolicy.hardware_controls p)
    (PowerPolicy.observation_freshness p) (PowerPolicy.observation_stale p) (PowerPolicy.observation_expired p)
    (PowerPolicy.min_stable_duration p) (PowerPolicy.decision_hysteresis p) (PowerPolicy.recovery_threshold p)
    (PowerPolicy.class_rules p).

(** The default argument of [defaults] takes an identifier, the assignment another. *)
Definition fresh_policy_id : M t PolicyId :=
  fun g =>
    let '(_, next) := allocate (Tag := PolicyIdTag) (next_policy g) in
    let '(pid, next) := allocate next in
    (Ret pid, set_counters next (next_observation g) g).

Definition at_end_of_blob : D () := rd (at_end tt).

Definition decode_body (clock : Timestamp) : D () :=
  try! epoch <- rd get_u64; try! boot <- rd get_u64; try! node <- rd get_u64; try! polgen <- rd get_u64;
  try! polname <- rd get_str;
  try! _ <- on_governor (smodify (fun g =>
    set_cfg (mkConfig (cfg_id (cfg g)) (mkId node) (cfg_boot (cfg g)) (cfg_epoch (cfg g)))
      (set_authority (AuthorityGate.set_boot (mkId boot) (AuthorityGate.reset_epoch (mkGen epoch) (authority g))) g)));
  try! pid <- on_governor fresh_policy_id;
  try! fleet <- read_cap; try! nodecap <- read_cap; try! dev <- read_cap; try! soft <- read_cap;
  let p := with_caps polname (mkGen polgen) fleet nodecap dev soft (PowerPolicy.defaults pid "default") in
  try! _ <- on_governor (smodify (fun g =>
    set_authority (AuthorityGate.set_policy (PowerPolicy.generation p) (authority g)) (set_policy p g)));
  try! _ <- section read_budget;
  try! valid <- on_governor (fun g => (Ret (validate_budget_hierarchy (budgets g)), g));
  try! _ <- reject_if (negb valid);
  try! _ <- section read_reservation;
  try! _ <- section (read_meter clock);
  try! _ <- at_end_of_blob;
  on_governor (smodify invalidate_live_telemetry_locked).

Definition decode_state (clock : Timestamp) (blob : list Z) : M t bool :=
  fun g => let '(o, s) := decode_body clock (g, blob) in
           (let! r := o in Ret (match r with Some _ => true | None => false end), s.1).

(** ** Saving and loading *)

(** [save] takes the lock twice: to read the state, which is then written with the lock
    released, and to record a write that succeeded. *)
Definition save_file (env : io) (path : string) (fs : files) (g : t) : outcome (bool * list files) :=
  let! blob := encode_state g in
  let! bytes := encode_envelope (Persistence.mkEnvelope PERSIST_SCHEMA blob) in
  let '(states, ok, _) := persist_write env path bytes fs in
  Ret (ok, states).
Definition save_recorded (clock : Timestamp) (path : string) : M t unit := log RECOVERED ("state saved to " +:+ path) clock.

Definition save (clock : Timestamp) (env : io) (path : string) (fs : files) : M t (bool * list files) :=
  do! g <- sget;
  do! r <- slift (save_file env path fs g);
  if r.1 then do! _ <- save_recorded clock path; sret r else sret r.

Definition load (clock : Timestamp) (path : string) (fs : files) : M t bool :=
  match persist_read path fs with
  | None => sret false
  | Some bytes =>
      match decode_envelope bytes with
      | envelope_error _ => sret false
      | envelope_ok e =>
          do! ok <- decode_state clock (blob e);
          if (ok : bool) then do! _ <- log RECOVERED ("state recovered from " +:+ path) clock; sret true
          else sret false
      end
  end.

Definition state_digest (g : t) : outcome string :=
  let! b := encode_state g in Ret (digest_hex (string_of_bytes b)).
