(* ===== verification/GovernorLoad.v ===== *)
(** * Properties of the recovery of a governor from a file

    Whatever a file that passes the checks of the envelope holds, a governor that
    loads it has budgets that form a forest, none of them overcommitted, and no
    telemetry it would decide on.  The proofs go through [decode_state] with triples
    on its steps: what holds of the governor before a step that reads successfully,
    and after it. *)
From S2P Require Import Prelude Binary64 Util Units Ids Clock Budget BudgetSpec Authority WorkloadClass.
From S2P Require Import Thermal Policy Energy Reservation ReservationSpec Index Crc Wire Persistence Governor.
From S2P Require Import GovernorSpec GovernorState.
Local Open Scope Z_scope.
#[local] Set Warnings "-inexact-float".
Import Governor.

(** ** The walk up the parents *)
Fixpoint nth_ancestor (look : BudgetId -> option (option BudgetId)) (k : nat) (cur : option BudgetId) : option BudgetId :=
  match cur with
  | Some c =>
      if is_valid c then
        match k with
        | O => Some c
        | S k => match look c with Some p => nth_ancestor look k p | None => None end
        end
      else None
  | None => None
  end.

Lemma chain_loop_nth (look : BudgetId -> option (option BudgetId)) (fuel k : nat) (cur : option BudgetId) :
  (k < fuel)%nat -> chain_loop look fuel cur !! k = nth_ancestor look k cur.
Proof.
  revert fuel cur. induction k as [|k IH]; intros [|fuel] cur Hk; try lia; destruct cur as [c|]; cbn; try reflexivity;
    destruct (is_valid c); cbn; try reflexivity.
  destruct (look c) as [p|]; [apply IH; lia|reflexivity].
Qed.

Lemma nth_ancestor_add (look : BudgetId -> option (option BudgetId)) (i k : nat) (cur : option BudgetId) (c : BudgetId) :
  nth_ancestor look i cur = Some c ->
  nth_ancestor look (i + S k) cur = match look c with Some p => nth_ancestor look k p | None => None end.
Proof.
  revert cur. induction i as [|i IH]; intros [b|]; cbn; try discriminate; destruct (is_valid b); try discriminate.
  - intros [= ->]. reflexivity.
  - destruct (look b) as [p|]; [apply IH|discriminate].
Qed.

(** Every budget is installed under its own identity. *)
Definition keyed (m : BudgetManager.t) : Prop :=
  forall b st, m !! b = Some st -> PowerBudget.id (BudgetManager.cfg st) = b.

Lemma snapshots_lookup (m : BudgetManager.t) (c : PowerBudget.t) :
  c ∈ BudgetManager.snapshots m <-> exists b st, m !! b = Some st /\ c = BudgetManager.cfg st.
Proof.
  unfold BudgetManager.snapshots. rewrite list_elem_of_fmap. split.
  - intros ([b st] & -> & Hin). apply elem_of_map_to_list in Hin. eauto.
  - intros (b & st & E & ->). exists (b, st). split; [reflexivity|]. apply elem_of_map_to_list, E.
Qed.

Lemma find_budget_snapshots (m : BudgetManager.t) (id : BudgetId) : keyed m ->
  find_budget (BudgetManager.snapshots m) id = BudgetManager.cfg <$> m !! id.
Proof.
  intros Hk. unfold find_budget. destruct (filter _ _) as [|c l] eqn:E; cbn [head].
  - destruct (m !! id) as [st|] eqn:Es; [exfalso|reflexivity].
    assert (Hin : BudgetManager.cfg st ∈ filter (fun c => PowerBudget.id c = id) (BudgetManager.snapshots m)).
    { apply list_elem_of_filter. split; [exact (Hk _ _ Es)|]. apply snapshots_lookup. eauto. }
    rewrite E in Hin. inversion Hin.
  - assert (Hin : c ∈ filter (fun c => PowerBudget.id c = id) (BudgetManager.snapshots m)) by (rewrite E; left).
    apply list_elem_of_filter in Hin as [Hid Hin]. apply snapshots_lookup in Hin as (b & st & Es & ->).
    rewrite (Hk _ _ Es) in Hid. subst b. rewrite Es. reflexivity.
Qed.

Lemma hierarchy_loop_clean (m : BudgetManager.t) (self : BudgetId) (fuel k : nat) (cur : option BudgetId) : keyed m ->
  hierarchy_loop (BudgetManager.snapshots m) self fuel cur = true -> (k <= fuel)%nat ->
  nth_ancestor (BudgetManager.parent_of m) k cur <> Some self.
Proof.
  intros Hm. assert (Hself : forall c, id_eqb c self = false -> Some c <> Some self).
  { intros c Ec [= ->]. rewrite (proj2 (id_eqb_eq self self) eq_refl) in Ec. discriminate. }
  revert k cur. induction fuel as [|fuel IH]; intros k [c|] H Hk; try (destruct k; discriminate);
    cbn [hierarchy_loop] in H; destruct (is_valid c) eqn:Ev; try (destruct k; cbn; rewrite Ev; discriminate);
    destruct (id_eqb c self) eqn:Ec; try discriminate.
  - replace k with 0%nat by lia. cbn. rewrite Ev. auto.
  - destruct k as [|k]; cbn; rewrite Ev; [auto|].
    rewrite find_budget_snapshots in H by assumption. unfold BudgetManager.parent_of at 1.
    destruct (m !! c) as [st|]; cbn in H |- *; [apply IH; [exact H|lia]|discriminate].
Qed.

(** What the budgets of a loaded governor satisfy: they form a forest whose parents are
    installed. *)
Definition forest (m : BudgetManager.t) : Prop :=
  BudgetFacts.acyclic m /\
  forall b st p, m !! b = Some st -> PowerBudget.parent (BudgetManager.cfg st) = Some p -> is_valid p = true ->
    BudgetManager.has m p = true.

Lemma validated_forest (m : BudgetManager.t) : keyed m -> validate_budget_hierarchy m = true -> forest m.
Proof.
  intros Hk Hv. unfold validate_budget_hierarchy in Hv. apply andb_prop in Hv as [Hp Hl].
  rewrite forallb_forall in Hp, Hl.
  assert (Hsnap : forall b st, m !! b = Some st -> List.In (BudgetManager.cfg st) (BudgetManager.snapshots m)).
  { intros b st E. apply list_elem_of_In, snapshots_lookup. eauto. }
  split.
  - intros id. apply NoDup_alt. intros i j x.
    enough (Hlt : forall i j, (i < j)%nat -> BudgetManager.chain m id !! i = Some x ->
                    BudgetManager.chain m id !! j = Some x -> False).
    { intros Hi Hj. destruct (Nat.lt_trichotomy i j) as [H|[H|H]]; [|exact H|]; exfalso; eauto. }
    clear i j. intros i j Hij Hi Hj.
    assert (Hj65 : (j < 65)%nat).
    { apply lookup_lt_Some in Hj. pose proof (walk_truncated m id). lia. }
    unfold BudgetManager.chain in Hi, Hj. rewrite chain_loop_nth in Hi, Hj by (unfold chain_limit; lia).
    replace j with (i + S (j - i - 1))%nat in Hj by lia. rewrite (nth_ancestor_add _ _ _ _ _ Hi) in Hj.
    unfold BudgetManager.parent_of at 1 in Hj. destruct (m !! x) as [st|] eqn:E; cbn in Hj; [|discriminate].
    specialize (Hl _ (Hsnap _ _ E)). cbn beta in Hl. rewrite (Hk _ _ E) in Hl.
    exact (hierarchy_loop_clean m x hierarchy_guard (j - i - 1) _ Hk Hl ltac:(unfold hierarchy_guard; lia) Hj).
  - intros b st p E Ep Hvp. specialize (Hp _ (Hsnap _ _ E)). unfold parent_exists in Hp. rewrite Ep, Hvp in Hp. exact Hp.
Qed.

(** ** Triples on the steps of [decode_state]

    A step that reads successfully takes a governor that satisfies [P], and bytes, to
    a governor that satisfies [Q] with the value read, and bytes. *)
Definition triple {A : Type} (P : t -> Prop) (m : D A) (Q : A -> t -> Prop) : Prop :=
  forall g l a s, P g -> Forall (in_u 8) l -> m (g, l) = (Ret (Some a), s) -> Q a s.1 /\ Forall (in_u 8) s.2.

Section Triples.
Context (P : t -> Prop).

Lemma triple_bind {A C : Type} (m : D A) (k : A -> D C) (R : A -> t -> Prop) (Q : C -> t -> Prop) :
  triple P m R -> (forall a, triple (R a) (k a) Q) -> triple P (dbind m k) Q.
Proof.
  intros Hm Hk g l c s Hg Hl H. unfold dbind in H. apply sbind_Ret in H as ([a|] & [g1 l1] & E & H); [|discriminate].
  destruct (Hm _ _ _ _ Hg Hl E). eapply Hk; eauto.
Qed.

Lemma triple_ret {A : Type} (a : A) (Q : A -> t -> Prop) : (forall g, P g -> Q a g) -> triple P (dret a) Q.
Proof. intros H g l b s Hg Hl [= <- <-]. auto. Qed.

Lemma triple_weaken {A : Type} (m : D A) (R Q : A -> t -> Prop) :
  triple P m R -> (forall a g, R a g -> Q a g) -> triple P m Q.
Proof. intros Hm H g l a s Hg Hl E. destruct (Hm _ _ _ _ Hg Hl E). auto. Qed.

Lemma triple_on_governor {A : Type} (m : M t A) (Q : A -> t -> Prop) :
  (forall g a g', P g -> m g = (Ret a, g') -> Q a g') -> triple P (on_governor m) Q.
Proof.
  intros Hm g l a s Hg Hl H. unfold on_governor in H. apply sbind_Ret in H as (b & s1 & E & [= -> ->]).
  unfold zoom in E. cbn [fst snd] in E. destruct (m g) as [o g1] eqn:Em. injection E as -> <-. cbn. eauto.
Qed.

(** Steps that read, check or construct leave the governor alone. *)
Lemma triple_rd {A C : Type} (r : reader A) (F : A -> Prop) (k : A -> D C) (Q : C -> t -> Prop) :
  yields r F -> (forall a, F a -> triple P (k a) Q) -> triple P (dbind (rd r) k) Q.
Proof.
  intros Hr Hk. apply (triple_bind _ _ (fun a g => F a /\ P g)); [|intros a g l b s [Ha Hg]; apply Hk; assumption].
  intros g l a s Hg Hl. unfold rd. cbn [fst snd]. destruct (r l) as [[x l']|] eqn:E; [|discriminate].
  intros [= <- <-]. destruct (Hr _ _ _ Hl E). auto.
Qed.

Lemma triple_construct {A C : Type} (o : outcome A) (k : A -> D C) (Q : C -> t -> Prop) :
  (forall a, o = Ret a -> triple P (k a) Q) -> triple P (dbind (construct o) k) Q.
Proof.
  intros Hk. apply (triple_bind _ _ (fun a g => o = Ret a /\ P g)); [|intros a g l b s [Ha Hg]; apply (Hk a); assumption].
  intros g l a s Hg Hl. unfold construct, sbind, slift. destruct o as [x|e| |]; try discriminate.
  intros [= <- <-]. auto.
Qed.

Lemma triple_reject {C : Type} (b : bool) (k : () -> D C) (Q : C -> t -> Prop) :
  (b = false -> triple P (k tt) Q) -> triple P (dbind (reject_if b) k) Q.
Proof.
  intros Hk. apply (triple_bind _ _ (fun _ g => b = false /\ P g)); [|intros [] g l c s [Hb Hg]; apply (Hk Hb); assumption].
  intros g l a s Hg Hl. unfold reject_if. destruct b; [discriminate|]. intros [= <- <-]. auto.
Qed.

Lemma triple_repeat (n : nat) (body : D ()) : triple P body (fun _ => P) -> triple P (repeat_n n body) (fun _ => P).
Proof.
  intros Hb. induction n as [|n IH]; cbn [repeat_n]; [apply triple_ret; auto|].
  apply (triple_bind _ _ _ _ Hb). intros _. exact IH.
Qed.

Lemma triple_section (body : D ()) : triple P body (fun _ => P) -> triple P (section body) (fun _ => P).
Proof.
  intros Hb. unfold section. eapply triple_rd; [apply yields_u32|]. intros n _. apply triple_reject. intros _.
  apply triple_repeat, Hb.
Qed.
End Triples.

(** One step of a decoder. *)
Ltac decode_step := first
  [ eapply triple_rd;
      [solve [apply yields_u8 | apply yields_u32 | apply yields_u64 | apply yields_i64 | apply yields_i32
              | apply yields_bool | apply yields_str | apply yields_f32]|intros ? ?]
  | apply triple_construct; intros ? ?
  | apply triple_reject; intros ? ].

(** ** The budgets, as they are read *)
Definition fresh_state (b : BudgetId) (st : BudgetManager.State) : Prop :=
  PowerBudget.id (BudgetManager.cfg st) = b /\ BudgetFacts.valid_budget (BudgetManager.cfg st) /\
  BudgetManager.reserved_ st = W0 /\ BudgetManager.used_ st = W0.
Definition fresh_budgets (g : t) : Prop := map_Forall fresh_state (budgets g).

Lemma read_budget_fresh : triple fresh_budgets read_budget (fun _ => fresh_budgets).
Proof.
  unfold read_budget. repeat decode_step.
  eapply triple_bind with (R := fun _ => fresh_budgets); [|intros ok g l [] s Hg Hl E].
  - apply triple_on_governor. intros g ok g' Hg. unfold BudgetManager.install. cbn [PowerBudget.id PowerBudget.generation].
    match goal with |- context [PowerBudget.mk ?i ?x ?d ?pg ?pa ?n ?h ?s ?r ?u ?bw ?rec ?pr ?au] =>
      set (b := PowerBudget.mk i x d pg pa n h s r u bw rec pr au) end.
    assert (Hvb : BudgetFacts.valid_budget b).
    { apply (valid_nonneg (Tag := WattsTag)); [apply nonneg_Watts|]. cbn.
      match goal with H : quantity _ = Ret ?q |- valid_quantity ?q => apply (quantity_valid _ _ H) end. }
    destruct (budgets g !! _) as [st|] eqn:Es; [destruct (gen_leb _ _)|]; intros [= <- <-]; unfold fresh_budgets.
    + exact Hg.
    + apply map_Forall_insert_2; [|exact Hg]. destruct (Hg _ _ Es) as (_ & _ & Hr & Hu). split_and!; auto.
    + apply map_Forall_insert_2; [|exact Hg]. split_and!; auto.
  - unfold reject_if in E. destruct (negb ok); [discriminate|]. injection E as <-. auto.
Qed.

(** ** The budgets, as the reservations claim them again *)
Definition safe_budgets (g : t) : Prop := forest (budgets g) /\ BudgetFacts.manager_ok (budgets g).

Lemma fresh_keyed (g : t) : fresh_budgets g -> keyed (budgets g).
Proof. intros H b st E. apply (H _ _ E). Qed.

Lemma fresh_state_ok (b : BudgetId) (st : BudgetManager.State) : fresh_state b st -> BudgetFacts.state_ok st.
Proof.
  intros (_ & Hv & Hr & Hu). unfold BudgetFacts.state_ok, BudgetFacts.wf_state, BudgetFacts.booked_ok, BudgetFacts.within.
  rewrite Hr, Hu. cbn [value W0]. rewrite val_zero. pose proof val_eps_pos. destruct Hv as [Hf Hv].
  split_and!; try (split; [reflexivity|rewrite ?val_zero; lia]); [split; assumption|lia].
Qed.

Lemma fresh_safe (g : t) : fresh_budgets g -> validate_budget_hierarchy (budgets g) = true -> safe_budgets g.
Proof.
  intros Hf Hv. pose proof (validated_forest _ (fresh_keyed g Hf) Hv) as Hforest. split; [exact Hforest|].
  split; [apply Hforest|]. intros b st E. apply (fresh_state_ok b), (Hf _ _ E).
Qed.

Lemma reserve_forest (m m' : BudgetManager.t) (ok : bool) (id : BudgetId) (a : Watts) (rid : ReservationId) (x : BudgetGeneration) :
  BudgetManager.reserve m id a rid x = (ok, m') -> forest m -> forest m'.
Proof.
  destruct ok; intros E [Hac Hp]; [|apply BudgetFacts.reserve_false in E as ->; split; assumption].
  apply BudgetFacts.reserve_true in E as (_ & _ & _ & ->).
  set (f := BudgetManager.set_reserved _). assert (Hf : BudgetFacts.keeps_cfg f) by apply BudgetFacts.set_reserved_keeps.
  set (l := BudgetManager.chain m id). split.
  - intros b. rewrite BudgetFacts.chain_update_chain by assumption. apply Hac.
  - intros b st p E Ep Hv. pose proof (BudgetFacts.update_chain_parent_of f l m b Hf) as Hb.
    pose proof (BudgetFacts.update_chain_parent_of f l m p Hf) as Hpp. unfold BudgetManager.parent_of in Hb, Hpp.
    rewrite E in Hb. destruct (m !! b) as [st0|] eqn:E0; [|discriminate]. cbn in Hb. injection Hb as Hb.
    rewrite Hb in Ep. specialize (Hp _ _ _ E0 Ep Hv). unfold BudgetManager.has in *.
    apply bool_decide_eq_true in Hp as [st1 E1]. rewrite E1 in Hpp. apply bool_decide_eq_true.
    destruct (BudgetManager.update_chain f l m !! p); [eauto|discriminate].
Qed.

Lemma restore_safe (r : Reservation.t) : BudgetFacts.real_amount (Reservation.reserved_power r) ->
  triple safe_budgets (restore_reservation r) (fun _ => safe_budgets).
Proof.
  intros Hr. unfold restore_reservation. eapply triple_bind with (R := fun _ => safe_budgets).
  - apply triple_on_governor. intros g ok g' Hg. unfold ReservationManager.restore.
    destruct (ReservationManager.map_ (rm g) !! _); intros [= <- <-]; exact Hg.
  - intros ok. apply triple_reject. intros _. apply triple_on_governor. intros g [] g' [Hf Hok]. unfold smodify.
    intros [= <-]. destruct (_ && _); [|split; assumption].
    match goal with |- context [BudgetManager.reserve ?m ?i ?a ?x ?y] =>
      destruct (BudgetManager.reserve m i a x y) as [ok' m'] eqn:E end.
    cbn in E. split; cbn; [exact (reserve_forest _ _ _ _ _ _ _ E Hf)|]. destruct ok'.
    + apply (BudgetFacts.step_ok _ _ Hok). eapply BudgetFacts.step_reserve; eauto.
    + apply BudgetFacts.reserve_false in E as ->. exact Hok.
Qed.

Lemma read_reservation_safe : triple safe_budgets read_reservation (fun _ => safe_budgets).
Proof.
  unfold read_reservation. repeat decode_step. apply restore_safe. unfold BudgetFacts.real_amount. cbv beta in *. cbn.
  match goal with H : quantity ?v = Ret ?q |- context [val (value ?q)] =>
    destruct (quantity_valid _ _ H) as [Ev Hq]; apply (valid_nonneg (Tag := WattsTag)) in Hq; [|apply nonneg_Watts];
    rewrite Ev in *; match goal with Hz : exists z, in_i64 z /\ v = of_millis z |- _ => destruct Hz as (z & Hz & ->) end
  end.
  apply of_millis_real; assumption.
Qed.

Lemma read_meter_safe (clock : Timestamp) : triple safe_budgets (read_meter clock) (fun _ => safe_budgets).
Proof.
  unfold read_meter. repeat decode_step.
  eapply triple_bind with (R := fun _ => safe_budgets).
  { apply triple_on_governor. intros g [] g' Hg. unfold smodify. intros [= <-]. exact Hg. }
  intros []. repeat decode_step. apply triple_on_governor. intros g [] g' Hg. unfold smodify. intros [= <-]. exact Hg.
Qed.

(** ** The whole of [decode_state] *)

Lemma keeps_budgets (u : t -> t) (P : t -> Prop) : (forall g, P g -> P (u g)) ->
  triple P (on_governor (smodify u)) (fun _ => P).
Proof. intros H. apply triple_on_governor. intros g [] g' Hg. unfold smodify. intros [= <-]. auto. Qed.

Lemma read_cap_triple {C : Type} (P : t -> Prop) (k : option Watts -> D C) (Q : C -> t -> Prop) :
  (forall w, triple P (k w) Q) -> triple P (dbind read_cap k) Q.
Proof.
  intros Hk. apply (triple_bind _ _ _ (fun _ => P)); [|exact Hk]. unfold read_cap. decode_step.
  destruct a; [repeat decode_step|]; apply triple_ret; auto.
Qed.

(** Telemetry that no decision may use. *)
Definition recovered (g : t) : Prop := safe_budgets g /\ forall a d, devices g !! a = Some d -> DeviceState.last_observed d = never.

Lemma decode_body_recovered (clock : Timestamp) :
  triple (fun g => budgets g = ∅) (decode_body clock) (fun _ => recovered).
Proof.
  unfold decode_body. repeat decode_step.
  eapply triple_bind; [apply (keeps_budgets _ (fun g => budgets g = ∅)); auto|]. intros [].
  eapply triple_bind with (R := fun _ g => budgets g = ∅).
  { apply triple_on_governor. intros g pid g' Hg. unfold fresh_policy_id.
    destruct (allocate _) as [x n]. destruct (allocate n) as [y n']. intros [= <- <-]. exact Hg. }
  intros pid. do 4 (apply read_cap_triple; intros ?).
  eapply triple_bind; [apply (keeps_budgets _ (fun g => budgets g = ∅)); auto|]. intros [].
  eapply triple_bind with (R := fun _ => fresh_budgets).
  { intros g l u s Hg. assert (Hf : fresh_budgets g) by (unfold fresh_budgets; rewrite Hg; apply map_Forall_empty).
    revert Hf. apply triple_section, read_budget_fresh. }
  intros _. eapply triple_bind with (R := fun v g => fresh_budgets g /\ v = validate_budget_hierarchy (budgets g)).
  { apply triple_on_governor. intros g v g' Hg [= <- <-]. auto. }
  intros v. apply triple_reject. intros Hv. apply negb_false_iff in Hv.
  eapply triple_bind with (R := fun _ => safe_budgets).
  { intros g l u s [Hg ->] Hl. revert Hl. apply triple_section; [apply read_reservation_safe|]. apply fresh_safe; assumption. }
  intros _. eapply triple_bind with (R := fun _ => safe_budgets); [apply triple_section, read_meter_safe|].
  intros _. unfold at_end_of_blob. eapply triple_rd; [apply (yields_at_end tt (fun _ => True)); exact I|]. intros [] _.
  apply triple_on_governor. intros g [] g' Hg. unfold smodify. intros [= <-]. split; [exact Hg|].
  intros x d. cbn. rewrite lookup_fmap. destruct (devices g !! x); [|discriminate]. intros [= <-]. reflexivity.
Qed.

Lemma decode_state_recovered (clock : Timestamp) (blob : list Z) (g g' : t) :
  Forall (in_u 8) blob -> budgets g = ∅ -> decode_state clock blob g = (Ret true, g') -> recovered g'.
Proof.
  intros Hb Hg. unfold decode_state. destruct (decode_body clock (g, blob)) as [o [g1 l1]] eqn:E. intros [= Ho <-].
  destruct o as [[u|]|e| |]; try discriminate.
  exact (proj1 (decode_body_recovered clock g blob u _ Hg Hb E)).
Qed.

Lemma decoded_blob_range (data : list Z) (e : PersistEnvelope) :
  Forall (in_u 8) data -> decode_envelope data = envelope_ok e -> Forall (in_u 8) (blob e).
Proof.
  intros Hd. unfold decode_envelope. repeat (split_match; try discriminate). intros [= <-]. cbn [blob].
  apply Forall_take, Forall_drop, Hd.
Qed.

(** C3: recovery is safe whatever the file holds.  When [load] succeeds on a governor
    that has no budgets yet, from any file of bytes whatsoever (its checksum can be
    right and its contents crafted), then the budgets it installed form a forest whose
    parents are all installed, the power booked on each, by the reservations claimed
    again, stays within its hard maximum (up to the tolerance of the accounting), and
    no reading it holds can drive a decision before a new one arrives. *)
Theorem load_recovers_safely (clock : Timestamp) (path : string) (fs : files) (g g' : t) :
  budgets g = ∅ -> (forall data, fs !! path = Some data -> Forall (in_u 8) data) ->
  load clock path fs g = (Ret true, g') ->
  forest (budgets g') /\
  (forall b st, budgets g' !! b = Some st ->
     BudgetFacts.within (val (value (PowerBudget.hard_max (BudgetManager.cfg st))))
       (val (value (BudgetManager.reserved_ st)) + val (value (BudgetManager.used_ st)))) /\
  forall now, telemetry_stale g' now.
Proof.
  intros Hg Hfs. unfold load, persist_read. destruct (fs !! path) as [data|] eqn:Ed; [|discriminate].
  destruct (decode_envelope data) as [e|] eqn:Ee; [|discriminate]. intros H.
  apply sbind_Ret in H as (ok & g1 & E1 & H). destruct ok; [|discriminate].
  apply sbind_Ret in H as ([] & g2 & E2 & H). injection H as <-. unfold log, smodify in E2. injection E2 as <-.
  pose proof (decoded_blob_range _ _ (Hfs _ eq_refl) Ee) as Hb.
  destruct (decode_state_recovered clock _ _ _ Hb Hg E1) as [[Hf [_ Hok]] Hd].
  split; [exact Hf|]. split; [intros b st E; apply (Hok b st E)|].
  intros now a d Ea. left. apply device_ptr_lookup in Ea. cbn in Ea. rewrite (Hd _ _ Ea). reflexivity.
Qed.

(** ** Saving and loading a concrete state *)
Definition saving_io : io := mkIo true [] true true true.
Definition file_of (g : t) : files :=
  match (save (mkTime 9) saving_io "state" ∅ g).1 with
  | Ret (_, states) => default ∅ (last states)
  | _ => ∅
  end.
(** Loading into another process that has started with its own allocators. *)
Definition reloaded (g : t) : outcome bool * t := load (mkTime 20) "state" (file_of g) sample_governor.
Definition saved_state : t := history_of sample_events sample_governor.

Lemma file_bytes (fs : files) (path : string) : match fs !! path with Some d => bytesb d | None => true end = true ->
  forall data, fs !! path = Some data -> Forall (in_u 8) data.
Proof. intros H data E. rewrite E in H. apply bytesb_range, H. Qed.

Lemma load_recovers_safely_witness :
  let g' := (reloaded saved_state).2 in
  forest (budgets g') /\
  (forall b st, budgets g' !! b = Some st ->
     BudgetFacts.within (val (value (PowerBudget.hard_max (BudgetManager.cfg st))))
       (val (value (BudgetManager.reserved_ st)) + val (value (BudgetManager.used_ st)))) /\
  forall now, telemetry_stale g' now.
Proof.
  apply (load_recovers_safely (mkTime 20) "state" (file_of saved_state) sample_governor).
  - vm_compute. reflexivity.
  - apply file_bytes. vm_compute. reflexivity.
  - change (load _ _ _ _) with (reloaded saved_state). vm_compute. reflexivity.
Defined.

(** The state that is loaded has the digest of the state that was saved, though the
    usage of its active reservation is not booked again. *)
Lemma reload_forgets_usage :
  state_digest (reloaded saved_state).2 = state_digest saved_state /\
  BudgetManager.used (budgets saved_state) leaf_id = mkQ 20 /\
  BudgetManager.used (budgets (reloaded saved_state).2) leaf_id = mkQ 0 /\
  reservation_state (reloaded saved_state).2 (mkId 1) = reservation_state saved_state (mkId 1).
Proof. vm_compute. split_and!; reflexivity. Qed.

(** The allocator of identifiers starts again at the first one: the first plan after a
    load is refused as a duplicate. *)
Lemma reload_reuses_identifiers :
  (plan_reservation (mkId 9) THROUGHPUT (mkId 1) leaf_id (mkQ 20) J0 gen_first gen_first (mkTime 30) (mkDuration 1000)
     (reloaded saved_state).2).1 = Ret (ReservationManager.mkResult false "duplicate reservation id" (mkId 1)).
Proof. vm_compute. reflexivity. Qed.

(** A load that fails keeps what it had installed: here two budgets, each the parent of
    the other, from a file with a right checksum. *)
Definition crossed (g : t) : t :=
  after (EvInstallBudget (mkTime 2) (watts_budget 2 (Some (mkId 1)) 60))
    (after (EvInstallBudget (mkTime 1) (watts_budget 1 (Some (mkId 2)) 100)) g).

Lemma failed_load_installs_cycle :
  (reloaded (crossed sample_governor)).1 = Ret false /\
  acyclicb (budgets (reloaded (crossed sample_governor)).2) = false.
Proof. vm_compute. split; reflexivity. Qed.

(** Loading replaces the policy by that of the file, whatever its generation: a governor
    at the third generation goes back to the one of a governor that was never given any. *)
Lemma load_rolls_policy_back :
  let g := after (EvInstallPolicy (mkTime 1) sample_policy) sample_governor in
  let g' := (load (mkTime 20) "state" (file_of saved_state) g).2 in
  (load (mkTime 20) "state" (file_of saved_state) g).1 = Ret true /\
  gen_raw (PowerPolicy.generation (policy g)) = 3 /\ gen_raw (PowerPolicy.generation (policy g')) = 0 /\
  AuthorityGate.policy (authority g') = PowerPolicy.generation (policy g').
Proof. vm_compute. split_and!; reflexivity. Qed.

(** A budget whose parent is not installed is saved, and the file is not loaded. *)
Lemma missing_parent_not_loaded :
  let g := after (EvInstallBudget (mkTime 1) node) sample_governor in
  (exists states, (save (mkTime 9) saving_io "state" ∅ g).1 = Ret (true, states)) /\ (reloaded g).1 = Ret false.
Proof. split; [eexists|]; vm_compute; reflexivity. Qed.
