(* ===== verification/GovernorSave.v ===== *)
(** * What a governor saves, another recovers

    The codec of the persisted state read in both directions: the encoding of a state
    whose amounts the format can hold is decoded, by a governor that has nothing
    installed, into the same configuration, policy, budgets, reservations and energies. *)
From stdpp Require Import sorting.
From S2P Require Import Prelude Rounding Binary64 Milli Util Units Ids Clock Budget BudgetSpec Authority WorkloadClass.
From S2P Require Import Thermal Policy Energy Reservation ReservationSpec Index Crc Wire Persistence Governor.
From S2P Require Import GovernorSpec GovernorState GovernorLoad.
Local Open Scope Z_scope.
#[local] Set Warnings "-inexact-float".
Import Governor.

(** ** Amounts the format holds

    An amount is stored as a whole number of thousandths. *)
Definition stored (v : double) : Prop := exists z, in_i64 z /\ truncate (v * 1000)%float = Some z /\ of_millis z = v.

Definition f64_bytes (v : double) : list Z := match put_f64 v with Ret b => b | _ => [] end.

Lemma put_f64_stored (v : double) : stored v -> put_f64 v = Ret (f64_bytes v).
Proof.
  intros (z & Hz & Ht & _). unfold f64_bytes, put_f64, put_f32. rewrite Ht. unfold i64_checked.
  rewrite (proj2 (in_i64b_spec z) Hz). reflexivity.
Qed.

Lemma reads_f64 (v : double) : stored v -> reads (f64_bytes v) get_f64 v.
Proof.
  intros (z & Hz & Ht & Hm) rest. unfold f64_bytes, put_f64, put_f32, get_f64, get_f32. rewrite Ht. unfold i64_checked.
  rewrite (proj2 (in_i64b_spec z) Hz). cbn [obind]. rewrite (reads_bind _ _ _ _ z) by (apply reads_i64, Hz).
  unfold rret. rewrite Hm. reflexivity.
Qed.

Definition cap_bytes (c : option Watts) : list Z :=
  match c with Some w => put_bool true ++ f64_bytes (value w) | None => put_bool false end.
Definition storable_cap (c : option Watts) : Prop :=
  match c with Some w => stored (value w) /\ valid_quantity w | None => True end.

Lemma put_cap_stored (c : option Watts) : storable_cap c -> put_cap c = Ret (cap_bytes c).
Proof. destruct c as [w|]; [|reflexivity]. intros [Hw _]. unfold put_cap. rewrite put_f64_stored by exact Hw. reflexivity. Qed.

Lemma put_bin_str_short (s : string) : short_string s -> put_bin_str s = Ret (str_bytes s).
Proof. intros Hs. unfold put_bin_str. rewrite put_str_short by exact Hs. reflexivity. Qed.

(** ** Decoding steps

    [takes rest m enc a g g']: off the front of the bytes [enc], which [rest] follows,
    the step reads exactly [enc], yields [a], and takes the governor from [g] to [g']. *)
Definition takes {A : Type} (rest : list Z) (m : D A) (enc : list Z) (a : A) (g g' : t) : Prop :=
  m (g, enc ++ rest) = (Ret (Some a), (g', rest)).

Section Steps.
Context (rest : list Z).

Lemma takes_bind {A C : Type} (m : D A) (k : A -> D C) (e1 e2 : list Z) (a : A) (c : C) (g g1 g2 : t) :
  takes (e2 ++ rest) m e1 a g g1 -> takes rest (k a) e2 c g1 g2 -> takes rest (dbind m k) (e1 ++ e2) c g g2.
Proof.
  unfold takes. intros H1 H2. unfold dbind, sbind. rewrite <- app_assoc, H1. exact H2.
Qed.

Lemma takes_bind_nil {A C : Type} (m : D A) (k : A -> D C) (enc : list Z) (a : A) (c : C) (g g1 g2 : t) :
  takes (enc ++ rest) m [] a g g1 -> takes rest (k a) enc c g1 g2 -> takes rest (dbind m k) enc c g g2.
Proof. apply takes_bind. Qed.

Lemma takes_ret {A : Type} (a : A) (g : t) : takes rest (dret a) [] a g g.
Proof. reflexivity. Qed.

Lemma takes_rd {A C : Type} (r : reader A) (k : A -> D C) (e1 e2 : list Z) (a : A) (c : C) (g g' : t) :
  reads e1 r a -> takes rest (k a) e2 c g g' -> takes rest (dbind (rd r) k) (e1 ++ e2) c g g'.
Proof. intros Hr. apply takes_bind. unfold takes, rd. cbn [snd fst]. rewrite Hr. reflexivity. Qed.

Lemma takes_gov {A : Type} (m : M t A) (a : A) (g g' : t) : m g = (Ret a, g') -> takes rest (on_governor m) [] a g g'.
Proof.
  intros H. unfold takes, on_governor, sbind, zoom. cbn [fst app]. rewrite H. reflexivity.
Qed.
End Steps.

Lemma takes_reject {C : Type} (rest : list Z) (b : bool) (k : () -> D C) (enc : list Z) (c : C) (g g' : t) :
  b = false -> takes rest (k tt) enc c g g' -> takes rest (dbind (reject_if b) k) enc c g g'.
Proof. intros ->. apply takes_bind_nil, takes_ret. Qed.

Lemma takes_construct {A C : Type} (rest : list Z) (o : outcome A) (k : A -> D C) (enc : list Z) (a : A) (c : C) (g g' : t) :
  o = Ret a -> takes rest (k a) enc c g g' -> takes rest (dbind (construct o) k) enc c g g'.
Proof. intros ->. apply takes_bind_nil. reflexivity. Qed.

Lemma takes_modify {C : Type} (rest : list Z) (u : t -> t) (k : () -> D C) (enc : list Z) (c : C) (g g' : t) :
  takes rest (k tt) enc c (u g) g' -> takes rest (dbind (on_governor (smodify u)) k) enc c g g'.
Proof. apply takes_bind_nil, takes_gov. reflexivity. Qed.

Lemma takes_run {A : Type} (rest : list Z) (m : D A) (enc : list Z) (a : A) (g g' : t) :
  takes rest m enc a g g' -> m (g, enc ++ rest) = (Ret (Some a), (g', rest)).
Proof. exact id. Qed.

Lemma takes_end (g : t) : takes [] at_end_of_blob [] tt g g.
Proof. reflexivity. Qed.
#[local] Opaque takes.

(** A counted section: the entries are read in order, each from the state its
    predecessors left. *)
Lemma takes_section {X : Type} (rest : list Z) (body : D ()) (enc : X -> list Z) (step : X -> t -> t)
    (I : list X -> t -> Prop) (l : list X) (g : t) :
  (forall rest x l g, I (x :: l) g -> takes rest body (enc x) tt g (step x g) /\ I l (step x g)) ->
  I l g -> Z.of_nat (length l) <= 100000 ->
  takes rest (section body) (put_u32 (Z.of_nat (length l)) ++ concat (enc <$> l)) tt g (fold_left (fun g x => step x g) l g).
Proof.
  intros Hb HI Hn. unfold section. eapply takes_rd; [apply reads_u32; unfold in_u; lia|].
  apply takes_reject; [lia|]. rewrite Nat2Z.id. clear Hn. revert g HI. induction l as [|x l IH]; intros g HI.
  { apply takes_ret. }
  cbn [length repeat_n fmap list_fmap concat fold_left].
  eapply takes_bind; [apply (Hb _ x l g HI)|]. apply IH, (Hb [] x l g HI).
Qed.

Lemma takes_cap (rest : list Z) (c : option Watts) (g : t) : storable_cap c -> takes rest read_cap (cap_bytes c) c g g.
Proof.
  intros Hc. unfold read_cap, cap_bytes. destruct c as [w|]; cbn in Hc.
  - destruct Hc as [Hs Hv]. apply takes_rd with (a := true); [apply reads_bool|]. cbn iota.
    rewrite <- (app_nil_r (f64_bytes _)). eapply takes_rd; [apply reads_f64, Hs|].
    eapply takes_construct; [apply valid_quantity_make, Hv|]. apply takes_ret.
  - rewrite <- (app_nil_r (put_bool false)). apply takes_rd with (a := false); [apply reads_bool|]. apply takes_ret.
Qed.

(** An identifier and a generation are their number. *)
Lemma mkId_raw {Tag : Set} (i : StrongId Tag) : mkId (id_raw i) = i.
Proof. destruct i. reflexivity. Qed.
Lemma mkGen_raw {Tag : Set} (x : Generation Tag) : mkGen (gen_raw x) = x.
Proof. destruct x. reflexivity. Qed.

(** ** A budget *)
Definition parent_raw (b : PowerBudget.t) : Z :=
  match PowerBudget.parent b with Some p => if is_valid p then id_raw p else 0 | None => 0 end.

(** What is left of a budget: the null parent stands for no parent, and the policy it
    came with is forgotten. *)
Definition persisted_budget (b : PowerBudget.t) : PowerBudget.t :=
  PowerBudget.mk (PowerBudget.id b) (PowerBudget.generation b) (PowerBudget.domain b) gen_null (Some (mkId (parent_raw b)))
    (PowerBudget.name b) (PowerBudget.hard_max b) (PowerBudget.soft_target b) (PowerBudget.min_reserve b)
    (PowerBudget.burst_allowance b) (PowerBudget.burst_window b) (PowerBudget.recovery b) (PowerBudget.priority b)
    (PowerBudget.authoritative b).

Definition storable_amount {Tag : Set} `{UnitTraits Tag} (q : Quantity Tag) : Prop := stored (value q) /\ nonneg (value q).

Record storable_budget (b : PowerBudget.t) : Prop := {
  sb_ids : in_u 64 (id_raw (PowerBudget.id b)) /\ in_u 64 (gen_raw (PowerBudget.generation b)) /\
           in_u 64 (id_raw (PowerBudget.domain b)) /\ in_u 64 (parent_raw b);
  sb_name : short_string (PowerBudget.name b);
  sb_hard : storable_amount (PowerBudget.hard_max b);
  sb_soft : storable_amount (PowerBudget.soft_target b);
  sb_reserve : storable_amount (PowerBudget.min_reserve b);
  sb_burst : storable_amount (PowerBudget.burst_allowance b);
  sb_window : valid_duration (PowerBudget.burst_window b);
  sb_recovery : valid_duration (PowerBudget.recovery b);
  sb_priority : in_i32 (PowerBudget.priority b) }.

Definition budget_bytes (b : PowerBudget.t) : list Z :=
  put_u64 (id_raw (PowerBudget.id b)) ++ put_u64 (gen_raw (PowerBudget.generation b)) ++
  put_u64 (id_raw (PowerBudget.domain b)) ++ put_u64 (parent_raw b) ++ str_bytes (PowerBudget.name b) ++
  f64_bytes (value (PowerBudget.hard_max b)) ++ f64_bytes (value (PowerBudget.soft_target b)) ++
  f64_bytes (value (PowerBudget.min_reserve b)) ++ f64_bytes (value (PowerBudget.burst_allowance b)) ++
  put_i64 (ns (PowerBudget.burst_window b)) ++ put_i64 (ns (PowerBudget.recovery b)) ++
  put_i32 (PowerBudget.priority b) ++ put_bool (PowerBudget.authoritative b) ++ [].

(** Put an encoding in the form the steps of the decoder take it in. *)
Ltac flatten_encoding :=
  repeat (first [ rewrite put_f64_stored by assumption | rewrite put_bin_str_short by assumption ]; cbn [obind]).

Lemma encode_budget_bytes (b : PowerBudget.t) : storable_budget b -> encode_budget b = Ret (budget_bytes b).
Proof.
  intros [? ? [? _] [? _] [? _] [? _] ? ? ?]. unfold encode_budget, budget_bytes, concat_outcomes. fold (parent_raw b).
  flatten_encoding. rewrite <- !app_assoc. reflexivity.
Qed.

Lemma amount_watts (q : Watts) : storable_amount q -> quantity (value q) = Ret q.
Proof. intros [_ Hn]. apply valid_quantity_make, valid_nonneg; [apply nonneg_Watts|exact Hn]. Qed.

Lemma amount_joules (q : Joules) : storable_amount q -> quantity (value q) = Ret q.
Proof. intros [_ Hn]. apply valid_quantity_make, valid_nonneg; [apply nonneg_Joules|exact Hn]. Qed.

Lemma amount_negative {Tag : Set} `{UnitTraits Tag} (q : Quantity Tag) : storable_amount q -> negative (value q) = false.
Proof. intros [_ Hn]. apply nonneg_fltb, Hn. Qed.

Lemma amount_finite {Tag : Set} `{UnitTraits Tag} (q : Quantity Tag) : storable_amount q -> isfinite (value q) = true.
Proof. intros [_ [Hf _]]. exact Hf. Qed.

Lemma amount_stored {Tag : Set} `{UnitTraits Tag} (q : Quantity Tag) : storable_amount q -> stored (value q).
Proof. intros [Hs _]. exact Hs. Qed.

Lemma valid_duration_i64 (d : Duration) : valid_duration d -> in_i64 (ns d).
Proof. unfold valid_duration, in_i64, kMaxNs. lia. Qed.

Lemma valid_duration_make (d : Duration) : valid_duration d -> duration (ns d) = Ret d.
Proof. intros Hd. rewrite duration_ok by exact Hd. destruct d. reflexivity. Qed.

Create HintDb save.
#[export] Hint Resolve reads_u8 reads_u32 reads_u64 reads_i64 reads_i32 reads_bool reads_str reads_f64 amount_stored
  amount_watts amount_joules valid_duration_i64 valid_duration_make : save.

(** One step of the decoder on the encoding it meets. *)
Ltac takes_step := first
  [ eapply takes_rd; [solve [eauto with save]|]
  | eapply takes_construct; [solve [eauto with save]|] ].

Definition installed (b : PowerBudget.t) (g : t) : t :=
  set_budgets (<[PowerBudget.id b := BudgetManager.mkState (persisted_budget b) W0 W0]> (budgets g)) g.

Lemma read_budget_takes (rest : list Z) (b : PowerBudget.t) (g : t) : storable_budget b -> budgets g !! PowerBudget.id b = None ->
  takes rest read_budget (budget_bytes b) tt g (installed b g).
Proof.
  intros [(? & ? & ? & ?) ? ? ? ? ? ? ? ?] Hg. unfold read_budget, budget_bytes. repeat takes_step.
  apply takes_reject; [rewrite !amount_negative by assumption; reflexivity|]. repeat takes_step.
  eapply takes_bind_nil; [apply takes_gov|].
  - unfold BudgetManager.install. cbn [PowerBudget.id]. rewrite !mkId_raw, Hg. reflexivity.
  - rewrite !mkGen_raw. apply takes_ret.
Qed.

(** ** A reservation *)
Definition persisted_reservation (r : Reservation.t) : Reservation.t :=
  Reservation.mk (Reservation.id r) gen_null (Reservation.workload r) invalid_id (Reservation.power_class r) invalid_id
    (Reservation.budget r) (Reservation.requested_power r) (Reservation.requested_energy r) (Reservation.policy_generation r)
    (Reservation.device_generation r) (Reservation.budget_generation r)
    (Authority.mkEnvelope (env_epoch (Reservation.authority r)) (env_boot (Reservation.authority r))
       gen_null gen_null gen_null gen_null gen_null gen_null)
    (Reservation.created r) (Reservation.validity r) (Reservation.state r) (Reservation.reserved_power r)
    (Reservation.energy_used r) never never.

Record storable_reservation (r : Reservation.t) : Prop := {
  sr_valid : is_valid (Reservation.id r) = true;
  sr_ids : in_u 64 (id_raw (Reservation.id r)) /\ in_u 64 (id_raw (Reservation.budget r)) /\
           in_u 64 (id_raw (Reservation.workload r)) /\ in_u 64 (id_raw (env_boot (Reservation.authority r)));
  sr_gens : in_u 64 (gen_raw (Reservation.policy_generation r)) /\ in_u 64 (gen_raw (Reservation.device_generation r)) /\
            in_u 64 (gen_raw (Reservation.budget_generation r)) /\ in_u 64 (gen_raw (env_epoch (Reservation.authority r)));
  sr_power : storable_amount (Reservation.requested_power r);
  sr_energy : storable_amount (Reservation.requested_energy r);
  sr_reserved : storable_amount (Reservation.reserved_power r);
  sr_used : storable_amount (Reservation.energy_used r);
  sr_created : in_i64 (time_ns (Reservation.created r));
  sr_validity : valid_duration (Reservation.validity r) }.

Definition reservation_bytes (r : Reservation.t) : list Z :=
  put_u64 (id_raw (Reservation.id r)) ++ put_u64 (id_raw (Reservation.budget r)) ++ put_u64 (id_raw (Reservation.workload r)) ++
  put_u8 (class_to_int (Reservation.power_class r)) ++
  f64_bytes (value (Reservation.requested_power r)) ++ f64_bytes (value (Reservation.requested_energy r)) ++
  put_u64 (gen_raw (Reservation.policy_generation r)) ++ put_u64 (gen_raw (Reservation.device_generation r)) ++
  put_u64 (gen_raw (Reservation.budget_generation r)) ++ put_u64 (gen_raw (env_epoch (Reservation.authority r))) ++
  put_u64 (id_raw (env_boot (Reservation.authority r))) ++ put_i64 (time_ns (Reservation.created r)) ++
  put_i64 (ns (Reservation.validity r)) ++ put_u8 (reservation_state_to_int (Reservation.state r)) ++
  f64_bytes (value (Reservation.reserved_power r)) ++ f64_bytes (value (Reservation.energy_used r)) ++ [].

Lemma encode_reservation_bytes (r : Reservation.t) : storable_reservation r -> encode_reservation r = Ret (reservation_bytes r).
Proof.
  intros [_ ? ? [? _] [? _] [? _] [? _] ? ?]. unfold encode_reservation, reservation_bytes, concat_outcomes.
  flatten_encoding. rewrite <- !app_assoc. reflexivity.
Qed.

Lemma class_byte (c : WorkloadPowerClass) : in_u 8 (class_to_int c) /\ (7 <? class_to_int c) = false /\ class_cast (class_to_int c) = c.
Proof. destruct c; (split; [split; reflexivity || discriminate|split; reflexivity]). Qed.

Lemma state_byte (s : ReservationState) :
  in_u 8 (reservation_state_to_int s) /\ (6 <? reservation_state_to_int s) = false /\ state_cast (reservation_state_to_int s) = s.
Proof. destruct s; (split; [split; reflexivity || discriminate|split; reflexivity]). Qed.

Lemma reads_class (c : WorkloadPowerClass) : reads (put_u8 (class_to_int c)) get_u8 (class_to_int c).
Proof. apply reads_u8, class_byte. Qed.
Lemma reads_state (s : ReservationState) : reads (put_u8 (reservation_state_to_int s)) get_u8 (reservation_state_to_int s).
Proof. apply reads_u8, state_byte. Qed.
#[export] Hint Resolve reads_class reads_state : save.

(** The effect of one reservation that is restored. *)
Definition reindexed (r : Reservation.t) (g : t) : t :=
  let g := set_index (ReservationIndex.add (res_index g) (Reservation.id r) (Reservation.budget r)
                        (Reservation.workload r) (Reservation.state r)) g in
  if reclaims r && BudgetManager.has (budgets g) (Reservation.budget r)
  then set_budgets (BudgetManager.reserve (budgets g) (Reservation.budget r) (Reservation.reserved_power r)
                      (Reservation.id r) (Reservation.budget_generation r)).2 g
  else g.

Definition restored (r : Reservation.t) (g : t) : t :=
  reindexed r (set_rm (ReservationManager.set_map
    (<[Reservation.id r := persisted_reservation r]> (ReservationManager.map_ (rm g))) (rm g)) g).

Lemma read_reservation_takes (rest : list Z) (r : Reservation.t) (g : t) : storable_reservation r ->
  ReservationManager.map_ (rm g) !! Reservation.id r = None ->
  takes rest read_reservation (reservation_bytes r) tt g (restored r g).
Proof.
  intros [_ (? & ? & ? & ?) (? & ? & ? & ?) ? ? ? ? ? ?] Hg. unfold read_reservation, reservation_bytes. repeat takes_step.
  destruct (class_byte (Reservation.power_class r)) as (_ & Hc & Ec).
  destruct (state_byte (Reservation.state r)) as (_ & Hs & Es).
  apply takes_reject; [rewrite Hc, Hs; reflexivity|].
  apply takes_reject; [rewrite !amount_finite, !amount_negative by assumption; reflexivity|]. repeat takes_step.
  rewrite !mkId_raw, !mkGen_raw, Ec, Es.
  replace (mkTime (time_ns (Reservation.created r))) with (Reservation.created r) by (destruct (Reservation.created r); reflexivity).
  unfold restore_reservation. cbn [Reservation.id Reservation.budget Reservation.workload Reservation.state].
  eapply takes_bind_nil; [apply takes_gov|].
  { unfold ReservationManager.restore. cbn [Reservation.id]. rewrite Hg. reflexivity. }
  apply takes_reject; [reflexivity|]. apply takes_gov. reflexivity.
Qed.

(** ** The energy of a workload *)
Definition meter_bytes (p : WorkloadId * EnergyMeter.t) : list Z :=
  put_u64 (id_raw p.1) ++ f64_bytes (value (EnergyMeter.total p.2)) ++ [].

Definition storable_meter (p : WorkloadId * EnergyMeter.t) : Prop :=
  in_u 64 (id_raw p.1) /\ storable_amount (EnergyMeter.total p.2).

Lemma encode_meter_bytes (p : WorkloadId * EnergyMeter.t) : storable_meter p -> encode_meter p = Ret (meter_bytes p).
Proof.
  intros [_ [? _]]. unfold encode_meter, meter_bytes. flatten_encoding. rewrite app_nil_r. reflexivity.
Qed.

(** All of the energy comes back as derived. *)
Definition recovered_meter (clock : Timestamp) (m : EnergyMeter.t) : EnergyMeter.t :=
  EnergyMeter.mk (EnergyMeter.total m) [J0; J0; EnergyMeter.total m; J0; J0] clock 1.

Definition metered (clock : Timestamp) (p : WorkloadId * EnergyMeter.t) (g : t) : t :=
  set_meters (<[p.1 := recovered_meter clock p.2]> (workload_meter g)) (total_meter g) g.


Lemma zero_plus_stored (v : double) : stored v -> nonneg v -> (0 + v)%float = v.
Proof.
  intros (z & _ & Ht & Hm) [Hf _]. apply Prim2SF_inj. rewrite add_spec. change (Prim2SF 0) with (S754_zero false).
  rewrite isfinite_sf in Hf. unfold SF64add, SFadd. destruct (Prim2SF v) as [s|s| |s m e] eqn:E; try discriminate; [|reflexivity].
  destruct s; [exfalso|reflexivity]. assert (Ez : truncate (v * 1000) = Some 0).
  { unfold truncate. rewrite mul_spec, E. reflexivity. }
  assert (z = 0) as -> by congruence. rewrite <- Hm in E. vm_compute in E. discriminate.
Qed.

Lemma stored_joules_add (j : Joules) : storable_amount j -> clamped (0 + value j) = j.
Proof.
  intros [Hs Hn]. unfold clamped. rewrite zero_plus_stored, clamp_id by assumption. destruct j. reflexivity.
Qed.

Lemma read_meter_takes (rest : list Z) (clock : Timestamp) (p : WorkloadId * EnergyMeter.t) (g : t) : storable_meter p ->
  takes rest (read_meter clock) (meter_bytes p) tt g (metered clock p g).
Proof.
  destruct p as [w m]. intros [? Hs]. cbn [fst snd] in *. unfold read_meter, meter_bytes. cbn [fst snd]. repeat takes_step.
  apply takes_reject; [rewrite amount_negative, amount_finite by assumption; reflexivity|].
  apply takes_modify. repeat takes_step. eapply takes_construct.
  { unfold EnergyMeter.add. pose proof (amount_negative _ Hs) as Hneg. unfold negative in Hneg.
    rewrite Hneg, (amount_finite _ Hs). reflexivity. }
  apply takes_gov. unfold smodify, metered, recovered_meter. cbn [fst snd]. rewrite mkId_raw.
  cbn [EnergyMeter.init EnergyMeter.total EnergyMeter.by_provenance EnergyMeter.samples value J0 provenance_index alter list_alter replicate].
  rewrite (stored_joules_add _ Hs). unfold set_meters. cbn. rewrite insert_insert_eq. reflexivity.
Qed.

(** ** The hierarchy *)
Definition fresh_of (st : BudgetManager.State) : BudgetManager.State :=
  BudgetManager.mkState (persisted_budget (BudgetManager.cfg st)) W0 W0.

Lemma persisted_parent (b : PowerBudget.t) :
  (exists p, PowerBudget.parent b = Some p /\ is_valid p = true /\ PowerBudget.parent (persisted_budget b) = Some p) \/
  ((forall p, PowerBudget.parent b = Some p -> is_valid p = false) /\ PowerBudget.parent (persisted_budget b) = Some (mkId 0)).
Proof.
  unfold persisted_budget, parent_raw. cbn [PowerBudget.parent]. destruct (PowerBudget.parent b) as [p|].
  - destruct (is_valid p) eqn:E; [left; exists p; rewrite mkId_raw; auto|right; split; [congruence|reflexivity]].
  - right. split; [discriminate|reflexivity].
Qed.

Lemma keyed_fresh (m : BudgetManager.t) : keyed m -> keyed (fresh_of <$> m).
Proof.
  intros Hk b st. rewrite lookup_fmap. destruct (m !! b) as [st0|] eqn:E; [|discriminate]. intros [= <-]. apply (Hk _ _ E).
Qed.

Lemma hierarchy_loop_fresh (m : BudgetManager.t) (self : BudgetId) (fuel : nat) (cur : option BudgetId) : keyed m ->
  hierarchy_loop (BudgetManager.snapshots (fresh_of <$> m)) self fuel cur = hierarchy_loop (BudgetManager.snapshots m) self fuel cur.
Proof.
  intros Hk. revert cur. induction fuel as [|fuel IH]; intros [c|]; try reflexivity; cbn [hierarchy_loop];
    destruct (is_valid c); try reflexivity; destruct (id_eqb c self); try reflexivity;
    rewrite !find_budget_snapshots by auto using keyed_fresh; rewrite lookup_fmap; destruct (m !! c) as [st|]; cbn [fmap option_fmap option_map]; try reflexivity.
  rewrite IH. destruct (persisted_parent (BudgetManager.cfg st)) as [(p & E & _ & E')|[E E']]; cbn [fresh_of BudgetManager.cfg];
    rewrite E'; [rewrite E; reflexivity|]. destruct (PowerBudget.parent (BudgetManager.cfg st)) as [p|].
  - specialize (E p eq_refl). destruct fuel; cbn [hierarchy_loop is_valid id_raw]; rewrite E; reflexivity.
  - destruct fuel; reflexivity.
Qed.

Lemma validate_fresh (m : BudgetManager.t) : keyed m -> validate_budget_hierarchy m = true ->
  validate_budget_hierarchy (fresh_of <$> m) = true.
Proof.
  intros Hk. unfold validate_budget_hierarchy. rewrite !andb_true_iff, !forallb_forall. intros [Hp Hl].
  assert (Hsnap : forall b, List.In b (BudgetManager.snapshots (fresh_of <$> m)) ->
    exists c, List.In c (BudgetManager.snapshots m) /\ b = persisted_budget c).
  { intros b Hb. apply list_elem_of_In, snapshots_lookup in Hb as (id & st & E & ->). rewrite lookup_fmap in E.
    destruct (m !! id) as [st0|] eqn:E0; [|discriminate]. injection E as <-. exists (BudgetManager.cfg st0).
    split; [apply list_elem_of_In, snapshots_lookup; eauto|reflexivity]. }
  split; intros b Hb; apply Hsnap in Hb as (c & Hc & ->); specialize (Hp c Hc); specialize (Hl c Hc);
    destruct (persisted_parent c) as [(p & E & Ev & E')|[E E']].
  - unfold parent_exists in *. rewrite E', Ev. rewrite E, Ev in Hp. cbn [negb orb] in *. unfold BudgetManager.has in *.
    destruct (m !! p) as [st|] eqn:Em; apply bool_decide_eq_true in Hp as [? Hp]; [|discriminate].
    apply bool_decide_eq_true. rewrite lookup_fmap, Em. eexists. reflexivity.
  - unfold parent_exists. rewrite E'. reflexivity.
  - cbn beta in Hl |- *. rewrite hierarchy_loop_fresh, E' by exact Hk. rewrite E in Hl. exact Hl.
  - rewrite E'. unfold hierarchy_guard. reflexivity.
Qed.

(** ** Filling a table entry by entry *)
Lemma fold_project {S X A : Type} (f : S -> A) (step : S -> X -> S) (u : A -> X -> A) (l : list X) (s : S) :
  (forall s x, f (step s x) = u (f s) x) -> f (fold_left step l s) = fold_left u l (f s).
Proof. intros H. revert s. induction l as [|x l IH]; intros s; [reflexivity|]. cbn [fold_left]. rewrite IH, H. reflexivity. Qed.

Lemma fold_keeps {S X A : Type} (f : S -> A) (step : S -> X -> S) (l : list X) (s : S) :
  (forall s x, f (step s x) = f s) -> f (fold_left step l s) = f s.
Proof. intros H. revert s. induction l as [|x l IH]; intros s; [reflexivity|]. cbn [fold_left]. rewrite IH, H. reflexivity. Qed.

Lemma fold_insert_table `{Countable K} {X A B : Type} (key : X -> K) (v : X -> B) (f : K * A -> X) (w : A -> B)
    (m : gmap K A) (l : list X) :
  l ≡ₚ f <$> map_to_list m -> (forall k a, m !! k = Some a -> key (f (k, a)) = k /\ v (f (k, a)) = w a) ->
  fold_left (fun (acc : gmap K B) x => <[key x := v x]> acc) l ∅ = w <$> m.
Proof.
  intros Hl Hf.
  assert (E : (fun x => (key x, v x)) <$> (f <$> map_to_list m) = prod_map id w <$> map_to_list m).
  { rewrite <- list_fmap_compose. apply list_fmap_ext. intros i [k a] Hi. apply list_elem_of_lookup_2, elem_of_map_to_list in Hi.
    destruct (Hf _ _ Hi) as [E1 E2]. cbn. rewrite E1, E2. reflexivity. }
  transitivity (list_to_map ((fun x => (key x, v x)) <$> reverse l) : gmap K B).
  - rewrite <- (reverse_involutive l) at 1. induction (reverse l) as [|x r IH]; [reflexivity|].
    rewrite reverse_cons, fold_left_app. cbn [fold_left fmap list_fmap list_to_map foldr]. rewrite IH. reflexivity.
  - transitivity (list_to_map (prod_map id w <$> map_to_list m) : gmap K B).
    + rewrite <- E. symmetry. apply list_to_map_proper.
      * rewrite E, <- list_fmap_compose. change (NoDup (fst <$> map_to_list m)). apply NoDup_fst_map_to_list.
      * rewrite reverse_Permutation. symmetry. apply fmap_Permutation. exact Hl.
    + rewrite list_to_map_fmap, list_to_map_to_list. reflexivity.
Qed.

Lemma update_chain_cfg (f : BudgetManager.State -> BudgetManager.State) (l : list BudgetId) (m : BudgetManager.t) :
  BudgetFacts.keeps_cfg f -> BudgetManager.cfg <$> BudgetManager.update_chain f l m = BudgetManager.cfg <$> m.
Proof.
  intros Hf. unfold BudgetManager.update_chain. revert m. induction l as [|b l IH]; intros m; [reflexivity|]. cbn [foldl].
  rewrite IH. apply map_eq. intros c. rewrite !lookup_fmap, lookup_alter. case_decide; [subst|reflexivity].
  destruct (m !! c) as [st|]; [|reflexivity]. cbn. rewrite Hf. reflexivity.
Qed.

(** *** The index *)
Definition meta_of (r : Reservation.t) : ReservationIndex.Meta :=
  ReservationIndex.mkMeta (Reservation.budget r) (Reservation.workload r) (Reservation.state r).

Definition index_add (x : ReservationIndex.t) (r : Reservation.t) : ReservationIndex.t :=
  ReservationIndex.add x (Reservation.id r) (Reservation.budget r) (Reservation.workload r) (Reservation.state r).

Lemma index_filled (l : list Reservation.t) (x : ReservationIndex.t) :
  Forall (fun r => is_valid (Reservation.id r) = true) l -> NoDup (Reservation.id <$> l) ->
  Forall (fun r => ReservationIndex.members x !! Reservation.id r = None) l -> ReservationIndex.consistent x ->
  ReservationIndex.consistent (fold_left index_add l x) /\
  ReservationIndex.members (fold_left index_add l x) =
    fold_left (fun (acc : gmap ReservationId ReservationIndex.Meta) r => <[Reservation.id r := meta_of r]> acc) l (ReservationIndex.members x).
Proof.
  revert x. induction l as [|r l IH]; intros x Hv Hd Hn Hx; [auto|]. inversion_clear Hv. apply NoDup_cons in Hd as [Hr Hd].
  apply Forall_cons_1 in Hn as [Hnr Hn]. cbn [fold_left].
  assert (Em : ReservationIndex.members (index_add x r) = <[Reservation.id r := meta_of r]> (ReservationIndex.members x)).
  { unfold index_add, ReservationIndex.add. match goal with H : is_valid _ = true |- _ => rewrite H end. reflexivity. }
  rewrite <- Em. apply IH; try assumption; [|apply ReservationIndex.add_consistent; assumption].
  rewrite Em. rewrite Forall_forall in Hn |- *. intros c Hc. rewrite lookup_insert_ne; [auto|].
  intros E. apply Hr. rewrite E. apply list_elem_of_fmap_2, Hc.
Qed.

(** ** The whole state *)
Record storable (g : t) : Prop := {
  st_authority : in_u 64 (gen_raw (cfg_epoch (cfg g))) /\ in_u 64 (id_raw (cfg_boot (cfg g))) /\
                 in_u 64 (id_raw (cfg_node (cfg g))) /\ in_u 64 (gen_raw (PowerPolicy.generation (policy g)));
  st_name : short_string (PowerPolicy.name (policy g));
  st_fleet : storable_cap (PowerPolicy.fleet_hard_cap (policy g));
  st_node : storable_cap (PowerPolicy.node_hard_cap (policy g));
  st_device : storable_cap (PowerPolicy.device_hard_cap (policy g));
  st_soft : storable_cap (PowerPolicy.soft_target (policy g));
  st_budgets : forall b st, budgets g !! b = Some st ->
                 storable_budget (BudgetManager.cfg st) /\ PowerBudget.id (BudgetManager.cfg st) = b;
  st_hierarchy : validate_budget_hierarchy (budgets g) = true;
  st_reservations : forall id r, ReservationManager.map_ (rm g) !! id = Some r -> storable_reservation r /\ Reservation.id r = id;
  st_meters : forall w m, workload_meter g !! w = Some m -> storable_meter (w, m);
  st_sizes : Z.of_nat (size (budgets g)) <= 100000 /\ Z.of_nat (size (ReservationManager.map_ (rm g))) <= 100000 /\
             Z.of_nat (size (workload_meter g)) <= 100000 }.

(** A governor with nothing installed, as one that has just been constructed. *)
Definition nothing_installed (g : t) : Prop :=
  budgets g = ∅ /\ ReservationManager.map_ (rm g) = ∅ /\ workload_meter g = ∅ /\ res_index g = ReservationIndex.empty.

Definition header_bytes (g : t) : list Z :=
  put_u64 (gen_raw (cfg_epoch (cfg g))) ++ put_u64 (id_raw (cfg_boot (cfg g))) ++ put_u64 (id_raw (cfg_node (cfg g))) ++
  put_u64 (gen_raw (PowerPolicy.generation (policy g))) ++ str_bytes (PowerPolicy.name (policy g)).

Definition state_bytes (g : t) (bl : list PowerBudget.t) (rl : list Reservation.t) (ml : list (WorkloadId * EnergyMeter.t)) : list Z :=
  put_u64 (gen_raw (cfg_epoch (cfg g))) ++ put_u64 (id_raw (cfg_boot (cfg g))) ++ put_u64 (id_raw (cfg_node (cfg g))) ++
  put_u64 (gen_raw (PowerPolicy.generation (policy g))) ++ str_bytes (PowerPolicy.name (policy g)) ++
  cap_bytes (PowerPolicy.fleet_hard_cap (policy g)) ++ cap_bytes (PowerPolicy.node_hard_cap (policy g)) ++
  cap_bytes (PowerPolicy.device_hard_cap (policy g)) ++ cap_bytes (PowerPolicy.soft_target (policy g)) ++
  (put_u32 (Z.of_nat (length bl)) ++ concat (budget_bytes <$> bl)) ++
  (put_u32 (Z.of_nat (length rl)) ++ concat (reservation_bytes <$> rl)) ++
  (put_u32 (Z.of_nat (length ml)) ++ concat (meter_bytes <$> ml)).

(** The listings of the tables, in any order. *)
Record listing (g : t) (bl : list PowerBudget.t) (rl : list Reservation.t) (ml : list (WorkloadId * EnergyMeter.t)) : Prop := {
  ls_budgets : bl ≡ₚ (fun p => BudgetManager.cfg p.2) <$> map_to_list (budgets g);
  ls_reservations : rl ≡ₚ snd <$> map_to_list (ReservationManager.map_ (rm g));
  ls_meters : ml ≡ₚ id <$> map_to_list (workload_meter g) }.

Lemma concat_outcomes_app (a b : list (outcome (list Z))) (x y : list Z) :
  concat_outcomes a = Ret x -> concat_outcomes b = Ret y -> concat_outcomes (a ++ b) = Ret (x ++ y).
Proof.
  revert x. induction a as [|o a IH]; intros x; cbn [concat_outcomes app]; [intros [= <-] ->; reflexivity|].
  intros H Hb. apply obind_Ret in H as (u & -> & H). apply obind_Ret in H as (v & H & [= <-]). cbn [obind].
  rewrite (IH v H Hb). cbn [obind]. rewrite app_assoc. reflexivity.
Qed.

Lemma concat_outcomes_one (a : list Z) : concat_outcomes [Ret a] = Ret a.
Proof. cbn [concat_outcomes obind]. rewrite app_nil_r. reflexivity. Qed.

Lemma concat_outcomes_map {X : Type} (f : X -> outcome (list Z)) (enc : X -> list Z) (l : list X) :
  Forall (fun x => f x = Ret (enc x)) l -> concat_outcomes (f <$> l) = Ret (concat (enc <$> l)).
Proof.
  induction 1 as [|x l Hx Hl IH]; [reflexivity|]. cbn [fmap list_fmap concat_outcomes concat].
  rewrite Hx. cbn [obind]. fold (f <$> l). rewrite IH. reflexivity.
Qed.

Section Recovery.
Context (clock : Timestamp) (g g0 : t) (bl : list PowerBudget.t) (rl : list Reservation.t) (ml : list (WorkloadId * EnergyMeter.t)).
Context (Hg : storable g) (Hl : listing g bl rl ml).

Lemma listed_budgets : Forall (fun b => storable_budget b /\ exists st, budgets g !! PowerBudget.id b = Some st /\ b = BudgetManager.cfg st) bl.
Proof.
  apply Forall_forall. intros b. rewrite (ls_budgets _ _ _ _ Hl), list_elem_of_fmap. intros ([k st] & -> & H).
  apply elem_of_map_to_list in H. destruct (st_budgets _ Hg _ _ H) as [Hs E]. cbn [snd]. split; [exact Hs|].
  exists st. rewrite E. auto.
Qed.

Lemma listed_reservations : Forall (fun r => storable_reservation r /\ ReservationManager.map_ (rm g) !! Reservation.id r = Some r) rl.
Proof.
  apply Forall_forall. intros r. rewrite (ls_reservations _ _ _ _ Hl), list_elem_of_fmap. intros ([k r'] & -> & H).
  apply elem_of_map_to_list in H. cbn [snd]. destruct (st_reservations _ Hg _ _ H) as [Hs E]. rewrite E. auto.
Qed.

Lemma listed_meters : Forall storable_meter ml.
Proof.
  apply Forall_forall. intros [w m]. rewrite (ls_meters _ _ _ _ Hl), list_fmap_id. intros H%elem_of_map_to_list.
  apply (st_meters _ Hg _ _ H).
Qed.

Lemma listed_budget_ids : NoDup (PowerBudget.id <$> bl).
Proof.
  rewrite (ls_budgets _ _ _ _ Hl), <- list_fmap_compose.
  rewrite (list_fmap_ext _ fst); [apply NoDup_fst_map_to_list|].
  intros i [k st] H. apply list_elem_of_lookup_2, elem_of_map_to_list in H. apply (st_budgets _ Hg _ _ H).
Qed.

Lemma listed_reservation_ids : NoDup (Reservation.id <$> rl).
Proof.
  rewrite (ls_reservations _ _ _ _ Hl), <- list_fmap_compose.
  rewrite (list_fmap_ext _ fst); [apply NoDup_fst_map_to_list|].
  intros i [k r] H. apply list_elem_of_lookup_2, elem_of_map_to_list in H. apply (st_reservations _ Hg _ _ H).
Qed.

Lemma listed_sizes : Z.of_nat (length bl) <= 100000 /\ Z.of_nat (length rl) <= 100000 /\ Z.of_nat (length ml) <= 100000.
Proof.
  destruct (st_sizes _ Hg) as (Hb & Hr & Hm). destruct Hl as [Eb Er Em].
  apply Permutation_length in Eb, Er, Em. rewrite Eb, Er, Em, !length_fmap, !length_map_to_list. auto.
Qed.

Lemma encode_listing_bytes : encode_listing g bl rl ml = Ret (state_bytes g bl rl ml).
Proof.
  unfold encode_listing. destruct Hg as [_ Hn Hf Hnd Hd Hs _ _ _ _ _].
  assert (E : state_bytes g bl rl ml =
    (header_bytes g ++ cap_bytes (PowerPolicy.fleet_hard_cap (policy g)) ++ cap_bytes (PowerPolicy.node_hard_cap (policy g)) ++
     cap_bytes (PowerPolicy.device_hard_cap (policy g)) ++ cap_bytes (PowerPolicy.soft_target (policy g)) ++
     put_u32 (Z.of_nat (length bl))) ++ concat (budget_bytes <$> bl) ++
    put_u32 (Z.of_nat (length rl)) ++ concat (reservation_bytes <$> rl) ++
    put_u32 (Z.of_nat (length ml)) ++ concat (meter_bytes <$> ml)).
  { unfold state_bytes, header_bytes. rewrite <- !app_assoc. reflexivity. }
  rewrite E. apply concat_outcomes_app.
  { cbn [concat_outcomes]. rewrite !put_cap_stored, put_bin_str_short by assumption. cbn [obind].
    unfold header_bytes. rewrite ?app_nil_r, <- ?app_assoc. reflexivity. }
  apply concat_outcomes_app.
  { apply concat_outcomes_map. eapply Forall_impl; [apply listed_budgets|]. intros b [Hb _]. apply encode_budget_bytes, Hb. }
  apply (concat_outcomes_app [_]); [apply concat_outcomes_one|]. apply concat_outcomes_app.
  { apply concat_outcomes_map. eapply Forall_impl; [apply listed_reservations|]. intros r [Hr _]. apply encode_reservation_bytes, Hr. }
  apply (concat_outcomes_app [_]); [apply concat_outcomes_one|].
  apply concat_outcomes_map. eapply Forall_impl; [apply listed_meters|]. apply encode_meter_bytes.
Qed.

(** *** Decoding *)
Definition header_applied : t :=
  let g1 := set_cfg (mkConfig (cfg_id (cfg g0)) (cfg_node (cfg g)) (cfg_boot (cfg g0)) (cfg_epoch (cfg g0)))
              (set_authority (AuthorityGate.set_boot (cfg_boot (cfg g)) (AuthorityGate.reset_epoch (cfg_epoch (cfg g)) (authority g0))) g0) in
  let next := (allocate (Tag := PolicyIdTag) (next_policy g1)).2 in
  let pid := (allocate (Tag := PolicyIdTag) next).1 in
  let g2 := set_counters (allocate (Tag := PolicyIdTag) next).2 (next_observation g1) g1 in
  let p := with_caps (PowerPolicy.name (policy g)) (PowerPolicy.generation (policy g)) (PowerPolicy.fleet_hard_cap (policy g))
             (PowerPolicy.node_hard_cap (policy g)) (PowerPolicy.device_hard_cap (policy g)) (PowerPolicy.soft_target (policy g))
             (PowerPolicy.defaults pid "default") in
  set_authority (AuthorityGate.set_policy (PowerPolicy.generation p) (authority g2)) (set_policy p g2).

Definition with_budgets : t := fold_left (fun g b => installed b g) bl header_applied.
Definition with_reservations : t := fold_left (fun g r => restored r g) rl with_budgets.
Definition with_meters : t := fold_left (fun g p => metered clock p g) ml with_reservations.
Definition recovered_governor : t := invalidate_live_telemetry_locked with_meters.

Context (Hg0 : nothing_installed g0).

Lemma with_budgets_table : budgets with_budgets = fresh_of <$> budgets g.
Proof.
  unfold with_budgets.
  rewrite (fold_project budgets _ (fun (acc : BudgetManager.t) b => <[PowerBudget.id b := BudgetManager.mkState (persisted_budget b) W0 W0]> acc))
    by reflexivity.
  change (budgets header_applied) with (budgets g0). destruct Hg0 as (-> & _ & _ & _).
  apply (fold_insert_table _ _ (fun p => BudgetManager.cfg p.2)); [apply (ls_budgets _ _ _ _ Hl)|].
  intros k st E. split; [apply (st_budgets _ Hg _ _ E)|reflexivity].
Qed.

Lemma with_budgets_reservations : ReservationManager.map_ (rm with_budgets) = ∅.
Proof.
  destruct Hg0 as (_ & H & _ & _). rewrite <- H. unfold with_budgets.
  rewrite (fold_keeps (fun x => ReservationManager.map_ (rm x))) by reflexivity. reflexivity.
Qed.

(** The state while the budgets, and then the reservations, are read. *)
Definition budgets_ahead (l : list PowerBudget.t) (x : t) : Prop :=
  Forall storable_budget l /\ NoDup (PowerBudget.id <$> l) /\ Forall (fun b => budgets x !! PowerBudget.id b = None) l.
Definition reservations_ahead (l : list Reservation.t) (x : t) : Prop :=
  Forall storable_reservation l /\ NoDup (Reservation.id <$> l) /\
  Forall (fun r => ReservationManager.map_ (rm x) !! Reservation.id r = None) l.

Lemma takes_budgets (rest : list Z) :
  takes rest (section read_budget) (put_u32 (Z.of_nat (length bl)) ++ concat (budget_bytes <$> bl)) tt header_applied with_budgets.
Proof.
  apply (takes_section rest read_budget budget_bytes installed budgets_ahead); [| |apply listed_sizes].
  - intros rest' b l x (Hs & Hd & Hx). inversion_clear Hs. apply NoDup_cons in Hd as [Hb Hd]. inversion_clear Hx.
    split; [apply read_budget_takes; assumption|]. split_and!; try assumption. apply Forall_forall. intros c Hc.
    cbn. rewrite lookup_insert_ne.
    + match goal with H : Forall _ l |- _ => revert H end. rewrite Forall_forall. auto.
    + intros E. apply Hb. rewrite E. apply list_elem_of_fmap_2, Hc.
  - split_and!; [eapply Forall_impl; [apply listed_budgets|]; intros b [Hb _]; exact Hb|apply listed_budget_ids|].
    destruct Hg0 as (H & _ & _ & _). apply Forall_forall. intros b _. change (budgets header_applied) with (budgets g0). rewrite H.
    apply lookup_empty.
Qed.

Lemma takes_reservations (rest : list Z) :
  takes rest (section read_reservation) (put_u32 (Z.of_nat (length rl)) ++ concat (reservation_bytes <$> rl)) tt with_budgets with_reservations.
Proof.
  apply (takes_section rest read_reservation reservation_bytes restored reservations_ahead); [| |apply listed_sizes].
  - intros rest' r l x (Hs & Hd & Hx). inversion_clear Hs. apply NoDup_cons in Hd as [Hb Hd]. inversion_clear Hx.
    split; [apply read_reservation_takes; assumption|]. split_and!; try assumption. apply Forall_forall. intros c Hc.
    assert (E : ReservationManager.map_ (rm (restored r x)) = <[Reservation.id r := persisted_reservation r]> (ReservationManager.map_ (rm x))).
    { unfold restored, reindexed. destruct (_ && _); reflexivity. }
    rewrite E, lookup_insert_ne.
    + match goal with H : Forall _ l |- _ => revert H end. rewrite Forall_forall. auto.
    + intros E'. apply Hb. rewrite E'. apply list_elem_of_fmap_2, Hc.
  - split_and!; [eapply Forall_impl; [apply listed_reservations|]; intros r [Hr _]; exact Hr|apply listed_reservation_ids|].
    apply Forall_forall. intros b _. rewrite with_budgets_reservations. apply lookup_empty.
Qed.

Lemma takes_meters (rest : list Z) :
  takes rest (section (read_meter clock)) (put_u32 (Z.of_nat (length ml)) ++ concat (meter_bytes <$> ml)) tt with_reservations with_meters.
Proof.
  apply (takes_section rest (read_meter clock) meter_bytes (metered clock) (fun l _ => Forall storable_meter l)); [| |apply listed_sizes].
  - intros rest' p l x Hs. inversion_clear Hs. split; [apply read_meter_takes; assumption|assumption].
  - apply listed_meters.
Qed.

Lemma decode_listing : decode_state clock (state_bytes g bl rl ml) g0 = (Ret true, recovered_governor).
Proof.
  enough (E : takes [] (decode_body clock) (state_bytes g bl rl ml) tt g0 recovered_governor).
  { apply takes_run in E. rewrite app_nil_r in E. unfold decode_state. rewrite E. reflexivity. }
  destruct Hg as [(? & ? & ? & ?) ? ? ? ? ? _ Hh _ _ _]. unfold decode_body, state_bytes.
  repeat takes_step. apply takes_modify. eapply takes_bind_nil; [apply takes_gov; reflexivity|].
  do 4 (eapply takes_bind; [apply takes_cap; assumption|]). apply takes_modify.
  rewrite !mkId_raw, !mkGen_raw. change (takes [] _ _ _ _ recovered_governor) with
    (takes [] (try! _ <- section read_budget;
      try! valid <- on_governor (fun g => (Ret (validate_budget_hierarchy (budgets g)), g));
      try! _ <- reject_if (negb valid);
      try! _ <- section read_reservation; try! _ <- section (read_meter clock); try! _ <- at_end_of_blob;
      on_governor (smodify invalidate_live_telemetry_locked))
      ((put_u32 (Z.of_nat (length bl)) ++ concat (budget_bytes <$> bl)) ++ (put_u32 (Z.of_nat (length rl)) ++ concat (reservation_bytes <$> rl)) ++
       (put_u32 (Z.of_nat (length ml)) ++ concat (meter_bytes <$> ml))) tt header_applied recovered_governor).
  eapply takes_bind; [apply takes_budgets|]. eapply takes_bind_nil; [apply takes_gov; reflexivity|].
  apply takes_reject.
  { rewrite with_budgets_table, validate_fresh; [reflexivity| |exact Hh]. intros b st E. apply (st_budgets _ Hg _ _ E). }
  eapply takes_bind; [apply takes_reservations|]. rewrite <- (app_nil_r (put_u32 _ ++ _)).
  eapply takes_bind; [apply takes_meters|]. eapply takes_bind_nil; [apply takes_end|]. apply takes_gov. reflexivity.
Qed.

(** *** What is recovered *)
Lemma restored_keeps {A : Type} (f : t -> A) (r : Reservation.t) (x : t) :
  (forall m y, f (set_rm m y) = f y) -> (forall i y, f (set_index i y) = f y) -> f (restored r x) = f x.
Proof. intros Hr Hi. unfold restored, reindexed, set_budgets. destruct (_ && _); rewrite ?Hr, ?Hi, ?Hr; reflexivity. Qed.

(** What the tables do not touch is as the header left it. *)
Lemma recovered_header {A : Type} (f : t -> A) :
  (forall m y, f (set_rm m y) = f y) -> (forall i y, f (set_index i y) = f y) ->
  (forall w m y, f (set_meters w m y) = f y) -> (forall d y, f (set_devices d y) = f y) ->
  f recovered_governor = f header_applied.
Proof.
  intros Hr Hi Hm Hd. unfold recovered_governor, invalidate_live_telemetry_locked, with_meters, with_reservations, with_budgets.
  rewrite Hd, (fold_keeps f) by (intros; apply Hm). rewrite (fold_keeps f) by (intros; apply restored_keeps; assumption).
  apply (fold_keeps f). intros. unfold installed, set_budgets. apply Hr.
Qed.

Lemma recovered_reservations :
  ReservationManager.map_ (rm recovered_governor) = persisted_reservation <$> ReservationManager.map_ (rm g).
Proof.
  unfold recovered_governor, with_meters. cbn [invalidate_live_telemetry_locked set_devices rm].
  rewrite (fold_keeps rm) by reflexivity. unfold with_reservations.
  rewrite (fold_project (fun x => ReservationManager.map_ (rm x)) _
             (fun (acc : gmap ReservationId Reservation.t) r => <[Reservation.id r := persisted_reservation r]> acc)).
  - rewrite with_budgets_reservations. apply (fold_insert_table _ _ snd); [apply (ls_reservations _ _ _ _ Hl)|].
    intros k r E. split; [apply (st_reservations _ Hg _ _ E)|reflexivity].
  - intros x r. unfold restored, reindexed. destruct (_ && _); reflexivity.
Qed.

Lemma recovered_meters : workload_meter recovered_governor = recovered_meter clock <$> workload_meter g.
Proof.
  unfold recovered_governor, with_meters. cbn [invalidate_live_telemetry_locked set_devices workload_meter].
  rewrite (fold_project workload_meter _ (fun (acc : gmap WorkloadId EnergyMeter.t) p => <[p.1 := recovered_meter clock p.2]> acc)) by reflexivity.
  unfold with_reservations. rewrite (fold_keeps workload_meter) by (intros; apply restored_keeps; reflexivity).
  unfold with_budgets. rewrite (fold_keeps workload_meter) by reflexivity.
  change (workload_meter header_applied) with (workload_meter g0). destruct Hg0 as (_ & _ & -> & _).
  apply (fold_insert_table _ _ id); [apply (ls_meters _ _ _ _ Hl)|]. intros w m _. split; reflexivity.
Qed.

Lemma recovered_index :
  ReservationIndex.consistent (res_index recovered_governor) /\
  ReservationIndex.members (res_index recovered_governor) = meta_of <$> ReservationManager.map_ (rm g).
Proof.
  unfold recovered_governor, with_meters. cbn [invalidate_live_telemetry_locked set_devices res_index].
  rewrite (fold_keeps res_index) by reflexivity. unfold with_reservations.
  rewrite (fold_project res_index _ index_add).
  2:{ intros x r. unfold restored, reindexed. destruct (_ && _); reflexivity. }
  unfold with_budgets. rewrite (fold_keeps res_index) by reflexivity.
  change (res_index header_applied) with (res_index g0). destruct Hg0 as (_ & _ & _ & ->).
  destruct (index_filled rl ReservationIndex.empty) as [Hc ->].
  - eapply Forall_impl; [apply listed_reservations|]. intros r [Hr _]. apply Hr.
  - apply listed_reservation_ids.
  - apply Forall_forall. intros r _. apply lookup_empty.
  - apply ReservationIndex.empty_consistent.
  - split; [exact Hc|]. apply (fold_insert_table _ _ snd); [apply (ls_reservations _ _ _ _ Hl)|].
    intros k r E. split; [apply (st_reservations _ Hg _ _ E)|reflexivity].
Qed.

Lemma recovered_budgets : BudgetManager.cfg <$> budgets recovered_governor = persisted_budget <$> (BudgetManager.cfg <$> budgets g).
Proof.
  unfold recovered_governor, with_meters. change (budgets (invalidate_live_telemetry_locked ?x)) with (budgets x).
  rewrite (fold_keeps budgets) by reflexivity. unfold with_reservations.
  rewrite (fold_keeps (fun x => BudgetManager.cfg <$> budgets x)).
  - rewrite with_budgets_table, <- !map_fmap_compose. reflexivity.
  - intros x r. unfold restored, reindexed. destruct (_ && _); [|reflexivity].
    cbn [budgets set_budgets set_rm set_index rm ReservationManager.set_budgets ReservationManager.budgets ReservationManager.set_map].
    match goal with |- context [BudgetManager.reserve ?m ?i ?a ?y ?z] => destruct (BudgetManager.reserve m i a y z) as [ok m'] eqn:E end.
    cbn [snd]. destruct ok; [|apply BudgetFacts.reserve_false in E as ->; reflexivity].
    apply BudgetFacts.reserve_true in E as (_ & _ & _ & ->). apply update_chain_cfg, BudgetFacts.set_reserved_keeps.
Qed.
End Recovery.

(** [g1] is what is left of [g] after a save and a load.  The epoch and the boot come
    back in the gate, all else where it was; a policy keeps its name, its generation and
    its caps, and is the default one otherwise. *)
Record recovered_as (clock : Timestamp) (g g1 : t) : Prop := {
  ra_authority : AuthorityGate.epoch (authority g1) = cfg_epoch (cfg g) /\ AuthorityGate.boot (authority g1) = cfg_boot (cfg g) /\
                 AuthorityGate.policy (authority g1) = PowerPolicy.generation (policy g) /\ cfg_node (cfg g1) = cfg_node (cfg g);
  ra_policy : exists pid, policy g1 =
                with_caps (PowerPolicy.name (policy g)) (PowerPolicy.generation (policy g)) (PowerPolicy.fleet_hard_cap (policy g))
                  (PowerPolicy.node_hard_cap (policy g)) (PowerPolicy.device_hard_cap (policy g)) (PowerPolicy.soft_target (policy g))
                  (PowerPolicy.defaults pid "default");
  ra_budgets : BudgetManager.cfg <$> budgets g1 = persisted_budget <$> (BudgetManager.cfg <$> budgets g);
  ra_reservations : ReservationManager.map_ (rm g1) = persisted_reservation <$> ReservationManager.map_ (rm g);
  ra_index : ReservationIndex.consistent (res_index g1) /\
             ReservationIndex.members (res_index g1) = meta_of <$> ReservationManager.map_ (rm g);
  ra_meters : workload_meter g1 = recovered_meter clock <$> workload_meter g }.

Lemma listing_recovered (clock : Timestamp) (g g0 : t) bl rl ml : storable g -> listing g bl rl ml -> nothing_installed g0 ->
  recovered_as clock g (recovered_governor clock g g0 bl rl ml).
Proof.
  intros Hg Hl Hg0. split.
  - rewrite (recovered_header clock g g0 bl rl ml authority), (recovered_header clock g g0 bl rl ml cfg) by reflexivity.
    split_and!; reflexivity.
  - rewrite (recovered_header clock g g0 bl rl ml policy) by reflexivity. eexists. reflexivity.
  - apply recovered_budgets; assumption.
  - apply recovered_reservations; assumption.
  - apply recovered_index; assumption.
  - apply recovered_meters; assumption.
Qed.

(** ** Through the file *)
Lemma own_listing (g : t) :
  listing g (BudgetManager.snapshots (budgets g)) (ReservationManager.all (rm g)) (map_to_list (workload_meter g)).
Proof.
  split; [reflexivity| |rewrite list_fmap_id; reflexivity]. unfold ReservationManager.all. apply merge_sort_Permutation.
Qed.

Lemma f64_bytes_range (v : double) : Forall (in_u 8) (f64_bytes v).
Proof.
  unfold f64_bytes, put_f64, put_f32. destruct (truncate _) as [z|]; [|constructor]. unfold i64_checked.
  destruct (in_i64b z); [apply put_bytes_range|constructor].
Qed.

Lemma put_u8_range (v : Z) : Forall (in_u 8) (put_u8 v).
Proof. constructor; [apply wrap_range; lia|constructor]. Qed.

Lemma cap_bytes_range (c : option Watts) : Forall (in_u 8) (cap_bytes c).
Proof. destruct c; cbn [cap_bytes]; [apply Forall_app_2; [apply put_u8_range|apply f64_bytes_range]|apply put_u8_range]. Qed.

Lemma concat_range {X : Type} (enc : X -> list Z) (l : list X) :
  (forall x, Forall (in_u 8) (enc x)) -> Forall (in_u 8) (concat (enc <$> l)).
Proof. intros H. induction l as [|x l IH]; [constructor|]. cbn. apply Forall_app_2; auto. Qed.

Ltac solve_range := repeat first
  [ apply Forall_app_2 | apply put_bytes_range | apply f64_bytes_range | apply cap_bytes_range | apply put_u8_range
  | apply bytes_of_string_range | apply Forall_nil_2 ].

Lemma state_bytes_range (g : t) bl rl ml : Forall (in_u 8) (state_bytes g bl rl ml).
Proof.
  unfold state_bytes, str_bytes. solve_range; apply concat_range; intros ?; unfold budget_bytes, reservation_bytes, meter_bytes, str_bytes;
    solve_range.
Qed.

(** A write that succeeds leaves the new content in the file. *)
Lemma persist_write_last (env : io) (path : string) (data : list Z) (fs : files) states err :
  persist_write env path data fs = (states, true, err) -> exists final, last states = Some final /\ final !! path = Some data.
Proof.
  unfold persist_write. destruct (negb (open_ok env)); [discriminate|]. destruct (negb (write_ok env)); [discriminate|].
  destruct (rename_ok env); [|discriminate]. intros [= <- <-]. eexists. split; [|apply lookup_insert_eq].
  rewrite app_comm_cons, app_comm_cons, last_app. reflexivity.
Qed.

Lemma save_inv (clock : Timestamp) (env : io) (path : string) (fs : files) (g g' : t) (states : list files) (blob : list Z) :
  encode_state g = Ret blob -> Forall (in_u 8) blob ->
  save clock env path fs g = (Ret (true, states), g') ->
  exists fs' data, last states = Some fs' /\ fs' !! path = Some data /\
    decode_envelope data = envelope_ok (Persistence.mkEnvelope PERSIST_SCHEMA blob).
Proof.
  intros He Hb. unfold save. rewrite sbind_sget. intros H. apply sbind_Ret in H as (r & g1 & Hr & H).
  injection Hr as Hr <-. unfold save_file in Hr. rewrite He in Hr. cbn [obind] in Hr. apply obind_Ret in Hr as (data & Hd & Hr).
  unfold encode_envelope in Hd. destruct (PERSIST_MAX <? _) eqn:Emax in Hd; [discriminate|].
  assert (Hv : valid_envelope (Persistence.mkEnvelope PERSIST_SCHEMA blob)) by (split; [reflexivity|split; [exact Hb|cbn in *; lia]]).
  destruct (persist_write env path data fs) as [[st ok] err] eqn:Ew. injection Hr as <-. destruct ok; [|discriminate].
  apply sbind_Ret in H as ([] & g2 & _ & [= <- <-]). destruct (persist_write_last _ _ _ _ _ _ Ew) as (fs' & El & Ef).
  exists fs', data. split; [exact El|]. split; [exact Ef|]. injection Hd as <-. exact (decode_encoded _ Hv).
Qed.

Lemma saved_loads (clock clock' : Timestamp) (env : io) (path : string) (fs : files) (g g' g0 : t) (states : list files) :
  storable g -> nothing_installed g0 -> save clock env path fs g = (Ret (true, states), g') ->
  exists fs' g1 h, last states = Some fs' /\ load clock' path fs' g0 = (Ret true, set_history h g1) /\
    g1 = recovered_governor clock' g g0 (BudgetManager.snapshots (budgets g)) (ReservationManager.all (rm g))
           (map_to_list (workload_meter g)).
Proof.
  intros Hg Hg0 Hs. pose proof (encode_listing_bytes g _ _ _ Hg (own_listing g)) as He.
  destruct (save_inv _ _ _ _ _ _ _ _ He (state_bytes_range _ _ _ _) Hs) as (fs' & data & El & Ef & Ed).
  exists fs'. eexists _, _. split; [exact El|]. split; [|reflexivity].
  unfold load, persist_read. rewrite Ef, Ed. cbn [blob]. unfold sbind.
  rewrite (decode_listing clock' g g0 _ _ _ Hg (own_listing g) Hg0). reflexivity.
Qed.

(** C8: what a governor saves, another recovers.  Take a state that the format can hold:
    every amount is finite, not negative and unchanged by its encoding in thousandths;
    the hierarchy of budgets passes the check that [load] makes (every parent is installed,
    and there is no cycle within 256 steps); budgets and reservations are filed under their
    own identifiers, and those of reservations are valid; each of the three tables has at
    most 100000 entries; identifiers, times and lengths of names fit their fields.  When
    [save] succeeds, whatever the file system held before, a governor with nothing installed
    loads that file: it accepts it, and has then the epoch, the boot, the node, the caps of
    the policy, every budget and every reservation in the members that the format keeps
    ([persisted_budget], [persisted_reservation]), with the state of each reservation and
    its place in the index, and the energy of every workload.  (A state whose hierarchy does
    not pass is saved and not loaded: [GovernorLoad.missing_parent_not_loaded].) *)
Theorem state_roundtrip (clock clock' : Timestamp) (env : io) (path : string) (fs : files) (g g' g0 : t) (states : list files) :
  storable g -> nothing_installed g0 -> save clock env path fs g = (Ret (true, states), g') ->
  exists fs' g1, last states = Some fs' /\ load clock' path fs' g0 = (Ret true, g1) /\ recovered_as clock' g g1.
Proof.
  intros Hg Hg0 Hs. destruct (saved_loads clock clock' env path fs g g' g0 states Hg Hg0 Hs) as (fs' & g1 & h & El & Eld & ->).
  exists fs'. eexists. split; [exact El|]. split; [exact Eld|].
  destruct (listing_recovered clock' g g0 _ _ _ Hg (own_listing g) Hg0). split; assumption.
Qed.

(** ** Deciding that a state can be stored *)
Definition storedb (v : double) : bool :=
  match truncate (v * 1000)%float with
  | Some z => in_i64b z && PrimFloat.Leibniz.eqb (of_millis z) v
  | None => false
  end.

Lemma storedb_spec (v : double) : storedb v = true -> stored v.
Proof.
  unfold storedb. destruct (truncate _) as [z|] eqn:Et; [|discriminate]. intros [Hz Hm]%andb_prop.
  exists z. split; [apply in_i64b_spec, Hz|]. split; [exact Et|]. apply FloatAxioms.Leibniz.eqb_spec, Hm.
Qed.

(** The multiples of an eighth of a watt up to 500 W are among the amounts stored. *)
Lemma eighths_stored : Forall (fun k => stored (double_of_Z (Z.of_nat k) / 8)) (seq 0 4001).
Proof.
  apply Forall_forall. intros k Hk. apply storedb_spec.
  assert (H : forallb (fun k => storedb (double_of_Z (Z.of_nat k) / 8)) (seq 0 4001) = true) by (vm_compute; reflexivity).
  rewrite forallb_forall in H. apply H, list_elem_of_In, Hk.
Qed.

Definition amountb {Tag : Set} (q : Quantity Tag) : bool := storedb (value q) && isfinite (value q) && (0 <=? value q)%float.
Definition u64b (z : Z) : bool := (0 <=? z) && (z <? 2 ^ 64).
Definition durationb (d : Duration) : bool := (0 <=? ns d) && (ns d <=? kMaxNs).
Definition shortb (s : string) : bool := Z.of_nat (String.length s) <? 2 ^ 32.
Definition capb (c : option Watts) : bool := match c with Some w => amountb w | None => true end.

Lemma amountb_spec {Tag : Set} `{UnitTraits Tag} (q : Quantity Tag) : amountb q = true -> storable_amount q.
Proof.
  intros [[Hs Hf]%andb_prop Hn]%andb_prop. split; [apply storedb_spec, Hs|]. split; [exact Hf|].
  rewrite leb_val, val_zero in Hn by (exact Hf || reflexivity). lia.
Qed.
Lemma u64b_spec (z : Z) : u64b z = true -> in_u 64 z.
Proof. unfold u64b, in_u. lia. Qed.
Lemma durationb_spec (d : Duration) : durationb d = true -> valid_duration d.
Proof. unfold durationb, valid_duration. lia. Qed.
Lemma shortb_spec (s : string) : shortb s = true -> short_string s.
Proof. unfold shortb, short_string. lia. Qed.
Lemma capb_spec (c : option Watts) : capb c = true -> storable_cap c.
Proof.
  destruct c as [w|]; [|exact (fun _ => I)]. intros [Hs Hn]%(amountb_spec w). split; [exact Hs|].
  apply valid_nonneg; [apply nonneg_Watts|exact Hn].
Qed.

Definition budgetb (b : PowerBudget.t) : bool :=
  forallb u64b [id_raw (PowerBudget.id b); gen_raw (PowerBudget.generation b); id_raw (PowerBudget.domain b); parent_raw b]
  && shortb (PowerBudget.name b)
  && forallb amountb [PowerBudget.hard_max b; PowerBudget.soft_target b; PowerBudget.min_reserve b; PowerBudget.burst_allowance b]
  && durationb (PowerBudget.burst_window b) && durationb (PowerBudget.recovery b)
  && (- 2 ^ 31 <=? PowerBudget.priority b) && (PowerBudget.priority b <? 2 ^ 31).

Definition reservationb (r : Reservation.t) : bool :=
  is_valid (Reservation.id r)
  && forallb u64b [id_raw (Reservation.id r); id_raw (Reservation.budget r); id_raw (Reservation.workload r);
                   id_raw (env_boot (Reservation.authority r)); gen_raw (Reservation.policy_generation r);
                   gen_raw (Reservation.device_generation r); gen_raw (Reservation.budget_generation r);
                   gen_raw (env_epoch (Reservation.authority r))]
  && amountb (Reservation.requested_power r) && amountb (Reservation.requested_energy r)
  && amountb (Reservation.reserved_power r) && amountb (Reservation.energy_used r)
  && in_i64b (time_ns (Reservation.created r)) && durationb (Reservation.validity r).

Definition sizeb `{Countable K} {A : Type} (m : gmap K A) : bool := Z.of_nat (size m) <=? 100000.

Definition storableb (g : t) : bool :=
  forallb u64b [gen_raw (cfg_epoch (cfg g)); id_raw (cfg_boot (cfg g)); id_raw (cfg_node (cfg g)); gen_raw (PowerPolicy.generation (policy g))]
  && shortb (PowerPolicy.name (policy g))
  && forallb capb [PowerPolicy.fleet_hard_cap (policy g); PowerPolicy.node_hard_cap (policy g); PowerPolicy.device_hard_cap (policy g);
                   PowerPolicy.soft_target (policy g)]
  && forallb (fun p => budgetb (BudgetManager.cfg p.2) && id_eqb (PowerBudget.id (BudgetManager.cfg p.2)) p.1) (map_to_list (budgets g))
  && validate_budget_hierarchy (budgets g)
  && forallb (fun p => reservationb p.2 && id_eqb (Reservation.id p.2) p.1) (map_to_list (ReservationManager.map_ (rm g)))
  && forallb (fun p => u64b (id_raw p.1) && amountb (EnergyMeter.total p.2)) (map_to_list (workload_meter g))
  && sizeb (budgets g) && sizeb (ReservationManager.map_ (rm g)) && sizeb (workload_meter g).

Lemma table_forallb `{Countable K} {A : Type} (p : K * A -> bool) (m : gmap K A) :
  forallb p (map_to_list m) = true -> forall k a, m !! k = Some a -> p (k, a) = true.
Proof. intros Hp k a E. rewrite forallb_forall in Hp. apply Hp, list_elem_of_In, elem_of_map_to_list, E. Qed.

Ltac split_checks := repeat match goal with
  | H : _ && _ = true |- _ => apply andb_prop in H as [? ?]
  | H : forallb _ (_ :: _) = true |- _ => cbn [forallb] in H
  end.

Lemma budgetb_spec (b : PowerBudget.t) : budgetb b = true -> storable_budget b.
Proof.
  unfold budgetb. intros H. split_checks.
  split; [split_and!; apply u64b_spec; assumption|apply shortb_spec; assumption| | | | |apply durationb_spec; assumption
         |apply durationb_spec; assumption|unfold in_i32; lia]; apply amountb_spec; assumption.
Qed.

Lemma reservationb_spec (r : Reservation.t) : reservationb r = true -> storable_reservation r.
Proof.
  unfold reservationb. intros H. split_checks.
  split; [assumption|split_and!; apply u64b_spec; assumption|split_and!; apply u64b_spec; assumption| | | | |
          apply in_i64b_spec; assumption|apply durationb_spec; assumption]; apply amountb_spec; assumption.
Qed.

Lemma storableb_spec (g : t) : storableb g = true -> storable g.
Proof.
  unfold storableb, sizeb. intros H. split_checks. split; try (apply capb_spec; assumption); try assumption.
  - split_and!; apply u64b_spec; assumption.
  - apply shortb_spec; assumption.
  - intros b st E. match goal with H : forallb _ (map_to_list (budgets g)) = true |- _ => pose proof (table_forallb _ _ H _ _ E) as Hb end.
    cbn [fst snd] in Hb. split_checks. split; [apply budgetb_spec; assumption|apply id_eqb_eq; assumption].
  - intros i r E. match goal with H : forallb _ (map_to_list (ReservationManager.map_ _)) = true |- _ => pose proof (table_forallb _ _ H _ _ E) as Hb end.
    cbn [fst snd] in Hb. split_checks. split; [apply reservationb_spec; assumption|apply id_eqb_eq; assumption].
  - intros w m E. match goal with H : forallb _ (map_to_list (workload_meter g)) = true |- _ => pose proof (table_forallb _ _ H _ _ E) as Hb end.
    cbn [fst snd] in Hb. split_checks. split; [apply u64b_spec; assumption|apply amountb_spec; assumption].
  - split_and!; lia.
Qed.

Definition saved_files (g : t) : list files := match (save (mkTime 9) saving_io "state" ∅ g).1 with Ret (_, l) => l | _ => [] end.
Definition governor_saved (g : t) : t := (save (mkTime 9) saving_io "state" ∅ g).2.

Lemma state_roundtrip_witness :
  ReservationManager.state (rm saved_state) (mkId 1) = ACTIVE /\ BudgetManager.reserved (budgets saved_state) leaf_id = mkQ 20 /\
  exists fs' g1, last (saved_files saved_state) = Some fs' /\ load (mkTime 20) "state" fs' sample_governor = (Ret true, g1) /\
    recovered_as (mkTime 20) saved_state g1.
Proof.
  split; [vm_compute; reflexivity|]. split; [vm_compute; reflexivity|].
  apply (state_roundtrip (mkTime 9) (mkTime 20) saving_io "state" ∅ saved_state (governor_saved saved_state) sample_governor).
  - apply storableb_spec. vm_compute. reflexivity.
  - split_and!; reflexivity.
  - vm_compute. reflexivity.
Defined.

(** The bytes depend on the order in which the hash table of the budgets is walked. *)
Lemma bytes_depend_on_order :
  let bl := BudgetManager.snapshots (budgets saved_state) in
  let rl := ReservationManager.all (rm saved_state) in
  let ml := map_to_list (workload_meter saved_state) in
  listing saved_state (reverse bl) rl ml /\ encode_listing saved_state (reverse bl) rl ml <> encode_listing saved_state bl rl ml.
Proof.
  cbv zeta. split.
  - split; [rewrite reverse_Permutation|..]; apply own_listing.
  - vm_compute. discriminate.
Qed.
