(* ===== verification/GovernorReclaim.v ===== *)
(** * Recovery claims the reserved power again

    The power reserved on the budgets is not written to the file: a governor that loads
    one books it again, reservation by reservation.  On amounts of the grid, when every
    reservation that holds power is reserved, admitted or active, and is held under the
    generation its budget has, all of these bookings succeed, and each budget ends with
    exactly the power that was reserved on it. *)
From stdpp Require Import sorting.
From S2P Require Import Prelude Rounding Binary64 Util Units Ids Clock Budget Ledger BudgetSpec Authority WorkloadClass.
From S2P Require Import Thermal Policy Energy Reservation ReservationFacts ReservationSpec Index Wire Persistence Governor.
From S2P Require Import GovernorSpec GovernorState GovernorLoad GovernorSave.
Local Open Scope Z_scope.
#[local] Arguments Z.mul : simpl never.
#[local] Arguments Z.add : simpl never.
#[local] Arguments Z.pow : simpl never.
#[local] Set Warnings "-inexact-float".
Import Governor Refinement ManagerLaws.

(** ** Chains *)
Lemma chain_loop_fresh (m : BudgetManager.t) (fuel : nat) (cur : option BudgetId) :
  chain_loop (BudgetManager.parent_of (fresh_of <$> m)) fuel cur = chain_loop (BudgetManager.parent_of m) fuel cur.
Proof.
  revert cur. induction fuel as [|fuel IH]; intros [c|]; try reflexivity. cbn [chain_loop]. destruct (is_valid c); [|reflexivity].
  f_equal. unfold BudgetManager.parent_of at 1 3. rewrite lookup_fmap. destruct (m !! c) as [st|]; [|reflexivity].
  cbn [fmap option_fmap option_map fresh_of BudgetManager.cfg]. rewrite IH.
  destruct (persisted_parent (BudgetManager.cfg st)) as [(p & E & _ & ->)|[E ->]]; [rewrite E; reflexivity|].
  destruct (PowerBudget.parent (BudgetManager.cfg st)) as [p|]; destruct fuel; cbn [chain_loop is_valid id_raw];
    try rewrite (E p eq_refl); reflexivity.
Qed.

Lemma chain_fresh (m : BudgetManager.t) (id : BudgetId) : BudgetManager.chain (fresh_of <$> m) id = BudgetManager.chain m id.
Proof. apply chain_loop_fresh. Qed.

(** In a forest, the budgets above an installed one are installed. *)
Lemma chain_installed (m : BudgetManager.t) (id b : BudgetId) : forest m -> is_Some (m !! id) ->
  b ∈ BudgetManager.chain m id -> is_Some (m !! b).
Proof.
  intros [_ Hp] Hid. unfold BudgetManager.chain.
  assert (Hcur : forall c, Some id = Some c -> is_valid c = true -> is_Some (m !! c)) by (intros c [= <-] _; exact Hid).
  revert Hcur. generalize chain_limit, (Some id). intros fuel. induction fuel as [|fuel IH]; intros [c|] Hcur;
    cbn [chain_loop]; rewrite ?elem_of_nil; try tauto.
  destruct (is_valid c) eqn:Ev; rewrite ?elem_of_nil; [|tauto]. destruct (Hcur c eq_refl Ev) as [st E].
  rewrite elem_of_cons. intros [->|Hb]; [eauto|]. unfold BudgetManager.parent_of in Hb at 1. rewrite E in Hb. cbn in Hb.
  revert Hb. apply IH. intros p Ep Evp. specialize (Hp _ _ _ E Ep Evp). apply bool_decide_eq_true in Hp. exact Hp.
Qed.

(** The budgets as they are installed again: the same chains, and nothing booked. *)
Lemma gridded_fresh (m : BudgetManager.t) : gridded m -> gridded (fresh_of <$> m).
Proof.
  intros (Hg & Hc & Hok). split; [|split].
  - intros b st. rewrite lookup_fmap. destruct (m !! b) as [st0|] eqn:E; [|discriminate]. intros [= <-].
    destruct (Hg b st0 E) as [Hh _]. destruct steps_zero. split_and!; assumption.
  - intros id. rewrite chain_abs, chain_fresh, <- chain_abs. apply Hc.
  - intros b a. rewrite abs_lookup, lookup_fmap. destruct (m !! b) as [st0|] eqn:E; [|discriminate]. intros [= <-].
    specialize (Hok b (abs_state st0)). rewrite abs_lookup, E in Hok. destruct (Hok eq_refl) as (H1 & H2 & H3).
    destruct steps_zero as [E0 _]. unfold Ledger.account_ok, abs_state, fresh_of in *. cbn in *. rewrite E0. lia.
Qed.

Lemma held_fresh (m : BudgetManager.t) (b : BudgetId) : held (fresh_of <$> m) b = 0 /\ spent (fresh_of <$> m) b = 0.
Proof. unfold held, spent. rewrite abs_lookup, lookup_fmap. destruct (m !! b); split; reflexivity. Qed.

(** ** A booking with room is accepted *)
Lemma reserve_accepted (m : BudgetManager.t) (id : BudgetId) (a : Watts) (rid : ReservationId) (st : BudgetManager.State) :
  gridded m -> grid (value a) -> m !! id = Some st -> PowerBudget.authoritative (BudgetManager.cfg st) = true ->
  (forall b, b ∈ BudgetManager.chain m id -> exists stb, m !! b = Some stb /\ Ledger.fits (steps (value a)) (abs_state stb) = true) ->
  exists m', BudgetManager.reserve m id a rid (PowerBudget.generation (BudgetManager.cfg st)) = (true, m').
Proof.
  intros (Hg & _ & Hok) Ha E Hauth Hroom. eexists. unfold BudgetManager.reserve. rewrite E, Hauth, grid_not_bad by exact Ha.
  rewrite (proj2 (gen_eqb_eq _ _) eq_refl). cbn [negb].
  assert (Hc : BudgetManager.chain_has_capacity m id a = true).
  { apply forallb_forall. intros b Hb. apply list_elem_of_In in Hb. destruct (Hroom b Hb) as (stb & Eb & Hf).
    rewrite has_room_single, Eb, room_agrees; [exact Hf|exact Ha|eauto|].
    apply (Hok b). rewrite abs_lookup, Eb. reflexivity. }
  rewrite Hc. reflexivity.
Qed.

(** ** Sums over the listed reservations *)
Definition list_sum {A : Type} (f : A -> Z) (l : list A) : Z := foldr (fun a n => f a + n) 0 l.

Lemma list_sum_app {A : Type} (f : A -> Z) (l k : list A) : list_sum f (l ++ k) = list_sum f l + list_sum f k.
Proof. unfold list_sum. induction l as [|a l IH]; cbn [foldr app]; lia. Qed.

Lemma list_sum_perm {A : Type} (f : A -> Z) (l k : list A) : l ≡ₚ k -> list_sum f l = list_sum f k.
Proof. unfold list_sum. induction 1; cbn [foldr]; lia. Qed.

Lemma list_sum_nonneg {A : Type} (f : A -> Z) (l : list A) : Forall (fun a => 0 <= f a) l -> 0 <= list_sum f l.
Proof. unfold list_sum. induction 1; cbn [foldr]; lia. Qed.

Lemma map_sum_list `{Countable K} {A : Type} (f : A -> Z) (m : gmap K A) : map_sum f m = list_sum f (snd <$> map_to_list m).
Proof.
  induction m as [|k a m Hk IH] using map_ind; [reflexivity|].
  rewrite map_sum_insert, Hk, (list_sum_perm f _ (snd <$> ((k, a) :: map_to_list m)))
    by (apply fmap_Permutation, map_to_list_insert, Hk).
  cbn [fmap list_fmap list_sum foldr snd]. rewrite IH. unfold list_sum, fmap. lia.
Qed.

(** ** The loop over the reservations *)

(** A reservation holds power: it was reserved and is not released.  What holds power is
    on the grid, in a state that claims it again, and under the current generation of an
    authoritative budget. *)
Definition holds_power (r : Reservation.t) : Prop :=
  Reservation.state r <> RELEASED /\ steps (value (Reservation.reserved_power r)) <> 0.

Definition reclaimable (m : BudgetManager.t) (r : Reservation.t) : Prop :=
  (Reservation.state r = RESERVED \/ Reservation.state r = ADMITTED \/ Reservation.state r = ACTIVE) /\
  exists st, m !! Reservation.budget r = Some st /\
    PowerBudget.generation (BudgetManager.cfg st) = Reservation.budget_generation r /\
    PowerBudget.authoritative (BudgetManager.cfg st) = true.

(** The share of a reservation in what is held on a budget. *)
Definition share (m : BudgetManager.t) (b : BudgetId) (r : Reservation.t) : Z :=
  if negb (bool_decide (Reservation.state r = RELEASED)) && under m (Reservation.budget r) b
  then steps (value (Reservation.reserved_power r)) else 0.

Section Reclaim.
Context (m : BudgetManager.t) (Hm : gridded m) (Hf : forest m) (rl : list Reservation.t).
Context (Hgrid : Forall (fun r => grid (value (Reservation.reserved_power r))) rl).
Context (Hheld : forall b, held m b = list_sum (share m b) rl).
Context (Hrl : Forall (fun r => holds_power r -> reclaimable m r) rl).

(** The budgets when the reservations of [done] have been restored. *)
Record reclaimed (l : list Reservation.t) (x : BudgetManager.t) : Prop := {
  rcl_grid : gridded x;
  rcl_cfg : BudgetManager.cfg <$> x = persisted_budget <$> (BudgetManager.cfg <$> m);
  rcl_under : forall i b, under x i b = under m i b;
  rcl_held : forall b, held x b = list_sum (share m b) l;
  rcl_spent : forall b, spent x b = 0 }.

Lemma reclaimed_start : reclaimed [] (fresh_of <$> m).
Proof.
  split.
  - apply gridded_fresh, Hm.
  - rewrite <- !map_fmap_compose. reflexivity.
  - intros i b. unfold under. rewrite chain_fresh. reflexivity.
  - intros b. apply held_fresh.
  - intros b. apply held_fresh.
Qed.

(** The configuration a reclaimed budget has. *)
Lemma reclaimed_lookup (l : list Reservation.t) (x : BudgetManager.t) (b : BudgetId) (st : BudgetManager.State) :
  reclaimed l x -> m !! b = Some st -> exists st', x !! b = Some st' /\ BudgetManager.cfg st' = persisted_budget (BudgetManager.cfg st).
Proof.
  intros Hx E. pose proof (f_equal (lookup b) (rcl_cfg _ _ Hx)) as H. rewrite !lookup_fmap, E in H. cbn in H.
  destruct (x !! b) as [st'|]; [|discriminate]. injection H as H. eauto.
Qed.

Lemma reclaimed_account (l : list Reservation.t) (x : BudgetManager.t) (b : BudgetId) (st st' : BudgetManager.State) :
  reclaimed l x -> m !! b = Some st -> x !! b = Some st' ->
  Ledger.held (abs_state st') = list_sum (share m b) l /\ Ledger.spent (abs_state st') = 0 /\
  Ledger.capacity (abs_state st') = Ledger.capacity (abs_state st).
Proof.
  intros Hx E E'. pose proof (rcl_held _ _ Hx b) as Hh. pose proof (rcl_spent _ _ Hx b) as Hs.
  unfold held, spent in Hh, Hs. rewrite abs_lookup, E' in Hh, Hs. split; [exact Hh|]. split; [exact Hs|].
  destruct (reclaimed_lookup _ _ _ _ Hx E) as (st2 & E2 & Ec). assert (st2 = st') as -> by congruence.
  unfold abs_state. cbn. rewrite Ec. reflexivity.
Qed.

Lemma share_nonneg (b : BudgetId) (r : Reservation.t) : grid (value (Reservation.reserved_power r)) -> 0 <= share m b r.
Proof. intros Hr. unfold share. destruct (_ && _); [apply grid_units, Hr|lia]. Qed.

Lemma share_positive (b : BudgetId) (r : Reservation.t) : ~ holds_power r -> share m b r = 0.
Proof.
  unfold holds_power, share. intros H. case_bool_decide as Es; [reflexivity|]. cbn [negb andb].
  destruct (under _ _ _); [|reflexivity]. destruct (Z.eq_dec (steps (value (Reservation.reserved_power r))) 0); tauto.
Qed.

(** There is room for the next reservation on every budget of its chain. *)
Lemma reclaim_room (l rest : list Reservation.t) (r : Reservation.t) (x : BudgetManager.t) (b : BudgetId) (st st' : BudgetManager.State) :
  rl = l ++ r :: rest -> reclaimed l x -> m !! b = Some st -> x !! b = Some st' -> under m (Reservation.budget r) b = true ->
  Reservation.state r <> RELEASED ->
  Ledger.fits (steps (value (Reservation.reserved_power r))) (abs_state st') = true.
Proof.
  intros Erl Hx E E' Hu Hns. destruct (reclaimed_account _ _ _ _ _ Hx E E') as (Hh & Hs & Hc).
  unfold Ledger.fits. rewrite Hh, Hs, Hc. specialize (Hheld b). unfold held in Hheld. rewrite abs_lookup, E in Hheld.
  cbn [fmap option_fmap option_map] in Hheld. rewrite Erl, list_sum_app in Hheld. cbn [list_sum foldr] in Hheld.
  fold (list_sum (share m b) rest) in Hheld.
  assert (Er : share m b r = steps (value (Reservation.reserved_power r))).
  { unfold share. rewrite bool_decide_false by exact Hns. rewrite Hu. reflexivity. }
  assert (Hrest : 0 <= list_sum (share m b) rest).
  { apply list_sum_nonneg. rewrite Erl in Hgrid. apply Forall_app in Hgrid as [_ Hgr]. inversion_clear Hgr.
    eapply Forall_impl; [eassumption|]. intros r'. apply share_nonneg. }
  destruct Hm as (_ & _ & Hok). specialize (Hok b (abs_state st)). rewrite abs_lookup, E in Hok.
  destruct (Hok eq_refl) as (_ & H2 & H3). lia.
Qed.

Definition reclaim (x : BudgetManager.t) (r : Reservation.t) : BudgetManager.t :=
  if reclaims r && BudgetManager.has x (Reservation.budget r)
  then (BudgetManager.reserve x (Reservation.budget r) (Reservation.reserved_power r) (Reservation.id r) (Reservation.budget_generation r)).2
  else x.

Lemma reclaims_grid (r : Reservation.t) : grid (value (Reservation.reserved_power r)) ->
  (Reservation.state r = RESERVED \/ Reservation.state r = ADMITTED \/ Reservation.state r = ACTIVE) ->
  reclaims r = negb (steps (value (Reservation.reserved_power r)) =? 0).
Proof.
  intros Hg Hs. pose proof (grid_steps _ Hg) as ([Hfin _] & Hv & Hb). unfold reclaims, is_positive.
  rewrite ltb_val, val_zero by (reflexivity || exact Hfin). rewrite Hv. pose proof step_pos.
  replace (0 <? _) with (negb (steps (value (Reservation.reserved_power r)) =? 0)) by nia.
  destruct Hs as [-> | [-> | ->]]; reflexivity.
Qed.

Lemma reclaim_step (l rest : list Reservation.t) (r : Reservation.t) (x : BudgetManager.t) :
  rl = l ++ r :: rest -> reclaimed l x -> reclaimed (l ++ [r]) (reclaim x r).
Proof.
  intros Erl Hx. assert (Hr : r ∈ rl) by (rewrite Erl; apply elem_of_app; right; left).
  pose proof Hgrid as Hg. pose proof Hrl as Hc. rewrite Forall_forall in Hg, Hc. specialize (Hg r Hr). specialize (Hc r Hr).
  assert (Hzero : (forall b, share m b r = 0) -> reclaimed (l ++ [r]) x).
  { intros H0. destruct Hx. split; try assumption. intros b. rewrite list_sum_app. cbn [list_sum foldr]. rewrite H0, rcl_held0. lia. }
  assert (Hdec : holds_power r \/ ~ holds_power r).
  { unfold holds_power. destruct (decide (Reservation.state r = RELEASED)); [tauto|].
    destruct (Z.eq_dec (steps (value (Reservation.reserved_power r))) 0); tauto. }
  destruct Hdec as [Hh|Hh].
  - destruct (Hc Hh) as (Hs & st & E & Egen & Hauth). destruct (reclaimed_lookup _ _ _ _ Hx E) as (st' & E' & Ec).
    assert (Hns : Reservation.state r <> RELEASED) by apply Hh.
    destruct (reserve_accepted x (Reservation.budget r) (Reservation.reserved_power r) (Reservation.id r) st' (rcl_grid _ _ Hx) Hg E')
      as [x' Ex'].
    { rewrite Ec. exact Hauth. }
    { intros b Hb. assert (Hu : under m (Reservation.budget r) b = true).
      { rewrite <- (rcl_under _ _ Hx). apply bool_decide_eq_true. exact Hb. }
      destruct (chain_installed m (Reservation.budget r) b Hf ltac:(eauto)) as [stb Eb]; [apply bool_decide_eq_true in Hu; exact Hu|].
      destruct (reclaimed_lookup _ _ _ _ Hx Eb) as (stb' & Eb' & _). exists stb'. split; [exact Eb'|].
      eapply reclaim_room; eassumption. }
    unfold reclaim. rewrite reclaims_grid by assumption. unfold BudgetManager.has. rewrite E'.
    rewrite (proj2 (Z.eqb_neq _ _) (proj2 Hh)). cbn [negb andb]. rewrite bool_decide_true by eauto.
    rewrite Ec in Ex'. cbn [persisted_budget PowerBudget.generation] in Ex'. rewrite Egen in Ex'. rewrite Ex'. cbn [snd].
    destruct (reserve_law _ _ _ _ _ _ (rcl_grid _ _ Hx) Hg Ex') as (Hgx & Hux & Hhx & Hsx). destruct Hx. split.
    + exact Hgx.
    + apply BudgetFacts.reserve_true in Ex' as (_ & _ & _ & ->). rewrite update_chain_cfg by apply BudgetFacts.set_reserved_keeps. assumption.
    + intros i b. rewrite Hux. auto.
    + intros b. assert (Es : share m b r = if under m (Reservation.budget r) b then steps (value (Reservation.reserved_power r)) else 0).
      { unfold share. rewrite bool_decide_false by exact Hns. reflexivity. }
      rewrite Hhx, rcl_held0, list_sum_app, rcl_under0. cbn [list_sum foldr]. rewrite Es. lia.
    + intros b. rewrite Hsx. auto.
  - pose proof (fun b => share_positive b r Hh) as H0. unfold reclaim. destruct (_ && _) eqn:Er; [|apply Hzero, H0].
    apply andb_prop in Er as [Er _]. exfalso. apply Hh. unfold reclaims in Er. apply andb_prop in Er as [Est Epos].
    split; [intros E; rewrite E in Est; discriminate|]. unfold is_positive in Epos.
    pose proof (grid_steps _ Hg) as ([Hfin _] & Hv & Hb).
    rewrite ltb_val, val_zero in Epos by (reflexivity || exact Hfin). intros E0. rewrite Hv, E0 in Epos. lia.
Qed.

Lemma reclaim_all (l rest : list Reservation.t) (x : BudgetManager.t) :
  rl = l ++ rest -> reclaimed l x -> reclaimed rl (fold_left reclaim rest x).
Proof.
  revert l x. induction rest as [|r rest IH]; intros l x Erl Hx; cbn [fold_left].
  - rewrite app_nil_r in Erl. subst. exact Hx.
  - apply (IH (l ++ [r])); [rewrite <- app_assoc; exact Erl|]. eapply reclaim_step; eassumption.
Qed.
End Reclaim.

(** ** The recovered budgets *)
Lemma restored_budgets (r : Reservation.t) (x : t) : budgets (restored r x) = reclaim (budgets x) r.
Proof. unfold restored, reindexed, reclaim. cbn [budgets set_index set_rm rm ReservationManager.set_map ReservationManager.budgets]. destruct (_ && _); reflexivity. Qed.

Lemma recovered_budgets_reclaimed (clock : Timestamp) (g g0 : t) bl rl ml : storable g -> listing g bl rl ml -> nothing_installed g0 ->
  budgets (recovered_governor clock g g0 bl rl ml) = fold_left reclaim rl (fresh_of <$> budgets g).
Proof.
  intros Hg Hl Hg0. unfold recovered_governor, with_meters. change (budgets (invalidate_live_telemetry_locked ?x)) with (budgets x).
  rewrite (fold_keeps budgets) by reflexivity. unfold with_reservations.
  rewrite (fold_project budgets _ reclaim) by (intros; apply restored_budgets). rewrite (with_budgets_table g g0 bl rl ml) by assumption.
  reflexivity.
Qed.

Lemma listed_shares (g : t) bl rl ml (b : BudgetId) : listing g bl rl ml -> accounted (rm g) ->
  held (budgets g) b = list_sum (share (budgets g) b) rl.
Proof.
  intros Hl (_ & _ & Hh). specialize (Hh b). rewrite map_sum_list in Hh.
  rewrite (list_sum_perm _ _ _ (ls_reservations _ _ _ _ Hl)). exact Hh.
Qed.

(** C7: recovery restores the accounting.  Take a governor whose accounting, on the grid
    (multiples of [2^-28] W below [2^24] W), is the one of its reservations; in which every
    reservation that holds power is reserved, admitted or active under the current
    generation of an authoritative budget; and which the format can hold exactly: every
    amount is finite, not negative and unchanged by its encoding in thousandths (which not
    every amount of the grid is), every parent is installed and there is no cycle, each of
    the three tables has at most 100000 entries, identifiers, times and lengths of names fit
    their fields, and identifiers of reservations are valid.  When [save] succeeds, and a
    governor with nothing installed loads the file, then every booking is accepted again:
    the power reserved on each budget is exactly what it was.  The power that was used is
    not: it starts again from zero. *)
Theorem reserved_power_recovered (clock clock' : Timestamp) (env : io) (path : string) (fs : files) (g g' g0 : t) (states : list files) :
  storable g -> nothing_installed g0 -> accounted (rm g) ->
  (forall id r, ReservationManager.map_ (rm g) !! id = Some r -> holds_power r -> reclaimable (budgets g) r) ->
  save clock env path fs g = (Ret (true, states), g') ->
  exists fs' g1, last states = Some fs' /\ load clock' path fs' g0 = (Ret true, g1) /\
    forall b st, budgets g !! b = Some st ->
      exists st1, budgets g1 !! b = Some st1 /\
        val (value (BudgetManager.reserved_ st1)) = val (value (BudgetManager.reserved_ st)) /\
        val (value (BudgetManager.used_ st1)) = 0.
Proof.
  intros Hg Hg0 Ha Hr Hs. pose proof (own_listing g) as Hl.
  destruct (saved_loads clock clock' env path fs g g' g0 states Hg Hg0 Hs) as (fs' & g1 & h & El & Eld & E1).
  exists fs'. eexists. split; [exact El|]. split; [exact Eld|]. intros b st E.
  change (budgets (set_history h g1)) with (budgets g1). rewrite E1, recovered_budgets_reclaimed by assumption.
  set (rl := ReservationManager.all (rm g)) in *. pose proof (proj1 Ha) as Hgr.
  assert (Hkeyed : keyed (budgets g)) by (intros k s Ek; apply (st_budgets _ Hg _ _ Ek)).
  assert (Hforest : forest (budgets g)) by (apply validated_forest; [exact Hkeyed|apply Hg]).
  pose proof (listed_reservations g _ _ _ Hg Hl) as Hlr.
  assert (Hx : reclaimed (budgets g) rl (fold_left reclaim rl (fresh_of <$> budgets g))).
  { apply (reclaim_all (budgets g) Hgr Hforest rl) with (l := []).
    - eapply Forall_impl; [exact Hlr|]. intros r [_ Er]. apply (proj1 (proj2 Ha) _ _ Er).
    - intros b'. apply (listed_shares g _ _ _ b' Hl Ha).
    - eapply Forall_impl; [exact Hlr|]. intros r [_ Er]. apply (Hr _ _ Er).
    - reflexivity.
    - apply reclaimed_start, Hgr. }
  destruct (reclaimed_lookup _ _ _ _ _ Hx E) as (st1 & Est1 & _). exists st1. split; [exact Est1|].
  pose proof (rcl_held _ _ _ Hx b) as Hh. pose proof (rcl_spent _ _ _ Hx b) as Hsp. unfold held, spent in Hh, Hsp.
  rewrite <- (listed_shares g _ _ _ b Hl Ha) in Hh. unfold held in Hh. rewrite !abs_lookup, E, Est1 in Hh. rewrite abs_lookup, Est1 in Hsp.
  cbn in Hh, Hsp. destruct (proj1 (rcl_grid _ _ _ Hx) _ _ Est1) as (_ & (_ & Hv1 & _)%grid_steps & (_ & Hu1 & _)%grid_steps).
  destruct (proj1 Hgr _ _ E) as (_ & (_ & Hv & _)%grid_steps & _). rewrite Hv1, Hv, Hu1, Hh, Hsp. split; [reflexivity|lia].
Qed.

(** Two reservations on a budget and its parent, one of them active. *)
Definition reclaim_events : list event :=
  [EvInstallBudget (mkTime 1) rack; EvInstallBudget (mkTime 2) node; sample_plan; sample_plan;
   EvReserve (mkId 1) (mkGen 1) (mkTime 6); EvActivate (mkId 1) (mkGen 1) (mkTime 7);
   EvReserve (mkId 2) (mkGen 1) (mkTime 8)].
Definition reclaim_state : t := history_of reclaim_events sample_governor.

Definition reclaim_ops : list ReservationManager.op :=
  let plan := ReservationManager.OpPlan (mkId 9) THROUGHPUT (mkId 1) leaf_id (mkQ 20) J0 gen_first gen_first
                (make_envelope (history_of (take 2 reclaim_events) sample_governor)) (mkTime 5) (mkDuration 1000) in
  [plan; plan; ReservationManager.OpReserve (mkId 1) (mkGen 1) (mkTime 6); ReservationManager.OpActivate (mkId 1) (mkGen 1) (mkTime 7);
   ReservationManager.OpReserve (mkId 2) (mkGen 1) (mkTime 8)].

Lemma reclaim_state_accounted : accounted (rm reclaim_state).
Proof.
  assert (E : rm reclaim_state = run_ops reclaim_ops start) by (vm_compute; reflexivity). rewrite E.
  apply run_ops_accounted; [|apply fresh_accounted; [apply two_levels_gridded|apply start_held]].
  repeat constructor; cbn; apply gridb_spec; vm_compute; reflexivity.
Qed.

Definition reclaimableb (m : BudgetManager.t) (r : Reservation.t) : bool :=
  (bool_decide (Reservation.state r = RESERVED) || bool_decide (Reservation.state r = ADMITTED) || bool_decide (Reservation.state r = ACTIVE)) &&
  match m !! Reservation.budget r with
  | Some st => gen_eqb (PowerBudget.generation (BudgetManager.cfg st)) (Reservation.budget_generation r)
               && PowerBudget.authoritative (BudgetManager.cfg st)
  | None => false
  end.

Lemma reclaimableb_spec (m : BudgetManager.t) (r : Reservation.t) : reclaimableb m r = true -> reclaimable m r.
Proof.
  unfold reclaimableb, reclaimable. intros [Hs H]%andb_prop. split.
  - rewrite !orb_true_iff, !bool_decide_eq_true in Hs. tauto.
  - destruct (m !! Reservation.budget r) as [st|]; [|discriminate]. apply andb_prop in H as [Hg Ha].
    exists st. apply gen_eqb_eq in Hg. auto.
Qed.

Lemma reserved_power_recovered_witness :
  BudgetManager.reserved (budgets reclaim_state) root_id = mkQ 40 /\ BudgetManager.used (budgets reclaim_state) root_id = mkQ 20 /\
  exists fs' g1, last (saved_files reclaim_state) = Some fs' /\ load (mkTime 20) "state" fs' sample_governor = (Ret true, g1) /\
    forall b st, budgets reclaim_state !! b = Some st ->
      exists st1, budgets g1 !! b = Some st1 /\
        val (value (BudgetManager.reserved_ st1)) = val (value (BudgetManager.reserved_ st)) /\
        val (value (BudgetManager.used_ st1)) = 0.
Proof.
  split; [vm_compute; reflexivity|]. split; [vm_compute; reflexivity|].
  apply (reserved_power_recovered (mkTime 9) (mkTime 20) saving_io "state" ∅ reclaim_state (governor_saved reclaim_state) sample_governor).
  - apply storableb_spec. vm_compute. reflexivity.
  - split_and!; reflexivity.
  - apply reclaim_state_accounted.
  - intros i r E _. apply reclaimableb_spec.
    apply (table_forallb (fun p => reclaimableb (budgets reclaim_state) p.2) (ReservationManager.map_ (rm reclaim_state))) in E;
      [exact E|]. vm_compute. reflexivity.
  - vm_compute. reflexivity.
Defined.

(** A budget whose generation moved on refuses the booking of an older reservation, and
    the refusal is ignored: the power it held is forgotten by the recovery. *)
Definition renewed (b : PowerBudget.t) : PowerBudget.t :=
  PowerBudget.mk (PowerBudget.id b) (mkGen 2) (PowerBudget.domain b) (PowerBudget.policy_generation b) (PowerBudget.parent b)
    (PowerBudget.name b) (PowerBudget.hard_max b) (PowerBudget.soft_target b) (PowerBudget.min_reserve b)
    (PowerBudget.burst_allowance b) (PowerBudget.burst_window b) (PowerBudget.recovery b) (PowerBudget.priority b)
    (PowerBudget.authoritative b).
Definition renewed_state : t := after (EvInstallBudget (mkTime 9) (renewed node)) reclaim_state.

Lemma renewed_budget_forgets :
  BudgetManager.reserved (budgets renewed_state) leaf_id = mkQ 40 /\
  (reloaded renewed_state).1 = Ret true /\
  BudgetManager.reserved (budgets (reloaded renewed_state).2) leaf_id = mkQ 0 /\
  reservation_state (reloaded renewed_state).2 (mkId 1) = reservation_state renewed_state (mkId 1).
Proof. vm_compute. split_and!; reflexivity. Qed.
