(* ===== verification/Scan.v ===== *)
(** * Reading integers from text ([std::stoull] and [std::sscanf])

    The decimal conversions of the C++ standard library that the tools use to read
    what the operator types and what the coordinator answers: white space, an
    optional sign, digits.  [stoull_to_string] is the round trip with
    [std::to_string]. *)
From Stdlib Require Import Ascii.
From S2P Require Import Prelude Util.
From stdpp Require Import pretty.
Local Open Scope Z_scope.

(** [std::isspace] in the C locale. *)
Definition is_space (c : ascii) : bool := (byte_of_char c =? 32) || ((9 <=? byte_of_char c) && (byte_of_char c <=? 13)).
Definition digit_of (c : ascii) : option Z :=
  if (48 <=? byte_of_char c) && (byte_of_char c <=? 57) then Some (byte_of_char c - 48) else None.

Fixpoint skip_spaces (l : list ascii) : list ascii :=
  match l with c :: l' => if is_space c then skip_spaces l' else l | [] => [] end.

Definition sign (l : list ascii) : bool * list ascii :=
  match l with
  | c :: l' => if byte_of_char c =? 45 then (true, l') else if byte_of_char c =? 43 then (false, l') else (false, l)
  | [] => (false, [])
  end.

(** The digits at the front, and what follows them. *)
Fixpoint digits (acc : Z) (l : list ascii) : Z * list ascii :=
  match l with
  | c :: l' => match digit_of c with Some d => digits (10 * acc + d) l' | None => (acc, l) end
  | [] => (acc, [])
  end.

(** The subject sequence of a conversion: its sign and magnitude, if there is one. *)
Definition subject (l : list ascii) : option (bool * Z * list ascii) :=
  let '(neg, l) := sign (skip_spaces l) in
  match l with
  | c :: _ => match digit_of c with Some _ => let '(v, rest) := digits 0 l in Some (neg, v, rest) | None => None end
  | [] => None
  end.

Definition stoull (s : string) : outcome Z :=
  match subject (String.list_ascii_of_string s) with
  | None => Throw (invalid_argument "stoull")
  | Some (neg, v, _) => if 2 ^ 64 - 1 <? v then Throw (out_of_range "stoull") else Ret (u64 (if neg then - v else v))
  end.

(** The conversions [%ld] and [%llu]; [long] has 32 bits on the platform of the
    sockets the tools use.  A number that does not fit is undefined behaviour. *)
Inductive conversion := Ld | Llu.

Definition in_i32b (z : Z) : bool := (- 2 ^ 31 <=? z) && (z <? 2 ^ 31).
Definition convert (c : conversion) (neg : bool) (v : Z) : outcome Z :=
  let z := if neg then - v else v in
  match c with
  | Ld => if in_i32b z then Ret z else Undefined
  | Llu => if v <? 2 ^ 64 then Ret (u64 z) else Undefined
  end.

(** The items assigned: the conversions stop at the first that does not match. *)
Fixpoint scan (fmt : list conversion) (l : list ascii) : outcome (list Z) :=
  match fmt with
  | [] => Ret []
  | c :: fmt =>
      match subject l with
      | None => Ret []
      | Some (neg, v, rest) =>
          let! z := convert c neg v in
          let! zs := scan fmt rest in
          Ret (z :: zs)
      end
  end.

(** [sscanf] with a format that is a word and its conversions, on a text that starts
    with the word. *)
Definition sscanf (word : string) (fmt : list conversion) (text : string) : outcome (list Z) :=
  scan fmt (drop (String.length word) (String.list_ascii_of_string text)).

(** ** Ranges *)
Definition converted (c : conversion) (z : Z) : Prop :=
  match c with Ld => - 2 ^ 31 <= z < 2 ^ 31 | Llu => in_u 64 z end.

Lemma convert_range (c : conversion) (neg : bool) (v z : Z) : convert c neg v = Ret z -> converted c z.
Proof.
  destruct c; unfold convert, converted, in_i32b.
  - destruct (_ && _) eqn:E; [|discriminate]. intros [= <-]. bool_hyps. lia.
  - destruct (v <? 2 ^ 64); [|discriminate]. intros [= <-]. apply wrap_range. lia.
Qed.

Lemma scan_range (fmt : list conversion) (l : list ascii) (zs : list Z) :
  scan fmt l = Ret zs -> length zs = length fmt -> Forall2 converted fmt zs.
Proof.
  revert l zs. induction fmt as [|c fmt IH]; intros l zs; cbn [scan].
  { intros [= <-] _. constructor. }
  destruct (subject l) as [[[neg v] rest]|]; [|intros [= <-]; discriminate].
  intros H. apply obind_Ret in H as (z & Ez & H). apply obind_Ret in H as (zs' & Ezs & H). injection H as <-.
  intros [= Hlen]. constructor; [eapply convert_range; eassumption|eapply IH; eassumption].
Qed.

(** ** The round trip of [std::to_string] and [std::stoull] *)
Lemma digit_of_char (x : N) : (x < 10)%N -> digit_of (pretty_N_char x) = Some (Z.of_N x).
Proof.
  intros H. assert (In x [0; 1; 2; 3; 4; 5; 6; 7; 8; 9]%N) as Hin by (cbn; lia).
  cbn in Hin. repeat (destruct Hin as [<-|Hin]; [reflexivity|]). contradiction.
Qed.

Lemma digits_pretty (x : N) (s : string) :
  digits 0 (String.list_ascii_of_string (pretty_N_go x s)) = digits (Z.of_N x) (String.list_ascii_of_string s).
Proof.
  revert s. induction (N.lt_wf_0 x) as [x _ IH]; intros s. destruct (decide (x = 0)%N) as [->|Hx].
  { rewrite pretty_N_go_0. reflexivity. }
  rewrite pretty_N_go_step by lia. rewrite IH by (apply N.div_lt; lia).
  cbn [String.list_ascii_of_string digits]. pose proof (N.mod_lt x 10 ltac:(lia)).
  rewrite digit_of_char by assumption. f_equal. pose proof (N.div_mod x 10 ltac:(lia)). lia.
Qed.

(** A number is rendered as at least one character, the first of which is a digit. *)
Lemma pretty_front (x : N) (s : string) : (0 < x)%N ->
  exists c l, String.list_ascii_of_string (pretty_N_go x s) = c :: l /\ is_Some (digit_of c).
Proof.
  revert s. induction (N.lt_wf_0 x) as [x _ IH]; intros s Hx. rewrite pretty_N_go_step by assumption.
  destruct (decide (x / 10 = 0)%N) as [E|E].
  - rewrite E, pretty_N_go_0. eexists _, _. split; [reflexivity|].
    rewrite digit_of_char by (apply N.mod_lt; lia). eauto.
  - apply IH; [apply N.div_lt; lia|apply N.neq_0_lt_0, E].
Qed.

Lemma digit_plain (c : ascii) (l : list ascii) : is_Some (digit_of c) -> sign (skip_spaces (c :: l)) = (false, c :: l).
Proof.
  unfold digit_of. intros [d Hd]. split_match_in Hd; [|discriminate]. bool_hyps.
  cbn [skip_spaces]. unfold is_space.
  replace ((byte_of_char c =? 32) || (9 <=? byte_of_char c) && (byte_of_char c <=? 13)) with false by lia.
  unfold sign. replace (byte_of_char c =? 45) with false by lia. replace (byte_of_char c =? 43) with false by lia. reflexivity.
Qed.

Lemma stoull_to_string (z : Z) : in_u 64 z -> stoull (to_string_int z) = Ret z.
Proof.
  intros Hz. unfold in_u in Hz. unfold stoull, to_string_int.
  destruct (decide (z = 0)) as [->|Hne]; [reflexivity|].
  assert (E : String.list_ascii_of_string (pretty z) = String.list_ascii_of_string (pretty_N_go (Z.to_N z) "")).
  { destruct z as [|p|p]; [lia| |lia]. reflexivity. }
  rewrite E. destruct (pretty_front (Z.to_N z) EmptyString ltac:(lia)) as (c & l & El & Hc).
  unfold subject. rewrite El, digit_plain by assumption. destruct Hc as [d Hd]. rewrite Hd, <- El, digits_pretty.
  cbn [digits String.list_ascii_of_string]. rewrite Z2N.id by lia.
  destruct (Z.ltb_spec (2 ^ 64 - 1) z); [lia|]. f_equal. apply wrap_small. exact Hz.
Qed.

(** What follows a rendered number. *)
Lemma pretty_app (x : N) (s t : string) : (pretty_N_go x s +:+ t = pretty_N_go x (s +:+ t))%string.
Proof.
  revert s. induction (N.lt_wf_0 x) as [x _ IH]; intros s. destruct (decide (x = 0)%N) as [->|Hx].
  { rewrite !pretty_N_go_0. reflexivity. }
  rewrite !(pretty_N_go_step x) by lia. rewrite IH by (apply N.div_lt; lia). reflexivity.
Qed.

(** A number has at most as many decimal digits as binary ones. *)
Lemma pretty_length (k : nat) (x : N) (s : string) : (x < 2 ^ N.of_nat k)%N ->
  (String.length (pretty_N_go x s) <= k + String.length s)%nat.
Proof.
  revert x s. induction k as [|k IH]; intros x s Hx.
  { assert (x = 0%N) as -> by (cbn in Hx; lia). rewrite pretty_N_go_0. lia. }
  destruct (decide (x = 0)%N) as [->|Hne]; [rewrite pretty_N_go_0; lia|].
  rewrite pretty_N_go_step by lia. etransitivity; [apply IH|cbn [String.length]; lia].
  rewrite Nat2N.inj_succ, N.pow_succ_r' in Hx. apply N.Div0.div_lt_upper_bound. lia.
Qed.

Lemma to_string_length (z : Z) : in_u 64 z -> (String.length (to_string_int z) <= 64)%nat.
Proof.
  intros Hz. unfold in_u in Hz. destruct z as [|p|p]; [cbn; lia| |lia].
  change (to_string_int (Z.pos p)) with (pretty_N_go (N.pos p) ""). etransitivity; [apply (pretty_length 64); lia|reflexivity].
Qed.
