(* ===== verification/Strtod.v ===== *)
(** * Reading floating-point numbers from text ([std::atof], [%lf])

    The conversions of the C++ standard library from decimal and hexadecimal numerals to
    doubles, in the C locale, rounded to nearest even (the characters that may follow
    [nan] in parentheses are not read); and [sscanf] with the conversions
    the coordinator uses.  [number_text] is the round trip with whole numbers. *)
From Stdlib Require Import Ascii SpecFloat.
From stdpp Require Import pretty.
From S2P Require Import Prelude Rounding Binary64 Util Scan.
Local Open Scope Z_scope.
#[local] Set Warnings "-inexact-float".

(** ** The value of a numeral *)

(** The double nearest to [n / d]: the quotient to 66 bits or more, and whether it is exact. *)
Definition ratio_sf (neg : bool) (n d : Z) : spec_float :=
  if n =? 0 then S754_zero neg
  else
    let k := Z.max 0 (Zdigits2 d - Zdigits2 n + 66) in
    let '(q, r) := Z.div_eucl (n * 2 ^ k) d in
    let m := 2 * q + (if r =? 0 then 0 else 1) in
    binary_normalize prec emax (if neg then - m else m) (- k - 1) neg.

(** [m * 10^e]; beyond the range of doubles the powers are not computed. *)
Definition decimal_sf (neg : bool) (m e : Z) : spec_float :=
  if m =? 0 then S754_zero neg
  else if 400 <? e then S754_infinity neg
  else if e + Zdigits2 m <? -400 then S754_zero neg
  else if 0 <=? e then binary_normalize prec emax (if neg then - (m * 10 ^ e) else m * 10 ^ e) 0 neg
  else ratio_sf neg m (10 ^ (- e)).

(** [m * 2^e]. *)
Definition hexadecimal_sf (neg : bool) (m e : Z) : spec_float :=
  if m =? 0 then S754_zero neg
  else if 1100 <? e then S754_infinity neg
  else if e + Zdigits2 m <? -1200 then S754_zero neg
  else binary_normalize prec emax (if neg then - m else m) e neg.

(** ** The grammar *)
Definition lower (c : ascii) : ascii :=
  if (65 <=? byte_of_char c) && (byte_of_char c <=? 90) then ascii_of_nat (Z.to_nat (byte_of_char c + 32)) else c.
Definition is_char (c : ascii) (z : Z) : bool := byte_of_char (lower c) =? z.

Fixpoint word_at (w : list Z) (l : list ascii) : option (list ascii) :=
  match w, l with
  | [], _ => Some l
  | z :: w, c :: l => if is_char c z then word_at w l else None
  | _, [] => None
  end.

Definition hex_digit_of (c : ascii) : option Z :=
  match digit_of c with
  | Some d => Some d
  | None => let b := byte_of_char (lower c) in if (97 <=? b) && (b <=? 102) then Some (b - 87) else None
  end.

(** Digits in a base, with how many there were. *)
Fixpoint run_digits (base : Z) (digit : ascii -> option Z) (acc count : Z) (l : list ascii) : Z * Z * list ascii :=
  match l with
  | c :: l' => match digit c with Some d => run_digits base digit (base * acc + d) (count + 1) l' | None => (acc, count, l) end
  | [] => (acc, count, [])
  end.

(** Digits, a point, digits: the mantissa, how many of its digits follow the point, and
    whether there was any digit. *)
Definition mantissa (base : Z) (digit : ascii -> option Z) (l : list ascii) : Z * Z * bool * list ascii :=
  let '(m, n, l1) := run_digits base digit 0 0 l in
  match l1 with
  | c :: l2 =>
      if byte_of_char c =? 46 then
        let '(m', n', l3) := run_digits base digit m 0 l2 in
        if (n =? 0) && (n' =? 0) then (0, 0, false, l) else (m', n', true, l3)
      else (m, 0, negb (n =? 0), l1)
  | [] => (m, 0, negb (n =? 0), l1)
  end.

(** The exponent after [mark]: none, one, or a mark that no digits follow. *)
Inductive exponent := NoExponent | Exponent (e : Z) (rest : list ascii) | Dangling.
Definition read_exponent (mark : Z) (l : list ascii) : exponent :=
  match l with
  | c :: l' =>
      if is_char c mark then
        let '(neg, l1) := sign l' in
        let '(e, n, l2) := run_digits 10 digit_of 0 0 l1 in
        if n =? 0 then Dangling else Exponent (if neg then - e else e) l2
      else NoExponent
  | [] => NoExponent
  end.

(** A number at the front of the text and what follows it.  [strict] is [scanf], which
    takes an exponent that is begun and not completed for a failure; [strtod] goes back
    to the mantissa. *)
Definition with_exponent (strict : bool) (mark : Z) (l : list ascii) (k : Z -> double) : option (double * list ascii) :=
  match read_exponent mark l with
  | NoExponent => Some (k 0, l)
  | Exponent e rest => Some (k e, rest)
  | Dangling => if strict then None else Some (k 0, l)
  end.

Definition decimal (strict neg : bool) (l : list ascii) : option (double * list ascii) :=
  let '(m, f, some, l1) := mantissa 10 digit_of l in
  if (some : bool) then with_exponent strict 101 l1 (fun e => SF2Prim (decimal_sf neg m (e - f))) else None.

Definition hexadecimal (strict neg : bool) (l : list ascii) : option (double * list ascii) :=
  let '(m, f, some, l1) := mantissa 16 hex_digit_of l in
  if (some : bool) then with_exponent strict 112 l1 (fun e => SF2Prim (hexadecimal_sf neg m (e - 4 * f))) else None.

Definition infinite (neg : bool) : double := SF2Prim (S754_infinity neg).

Definition number (strict : bool) (l : list ascii) : option (double * list ascii) :=
  let '(neg, l) := sign (skip_spaces l) in
  match word_at [105; 110; 102; 105; 110; 105; 116; 121] l with   (* infinity *)
  | Some rest => Some (infinite neg, rest)
  | None =>
      match word_at [105; 110; 102] l with                        (* inf *)
      | Some rest => if strict && match rest with c :: _ => is_char c 105 | [] => false end then None else Some (infinite neg, rest)
      | None =>
          match word_at [110; 97; 110] l with                     (* nan *)
          | Some rest => Some (SF2Prim S754_nan, rest)
          | None =>
              match word_at [48; 120] l with                      (* 0x *)
              | Some rest =>
                  match hexadecimal strict neg rest with
                  | Some r => Some r
                  | None => if strict then None else decimal strict neg l
                  end
              | None => decimal strict neg l
              end
          end
      end
  end.

(** [std::atof]: zero when there is no number. *)
Definition atof (s : string) : double :=
  match number false (String.list_ascii_of_string s) with Some (x, _) => x | None => 0%float end.

(** ** [sscanf] with [%llu] and [%lf] *)
Inductive item := ItemInt (z : Z) | ItemDouble (x : double).
Inductive item_conversion := CLlu | CLf.

Fixpoint scan_items (fmt : list item_conversion) (l : list ascii) : outcome (list item) :=
  match fmt with
  | [] => Ret []
  | CLlu :: fmt =>
      match subject l with
      | None => Ret []
      | Some (neg, v, rest) => let! z := convert Llu neg v in let! r := scan_items fmt rest in Ret (ItemInt z :: r)
      end
  | CLf :: fmt =>
      match number true l with
      | None => Ret []
      | Some (x, rest) => let! r := scan_items fmt rest in Ret (ItemDouble x :: r)
      end
  end.

(** ** Examples *)
Example atof_examples :
  atof "402.5" = 402.5%float /\ atof "0.1" = 0.1%float /\ atof "  +1e-9W" = 1e-9%float /\ atof "1e" = 1%float /\
  atof "x" = 0%float /\ atof "-.5" = (-0.5)%float /\ atof "0x1.8p1" = 3%float /\ atof "1e400" = infinite false /\
  atof "2.2250738585072011e-308" = 2.2250738585072011e-308%float /\ atof "4.9e-324" = 4.9e-324%float /\
  atof "9007199254740993" = 9007199254740992%float /\ atof "123456789012345678901234567890" = 123456789012345678901234567890%float.
Proof. vm_compute. split_and!; reflexivity. Qed.

Example scan_refuses_dangling_exponent :
  number true (String.list_ascii_of_string "1e") = None /\ number false (String.list_ascii_of_string "1e") <> None.
Proof. vm_compute. split; [reflexivity|discriminate]. Qed.

(** ** Whole numbers *)
Definition terminated (rest : list ascii) : Prop := match rest with [] => True | c :: _ => is_space c = true end.

Lemma run_digits_digits (l : list ascii) (acc n : Z) : 0 <= n ->
  exists k, run_digits 10 digit_of acc n l = ((digits acc l).1, k, (digits acc l).2) /\ n <= k /\
    (forall c l', l = c :: l' -> is_Some (digit_of c) -> n < k).
Proof.
  revert acc n. induction l as [|c l IH]; intros acc n Hn; cbn [run_digits digits].
  - exists n. split; [reflexivity|]. split; [lia|discriminate].
  - destruct (digit_of c) as [d|] eqn:E.
    + destruct (IH (10 * acc + d) (n + 1) ltac:(lia)) as (k & Ek & Hk & _). exists k. split; [exact Ek|]. split; [lia|]. intros; lia.
    + exists n. split; [reflexivity|]. split; [lia|]. intros c' l' [= <- _] [x Hx]. congruence.
Qed.

Lemma char_of_space (c : ascii) (z : Z) : is_space c = true -> 32 < z -> is_char c z = false.
Proof.
  unfold is_space, is_char, lower. intros H Hz.
  destruct ((65 <=? byte_of_char c) && (byte_of_char c <=? 90)) eqn:E; bool_hyps; lia.
Qed.

Lemma char_of_digit (c : ascii) (z : Z) : is_Some (digit_of c) -> 57 < z -> is_char c z = false.
Proof.
  unfold digit_of, is_char, lower. intros [d Hd] Hz. destruct (_ && _) eqn:E in Hd; [|discriminate].
  destruct ((65 <=? byte_of_char c) && (byte_of_char c <=? 90)) eqn:E'; bool_hyps; lia.
Qed.

(** After the digits of a number that ends there, there is no exponent. *)
Lemma no_exponent (strict : bool) (rest : list ascii) (k : Z -> double) : terminated rest ->
  with_exponent strict 101 rest k = Some (k 0, rest).
Proof.
  intros Ht. unfold with_exponent, read_exponent. destruct rest as [|c rest]; [reflexivity|].
  cbn in Ht. rewrite (char_of_space c 101 Ht ltac:(lia)). reflexivity.
Qed.

Lemma decimal_digits (strict : bool) (l rest : list ascii) (c : ascii) (l' : list ascii) (z : Z) :
  l = c :: l' -> is_Some (digit_of c) -> digits 0 l = (z, rest) -> terminated rest -> 0 <= z ->
  decimal strict false l = Some (double_of_Z z, rest).
Proof.
  intros El Hc Hd Ht Hz. unfold decimal, mantissa. destruct (run_digits_digits l 0 0 ltac:(lia)) as (k & Ek & _ & Hk).
  specialize (Hk c l' El Hc). rewrite Ek, Hd. cbn [fst snd].
  assert (E : SF2Prim (decimal_sf false z (0 - 0)) = double_of_Z z).
  { unfold decimal_sf, double_of_Z. destruct (Z.eqb_spec z 0) as [->|Hz0]; [reflexivity|]. cbn [Z.sub].
    pose proof (Zdigits2_pos z ltac:(lia)). change (400 <? 0 - 0) with false. cbn iota.
    replace (0 - 0 + Zdigits2 z <? -400) with false by lia. change (0 <=? 0 - 0) with true. cbn iota.
    change (10 ^ (0 - 0)) with 1. rewrite Z.mul_1_r. reflexivity. }
  destruct rest as [|c0 rest0].
  - replace (k =? 0) with false by lia. cbn [negb]. rewrite no_exponent by exact I. rewrite E. reflexivity.
  - assert (Hp : (byte_of_char c0 =? 46) = false).
    { cbn in Ht. unfold is_space in Ht. bool_hyps. lia. }
    rewrite Hp. replace (k =? 0) with false by lia. cbn [negb]. rewrite no_exponent by exact Ht. rewrite E. reflexivity.
Qed.

Lemma number_digits (strict : bool) (l rest : list ascii) (c : ascii) (l' : list ascii) (z : Z) :
  l = c :: l' -> is_Some (digit_of c) -> digits 0 l = (z, rest) -> terminated rest -> 0 <= z ->
  number strict l = Some (double_of_Z z, rest).
Proof.
  intros El Hc Hd Ht Hz. unfold number. rewrite El, digit_plain by exact Hc. cbn [word_at].
  rewrite (char_of_digit c 105), (char_of_digit c 110) by (exact Hc || lia).
  assert (Hx : match l' with c' :: l2 => if is_char c' 120 then word_at [] l2 else None | [] => None end = None).
  { destruct l' as [|c' l2]; [reflexivity|]. destruct (is_char c' 120) eqn:E; [exfalso|reflexivity].
    rewrite El in Hd. cbn [digits] in Hd. destruct Hc as [d Hc]. rewrite Hc in Hd.
    destruct (digit_of c') as [d'|] eqn:E'; [rewrite char_of_digit in E by (eauto || lia); discriminate|].
    injection Hd as _ <-. cbn in Ht. rewrite (char_of_space c' 120 Ht ltac:(lia)) in E. discriminate. }
  cbn [word_at] in Hx. destruct (is_char c 48); rewrite ?Hx; rewrite <- El; eapply decimal_digits; eassumption.
Qed.

(** A whole number, written as [std::to_string] writes it, is read as its double, by
    [%lf] and by [std::atof], and as itself by [%llu]. *)
Lemma text_of_number (z : Z) (rest : string) : 0 <= z ->
  exists c l', String.list_ascii_of_string (to_string_int z +:+ rest) = c :: l' /\ is_Some (digit_of c) /\
    digits 0 (c :: l') = digits z (String.list_ascii_of_string rest).
Proof.
  intros Hz. unfold to_string_int. destruct (decide (z = 0)) as [->|Hne].
  { exists "0"%char, (String.list_ascii_of_string rest). split; [reflexivity|]. split; [eexists; reflexivity|reflexivity]. }
  assert (E : (pretty z +:+ rest = pretty_N_go (Z.to_N z) rest)%string).
  { destruct z as [|p|p]; [lia| |lia]. etransitivity; [apply (pretty_app (N.pos p) EmptyString)|reflexivity]. }
  rewrite E. destruct (pretty_front (Z.to_N z) rest) as (c & l & El & Hc); [lia|]. exists c, l.
  split; [exact El|]. split; [exact Hc|]. rewrite <- El, digits_pretty, Z2N.id by lia. reflexivity.
Qed.

(** The text after a number, which must not extend it. *)
Lemma digits_terminated (z : Z) (rest : list ascii) : terminated rest -> digits z rest = (z, rest).
Proof.
  destruct rest as [|c rest]; [reflexivity|]. cbn [terminated digits]. intros H.
  unfold is_space in H. unfold digit_of. replace ((48 <=? byte_of_char c) && (byte_of_char c <=? 57)) with false by lia. reflexivity.
Qed.

Lemma number_text (strict : bool) (z : Z) (rest : string) : 0 <= z -> terminated (String.list_ascii_of_string rest) ->
  number strict (String.list_ascii_of_string (to_string_int z +:+ rest)) =
    Some (double_of_Z z, String.list_ascii_of_string rest).
Proof.
  intros Hz Ht. destruct (text_of_number z rest Hz) as (c & l & E & Hc & Hd). rewrite E.
  eapply number_digits; [reflexivity|exact Hc| |exact Ht|exact Hz]. rewrite Hd. apply digits_terminated, Ht.
Qed.

Lemma subject_text (z : Z) (rest : string) : 0 <= z -> terminated (String.list_ascii_of_string rest) ->
  subject (String.list_ascii_of_string (to_string_int z +:+ rest)) = Some (false, z, String.list_ascii_of_string rest).
Proof.
  intros Hz Ht. destruct (text_of_number z rest Hz) as (c & l & E & Hc & Hd).
  unfold subject. rewrite E, digit_plain by exact Hc. destruct Hc as [d Hc]. rewrite Hc, Hd, digits_terminated by exact Ht.
  reflexivity.
Qed.

(** White space in front is skipped. *)
Lemma subject_space (c : ascii) (l : list ascii) : is_space c = true -> subject (c :: l) = subject l.
Proof. intros H. unfold subject. cbn [skip_spaces]. rewrite H. reflexivity. Qed.
Lemma number_space (strict : bool) (c : ascii) (l : list ascii) : is_space c = true -> number strict (c :: l) = number strict l.
Proof. intros H. unfold number. cbn [skip_spaces]. rewrite H. reflexivity. Qed.

Lemma string_app_empty (s : string) : (s +:+ EmptyString = s)%string.
Proof. induction s as [|c s IH]; [reflexivity|]. change (String c (s +:+ EmptyString) = String c s). rewrite IH. reflexivity. Qed.

(** [std::atof] of a whole number. *)
Lemma atof_to_string (z : Z) : 0 <= z -> atof (to_string_int z) = double_of_Z z.
Proof.
  intros Hz. pose proof (number_text false z EmptyString Hz I) as H. unfold atof.
  rewrite string_app_empty in H. rewrite H. reflexivity.
Qed.
