(* ===== verification/Coordinator.v ===== *)
(** * The coordinator (tools/distributed.cpp)

    The coordinator serves its workers from one thread per connection.  A message is
    read off the connection, fenced under the lock of [CoordShared], and only then
    acted on, under the lock of the governor, in one section or, for a reservation, in
    two: [fence] and [act_section] are the critical sections.  [worker_step] runs them
    for any number of threads in any order, between the registrations of workers;
    [operator_step] runs the commands of the operator, among them a save, whose two
    sections others may come between.  An exception that leaves a thread ends the
    process. *)
From S2P Require Import Prelude Binary64 Util Units Ids Clock Budget Authority WorkloadClass Policy Energy.
From S2P Require Import Reservation ReservationSpec Backend DecisionEngine Wire Protocol Persistence Governor.
From S2P Require Import GovernorState.
Local Open Scope Z_scope.
#[local] Set Warnings "-inexact-float".

(** [CoordShared], with the governor it points to. *)
Record CoordShared := mkShared {
  gov : Governor.t;
  cs_epoch : CoordinatorEpoch;
  workers : gmap WorkerId WorkerBootId;
  obs_hwm : gmap WorkerId ObservationGeneration }.

Definition set_gov (g : Governor.t) (cs : CoordShared) : CoordShared := mkShared g (cs_epoch cs) (workers cs) (obs_hwm cs).
Definition set_hwm (w : WorkerId) (og : ObservationGeneration) (cs : CoordShared) : CoordShared :=
  mkShared (gov cs) (cs_epoch cs) (workers cs) (<[w := og]> (obs_hwm cs)).

(** ** Fencing: [None] accepts, [Some why] refuses *)
Definition fence_obs (cs : CoordShared) (epoch : CoordinatorEpoch) (boot : WorkerBootId) (og : ObservationGeneration)
    (w : WorkerId) : option string :=
  if negb (gen_eqb epoch (cs_epoch cs)) then Some "STALE_EPOCH"%string
  else if match workers cs !! w with Some b => negb (id_eqb b boot) | None => true end then Some "STALE_BOOT"%string
  else if match obs_hwm cs !! w with Some hi => gen_ltb og hi | None => false end then Some "STALE_OBSERVATION"%string
  else None.

Definition fence_epoch_boot (cs : CoordShared) (epoch : CoordinatorEpoch) (boot : WorkerBootId) : option string :=
  if negb (gen_eqb epoch (cs_epoch cs)) then Some "STALE_EPOCH"%string
  else if existsb (fun p => id_eqb p.2 boot) (map_to_list (workers cs)) then None
  else Some "STALE_BOOT"%string.

(** ** Messages *)
Inductive request :=
| ReqMalformed (why : string)
| ReqUnknown
| ReqObservation (po : PowerObsMsg.t)
| ReqThermal (th : ThermalObsMsg.t)
| ReqReserve (rr : ReserveMsg.t)
| ReqActivate (ba : BudgetActionMsg.t)
| ReqRelease (ba : BudgetActionMsg.t)
| ReqDecision (dr : ReserveMsg.t)
| ReqSnapshot.

Definition or_malformed {A : Type} (o : option A) (why : string) (k : A -> request) : request :=
  match o with Some a => k a | None => ReqMalformed why end.

(** The dispatch on the type of a frame. *)
Definition parse (m : Frame) : request :=
  match f_type m with
  | POWER_OBSERVATION => or_malformed (PowerObsMsg.decode_power_obs m) "malformed observation" ReqObservation
  | THERMAL_OBSERVATION => or_malformed (ThermalObsMsg.decode_thermal_obs m) "malformed thermal" ReqThermal
  | RESERVE => or_malformed (ReserveMsg.decode_reserve m) "malformed reserve" ReqReserve
  | ACTIVATE => or_malformed (BudgetActionMsg.decode_budget_action m) "malformed action" ReqActivate
  | RELEASE => or_malformed (BudgetActionMsg.decode_budget_action m) "malformed action" ReqRelease
  | DECISION_REQUEST => or_malformed (ReserveMsg.decode_reserve m) "malformed decision" ReqDecision
  | SNAPSHOT_REQUEST => ReqSnapshot
  | _ => ReqUnknown
  end.

(** A reply: its frame type and its payload before encoding. *)
Definition reply : Type := MsgType * AckMsg.t.
Definition send_ack (id : Z) (ok : bool) (msg : string) : reply := (ACK, AckMsg.mk id ok msg).
Definition send_error (id : Z) (msg : string) : reply := (ERROR, AckMsg.mk id false ("ERROR:" +:+ msg)).

(** The section under the lock of [CoordShared]: a reply ends the message. *)
Definition fence (r : request) (cs : CoordShared) : option reply * CoordShared :=
  match r with
  | ReqMalformed why => (Some (send_error 0 why), cs)
  | ReqUnknown => (Some (send_error 0 "unknown message"), cs)
  | ReqObservation po =>
      match fence_obs cs (PowerObsMsg.epoch po) (PowerObsMsg.boot po) (PowerObsMsg.obs_gen po) (PowerObsMsg.worker po) with
      | Some why => (Some (send_error (gen_raw (PowerObsMsg.obs_gen po)) why), cs)
      | None => (None, set_hwm (PowerObsMsg.worker po) (PowerObsMsg.obs_gen po) cs)
      end
  | ReqThermal th =>
      match fence_obs cs (ThermalObsMsg.epoch th) (ThermalObsMsg.boot th) (ThermalObsMsg.obs_gen th) (ThermalObsMsg.worker th) with
      | Some why => (Some (send_error (gen_raw (ThermalObsMsg.obs_gen th)) why), cs)
      | None => (None, set_hwm (ThermalObsMsg.worker th) (ThermalObsMsg.obs_gen th) cs)
      end
  | ReqReserve rr =>
      match fence_epoch_boot cs (ReserveMsg.epoch rr) (ReserveMsg.boot rr) with
      | Some why => (Some (send_error 0 why), cs)
      | None => (None, cs)
      end
  | ReqActivate ba | ReqRelease ba =>
      match fence_epoch_boot cs (BudgetActionMsg.epoch ba) (BudgetActionMsg.boot ba) with
      | Some why => (Some (send_error 0 why), cs)
      | None => (None, cs)
      end
  | ReqDecision dr =>
      match fence_epoch_boot cs (ReserveMsg.epoch dr) (ReserveMsg.boot dr) with
      | Some why => (Some (send_error 0 why), cs)
      | None => (None, cs)
      end
  | ReqSnapshot => (None, cs)
  end.

(** ** Acting on the governor *)
Definition when {A : Type} (b : bool) (o : outcome A) : outcome (option A) :=
  if b then let! a := o in Ret (Some a) else Ret None.

Definition worker_sample (po : PowerObsMsg.t) : outcome BackendSample :=
  let! power := when (PowerObsMsg.has_power po) (quantity (of_millis (PowerObsMsg.power_mw po))) in
  let! temp := when (PowerObsMsg.has_temp po) (quantity (double_of_Z (PowerObsMsg.temp_centi po) / 100)%float) in
  let! util := when (PowerObsMsg.has_util po) (quantity (double_of_Z (PowerObsMsg.utilization_bp po) / 10000)%float) in
  Ret (mkSample power temp None None util None None (PowerObsMsg.throttled po) [] REPORTED "worker").

(** The backend of the coordinator, which no message reconfigures. *)
Definition coordinator_backend : FakeBackend.t := FakeBackend.init.

Definition act_observation (po : PowerObsMsg.t) : M Governor.t reply :=
  do! s <- slift (worker_sample po);
  do! _ <- Governor.observe_backend coordinator_backend s (mkTime (PowerObsMsg.timestamp_ns po));
  sret (send_ack (gen_raw (PowerObsMsg.obs_gen po)) true "accepted").

(** A reservation takes the lock of the governor twice, to plan it and to book it: a
    plan that is refused answers, and one that is not goes on with its identifier. *)
Definition act_plan (rr : ReserveMsg.t) : M Governor.t (reply + ReservationId) :=
  do! power <- slift (quantity (of_millis (ReserveMsg.requested_mw rr)));
  do! energy <- slift (quantity (of_millis (ReserveMsg.requested_mj rr)));
  do! validity <- slift (duration (ReserveMsg.validity_ns rr));
  do! plan <- Governor.plan_reservation (ReserveMsg.workload rr) THROUGHPUT (ReserveMsg.scope rr) (ReserveMsg.budget rr)
                power energy gen_first gen_first (mkTime (ReserveMsg.timestamp_ns rr)) validity;
  sret (if negb (ReservationManager.ok plan) then inl (send_error 0 ("plan:" +:+ ReservationManager.reason plan))
        else inr (ReservationManager.res_id plan)).

Definition act_book (rr : ReserveMsg.t) (id : ReservationId) : M Governor.t reply :=
  do! res <- Governor.reserve_reservation id (ReserveMsg.budget_gen rr) (mkTime (ReserveMsg.timestamp_ns rr));
  sret (if negb (ReservationManager.ok res) then send_error 0 ("reserve:" +:+ ReservationManager.reason res)
        else send_ack (id_raw (ReserveMsg.workload rr)) true (to_string_int (id_raw id))).

Definition act_reserve (rr : ReserveMsg.t) : M Governor.t reply :=
  do! plan <- act_plan rr;
  match plan with inl a => sret a | inr id => act_book rr id end.

Definition act_action (activate : bool) (ba : BudgetActionMsg.t) : M Governor.t reply :=
  do! res <- (if activate
              then Governor.activate_reservation (BudgetActionMsg.reservation ba) (BudgetActionMsg.budget_gen ba) never
              else Governor.release_reservation (BudgetActionMsg.reservation ba) (BudgetActionMsg.budget_gen ba) never);
  sret (send_ack (id_raw (BudgetActionMsg.reservation ba)) (ReservationManager.ok res) (ReservationManager.reason res)).

Definition act_decision (dr : ReserveMsg.t) : M Governor.t reply :=
  do! power <- slift (quantity (of_millis (ReserveMsg.requested_mw dr)));
  do! d <- Governor.decide_locked (ReserveMsg.budget dr) (ReserveMsg.workload dr) THROUGHPUT power J0 1 never;
  sret (send_ack (id_raw (ReserveMsg.workload dr)) true
          (DecisionEngine.verdict_to_string (Decision.verdict d) +:+ " " +:+ Decision.digest d)).

Definition act (r : request) : M Governor.t reply :=
  match r with
  | ReqMalformed why => sret (send_error 0 why)
  | ReqUnknown => sret (send_error 0 "unknown message")
  | ReqObservation po => act_observation po
  | ReqThermal th => sret (send_ack (gen_raw (ThermalObsMsg.obs_gen th)) true "accepted")
  | ReqReserve rr => act_reserve rr
  | ReqActivate ba => act_action true ba
  | ReqRelease ba => act_action false ba
  | ReqDecision dr => act_decision dr
  | ReqSnapshot => do! g <- sget; do! s <- slift (state_digest g); sret (send_ack 0 true s)
  end.

(** What a thread has still to do with a message that passed the fence, and the next
    section of it under the lock of the governor: it ends with a reply, or leaves a
    planned reservation to be booked. *)
Inductive work :=
| Fenced (r : request)
| Planned (rr : ReserveMsg.t) (id : ReservationId).

Definition act_section (w : work) : M Governor.t (reply + work) :=
  match w with
  | Fenced (ReqReserve rr) =>
      do! plan <- act_plan rr;
      sret (match plan with inl a => inl a | inr id => inr (Planned rr id) end)
  | Fenced r => do! a <- act r; sret (inl a)
  | Planned rr id => do! a <- act_book rr id; sret (inl a)
  end.

(** One message, when no other thread comes between its sections. *)
Definition handle_message (m : Frame) : M CoordShared reply :=
  fun cs =>
    match fence (parse m) cs with
    | (Some r, cs) => (Ret r, cs)
    | (None, cs) => let '(o, g) := act (parse m) (gov cs) in (noexcept o, set_gov g cs)
    end.

(** ** Registration *)
Definition register (reg : RegisterMsg.t) (cs : CoordShared) : CoordShared :=
  mkShared (gov cs) (cs_epoch cs) (<[RegisterMsg.worker reg := RegisterMsg.boot reg]> (workers cs))
    (<[RegisterMsg.worker reg := gen_null]> (obs_hwm cs)).

(** The first frame of a connection: an answer that ends it, or the worker. *)
Definition first_frame (m : Frame) : reply + RegisterMsg.t :=
  match f_type m with
  | REGISTER =>
      match RegisterMsg.decode_register m with
      | Some reg => inr reg
      | None => inl (send_error 0 "malformed register")
      end
  | _ => inl (send_error 0 "expected REGISTER")
  end.
(** The reply, in a section of its own: it carries the epoch of that moment. *)
Definition registered_reply (reg : RegisterMsg.t) (cs : CoordShared) : reply :=
  send_ack (id_raw (RegisterMsg.worker reg)) true (to_string_int (gen_raw (cs_epoch cs))).

(** ** The operator *)
Inductive command :=
| CmdInstallBudget (id parent : Z) (hmax soft : double)
| CmdSetPolicy (cap : double)
| CmdRollEpoch
| CmdSnapshot
| CmdSave (path : string) (env : io) (fs : files)
| CmdUnknown.

Definition command_budget (id parent : Z) (hmax soft : double) : outcome PowerBudget.t :=
  let! hmax := quantity hmax in
  let! soft := quantity soft in
  let d := PowerBudget.default in
  Ret (PowerBudget.mk (mkId id) gen_first (mkId 1) (PowerBudget.policy_generation d)
         (if parent =? 0 then None else Some (mkId parent)) "budget" hmax soft (PowerBudget.min_reserve d)
         (PowerBudget.burst_allowance d) (PowerBudget.burst_window d) (PowerBudget.recovery d)
         (PowerBudget.priority d) (PowerBudget.authoritative d)).

(** The default argument of [defaults] takes an identifier. *)
Definition set_policy_command (cap : double) : M Governor.t string :=
  do! g <- sget;
  let '(pid, next) := allocate (Governor.next_policy g) in
  do! _ <- smodify (fun g => Governor.set_counters next (Governor.next_observation g) g);
  do! w <- slift (quantity cap);
  let p := PowerPolicy.defaults pid "default" in
  let p := with_caps (PowerPolicy.name p) gen_first None None (Some w) None p in
  do! ok <- Governor.install_policy never p;
  sret (if (ok : bool) then "POLICY installed"%string else "POLICY rejected"%string).

(** The loop over the commands, with what it prints; the clock of the coordinator is
    never set. *)
Definition run_command (c : command) : M CoordShared string :=
  match c with
  | CmdInstallBudget id parent hmax soft =>
      do! b <- slift (command_budget id parent hmax soft);
      do! ok <- zoom gov set_gov (Governor.install_budget never b);
      sret (if (ok : bool) then "BUDGET installed"%string else "BUDGET rejected"%string)
  | CmdSetPolicy cap => zoom gov set_gov (set_policy_command cap)
  | CmdRollEpoch =>
      do! cs <- sget;
      let e := gen_next (cs_epoch cs) in
      do! _ <- sput (mkShared (gov cs) e (workers cs) (obs_hwm cs));
      sret ("EPOCH " +:+ to_string_int (gen_raw e))
  | CmdSnapshot => do! cs <- sget; do! s <- slift (state_digest (gov cs)); sret ("SNAPSHOT " +:+ s)
  | CmdSave path env fs =>
      do! r <- zoom gov set_gov (save never env path fs);
      sret (if r.1 then "SAVED"%string else "SAVE_FAIL"%string)
  | CmdUnknown => sret "unknown control"%string
  end.

(** The coordinator as it starts, given the values of the allocators. *)
Definition coordinator_start (next_gov next_res next_pol next_obs next_dec : Z) : CoordShared :=
  mkShared (Governor.make (mkConfig (mkId next_gov) (mkId 1) (mkId 1) (mkGen 1)) next_res next_pol next_obs next_dec)
    (mkGen 1) ∅ ∅.

(** ** All the threads *)

(** A connection: waiting for its first frame, for a message, or with sections of a
    message to run. *)
Inductive phase :=
| Accepted
| Ready
| Acting (w : work)
| Closed.

(** [saving]: the operator's thread is between the two sections of a save that wrote this
    file. *)
Record system := mkSystem { shared : CoordShared; threads : gmap Z phase; saving : option string }.

Definition phase_after (x : reply + work) : phase := match x with inl _ => Ready | inr w => Acting w end.

(** The steps of the running process; a step that would end it has no successor. *)
Inductive worker_step (s : system) : system -> Prop :=
| step_accept t : threads s !! t = None -> worker_step s (mkSystem (shared s) (<[t := Accepted]> (threads s)) (saving s))
| step_refuse t m r : threads s !! t = Some Accepted -> first_frame m = inl r ->
    worker_step s (mkSystem (shared s) (<[t := Closed]> (threads s)) (saving s))
| step_register t m reg : threads s !! t = Some Accepted -> first_frame m = inr reg ->
    worker_step s (mkSystem (register reg (shared s)) (<[t := Ready]> (threads s)) (saving s))
| step_answered t m r cs : threads s !! t = Some Ready -> fence (parse m) (shared s) = (Some r, cs) ->
    worker_step s (mkSystem cs (threads s) (saving s))
| step_fenced t m cs : threads s !! t = Some Ready -> Forall (in_u 8) (payload m) ->
    fence (parse m) (shared s) = (None, cs) ->
    worker_step s (mkSystem cs (<[t := Acting (Fenced (parse m))]> (threads s)) (saving s))
| step_section t w x g : threads s !! t = Some (Acting w) -> act_section w (gov (shared s)) = (Ret x, g) ->
    worker_step s (mkSystem (set_gov g (shared s)) (<[t := phase_after x]> (threads s)) (saving s))
| step_close t p : threads s !! t = Some p -> p = Accepted \/ p = Ready ->
    worker_step s (mkSystem (shared s) (<[t := Closed]> (threads s)) (saving s)).

(** The operator's: a command that nothing comes between, or a save in two sections.
    [allowed] is what the operator is trusted with. *)
Inductive operator_step (allowed : CoordShared -> command -> Prop) (s : system) : system -> Prop :=
| step_command c out cs : saving s = None -> allowed (shared s) c -> run_command c (shared s) = (Ret out, cs) ->
    operator_step allowed s (mkSystem cs (threads s) None)
| step_save_file path env fs states : saving s = None -> allowed (shared s) (CmdSave path env fs) ->
    save_file env path fs (gov (shared s)) = Ret (true, states) ->
    operator_step allowed s (mkSystem (shared s) (threads s) (Some path))
| step_save_recorded path g : saving s = Some path -> save_recorded never path (gov (shared s)) = (Ret (), g) ->
    operator_step allowed s (mkSystem (set_gov g (shared s)) (threads s) None).

Definition step (allowed : CoordShared -> command -> Prop) (s s' : system) : Prop :=
  worker_step s s' \/ operator_step allowed s s'.

Inductive run (allowed : CoordShared -> command -> Prop) (s : system) : system -> Prop :=
| run_refl : run allowed s s
| run_step s1 s2 : run allowed s s1 -> step allowed s1 s2 -> run allowed s s2.

Lemma run_invariant (allowed : CoordShared -> command -> Prop) (P : system -> Prop) (s s' : system) :
  (forall s1 s2, step allowed s1 s2 -> P s1 -> P s2) -> run allowed s s' -> P s -> P s'.
Proof. intros H. induction 1; eauto. Qed.

(** ** Executing a schedule *)
Inductive move :=
| MoveAccept (t : Z)
| MoveFrame (t : Z) (m : Frame)
| MoveAct (t : Z)
| MoveCommand (c : command)
| MoveSave (path : string) (env : io) (fs : files)
| MoveSaved.

Definition exec (mv : move) (s : system) : option system :=
  match mv with
  | MoveAccept t =>
      match threads s !! t with
      | None => Some (mkSystem (shared s) (<[t := Accepted]> (threads s)) (saving s))
      | Some _ => None
      end
  | MoveFrame t m =>
      if negb (bytesb (payload m)) then None else
      match threads s !! t with
      | Some Accepted =>
          match first_frame m with
          | inl _ => Some (mkSystem (shared s) (<[t := Closed]> (threads s)) (saving s))
          | inr reg => Some (mkSystem (register reg (shared s)) (<[t := Ready]> (threads s)) (saving s))
          end
      | Some Ready =>
          match fence (parse m) (shared s) with
          | (Some _, cs) => Some (mkSystem cs (threads s) (saving s))
          | (None, cs) => Some (mkSystem cs (<[t := Acting (Fenced (parse m))]> (threads s)) (saving s))
          end
      | _ => None
      end
  | MoveAct t =>
      match threads s !! t with
      | Some (Acting w) =>
          match act_section w (gov (shared s)) with
          | (Ret x, g) => Some (mkSystem (set_gov g (shared s)) (<[t := phase_after x]> (threads s)) (saving s))
          | _ => None
          end
      | _ => None
      end
  | MoveCommand c =>
      match saving s, run_command c (shared s) with
      | None, (Ret _, cs) => Some (mkSystem cs (threads s) None)
      | _, _ => None
      end
  | MoveSave path env fs =>
      match saving s, save_file env path fs (gov (shared s)) with
      | None, Ret (true, _) => Some (mkSystem (shared s) (threads s) (Some path))
      | _, _ => None
      end
  | MoveSaved =>
      match saving s with
      | Some path =>
          match save_recorded never path (gov (shared s)) with
          | (Ret _, g) => Some (mkSystem (set_gov g (shared s)) (threads s) None)
          | _ => None
          end
      | None => None
      end
  end.

Definition move_allowed (allowed : CoordShared -> command -> Prop) (mv : move) (s : system) : Prop :=
  match mv with
  | MoveCommand c => allowed (shared s) c
  | MoveSave path env fs => allowed (shared s) (CmdSave path env fs)
  | _ => True
  end.
(** A move of a worker's thread. *)
Definition by_worker (mv : move) : bool :=
  match mv with MoveAccept _ | MoveFrame _ _ | MoveAct _ => true | _ => false end.

Lemma exec_worker (mv : move) (s s' : system) : by_worker mv = true -> exec mv s = Some s' -> worker_step s s'.
Proof.
  destruct mv as [t|t m|t|c|path env fs|]; try discriminate; intros _; cbn [exec].
  - destruct (threads s !! t) eqn:E; [discriminate|]. intros [= <-]. constructor. exact E.
  - destruct (bytesb (payload m)) eqn:Eb; [|discriminate]. apply bytesb_range in Eb. cbn [negb].
    destruct (threads s !! t) as [[]|] eqn:E; try discriminate.
    + destruct (first_frame m) eqn:Ef; intros [= <-]; [eapply step_refuse|eapply step_register]; eassumption.
    + destruct (fence (parse m) (shared s)) as [[a|] cs] eqn:Ef; intros [= <-];
        [eapply step_answered|eapply step_fenced]; eassumption.
  - destruct (threads s !! t) as [[]|] eqn:E; try discriminate.
    destruct (act_section w (gov (shared s))) as [[x|e| |] g] eqn:Ea; try discriminate. intros [= <-].
    eapply step_section; eassumption.
Qed.

Lemma exec_step (allowed : CoordShared -> command -> Prop) (mv : move) (s s' : system) :
  move_allowed allowed mv s -> exec mv s = Some s' -> step allowed s s'.
Proof.
  intros Ha E. destruct (by_worker mv) eqn:Ew; [left; eapply exec_worker; eassumption|]. right.
  destruct mv as [t|t m|t|c|path env fs|]; try discriminate; cbn [exec] in E; destruct (saving s) as [file|] eqn:Es; try discriminate.
  - destruct (run_command c (shared s)) as [[out|e| |] cs] eqn:Ec; try discriminate. injection E as <-.
    eapply step_command; eassumption.
  - destruct (save_file env path fs (gov (shared s))) as [[[] states]|e| |] eqn:Ef; try discriminate. injection E as <-.
    eapply step_save_file; eassumption.
  - destruct (save_recorded never file (gov (shared s))) as [[[]|e| |] g] eqn:Ef; try discriminate. injection E as <-.
    eapply step_save_recorded; eassumption.
Qed.

(** A schedule, from a state. *)
Fixpoint execs (l : list move) (s : system) : option system :=
  match l with
  | [] => Some s
  | mv :: l => match exec mv s with Some s' => execs l s' | None => None end
  end.
Fixpoint moves_allowed (allowed : CoordShared -> command -> Prop) (l : list move) (s : system) : Prop :=
  match l with
  | [] => True
  | mv :: l => move_allowed allowed mv s /\ match exec mv s with Some s' => moves_allowed allowed l s' | None => True end
  end.

(** The operator is idle in a schedule. *)
Definition no_command (l : list move) : bool := forallb by_worker l.

Lemma moves_cons (allowed : CoordShared -> command -> Prop) (mv : move) (l : list move) (s : system) :
  move_allowed allowed mv s -> (forall s', moves_allowed allowed l s') -> moves_allowed allowed (mv :: l) s.
Proof. intros Hm Hl. split; [exact Hm|]. destruct (exec mv s); [apply Hl|exact I]. Qed.

Lemma no_command_allowed (allowed : CoordShared -> command -> Prop) (l : list move) :
  no_command l = true -> forall s, moves_allowed allowed l s.
Proof.
  induction l as [|mv l IH]; intros Hl s; [exact I|]. cbn in Hl. apply andb_prop in Hl as [Hm Hl].
  apply moves_cons; [|apply IH, Hl]. destruct mv; [exact I..|discriminate|discriminate|exact I].
Qed.

Lemma run_front (allowed : CoordShared -> command -> Prop) (s s1 s2 : system) :
  step allowed s s1 -> run allowed s1 s2 -> run allowed s s2.
Proof. intros Hs. induction 1; [eapply run_step; [apply run_refl|exact Hs]|eapply run_step; eassumption]. Qed.

Lemma execs_run (allowed : CoordShared -> command -> Prop) (l : list move) (s s' : system) :
  moves_allowed allowed l s -> execs l s = Some s' -> run allowed s s'.
Proof.
  revert s. induction l as [|mv l IH]; intros s; cbn [execs moves_allowed]; [intros _ [= <-]; apply run_refl|].
  intros [Hm Hl]. destruct (exec mv s) as [s1|] eqn:E; [|discriminate]. intros H.
  eapply run_front; [eapply exec_step; eassumption|apply IH; assumption].
Qed.
