(* ===== verification/CoordinatorSpec.v ===== *)
(** * Properties of the coordinator

    What the fence accepts, what a refused message leaves, and the safety of the
    budgets in every run of the threads, whatever bytes the workers send; with the
    executions that show where the fencing stops short. *)
From S2P Require Import Prelude Binary64 Util Units Ids Clock Budget BudgetSpec Authority WorkloadClass Policy.
From S2P Require Import Energy Reservation ReservationFacts ReservationSpec Backend DecisionEngine Wire.
From S2P Require Import Protocol Persistence Governor GovernorSpec GovernorState Coordinator.
Local Open Scope Z_scope.
#[local] Set Warnings "-inexact-float".

(** ** The fence *)
Definition boot_known (cs : CoordShared) (boot : WorkerBootId) : Prop := exists w, workers cs !! w = Some boot.
Definition not_behind (cs : CoordShared) (w : WorkerId) (og : ObservationGeneration) : Prop :=
  forall hi, obs_hwm cs !! w = Some hi -> gen_raw hi <= gen_raw og.

(** What makes a message current. *)
Definition current_message (cs : CoordShared) (r : request) : Prop :=
  match r with
  | ReqObservation po =>
      PowerObsMsg.epoch po = cs_epoch cs /\ workers cs !! PowerObsMsg.worker po = Some (PowerObsMsg.boot po) /\
      not_behind cs (PowerObsMsg.worker po) (PowerObsMsg.obs_gen po)
  | ReqThermal th =>
      ThermalObsMsg.epoch th = cs_epoch cs /\ workers cs !! ThermalObsMsg.worker th = Some (ThermalObsMsg.boot th) /\
      not_behind cs (ThermalObsMsg.worker th) (ThermalObsMsg.obs_gen th)
  | ReqReserve m | ReqDecision m => ReserveMsg.epoch m = cs_epoch cs /\ boot_known cs (ReserveMsg.boot m)
  | ReqActivate ba | ReqRelease ba => BudgetActionMsg.epoch ba = cs_epoch cs /\ boot_known cs (BudgetActionMsg.boot ba)
  | ReqSnapshot => True
  | ReqMalformed _ | ReqUnknown => False
  end.

Lemma fence_obs_spec (cs : CoordShared) e b og w :
  fence_obs cs e b og w = None <-> e = cs_epoch cs /\ workers cs !! w = Some b /\ not_behind cs w og.
Proof.
  unfold fence_obs, not_behind. destruct (gen_eqb e (cs_epoch cs)) eqn:Ee; cbn [negb].
  2:{ split; [discriminate|]. intros [-> _]. rewrite (proj2 (gen_eqb_eq _ _) eq_refl) in Ee. discriminate. }
  apply gen_eqb_eq in Ee. destruct (workers cs !! w) as [b'|]; [|split; [discriminate|intros (_ & H & _); discriminate]].
  destruct (id_eqb b' b) eqn:Eb; cbn [negb].
  2:{ split; [discriminate|]. intros (_ & [= ->] & _). rewrite (proj2 (id_eqb_eq _ _) eq_refl) in Eb. discriminate. }
  apply id_eqb_eq in Eb. subst b'. destruct (obs_hwm cs !! w) as [hi|].
  - unfold gen_ltb. destruct (Z.ltb_spec (gen_raw og) (gen_raw hi)).
    + split; [discriminate|]. intros (_ & _ & H'). specialize (H' hi eq_refl). lia.
    + split; [|reflexivity]. intros _. split_and!; auto. intros x [= <-]. assumption.
  - split; [|reflexivity]. intros _. split_and!; auto. discriminate.
Qed.

Lemma fence_epoch_boot_spec (cs : CoordShared) e b :
  fence_epoch_boot cs e b = None <-> e = cs_epoch cs /\ boot_known cs b.
Proof.
  unfold fence_epoch_boot, boot_known. destruct (gen_eqb e (cs_epoch cs)) eqn:Ee; cbn [negb].
  2:{ split; [discriminate|]. intros [-> _]. rewrite (proj2 (gen_eqb_eq _ _) eq_refl) in Ee. discriminate. }
  apply gen_eqb_eq in Ee. destruct (existsb _ _) eqn:Ex.
  - split; [|reflexivity]. intros _. split; [exact Ee|]. apply existsb_exists in Ex as ([w b'] & Hin & Eb).
    apply list_elem_of_In, elem_of_map_to_list in Hin. apply id_eqb_eq in Eb. cbn in Eb. subst b'. eauto.
  - split; [discriminate|]. intros [_ [w E]]. apply not_true_iff_false in Ex. exfalso. apply Ex.
    apply existsb_exists. exists (w, b). split; [apply list_elem_of_In, elem_of_map_to_list, E|]. apply id_eqb_eq. reflexivity.
Qed.

(** The fence lets through exactly what is current; what it refuses it answers with an
    error, and neither way does it touch more than the mark of a worker. *)
Lemma fence_spec (r : request) (cs : CoordShared) :
  let '(answer, cs') := fence r cs in
  (answer = None <-> current_message cs r) /\
  (forall a, answer = Some a -> a.1 = ERROR /\ AckMsg.ok a.2 = false /\ cs' = cs) /\
  gov cs' = gov cs /\ cs_epoch cs' = cs_epoch cs /\ workers cs' = workers cs.
Proof.
  assert (Herr : forall id why (a : reply), Some (send_error id why) = Some a -> a.1 = ERROR /\ AckMsg.ok a.2 = false /\ cs = cs).
  { intros id why a [= <-]. auto. }
  destruct r as [why| |po|th|rr|ba|ba|dr|]; cbn [fence current_message];
    try match goal with |- context [fence_obs ?c ?e ?b ?g ?w] =>
      pose proof (fence_obs_spec c e b g w) as Hf; destruct (fence_obs c e b g w) as [why|] end;
    try match goal with |- context [fence_epoch_boot ?c ?e ?b] =>
      pose proof (fence_epoch_boot_spec c e b) as Hf; destruct (fence_epoch_boot c e b) as [why|] end;
    split_and!; try reflexivity; try (apply Herr); try (intros a [=]); try (split; [discriminate|tauto]); try tauto.
  all: rewrite <- Hf; split; [discriminate|intros H; discriminate H].
Qed.

(** C17: the coordinator acts on a message exactly when it is current.  A message that
    does not decode, or carries another epoch than the coordinator's, or a boot that is
    not registered (for the worker it names, when it is an observation), or an
    observation older than the last accepted from the worker, is answered with an error
    and changes nothing, neither in the governor nor in what the coordinator knows of
    its workers; a message that passes is acted on by the governor. *)
Theorem message_acts_iff_current (m : Frame) (cs : CoordShared) :
  (current_message cs (parse m) ->
     (handle_message m cs).2 = set_gov (act (parse m) (gov cs)).2 (fence (parse m) cs).2) /\
  (~ current_message cs (parse m) ->
     exists a, handle_message m cs = (Ret (ERROR, a), cs) /\ AckMsg.ok a = false).
Proof.
  pose proof (fence_spec (parse m) cs) as H. unfold handle_message. destruct (fence (parse m) cs) as [[a|] cs'].
  - destruct H as (Hc & Ha & _). split; [intros Hm; apply Hc in Hm; discriminate|]. intros _.
    destruct (Ha a eq_refl) as (E1 & E2 & ->). destruct a as [ty a]. cbn in E1, E2. subst ty. eauto.
  - destruct H as (Hc & _ & Hg & _). split; [|intros Hm; destruct Hm; apply Hc; reflexivity].
    intros _. rewrite Hg. destruct (act (parse m) (gov cs)) as [o g]. reflexivity.
Qed.

(** ** What acting preserves

    A property of the reservations and budgets that the calls of the governor preserve,
    the installation of budgets apart, is preserved by every message. *)
Definition safe_governor (g : Governor.t) : Prop := safe (Governor.rm g).

Definition installs (e : event) : bool := match e with EvInstallBudget _ _ => true | _ => false end.
Definition stable (Q : rmanager -> Prop) : Prop :=
  forall e g, installs e = false -> event_ok g e -> Q (Governor.rm g) -> Q (Governor.rm (after e g)).

Lemma safe_stable : stable safe.
Proof. intros e g _. apply event_safe. Qed.

Section Stable.
Context (Q : rmanager -> Prop) (HQ : stable Q).
Definition keeps_safe {A : Type} (m : M Governor.t A) : Prop := forall g, Q (Governor.rm g) -> Q (Governor.rm (m g).2).

Lemma safe_ret {A : Type} (a : A) : keeps_safe (sret a).
Proof. intros g Hg. exact Hg. Qed.
Lemma safe_bind {A B : Type} (m : M Governor.t A) (k : A -> M Governor.t B) :
  keeps_safe m -> (forall a, keeps_safe (k a)) -> keeps_safe (sbind m k).
Proof.
  intros Hm Hk g Hg. unfold sbind. specialize (Hm g Hg). destruct (m g) as [[a|e| |] g']; try exact Hm. apply Hk, Hm.
Qed.
(** A value computed first: the rest needs to be safe for the values it can have. *)
Lemma safe_lift {A B : Type} (o : outcome A) (k : A -> M Governor.t B) :
  (forall a, o = Ret a -> keeps_safe (k a)) -> keeps_safe (sbind (slift o) k).
Proof. intros Hk g Hg. unfold sbind, slift. destruct o; [apply Hk; auto|exact Hg..]. Qed.
(** A call of the governor. *)
Lemma safe_event {A : Type} (m : M Governor.t A) (e : event) : installs e = false ->
  (forall g, event_ok g e) -> (forall g, (m g).2 = after e g) -> keeps_safe m.
Proof. intros Hi He Hm g Hg. rewrite Hm. apply HQ; auto. Qed.

Ltac safe_call e :=
  apply (safe_event _ e); [reflexivity|intros ?; cbn; auto|intros ?; unfold after; cbn [run_event]; rewrite ignore_state; reflexivity].

(** The amount of a request that was read off bytes. *)
Definition request_ok (r : request) : Prop :=
  match r with ReqReserve rr => in_i64 (ReserveMsg.requested_mw rr) | _ => True end.

Lemma millis_amount (z : Z) (w : Watts) : in_i64 z -> quantity (of_millis z) = Ret w -> BudgetFacts.real_amount w.
Proof.
  intros Hz E. destruct (quantity_valid _ _ E) as [Ev Hq]. apply (valid_nonneg (Tag := WattsTag)) in Hq; [|apply nonneg_Watts].
  unfold BudgetFacts.real_amount. rewrite Ev in *. apply of_millis_real; assumption.
Qed.

Lemma act_plan_safe (rr : ReserveMsg.t) : in_i64 (ReserveMsg.requested_mw rr) -> keeps_safe (act_plan rr).
Proof.
  intros Hr. unfold act_plan. apply safe_lift. intros power Hp. apply safe_lift. intros energy _. apply safe_lift. intros validity _.
  pose proof (millis_amount _ _ Hr Hp). apply safe_bind; [|intros; apply safe_ret].
  safe_call (EvPlan (ReserveMsg.workload rr) THROUGHPUT (ReserveMsg.scope rr) (ReserveMsg.budget rr) power energy
    gen_first gen_first (mkTime (ReserveMsg.timestamp_ns rr)) validity).
Qed.

Lemma act_book_safe (rr : ReserveMsg.t) (id : ReservationId) : keeps_safe (act_book rr id).
Proof.
  unfold act_book. apply safe_bind; [|intros; apply safe_ret].
  safe_call (EvReserve id (ReserveMsg.budget_gen rr) (mkTime (ReserveMsg.timestamp_ns rr))).
Qed.

Lemma act_safe (r : request) : request_ok r -> keeps_safe (act r).
Proof.
  destruct r as [why| |po|th|rr|ba|ba|dr|]; cbn [request_ok act]; intros Hr; try apply safe_ret.
  - unfold act_observation. apply safe_lift. intros smp _. apply safe_bind; [|intros; apply safe_ret].
    safe_call (EvObserve (capabilities coordinator_backend) smp (mkTime (PowerObsMsg.timestamp_ns po))).
  - apply safe_bind; [apply act_plan_safe, Hr|]. intros [a|id]; [apply safe_ret|apply act_book_safe].
  - apply safe_bind; [|intros; apply safe_ret].
    safe_call (EvActivate (BudgetActionMsg.reservation ba) (BudgetActionMsg.budget_gen ba) never).
  - apply safe_bind; [|intros; apply safe_ret].
    safe_call (EvRelease (BudgetActionMsg.reservation ba) (BudgetActionMsg.budget_gen ba) never).
  - unfold act_decision. apply safe_lift. intros power _. apply safe_bind; [|intros; apply safe_ret].
    safe_call (EvDecide (ReserveMsg.budget dr) (ReserveMsg.workload dr) THROUGHPUT power J0 1 never).
  - apply safe_bind; [intros g Hg; exact Hg|]. intros g. apply safe_lift. intros s _. apply safe_ret.
Qed.

(** What is left of a message, in range. *)
Definition work_ok (w : work) : Prop := match w with Fenced r => request_ok r | Planned _ _ => True end.

Lemma section_safe (w : work) : work_ok w -> keeps_safe (act_section w).
Proof.
  destruct w as [r|rr id]; intros Hw; [|apply safe_bind; [apply act_book_safe|intros; apply safe_ret]].
  destruct r; cbn [act_section]; (apply safe_bind; [|intros; apply safe_ret]); [apply (act_safe _ Hw)..| | | | |];
    [apply act_plan_safe, Hw|apply (act_safe _ Hw)..].
Qed.

Lemma set_policy_safe (cap : double) : keeps_safe (set_policy_command cap).
Proof.
  unfold set_policy_command. apply safe_bind; [intros g Hg; exact Hg|]. intros g.
  destruct (allocate _) as [pid next]. apply safe_bind; [intros g0 Hg; exact Hg|]. intros _.
  apply safe_lift. intros w _. cbv zeta. apply safe_bind; [|intros ok; apply safe_ret].
  match goal with |- keeps_safe (Governor.install_policy ?c ?p) => safe_call (EvInstallPolicy c p) end.
Qed.

Lemma save_safe (env : io) (path : string) (fs : files) : keeps_safe (save never env path fs).
Proof.
  unfold save. apply safe_bind; [intros g Hg; exact Hg|]. intros g. apply safe_lift. intros r _.
  destruct (r.1); [|apply safe_ret]. apply safe_bind; [intros g0 Hg; exact Hg|intros; apply safe_ret].
Qed.


(** A request that was parsed from bytes is in range. *)
Ltac yield_field := eapply yields_bind;
  [solve [apply yields_u8 | apply yields_u64 | apply yields_i64]|intros ? ?].

Lemma reserve_yields : yields ReserveMsg.fields (fun m => in_i64 (ReserveMsg.requested_mw m)).
Proof.
  unfold ReserveMsg.fields. repeat yield_field.
  eapply (yields_bind _ _ (fun _ => True)); [intros bytes [] rest Hl; unfold guard; destruct (_ <=? _); [intros [= <-]; auto|discriminate]|].
  intros [] _. apply yields_ret. assumption.
Qed.

Lemma decoded_reserve_ok (m : Frame) (rr : ReserveMsg.t) : Forall (in_u 8) (payload m) ->
  ReserveMsg.decode_reserve m = Some rr -> in_i64 (ReserveMsg.requested_mw rr).
Proof.
  intros Hm. unfold ReserveMsg.decode_reserve, run_reader, whole, rbind.
  destruct (ReserveMsg.fields (payload m)) as [[a l]|] eqn:E; [|discriminate].
  destruct (reserve_yields _ _ _ Hm E) as [Ha _]. destruct l; [|discriminate]. intros [= <-]. exact Ha.
Qed.

Lemma parse_ok (m : Frame) : Forall (in_u 8) (payload m) -> request_ok (parse m).
Proof.
  intros Hm. unfold parse, or_malformed. destruct (f_type m); repeat (split_match; try exact I); try exact I.
  eapply decoded_reserve_ok; eassumption.
Qed.

(** Only a reservation goes on after a section, with its request. *)
Lemma section_continues (w w' : work) (g g' : Governor.t) : act_section w g = (Ret (inr w'), g') ->
  exists rr id, w = Fenced (ReqReserve rr) /\ w' = Planned rr id.
Proof.
  assert (Hinl : forall (m : M Governor.t reply), (do! a <- m; sret (inl a)) g <> (Ret (@inr reply work w'), g')).
  { intros m H. apply sbind_Ret in H as (a & g1 & _ & H). discriminate. }
  destruct w as [r|rr id]; [|intros H; destruct (Hinl _ H)].
  destruct r as [| | | |rr| | | |]; cbn [act_section]; intros H; try (destruct (Hinl _ H); fail).
  apply sbind_Ret in H as ([a|id] & g1 & _ & H); [discriminate|]. injection H as <- _. eauto.
Qed.

Lemma threads_insert (P : work -> Prop) (threads : gmap Z phase) (t : Z) (p : phase) :
  (forall w, p = Acting w -> P w) -> (forall t w, threads !! t = Some (Acting w) -> P w) ->
  forall t' w, <[t := p]> threads !! t' = Some (Acting w) -> P w.
Proof. intros Hp Ht t' w. rewrite lookup_insert_Some. intros [[_ ->]|[_ E]]; eauto. Qed.

Lemma fence_gov (r : request) (cs cs' : CoordShared) (a : option reply) : fence r cs = (a, cs') ->
  gov cs' = gov cs /\ cs_epoch cs' = cs_epoch cs.
Proof. intros E. pose proof (fence_spec r cs) as H. rewrite E in H. destruct H as (_ & _ & Hg & He & _). auto. Qed.

(** A command preserves it when the installation it asks for, if any, does. *)
Lemma command_keeps (c : command) (cs : CoordShared) :
  (forall id parent hmax soft b, c = CmdInstallBudget id parent hmax soft -> command_budget id parent hmax soft = Ret b ->
     Q (Governor.rm (after (EvInstallBudget never b) (gov cs)))) ->
  Q (Governor.rm (gov cs)) -> Q (Governor.rm (gov (run_command c cs).2)).
Proof.
  assert (Hz : forall (A : Type) (m : M Governor.t A) (k : A -> M CoordShared string) (x : CoordShared),
    (forall a, Keeps gov (k a)) -> Q (Governor.rm (m (gov x)).2) -> Q (Governor.rm (gov (sbind (zoom gov set_gov m) k x).2))).
  { intros A m k x Hk Hm. rewrite zoom_bind_state; [exact Hm|reflexivity|exact Hk]. }
  intros Ht Hg. destruct c as [id parent hmax soft|cap| | |path env fs|]; cbn [run_command].
  - unfold sbind at 1, slift. destruct (command_budget id parent hmax soft) as [b|e| |] eqn:Eb; try exact Hg.
    apply Hz; [intros ok; solve_keeps|]. specialize (Ht _ _ _ _ b eq_refl Eb).
    unfold after in Ht. cbn [run_event] in Ht. rewrite ignore_state in Ht. exact Ht.
  - rewrite zoom_eq. apply set_policy_safe, Hg.
  - exact Hg.
  - unfold sbind, sget, slift. destruct (state_digest (gov cs)); exact Hg.
  - apply Hz; [intros r; solve_keeps|]. apply save_safe, Hg.
  - exact Hg.
Qed.

(** A state of the threads in which it holds, and the requests under way are in range. *)
Definition safe_system (s : system) : Prop :=
  Q (Governor.rm (gov (shared s))) /\ forall t w, threads s !! t = Some (Acting w) -> work_ok w.

Lemma worker_keeps (s s' : system) : worker_step s s' -> safe_system s -> safe_system s'.
Proof.
  intros H [Hg Ht]. destruct H as [t|t m r|t m reg|t m r cs E Ef|t m cs E Hm Ef|t w x g E Ea|t p];
    (split; cbn [shared threads]; [|try (apply threads_insert; [discriminate|exact Ht]); try exact Ht]); try exact Hg.
  - rewrite (proj1 (fence_gov _ _ _ _ Ef)). exact Hg.
  - rewrite (proj1 (fence_gov _ _ _ _ Ef)). exact Hg.
  - apply threads_insert; [|exact Ht]. intros w [= <-]. apply parse_ok, Hm.
  - cbn [set_gov gov]. pose proof (section_safe w (Ht _ _ E) _ Hg) as H. rewrite Ea in H. exact H.
  - apply threads_insert; [|exact Ht]. destruct x as [a|w']; cbn [phase_after]; [discriminate|]. intros w0 [= <-].
    apply section_continues in Ea as (rr & id & _ & ->). exact I.
Qed.

Lemma step_keeps (allowed : CoordShared -> command -> Prop) (s s' : system) :
  (forall c, allowed (shared s) c -> Q (Governor.rm (gov (shared s))) -> Q (Governor.rm (gov (run_command c (shared s)).2))) ->
  step allowed s s' -> safe_system s -> safe_system s'.
Proof.
  intros Hcmd [H|H]; [apply worker_keeps, H|]. intros [Hg Ht].
  destruct H as [c out cs _ Hc Ec|path env fs states _ _ _|path g _ Er]; (split; [|exact Ht]); cbn [shared].
  - pose proof (Hcmd c Hc Hg) as H. rewrite Ec in H. exact H.
  - exact Hg.
  - injection Er as <-. exact Hg.
Qed.
End Stable.

(** ** Every run of the threads *)

(** What the operator is trusted with: no budget is installed under itself or under one
    of its descendants, nor re-issued with a lower maximum.  Nothing is asked of the
    workers. *)
Definition trusted (cs : CoordShared) (c : command) : Prop :=
  match c with
  | CmdInstallBudget id parent hmax soft =>
      forall b, command_budget id parent hmax soft = Ret b ->
        BudgetFacts.not_lowered (Governor.budgets (gov cs)) b /\
        BudgetFacts.not_above (Governor.budgets (gov cs)) b
  | _ => True
  end.

Lemma command_budget_valid (id parent : Z) (hmax soft : double) (b : PowerBudget.t) :
  command_budget id parent hmax soft = Ret b -> BudgetFacts.valid_budget b.
Proof.
  unfold command_budget. intros H. apply obind_Ret in H as (h & Eh & H). apply obind_Ret in H as (x & _ & [= <-]).
  apply (valid_nonneg (Tag := WattsTag)); [apply nonneg_Watts|]. apply (quantity_valid _ _ Eh).
Qed.

Lemma command_safe (c : command) (cs : CoordShared) : trusted cs c -> safe_governor (gov cs) ->
  safe_governor (gov (run_command c cs).2).
Proof.
  intros Ht Hg. apply (command_keeps safe safe_stable); [|exact Hg]. intros id parent hmax soft b -> Eb.
  destruct (Ht b Eb) as [Hl Hup]. apply event_safe; [|exact Hg].
  split; [apply (command_budget_valid _ _ _ _ _ Eb)|split; assumption].
Qed.

Lemma step_safe (s s' : system) : step trusted s s' -> safe_system safe s -> safe_system safe s'.
Proof. apply (step_keeps safe safe_stable). intros c. apply command_safe. Qed.

(** C4: no worker can overcommit a budget.  From a coordinator that has just started,
    whatever connections are opened, whatever workers register, whatever bytes they send
    in whatever messages, and however the sections of their threads interleave, those
    that plan and that book a reservation included, with each other and with the
    commands of an operator, no budget is ever booked beyond its hard maximum (up to the
    tolerance of the accounting).  This takes an operator who never installs a budget
    under itself or under one of its descendants, and never re-issues one with a lower
    maximum; the workers are not trusted with anything. *)
Theorem coordinator_never_overcommits (ng nr np no nd : Z) (s : system) (b : BudgetId) (st : BudgetManager.State) :
  run trusted (mkSystem (coordinator_start ng nr np no nd) ∅ None) s ->
  Governor.budgets (gov (shared s)) !! b = Some st ->
  let reserved := value (BudgetManager.reserved_ st) in
  let used := value (BudgetManager.used_ st) in
  nonneg reserved /\ nonneg used /\
  2 ^ 50 * (val reserved + val used)
    <= (2 ^ 50 + 1) * (val (value (PowerBudget.hard_max (BudgetManager.cfg st))) + val eps).
Proof.
  intros Hrun E. destruct (run_invariant _ (safe_system safe) _ _ step_safe Hrun) as [[[_ Hok] _] _].
  - split; [apply make_safe|]. intros t r. cbn. rewrite lookup_empty. discriminate.
  - destruct (Hok b st E) as [(_ & HR & HU) Hb]. split_and!; assumption.
Qed.

(** ** Epochs *)
Definition request_epoch (r : request) : option CoordinatorEpoch :=
  match r with
  | ReqObservation po => Some (PowerObsMsg.epoch po)
  | ReqThermal th => Some (ThermalObsMsg.epoch th)
  | ReqReserve m | ReqDecision m => Some (ReserveMsg.epoch m)
  | ReqActivate ba | ReqRelease ba => Some (BudgetActionMsg.epoch ba)
  | _ => None
  end.
Definition before_epoch (e0 : CoordinatorEpoch) (r : request) : Prop :=
  exists e, request_epoch r = Some e /\ gen_raw e < gen_raw e0.

(** The epoch counter does not wrap around its 64 bits. *)
Definition unwrapped (cs : CoordShared) (c : command) : Prop := c = CmdRollEpoch -> 0 <= gen_raw (cs_epoch cs) < 2 ^ 64 - 1.

Lemma current_epoch (cs : CoordShared) (r : request) (e : CoordinatorEpoch) :
  current_message cs r -> request_epoch r = Some e -> e = cs_epoch cs.
Proof. destruct r; cbn; intros H [= <-]; destruct H; assumption. Qed.

Lemma command_epoch (c : command) (cs : CoordShared) : unwrapped cs c ->
  gen_raw (cs_epoch cs) <= gen_raw (cs_epoch (run_command c cs).2).
Proof.
  assert (Hk : forall c, c <> CmdRollEpoch -> Keeps cs_epoch (run_command c)).
  { intros [id parent hmax soft|cap| | |path env fs|] Hc; try congruence; cbn [run_command]; solve_keeps. }
  intros Hu. destruct c as [id parent hmax soft|cap| | |path env fs|]; try (rewrite Hk by discriminate; lia).
  specialize (Hu eq_refl). cbn. unfold u64. rewrite wrap_small by (unfold in_u; lia). lia.
Qed.

(** The request that a work stems from. *)
Definition work_request (w : work) : request := match w with Fenced r => r | Planned rr _ => ReqReserve rr end.

(** A thread that acts on the request in a state. *)
Definition acts_on (s : system) (t : Z) (r : request) : Prop :=
  exists w, threads s !! t = Some (Acting w) /\ work_request w = r.

(** What every state of a run that started at [s] satisfies. *)
Definition past_epoch (s s' : system) : Prop :=
  gen_raw (cs_epoch (shared s)) <= gen_raw (cs_epoch (shared s')) /\
  forall t w, threads s' !! t = Some (Acting w) -> before_epoch (cs_epoch (shared s)) (work_request w) ->
    acts_on s t (work_request w).

Lemma worker_past_epoch (s s1 s2 : system) : worker_step s1 s2 -> past_epoch s s1 -> past_epoch s s2.
Proof.
  intros H [He Ht].
  assert (Hins : forall t p, (forall w, p = Acting w -> before_epoch (cs_epoch (shared s)) (work_request w) -> acts_on s t (work_request w)) ->
    forall t' w, <[t := p]> (threads s1) !! t' = Some (Acting w) -> before_epoch (cs_epoch (shared s)) (work_request w) ->
      acts_on s t' (work_request w)).
  { intros t p Hp t' w. rewrite lookup_insert_Some. intros [[<- E]|[_ E]] Hb; [apply Hp; assumption|eauto]. }
  destruct H as [t|t m r|t m reg|t m r cs E Ef|t m cs E Hm Ef|t w x g E Ea|t p];
    (split; cbn [shared threads]; [|try (apply Hins; discriminate); try exact Ht]); try exact He.
  - rewrite (proj2 (fence_gov _ _ _ _ Ef)). exact He.
  - rewrite (proj2 (fence_gov _ _ _ _ Ef)). exact He.
  - apply Hins. intros w [= <-] (e & Hr & Hlt). pose proof (fence_spec (parse m) (shared s1)) as Hf. rewrite Ef in Hf.
    destruct Hf as (Hcur & _). cbn [work_request] in Hr. rewrite (current_epoch _ _ _ (proj1 Hcur eq_refl) Hr) in Hlt. lia.
  - apply Hins. destruct x as [a|w']; cbn [phase_after]; [discriminate|]. intros w0 [= <-].
    apply section_continues in Ea as (rr & id & -> & ->). apply (Ht t _ E).
Qed.

Lemma step_past_epoch (s s1 s2 : system) : step unwrapped s1 s2 -> past_epoch s s1 -> past_epoch s s2.
Proof.
  intros [H|H]; [apply worker_past_epoch, H|]. intros [He Ht].
  destruct H as [c out cs _ Hc Ec|path env fs states _ _ _|path g _ Er]; (split; [|exact Ht]); cbn [shared].
  - pose proof (command_epoch c _ Hc) as Hce. rewrite Ec in Hce. cbn in Hce. lia.
  - exact He.
  - exact He.
Qed.

(** C18: an epoch that has been rolled stays fenced.  In every run that follows a state
    of the coordinator, however the sections of its threads interleave, as long as the
    64-bit counter of the epochs does not wrap around, a message of an epoch before that
    state's is answered with an error and changes nothing; the only requests of an
    earlier epoch that may still act are those whose thread had already passed the fence
    with them when the run began. *)
Theorem rolled_epoch_stays_fenced (s s' : system) :
  run unwrapped s s' ->
  (forall m, before_epoch (cs_epoch (shared s)) (parse m) ->
     exists a, handle_message m (shared s') = (Ret (ERROR, a), shared s') /\ AckMsg.ok a = false) /\
  (forall t r, acts_on s' t r -> before_epoch (cs_epoch (shared s)) r -> acts_on s t r).
Proof.
  intros Hrun. destruct (run_invariant _ (past_epoch s) _ _ (step_past_epoch s) Hrun) as [He Ht].
  { split; [lia|]. intros t w E _. exists w. auto. }
  split; [|intros t r (w & E & <-); apply Ht, E]. intros m (e & Er & Hlt).
  pose proof (fence_spec (parse m) (shared s')) as Hf. unfold handle_message.
  destruct (fence (parse m) (shared s')) as [[a|] cs'].
  - destruct Hf as (_ & Ha & _). destruct (Ha a eq_refl) as (E1 & E2 & ->). destruct a as [ty a]. cbn in E1, E2. subst ty. eauto.
  - destruct Hf as (Hcur & _). rewrite (current_epoch _ _ _ (proj1 Hcur eq_refl) Er) in Hlt. lia.
Qed.

(** ** Concrete runs *)
Definition bytes_or_nil (o : outcome (list Z)) : list Z := match o with Ret l => l | _ => [] end.
Definition register_frame (w b : Z) : Frame :=
  mkFrame REGISTER (bytes_or_nil (RegisterMsg.encode_register (RegisterMsg.mk (mkId w) (mkId b) (mkId 1) "w"))).
Definition reserve_frame (epoch boot mw : Z) : Frame :=
  mkFrame RESERVE (bytes_or_nil (ReserveMsg.encode_reserve
    (ReserveMsg.mk invalid_id (mkId 1) mw 0 gen_first gen_first gen_first gen_first (mkId 9) 1 (mkId 1) (mkGen epoch)
       (mkId boot) 1000000 5000000000))).
Definition observation_frame (epoch boot og mw : Z) : Frame :=
  mkFrame POWER_OBSERVATION (bytes_or_nil (PowerObsMsg.encode_power_obs
    (PowerObsMsg.mk (mkId 4) (mkId boot) (mkGen epoch) (mkId 1) gen_first (mkGen og) 1000000 true mw true 3700 0 0 false 0
       false 0 false 1 "fake"))).
Definition action_frame (ty : MsgType) (epoch boot res : Z) : Frame :=
  mkFrame ty (bytes_or_nil (BudgetActionMsg.encode_budget_action
    (BudgetActionMsg.mk (mkId res) (mkId 1) 0 gen_first (mkGen epoch) (mkId boot)))).

Definition started : system := mkSystem (coordinator_start 1 1 1 1 1) ∅ None.
Definition opening : list move :=
  [MoveCommand (CmdInstallBudget 1 0 100 80); MoveAccept 1; MoveFrame 1 (register_frame 4 7)].
Definition after_moves (l : list move) (s : system) : system := default s (execs l s).

Lemma after_moves_some (l : list move) (s : system) : is_some (execs l s) = true -> execs l s = Some (after_moves l s).
Proof. unfold after_moves. destruct (execs l s); [reflexivity|discriminate]. Qed.

(** Two threads plan before either books: the budget takes one of them.  A save is under
    way meanwhile. *)
Definition working : list move :=
  opening ++ [MoveAccept 2; MoveFrame 2 (register_frame 5 8); MoveFrame 1 (reserve_frame 1 7 60000); MoveAct 1;
              MoveFrame 2 (reserve_frame 1 8 50000); MoveSave "state" (mkIo true [] true true true) ∅; MoveAct 2; MoveAct 1; MoveSaved;
              MoveAct 2].
Definition worked_state : BudgetManager.State :=
  BudgetManager.mkState (match command_budget 1 0 100 80 with Ret b => b | _ => PowerBudget.default end) (mkQ 60) W0.

Lemma working_trusted : moves_allowed trusted working started.
Proof.
  apply moves_cons; [|intros s; repeat (split; [exact I|destruct (exec _ _) as [?|]; [|exact I]]); exact I]. intros b E.
  assert (Eb : b = match command_budget 1 0 100 80 with Ret b => b | _ => PowerBudget.default end) by (rewrite E; reflexivity).
  subst b. clear E. split; [intros st E; exfalso; revert E; vm_compute; discriminate|].
  apply not_aboveb_spec. vm_compute. reflexivity.
Qed.

Lemma coordinator_never_overcommits_witness :
  nonneg 60 /\ nonneg 0 /\
  2 ^ 50 * (val 60 + val 0)
    <= (2 ^ 50 + 1) * (val (value (PowerBudget.hard_max (BudgetManager.cfg worked_state))) + val eps).
Proof.
  apply (coordinator_never_overcommits 1 1 1 1 1 (after_moves working started) (mkId 1) worked_state).
  - apply (execs_run _ working started); [apply working_trusted|]. apply after_moves_some. vm_compute. reflexivity.
  - vm_compute. reflexivity.
Defined.

(** An epoch is rolled after a thread has fenced a message of the old one. *)
Definition late : list move := opening ++ [MoveFrame 1 (reserve_frame 1 7 60000)].
Definition late_system : system := after_moves late started.
Definition rolled_system : system := after_moves [MoveCommand CmdRollEpoch] late_system.

Definition late_done : system := after_moves [MoveAct 1; MoveAct 1] rolled_system.

Lemma rolled_epoch_stays_fenced_witness :
  (forall m, before_epoch (cs_epoch (shared rolled_system)) (parse m) ->
     exists a, handle_message m (shared late_done) = (Ret (ERROR, a), shared late_done) /\ AckMsg.ok a = false) /\
  (forall t r, acts_on late_done t r -> before_epoch (cs_epoch (shared rolled_system)) r -> acts_on rolled_system t r).
Proof.
  apply (rolled_epoch_stays_fenced rolled_system late_done).
  apply (execs_run _ [MoveAct 1; MoveAct 1] rolled_system); [apply no_command_allowed; reflexivity|].
  apply after_moves_some. vm_compute. reflexivity.
Defined.

(** The message that was fenced before the epoch was rolled acts after it: it reserves
    power under the epoch that is over. *)
Lemma fenced_then_rolled :
  cs_epoch (shared rolled_system) = mkGen 2 /\
  BudgetManager.reserved (Governor.budgets (gov (shared rolled_system))) (mkId 1) = W0 /\
  BudgetManager.reserved (Governor.budgets (gov (shared late_done))) (mkId 1) = mkQ 60.
Proof. vm_compute. split_and!; reflexivity. Qed.

(** An observation that is sent again, with the same generation, is accepted again. *)
Definition opened : CoordShared := shared (after_moves opening started).
Lemma observation_replayed :
  let first := handle_message (observation_frame 1 7 3 90000) opened in
  let again := handle_message (observation_frame 1 7 3 90000) first.2 in
  first.1 = Ret (send_ack 3 true "accepted") /\ again.1 = Ret (send_ack 3 true "accepted").
Proof. vm_compute. split; reflexivity. Qed.

(** A registered worker can end the coordinator: with the release of a reservation that
    does not exist, or a request of negative power. *)
Lemma worker_ends_coordinator :
  (handle_message (action_frame RELEASE 1 7 99) opened).1 = Terminate /\
  (handle_message (reserve_frame 1 7 (-1)) opened).1 = Terminate.
Proof. vm_compute. split; reflexivity. Qed.

(** The policy command can be used once. *)
Lemma second_policy_rejected :
  let first := run_command (CmdSetPolicy 200) opened in
  first.1 = Ret "POLICY installed"%string /\ (run_command (CmdSetPolicy 100) first.2).1 = Ret "POLICY rejected"%string.
Proof. vm_compute. split; reflexivity. Qed.

(** A decision asked by a worker is taken at the time zero, which no reading is older
    than: every reading, whatever its age, is judged current. *)
Lemma decision_sees_no_age (p : PowerPolicy.t) (d : DeviceState.t) :
  0 < time_ns (DeviceState.last_observed d) -> 0 < ns (PowerPolicy.observation_freshness p) ->
  Governor.freshness_of p d never = Ret CURRENT.
Proof.
  intros Hd Hp. unfold Governor.freshness_of.
  assert (E : time_is_zero (DeviceState.last_observed d) = false) by (apply Z.eqb_neq; lia). rewrite E.
  unfold FreshnessClassifier.classify, FreshnessClassifier.age_of, elapsed_since. rewrite E. cbn [time_ns never].
  destruct (Z.ltb_spec (time_ns (DeviceState.last_observed d)) 0); [lia|].
  cbn [obind]. unfold duration. cbn. unfold FreshnessClassifier.age_from_duration, duration_ltb. cbn.
  destruct (Z.ltb_spec 0 (ns (PowerPolicy.observation_freshness p))); [reflexivity|lia].
Qed.
