(* ===== verification/Worker.v ===== *)
(** * The worker (tools/distributed.cpp)

    A worker registers over its connection, adopts the epoch the coordinator answers
    with, and then sends one message per line of its script, printing the answer.
    What its socket does is an argument: [exchange] sends a frame to the peer and
    returns what [recv_frame] then finds. *)
From S2P Require Import Prelude Binary64 Util Scan Units Ids Clock Wire Protocol.
Local Open Scope Z_scope.

Record WorkerCtx := mkCtx {
  ctx_worker : WorkerId;
  ctx_boot : WorkerBootId;
  ctx_node : NodeId;
  ctx_accel : AcceleratorId;
  ctx_obs_gen : ObservationGeneration;
  ctx_epoch : CoordinatorEpoch }.

(** A context as [run_worker_main] builds it. *)
Definition make_ctx (worker : WorkerId) (boot : WorkerBootId) (node : NodeId) : WorkerCtx :=
  mkCtx worker boot node (mkId 1) gen_first gen_null.

Definition set_epoch (e : CoordinatorEpoch) (w : WorkerCtx) : WorkerCtx :=
  mkCtx (ctx_worker w) (ctx_boot w) (ctx_node w) (ctx_accel w) (ctx_obs_gen w) e.
(** [w.obs_gen = w.obs_gen.next()]. *)
Definition next_obs (w : WorkerCtx) : WorkerCtx :=
  mkCtx (ctx_worker w) (ctx_boot w) (ctx_node w) (ctx_accel w) (gen_next (ctx_obs_gen w)) (ctx_epoch w).

(** What became of a frame: not sent, not answered, or answered. *)
Inductive exchanged :=
| SendFailed
| NoReply
| Reply (f : Frame).

(** ** The messages of the script *)
Definition register_msg (w : WorkerCtx) : RegisterMsg.t := RegisterMsg.mk (ctx_worker w) (ctx_boot w) (ctx_node w) "w".

Definition observe_msg (w : WorkerCtx) (mw centi : Z) : PowerObsMsg.t :=
  PowerObsMsg.mk (ctx_worker w) (ctx_boot w) (ctx_epoch w) (ctx_accel w) gen_first (ctx_obs_gen w) 1000000
    true mw true centi 0 0 true 5000 false 0 false 1 "fake".

Definition reserve_msg (w : WorkerCtx) (epoch : CoordinatorEpoch) (boot : WorkerBootId) (budget mw : Z) : ReserveMsg.t :=
  ReserveMsg.mk invalid_id (mkId budget) mw 0 gen_first gen_first gen_first gen_first
    (mkId (id_raw (ctx_worker w))) 1 (mkId 1) epoch boot 1000000 5000000000.

Definition action_msg (epoch : CoordinatorEpoch) (boot : WorkerBootId) (res budget mw : Z) : BudgetActionMsg.t :=
  BudgetActionMsg.mk (mkId res) (mkId budget) mw gen_first epoch boot.

(** The members the source leaves out keep their default. *)
Definition decision_msg (w : WorkerCtx) (budget mw : Z) : ReserveMsg.t :=
  ReserveMsg.mk invalid_id (mkId budget) mw 0 gen_null gen_null gen_null gen_null
    (mkId (id_raw (ctx_worker w))) 1 invalid_id (ctx_epoch w) (ctx_boot w) 0 0.

(** [stale_observe]: an observation under an epoch and a boot of the operator's choice. *)
Definition stale_observe_msg (w : WorkerCtx) (epoch boot mw : Z) : PowerObsMsg.t :=
  PowerObsMsg.mk (ctx_worker w) (mkId boot) (mkGen epoch) (ctx_accel w) gen_first (ctx_obs_gen w) 1000000
    true mw true 3700 0 0 false 0 false 0 false 1 "fake".

(** One line of the script. *)
Inductive line_action :=
| LineQuit
| LineBad (name : string)
| LineUnknown
| LineSend (name : string) (ty : MsgType) (payload : outcome (list Z)) (show_message : bool) (after : WorkerCtx).

Definition starts (word : string) (cmd : string) : bool := String.prefix word cmd.

Definition parse_line (w : WorkerCtx) (cmd : string) : outcome line_action :=
  if starts "quit" cmd then Ret LineQuit
  else if starts "observe " cmd then
    let! args := sscanf "observe" [Ld; Ld] cmd in
    Ret (match args with
         | [mw; centi] =>
             LineSend "observe" POWER_OBSERVATION (PowerObsMsg.encode_power_obs (observe_msg w mw centi)) false (next_obs w)
         | _ => LineBad "observe"
         end)
  else if starts "reserve " cmd then
    let! args := sscanf "reserve" [Llu; Ld] cmd in
    Ret (match args with
         | [budget; mw] =>
             LineSend "reserve" RESERVE (ReserveMsg.encode_reserve (reserve_msg w (ctx_epoch w) (ctx_boot w) budget mw)) true w
         | _ => LineBad "reserve"
         end)
  else if starts "activate " cmd then
    let! args := sscanf "activate" [Llu; Llu; Ld] cmd in
    Ret (match args with
         | [res; budget; mw] =>
             LineSend "activate" ACTIVATE
               (BudgetActionMsg.encode_budget_action (action_msg (ctx_epoch w) (ctx_boot w) res budget mw)) false w
         | _ => LineBad "activate"
         end)
  else if starts "release " cmd then
    let! args := sscanf "release" [Llu; Llu; Ld] cmd in
    Ret (match args with
         | [res; budget; mw] =>
             LineSend "release" RELEASE
               (BudgetActionMsg.encode_budget_action (action_msg (ctx_epoch w) (ctx_boot w) res budget mw)) false w
         | _ => LineBad "release"
         end)
  else if starts "decision " cmd then
    let! args := sscanf "decision" [Llu; Ld] cmd in
    Ret (match args with
         | [budget; mw] => LineSend "decision" DECISION_REQUEST (ReserveMsg.encode_reserve (decision_msg w budget mw)) true w
         | _ => LineBad "decision"
         end)
  else if starts "stale_observe " cmd then
    let! args := sscanf "stale_observe" [Llu; Llu; Ld] cmd in
    Ret (match args with
         | [epoch; boot; mw] =>
             LineSend "stale_observe" POWER_OBSERVATION
               (PowerObsMsg.encode_power_obs (stale_observe_msg w epoch boot mw)) false (next_obs w)
         | _ => LineBad "stale_observe"
         end)
  else if starts "stale_reserve " cmd then
    let! args := sscanf "stale_reserve" [Llu; Llu; Llu; Ld] cmd in
    Ret (match args with
         | [epoch; boot; budget; mw] =>
             LineSend "stale_reserve" RESERVE
               (ReserveMsg.encode_reserve (reserve_msg w (mkGen epoch) (mkId boot) budget mw)) true w
         | _ => LineBad "stale_reserve"
         end)
  else if starts "stale_release " cmd then
    let! args := sscanf "stale_release" [Llu; Llu; Llu; Llu; Ld] cmd in
    Ret (match args with
         | [epoch; boot; res; budget; mw] =>
             LineSend "stale_release" RELEASE
               (BudgetActionMsg.encode_budget_action (action_msg (mkGen epoch) (mkId boot) res budget mw)) false w
         | _ => LineBad "stale_release"
         end)
  else Ret LineUnknown.

(** ** Running the script *)
Section Session.
(** The state of the peer, as far as the worker's connection goes. *)
Context {P : Type} (exchange : Frame -> P -> exchanged * P).

Record session := mkSession { s_ctx : WorkerCtx; s_peer : P; s_out : list string }.

Definition emit (text : string) : M session unit := smodify (fun s => mkSession (s_ctx s) (s_peer s) (s_out s ++ [text])).
Definition set_ctx (w : WorkerCtx) : M session unit := smodify (fun s => mkSession w (s_peer s) (s_out s)).
Definition call (f : Frame) : M session exchanged :=
  fun s => let '(r, p) := exchange f (s_peer s) in (Ret r, mkSession (s_ctx s) p (s_out s)).

(** The [catch] of [worker_register]: any exception of [stoull] gives the first epoch. *)
Definition parse_epoch (message : string) : CoordinatorEpoch :=
  match stoull message with Ret z => mkGen z | _ => gen_first end.

Definition worker_register : M session bool :=
  do! s <- sget;
  do! payload <- slift (RegisterMsg.encode_register (register_msg (s_ctx s)));
  do! r <- call (mkFrame REGISTER payload);
  match r with
  | Reply ack =>
      match AckMsg.decode_ack ack with
      | Some a =>
          if AckMsg.ok a then
            do! _ <- emit ("REGISTER ok: " +:+ AckMsg.message a);
            do! _ <- set_ctx (set_epoch (parse_epoch (AckMsg.message a)) (s_ctx s));
            sret true
          else do! _ <- emit ("REGISTER rejected: " +:+ AckMsg.message a); sret false
      | None => do! _ <- emit "REGISTER rejected: malformed"; sret false
      end
  | _ => sret false
  end.

(** The text printed for an answer. *)
Definition answer_text (show_message : bool) (r : Frame) : string :=
  match AckMsg.decode_ack r with
  | Some a => if AckMsg.ok a then (if show_message then "ACCEPT:" +:+ AckMsg.message a else "ACCEPT") else AckMsg.message a
  | None => "bad ack"
  end.

(** The observation generation advances before the frame is encoded. *)
Definition worker_dispatch (cmd : string) : M session bool :=
  do! s <- sget;
  do! a <- slift (parse_line (s_ctx s) cmd);
  match a with
  | LineQuit => sret false
  | LineBad name => do! _ <- emit (name +:+ ": bad args"); sret true
  | LineUnknown => do! _ <- emit "unknown cmd"; sret true
  | LineSend name ty payload show after =>
      do! _ <- set_ctx after;
      do! payload <- slift payload;
      do! r <- call (mkFrame ty payload);
      match r with
      | SendFailed => do! _ <- emit (name +:+ ": closed"); sret false
      | NoReply => do! _ <- emit (name +:+ ": connection closed"); sret false
      | Reply f => do! _ <- emit (name +:+ " -> " +:+ answer_text show f); sret true
      end
  end.

Fixpoint worker_script (cmds : list string) : M session bool :=
  match cmds with
  | [] => sret true
  | cmd :: cmds => do! go <- worker_dispatch cmd; if (go : bool) then worker_script cmds else sret true
  end.

Definition worker_run (cmds : list string) : M session bool :=
  do! ok <- worker_register;
  if (ok : bool) then worker_script cmds else sret false.
End Session.
