(* ===== verification/WorkerSpec.v ===== *)
(** * Workers against the coordinator

    The coordinator as the peer of a worker's connection, with the bytes of every
    frame carried by the transport in both directions and with whatever the other
    threads do in between; and the theorem that a worker which registered is never
    fenced off while its registration stands. *)
From Stdlib Require Import Ascii.
From S2P Require Import Prelude Util Scan Units Ids Clock Budget Wire Protocol Net Governor.
From S2P Require Import Coordinator CoordinatorSpec Worker.
Local Open Scope Z_scope.

(** ** Carrying frames *)
Section Transport.
(** What [::send] takes of what it is offered, and how the transport cuts the bytes
    into segments. *)
Context (send : nat -> list Z -> Z) (cut : list Z -> stream).

Definition carry (f : Frame) : option Frame :=
  match send_frame send f with
  | Ret (true, bytes) => (recv_frame (cut bytes)).1
  | _ => None
  end.

Definition transport_ok : Prop := send_progress send /\ forall l, stream_ok (cut l) /\ concat (cut l) = l.

Lemma carry_valid (f : Frame) : transport_ok -> valid_frame f -> carry f = Some f.
Proof.
  intros [Hs Hc] Hf. unfold carry. rewrite send_frame_all by assumption.
  destruct (Hc (seal (frame_header f ++ payload f))) as [Hok Hcat].
  rewrite <- (app_nil_r (seal _)) in Hcat at 2. destruct (recv_frame_spec _ f [] Hf Hok Hcat) as (s' & E & _).
  rewrite E. reflexivity.
Qed.

(** ** The coordinator at the other end *)
Record peer := mkPeer {
  p_shared : CoordShared;
  p_registered : bool;
  p_refused : list bool;
  p_turn : nat }.

Definition answer (r : reply) : exchanged :=
  match AckMsg.encode_ack r.2 with
  | Ret l => match carry (mkFrame r.1 l) with Some f => Reply f | None => NoReply end
  | _ => NoReply
  end.

Definition refused (o : option reply) : bool := match o with Some _ => true | None => false end.

(** What the other threads do while this one holds no lock: [others k] is their part
    before its [k]-th section, a function of its own for each [k]. *)
Definition section_after (others : nat -> CoordShared -> CoordShared) (k : nat) (w : work) (cs : CoordShared)
  : outcome (reply + work) * CoordShared :=
  let cs := others k cs in
  let '(o, g) := act_section w (gov cs) in (o, set_gov g cs).

(** One exchange of the connection's thread, section by section; [p_refused] records the
    verdicts of the fence, and [p_turn] counts the sections.  An exception ends the
    process, and with it the connection. *)
Definition coordinator_exchange (others : nat -> CoordShared -> CoordShared) (f : Frame) (p : peer) : exchanged * peer :=
  match carry f with
  | None => (SendFailed, p)
  | Some m =>
      let k := p_turn p in
      let cs := others k (p_shared p) in
      if p_registered p then
        let log := p_refused p ++ [refused (fence (parse m) cs).1] in
        match fence (parse m) cs with
        | (Some r, cs) => (answer r, mkPeer cs true log (k + 1))
        | (None, cs) =>
            match section_after others (k + 1) (Fenced (parse m)) cs with
            | (Ret (inl r), cs) => (answer r, mkPeer cs true log (k + 2))
            | (Ret (inr w), cs) =>
                match section_after others (k + 2) w cs with
                | (Ret (inl r), cs) => (answer r, mkPeer cs true log (k + 3))
                | (_, cs) => (NoReply, mkPeer cs true log (k + 3))
                end
            | (_, cs) => (NoReply, mkPeer cs true log (k + 2))
            end
        end
      else
        match first_frame m with
        | inl r => (answer r, mkPeer (p_shared p) false (p_refused p) k)
        | inr reg =>
            let cs := others (k + 1)%nat (register reg cs) in
            (answer (registered_reply reg cs), mkPeer cs true (p_refused p) (k + 2))
        end
  end.
End Transport.

(** ** The frames of the worker are valid *)
Definition bytes (l : list Z) : Prop := Forall (in_u 8) l.

Lemma put_u8_bytes (v : Z) : bytes (put_u8 v).
Proof. constructor; [apply wrap_range; lia|constructor]. Qed.
Lemma put_bytes_bytes (k i : nat) (v : Z) : bytes (put_bytes k i v).
Proof. apply put_bytes_range. Qed.
Lemma app_bytes (l l' : list Z) : bytes l -> bytes l' -> bytes (l ++ l').
Proof. apply Forall_app_2. Qed.
Lemma put_u16_bytes (v : Z) : bytes (put_u16 v).
Proof. apply app_bytes; apply put_u8_bytes. Qed.
Lemma str_bytes_bytes (s : string) : bytes (str_bytes s).
Proof. apply app_bytes; [apply put_bytes_bytes|apply bytes_of_string_range]. Qed.

Create HintDb payload.
#[local] Hint Resolve put_u8_bytes put_bytes_bytes app_bytes put_u16_bytes str_bytes_bytes : payload.

Lemma short_frame (ty : MsgType) (l : list Z) : bytes l -> (length l <= 1000)%nat -> valid_frame (mkFrame ty l).
Proof. intros Hb Hl. split; [exact Hb|]. cbn [payload]. unfold MAX_FRAME. lia. Qed.

Ltac solve_frame := apply short_frame; [unfold put_bool, put_i64, put_i32, put_u64, put_u32; eauto 30 with payload|].

Lemma register_frame_valid (m : RegisterMsg.t) : (String.length (RegisterMsg.name m) <= 100)%nat ->
  exists l, RegisterMsg.encode_register m = Ret l /\ valid_frame (mkFrame REGISTER l).
Proof.
  intros Hn. unfold RegisterMsg.encode_register. rewrite put_str_short by (unfold short_string; lia).
  eexists. split; [reflexivity|]. solve_frame. rewrite !length_app. unfold str_bytes. rewrite length_app, length_bytes_of_string.
  cbn. lia.
Qed.

Lemma observation_frame_valid (m : PowerObsMsg.t) : (String.length (PowerObsMsg.source m) <= 100)%nat ->
  exists l, PowerObsMsg.encode_power_obs m = Ret l /\ valid_frame (mkFrame POWER_OBSERVATION l).
Proof.
  intros Hn. unfold PowerObsMsg.encode_power_obs. rewrite put_str_short by (unfold short_string; lia).
  eexists. split; [reflexivity|]. solve_frame. rewrite !length_app. unfold str_bytes. rewrite length_app, length_bytes_of_string.
  cbn. lia.
Qed.

Lemma reserve_frame_valid (ty : MsgType) (m : ReserveMsg.t) :
  exists l, ReserveMsg.encode_reserve m = Ret l /\ valid_frame (mkFrame ty l).
Proof. eexists. split; [reflexivity|]. solve_frame. cbn. lia. Qed.

Lemma action_frame_valid (ty : MsgType) (m : BudgetActionMsg.t) :
  exists l, BudgetActionMsg.encode_budget_action m = Ret l /\ valid_frame (mkFrame ty l).
Proof. eexists. split; [reflexivity|]. solve_frame. cbn. lia. Qed.

Lemma ack_frame_valid (ty : MsgType) (a : AckMsg.t) : (String.length (AckMsg.message a) <= 100)%nat ->
  exists l, AckMsg.encode_ack a = Ret l /\ valid_frame (mkFrame ty l).
Proof.
  intros Hn. unfold AckMsg.encode_ack. rewrite put_str_short by (unfold short_string; lia).
  eexists. split; [reflexivity|]. solve_frame. rewrite !length_app. unfold str_bytes. rewrite length_app, length_bytes_of_string.
  cbn. lia.
Qed.

(** ** What a decoded frame asks for *)
Lemma parse_observation (m : PowerObsMsg.t) (l : list Z) : PowerObsMsg.valid m -> PowerObsMsg.encode_power_obs m = Ret l ->
  parse (mkFrame POWER_OBSERVATION l) = ReqObservation m.
Proof.
  intros Hm El. destruct (PowerObsMsg.power_obs_reads m Hm) as (l' & El' & Hr). rewrite El in El'. injection El' as <-.
  cbn [parse f_type]. unfold PowerObsMsg.decode_power_obs. cbn [payload]. rewrite (whole_reads _ _ _ Hr). reflexivity.
Qed.

Lemma decode_reserve_of (ty : MsgType) (m : ReserveMsg.t) (l : list Z) : ReserveMsg.valid m ->
  ReserveMsg.encode_reserve m = Ret l -> ReserveMsg.decode_reserve (mkFrame ty l) = Some m.
Proof.
  intros Hm El. destruct (ReserveMsg.reserve_reads m Hm) as (l' & El' & Hr). rewrite El in El'. injection El' as <-.
  exact (whole_reads _ _ _ Hr).
Qed.

Lemma decode_action_of (ty : MsgType) (m : BudgetActionMsg.t) (l : list Z) : BudgetActionMsg.valid m ->
  BudgetActionMsg.encode_budget_action m = Ret l -> BudgetActionMsg.decode_budget_action (mkFrame ty l) = Some m.
Proof.
  intros Hm El. destruct (BudgetActionMsg.budget_action_reads m Hm) as (l' & El' & Hr). rewrite El in El'. injection El' as <-.
  exact (whole_reads _ _ _ Hr).
Qed.

Lemma decode_ack_of (ty : MsgType) (a : AckMsg.t) (l : list Z) : AckMsg.valid a ->
  AckMsg.encode_ack a = Ret l -> AckMsg.decode_ack (mkFrame ty l) = Some a.
Proof.
  intros Hm El. destruct (AckMsg.ack_reads a Hm) as (l' & El' & Hr). rewrite El in El'. injection El' as <-.
  exact (whole_reads _ _ _ Hr).
Qed.

(** ** A session that stands *)

(** The identity of a worker fits the wire. *)
Definition ctx_ok (w : WorkerCtx) : Prop :=
  in_u 64 (id_raw (ctx_worker w)) /\ in_u 64 (id_raw (ctx_boot w)) /\ in_u 64 (id_raw (ctx_node w)) /\
  in_u 64 (id_raw (ctx_accel w)) /\ in_u 64 (gen_raw (ctx_epoch w)) /\ 0 <= gen_raw (ctx_obs_gen w).

(** The coordinator knows the worker, in its epoch, and is not ahead of its observations. *)
Definition stands (w : WorkerCtx) (cs : CoordShared) : Prop :=
  ctx_epoch w = cs_epoch cs /\ workers cs !! ctx_worker w = Some (ctx_boot w) /\
  not_behind cs (ctx_worker w) (ctx_obs_gen w).

Definition honest (cmd : string) : Prop := starts "stale_observe " cmd = false /\
  starts "stale_reserve " cmd = false /\ starts "stale_release " cmd = false.

(** The line sends a message that is current, and leaves the session standing. *)
Definition sends_current (w after : WorkerCtx) (ty : MsgType) (payload : outcome (list Z)) : Prop :=
  ctx_worker after = ctx_worker w /\ ctx_boot after = ctx_boot w /\ ctx_epoch after = ctx_epoch w /\
  ctx_ok after /\ gen_raw (ctx_obs_gen after) <= gen_raw (ctx_obs_gen w) + 1 /\
  exists l, payload = Ret l /\ valid_frame (mkFrame ty l) /\
    forall cs, stands w cs -> current_message cs (parse (mkFrame ty l)) /\
      stands after (fence (parse (mkFrame ty l)) cs).2.

(** The fence leaves a session standing when the message is not an observation. *)
Lemma sends_request (w : WorkerCtx) (ty : MsgType) (o : outcome (list Z)) (l : list Z) :
  ctx_ok w -> o = Ret l -> valid_frame (mkFrame ty l) ->
  (forall cs, ctx_epoch w = cs_epoch cs -> boot_known cs (ctx_boot w) -> current_message cs (parse (mkFrame ty l))) ->
  (forall cs, (fence (parse (mkFrame ty l)) cs).2 = cs) ->
  sends_current w w ty o.
Proof.
  intros Hw Ho Hf Hc Hs. split_and!; try reflexivity; [exact Hw|lia|]. exists l. split; [exact Ho|]. split; [exact Hf|].
  intros cs Hst. rewrite Hs. split; [|exact Hst]. destruct Hst as (He & Hb & _). apply Hc; [exact He|]. exists (ctx_worker w). exact Hb.
Qed.

Lemma fence_same (r : request) (cs : CoordShared) :
  match r with ReqObservation _ | ReqThermal _ => False | _ => True end -> (fence r cs).2 = cs.
Proof. destruct r; cbn [fence]; try contradiction; intros _; repeat case_match; reflexivity. Qed.

Lemma send_reserve (w : WorkerCtx) (ty : MsgType) (m : ReserveMsg.t) :
  ctx_ok w -> ty = RESERVE \/ ty = DECISION_REQUEST -> ReserveMsg.valid m ->
  ReserveMsg.epoch m = ctx_epoch w -> ReserveMsg.boot m = ctx_boot w ->
  sends_current w w ty (ReserveMsg.encode_reserve m).
Proof.
  intros Hw Hty Hm He Hb. destruct (reserve_frame_valid ty m) as (l & El & Hf).
  pose proof (decode_reserve_of ty m l Hm El) as Hd.
  eapply sends_request; [exact Hw|exact El|exact Hf| |].
  - intros cs Hec Hbc. destruct Hty as [-> | ->]; cbn [parse f_type]; rewrite Hd; cbn [or_malformed current_message];
      rewrite He, Hb; auto.
  - intros cs. apply fence_same. destruct Hty as [-> | ->]; cbn [parse f_type]; rewrite Hd; exact I.
Qed.

Lemma send_action (w : WorkerCtx) (ty : MsgType) (m : BudgetActionMsg.t) :
  ctx_ok w -> ty = ACTIVATE \/ ty = RELEASE -> BudgetActionMsg.valid m ->
  BudgetActionMsg.epoch m = ctx_epoch w -> BudgetActionMsg.boot m = ctx_boot w ->
  sends_current w w ty (BudgetActionMsg.encode_budget_action m).
Proof.
  intros Hw Hty Hm He Hb. destruct (action_frame_valid ty m) as (l & El & Hf).
  pose proof (decode_action_of ty m l Hm El) as Hd.
  eapply sends_request; [exact Hw|exact El|exact Hf| |].
  - intros cs Hec Hbc. destruct Hty as [-> | ->]; cbn [parse f_type]; rewrite Hd; cbn [or_malformed current_message];
      rewrite He, Hb; auto.
  - intros cs. apply fence_same. destruct Hty as [-> | ->]; cbn [parse f_type]; rewrite Hd; exact I.
Qed.

Lemma send_observe (w : WorkerCtx) (mw centi : Z) :
  ctx_ok w -> gen_raw (ctx_obs_gen w) < 2 ^ 64 - 1 -> converted Ld mw -> converted Ld centi ->
  sends_current w (next_obs w) POWER_OBSERVATION (PowerObsMsg.encode_power_obs (observe_msg w mw centi)).
Proof.
  intros (Hw & Hb & Hn & Ha & He & Ho) Hlt Hmw Hc. cbn [converted] in *.
  assert (Hg : gen_raw (gen_next (ctx_obs_gen w)) = gen_raw (ctx_obs_gen w) + 1).
  { unfold gen_next. cbn [gen_raw]. apply wrap_small. unfold in_u. lia. }
  split_and!; try reflexivity.
  - unfold ctx_ok, next_obs. cbn [ctx_worker ctx_boot ctx_node ctx_accel ctx_epoch ctx_obs_gen]. rewrite Hg. auto 10 with lia.
  - cbn [next_obs ctx_obs_gen]. lia.
  - destruct (observation_frame_valid (observe_msg w mw centi)) as (l & El & Hf); [cbn; lia|].
    exists l. split; [exact El|]. split; [exact Hf|]. intros cs (Hec & Hbc & Hhw).
    assert (Hm : PowerObsMsg.valid (observe_msg w mw centi)).
    { unfold PowerObsMsg.valid, observe_msg. cbn. unfold in_u, in_i64, in_i32, short_string in *. cbn in *. lia. }
    rewrite (parse_observation _ _ Hm El).
    assert (Hcur : current_message cs (ReqObservation (observe_msg w mw centi))) by (split_and!; assumption).
    split; [exact Hcur|]. cbn [current_message] in Hcur. apply fence_obs_spec in Hcur. cbn [fence]. rewrite Hcur.
    cbn [snd]. split_and!; [exact Hec|exact Hbc|]. intros hi. cbn [obs_hwm set_hwm next_obs ctx_worker ctx_obs_gen].
    rewrite lookup_insert_eq. intros [= <-]. cbn [observe_msg PowerObsMsg.obs_gen]. lia.
Qed.

(** What a line of [sscanf] conversions assigns is in range. *)
Lemma args_range (word cmd : string) (fmt : list conversion) (l : list Z) :
  sscanf word fmt cmd = Ret l -> length l = length fmt -> Forall2 converted fmt l.
Proof. apply scan_range. Qed.

Ltac line_args :=
  match goal with
  | H : obind (sscanf ?word ?fmt ?cmd) _ = Ret _ |- _ =>
      let l := fresh "l" in let E := fresh "E" in
      apply obind_Ret in H as (l & E & H); pose proof (args_range word cmd fmt l E) as Hargs;
      repeat (let z := fresh "z" in destruct l as [|z l]; try discriminate H);
      specialize (Hargs eq_refl); repeat (apply Forall2_cons_1 in Hargs as [? Hargs]); injection H as <- <- <- <- <-
  end.

Lemma honest_line (w after : WorkerCtx) (cmd name : string) (ty : MsgType) (payload : outcome (list Z)) (show : bool) :
  honest cmd -> ctx_ok w -> gen_raw (ctx_obs_gen w) < 2 ^ 64 - 1 ->
  parse_line w cmd = Ret (LineSend name ty payload show after) -> sends_current w after ty payload.
Proof.
  intros (H1 & H2 & H3) Hw Hlt. pose proof Hw as (? & ? & ? & ? & ? & ?). unfold parse_line. rewrite H1, H2, H3.
  destruct (starts "quit" cmd); [discriminate|].
  destruct (starts "observe " cmd); [intros Hl; line_args; apply send_observe; assumption|].
  destruct (starts "reserve " cmd); [intros Hl; line_args; apply send_reserve; auto; cbn [converted] in *;
    unfold ReserveMsg.valid, reserve_msg, in_u, in_i64 in *; cbn in *; lia|].
  destruct (starts "activate " cmd); [intros Hl; line_args; apply send_action; auto; cbn [converted] in *;
    unfold BudgetActionMsg.valid, action_msg, in_u, in_i64 in *; cbn in *; lia|].
  destruct (starts "release " cmd); [intros Hl; line_args; apply send_action; auto; cbn [converted] in *;
    unfold BudgetActionMsg.valid, action_msg, in_u, in_i64 in *; cbn in *; lia|].
  destruct (starts "decision " cmd); [intros Hl; line_args; apply send_reserve; auto; cbn [converted] in *;
    unfold ReserveMsg.valid, decision_msg, in_u, in_i64 in *; cbn in *; lia|].
  discriminate.
Qed.

(** ** The whole session *)
Section Honest.
Context (send : nat -> list Z -> Z) (cut : list Z -> stream) (others : nat -> CoordShared -> CoordShared).

Let exchange := coordinator_exchange send cut others.
Let state := @session peer.

(** What the other threads leave alone, whenever they run: the epoch, and what is known
    of this worker. *)
Definition spares (w : WorkerId) : Prop := forall k cs,
  cs_epoch (others k cs) = cs_epoch cs /\ workers (others k cs) !! w = workers cs !! w /\
  obs_hwm (others k cs) !! w = obs_hwm cs !! w.

Lemma spares_stands (w : WorkerCtx) (k : nat) (cs : CoordShared) : spares (ctx_worker w) -> stands w cs -> stands w (others k cs).
Proof.
  intros Ho (He & Hb & Hh). destruct (Ho k cs) as (Ee & Eb & Eh). unfold stands, not_behind in *. rewrite Ee, Eb, Eh. auto.
Qed.

Lemma section_stands (w : WorkerCtx) (k : nat) (todo : work) (cs cs' : CoordShared) (o : outcome (reply + work)) :
  spares (ctx_worker w) -> stands w cs -> section_after others k todo cs = (o, cs') -> stands w cs'.
Proof.
  intros Ho Hs. unfold section_after. destruct (act_section todo (gov (others k cs))) as [o' g]. intros [= _ <-].
  exact (spares_stands w k cs Ho Hs).
Qed.

(** The session stands, with room for [n] more observations, and nothing was refused. *)
Definition session_ok (id : WorkerId) (n : Z) (s : state) : Prop :=
  ctx_worker (s_ctx s) = id /\ ctx_ok (s_ctx s) /\ gen_raw (ctx_obs_gen (s_ctx s)) + n < 2 ^ 64 /\
  stands (s_ctx s) (p_shared (s_peer s)) /\ p_registered (s_peer s) = true /\
  Forall (fun b => b = false) (p_refused (s_peer s)).

Lemma session_weaken (id : WorkerId) (n n' : Z) (s : state) : n' <= n -> session_ok id n s -> session_ok id n' s.
Proof. intros Hn (A & B & C & D). split; [exact A|split; [exact B|split; [lia|exact D]]]. Qed.

(** Printing changes nothing that matters. *)
Lemma emit_ok (id : WorkerId) (n : Z) (text : string) (b : bool) (s : state) : session_ok id n s ->
  session_ok id n ((do! _ <- emit text; sret b) s).2.
Proof. intros H. exact H. Qed.

Lemma exchange_current (w after : WorkerCtx) (ty : MsgType) (payload : outcome (list Z)) (l : list Z) (p : peer) :
  transport_ok send cut -> spares (ctx_worker w) -> sends_current w after ty payload -> payload = Ret l ->
  stands w (p_shared p) -> p_registered p = true -> Forall (fun b => b = false) (p_refused p) ->
  let p' := (exchange (mkFrame ty l) p).2 in
  stands after (p_shared p') /\ p_registered p' = true /\ Forall (fun b => b = false) (p_refused p').
Proof.
  intros Ht Ho (Ew & Eb & Ee & Hok & _ & l' & El & Hf & Hs) Epl Hst Hreg Hlog. rewrite Epl in El. injection El as <-.
  unfold exchange, coordinator_exchange. rewrite carry_valid by assumption. rewrite Hreg.
  set (cs0 := others (p_turn p) (p_shared p)). assert (Hst0 : stands w cs0) by (apply spares_stands; assumption).
  destruct (Hs cs0 Hst0) as (Hc & Haft).
  pose proof (fence_spec (parse (mkFrame ty l)) cs0) as Hfs.
  destruct (fence (parse (mkFrame ty l)) cs0) as [o cs]. destruct Hfs as (Hn & _).
  rewrite (proj2 Hn Hc) in *. cbn [fst snd refused] in *.
  assert (Hlog' : Forall (fun b => b = false) (p_refused p ++ [false])) by (apply Forall_app_2; [exact Hlog|repeat constructor]).
  rewrite <- Ew in Ho. destruct (section_after others (p_turn p + 1) _ cs) as [o1 cs1] eqn:E1.
  pose proof (section_stands after _ _ _ _ _ Ho Haft E1) as H1.
  destruct o1 as [[r|todo]|e| |]; cbn [snd p_shared p_registered p_refused]; auto.
  destruct (section_after others (p_turn p + 2) todo cs1) as [o2 cs2] eqn:E2. pose proof (section_stands after _ _ _ _ _ Ho H1 E2) as H2.
  destruct o2 as [[r|todo']|e| |]; cbn [snd p_shared p_registered p_refused]; auto.
Qed.

Lemma dispatch_ok (id : WorkerId) (n : Z) (cmd : string) (s : state) :
  transport_ok send cut -> spares id -> honest cmd -> 0 <= n -> session_ok id (n + 1) s ->
  session_ok id n (worker_dispatch exchange cmd s).2.
Proof.
  intros Ht Ho Hh Hn Hs. pose proof (session_weaken id (n + 1) n s ltac:(lia) Hs) as Hs'.
  unfold worker_dispatch. rewrite sbind_sget. unfold sbind at 1, slift at 1.
  destruct (parse_line (s_ctx s) cmd) as [a|e| |] eqn:Ea; try exact Hs'.
  destruct a as [|name| |name ty pl show after]; try exact Hs'.
  destruct Hs as (Ew & Hok & Hroom & Hst & Hreg & Hlog).
  pose proof (honest_line _ _ _ _ _ _ _ Hh Hok ltac:(lia) Ea) as Hsend.
  pose proof Hsend as (Ew' & _ & _ & Hok' & Hroom' & l & El & _).
  unfold sbind at 1, set_ctx, smodify. rewrite El. rewrite sbind_lift.
  pose proof (exchange_current (s_ctx s) after ty pl l (s_peer s) Ht ltac:(rewrite Ew; exact Ho) Hsend El Hst Hreg Hlog) as Hx.
  unfold sbind at 1, call. cbn [s_peer s_ctx s_out]. destruct (exchange (mkFrame ty l) (s_peer s)) as [x p]. cbn [snd] in Hx.
  assert (Hfin : session_ok id n (mkSession after p (s_out s))).
  { split_and!; cbn [s_ctx s_peer]; [congruence|exact Hok'|lia|apply Hx..]. }
  destruct x; exact Hfin.
Qed.

Lemma script_ok (id : WorkerId) (cmds : list string) (s : state) :
  transport_ok send cut -> spares id -> Forall honest cmds -> session_ok id (Z.of_nat (length cmds)) s ->
  session_ok id 0 (worker_script exchange cmds s).2.
Proof.
  intros Ht Ho Hh. revert s. induction Hh as [|cmd cmds Hc Hcs IH]; intros s Hs; [exact Hs|].
  cbn [worker_script length] in *. unfold sbind.
  pose proof (dispatch_ok id (Z.of_nat (length cmds)) cmd s Ht Ho Hc ltac:(lia) ltac:(rewrite Nat2Z.inj_succ in Hs; exact Hs)) as H.
  destruct (worker_dispatch exchange cmd s) as [[go|e| |] s']; cbn [snd] in *;
    try (eapply session_weaken; [|exact H]; lia).
  destruct go; [apply IH, H|]. eapply session_weaken; [|exact H]. lia.
Qed.

(** What is printed stays printed. *)
Definition prints (s s' : state) : Prop := exists l, s_out s' = s_out s ++ l.

Lemma dispatch_prints (cmd : string) (s : state) : prints s (worker_dispatch exchange cmd s).2.
Proof.
  unfold worker_dispatch. rewrite sbind_sget. unfold sbind at 1, slift at 1.
  destruct (parse_line (s_ctx s) cmd) as [a|e| |]; try (exists []; symmetry; apply app_nil_r).
  destruct a as [|name| |name ty pl show after]; try (exists []; symmetry; apply app_nil_r); try (eexists; reflexivity).
  unfold sbind at 1, set_ctx, smodify. unfold sbind at 1, slift. destruct pl as [l|e| |]; try (exists []; symmetry; apply app_nil_r).
  unfold sbind at 1, call. cbn [s_peer s_ctx s_out]. destruct (exchange (mkFrame ty l) (s_peer s)) as [[| |f] p]; eexists; reflexivity.
Qed.

Lemma script_prints (cmds : list string) (s : state) : prints s (worker_script exchange cmds s).2.
Proof.
  revert s. induction cmds as [|cmd cmds IH]; intros s; [exists []; symmetry; apply app_nil_r|].
  cbn [worker_script]. unfold sbind. pose proof (dispatch_prints cmd s) as H.
  destruct (worker_dispatch exchange cmd s) as [[go|e| |] s']; cbn [snd] in *; try exact H.
  destruct go; [|exact H]. destruct H as [l El], (IH s') as [l' El']. exists (l ++ l'). rewrite El', El, app_assoc. reflexivity.
Qed.

(** Registration: the worker comes out with the epoch of the coordinator. *)
Definition before (w : WorkerCtx) (cs : CoordShared) : state := mkSession w (mkPeer cs false [] 0) [].

Lemma register_ok (w : WorkerCtx) (n : Z) (cs : CoordShared) :
  transport_ok send cut -> spares (ctx_worker w) -> ctx_ok w -> in_u 64 (gen_raw (cs_epoch cs)) ->
  gen_raw (ctx_obs_gen w) + n < 2 ^ 64 ->
  exists s, worker_register exchange (before w cs) = (Ret true, s) /\ session_ok (ctx_worker w) n s /\
    s_out s = ["REGISTER ok: " +:+ to_string_int (gen_raw (cs_epoch cs))].
Proof.
  intros Ht Ho Hw He Hn. pose proof Hw as (Hi & Hb & Hnode & Ha & _ & Hg).
  destruct (register_frame_valid (register_msg w)) as (l & El & Hf); [cbn; lia|].
  assert (Hm : RegisterMsg.valid (register_msg w)).
  { unfold RegisterMsg.valid, register_msg, short_string. cbn. split_and!; try assumption. lia. }
  destruct (RegisterMsg.register_reads _ Hm) as (l' & El' & Hr). rewrite El in El'. injection El' as <-.
  assert (Efirst : first_frame (mkFrame REGISTER l) = inr (register_msg w)).
  { unfold first_frame. cbn [f_type]. unfold RegisterMsg.decode_register. cbn [payload]. rewrite (whole_reads _ _ _ Hr). reflexivity. }
  set (cs0 := others 0%nat cs). set (cs1 := others (0 + 1)%nat (register (register_msg w) cs0)).
  assert (Ecs : cs_epoch cs1 = cs_epoch cs).
  { unfold cs1. rewrite (proj1 (Ho _ _)). cbn [register cs_epoch]. apply (Ho 0%nat cs). }
  set (ack := AckMsg.mk (id_raw (ctx_worker w)) true (to_string_int (gen_raw (cs_epoch cs)))).
  pose proof (to_string_length _ He) as Hlen.
  destruct (ack_frame_valid ACK ack) as (la & Ela & Hfa); [cbn; lia|].
  assert (Hack : AckMsg.valid ack) by (split; [exact Hi|unfold short_string; cbn; lia]).
  unfold worker_register, before. rewrite sbind_sget. cbn [s_ctx]. rewrite El, sbind_lift.
  unfold sbind at 1, call, exchange, coordinator_exchange. cbn [s_peer s_ctx s_out p_registered p_shared p_refused p_turn].
  rewrite carry_valid, Efirst by assumption. fold cs0. fold cs1. unfold answer, registered_reply. cbn [register_msg RegisterMsg.worker send_ack fst snd].
  rewrite Ecs. fold ack. rewrite Ela, carry_valid by assumption. rewrite (decode_ack_of ACK ack la Hack Ela). cbn [ack AckMsg.ok AckMsg.message].
  eexists. split; [reflexivity|]. split; [|reflexivity]. unfold parse_epoch. rewrite stoull_to_string by assumption.
  destruct (cs_epoch cs) as [e0] eqn:Ee0. cbn [gen_raw] in *.
  destruct (Ho (0 + 1)%nat (register (register_msg w) cs0)) as (_ & Ew & Eh). fold cs1 in Ew, Eh.
  split; [reflexivity|]. split; [exact (conj Hi (conj Hb (conj Hnode (conj Ha (conj He Hg)))))|]. split; [exact Hn|].
  split; [|split; [reflexivity|constructor]]. split; [symmetry; exact Ecs|]. split; [refine (eq_trans Ew _); apply lookup_insert_eq|].
  intros hi. cbn [s_ctx s_peer set_epoch ctx_worker ctx_obs_gen p_shared]. rewrite Eh.
  cbn [register obs_hwm register_msg RegisterMsg.worker]. rewrite lookup_insert_eq. intros [= <-]. exact Hg.
Qed.
End Honest.

(** C21: an honest worker is never fenced off.  A worker, with identifiers of 64 bits,
    registers with the coordinator and plays a script of fewer than [2^64 - 1] lines:
    observations, reservations, activations, releases and decisions, or anything else but
    the three commands that send stale messages on purpose.  Every frame goes through the
    framing of the protocol in both directions, however [send] splits its bytes, as long
    as it takes some each time, and however the transport cuts them, as long as it
    delivers them all in order.  Before each section that its thread runs under a lock
    (the registration, the reply to it, each fence, the planning of a reservation and its
    booking, and every other call), the other threads do anything, and something else
    each time, as long as they leave the epoch, the registered boot of this worker and
    the mark of its observations as they are.  Then the registration is answered, the
    worker adopts the coordinator's epoch from the text of the answer, and every message
    it sends is current: the fence refuses none of them. *)
Theorem honest_worker_never_fenced (send : nat -> list Z -> Z) (cut : list Z -> stream)
    (others : nat -> CoordShared -> CoordShared) (worker : WorkerId) (boot : WorkerBootId) (node : NodeId)
    (cs : CoordShared) (cmds : list string) :
  transport_ok send cut -> spares others worker ->
  in_u 64 (id_raw worker) -> in_u 64 (id_raw boot) -> in_u 64 (id_raw node) -> in_u 64 (gen_raw (cs_epoch cs)) ->
  Forall honest cmds -> Z.of_nat (length cmds) < 2 ^ 64 - 1 ->
  let s := (worker_run (coordinator_exchange send cut others) cmds (before (make_ctx worker boot node) cs)).2 in
  Forall (fun refused => refused = false) (p_refused (s_peer s)) /\
  p_registered (s_peer s) = true /\ stands (s_ctx s) (p_shared (s_peer s)) /\
  exists out, s_out s = ("REGISTER ok: " +:+ to_string_int (gen_raw (cs_epoch cs))) :: out.
Proof.
  intros Ht Ho Hw Hb Hn He Hh Hlen. set (w := make_ctx worker boot node).
  assert (Hok : ctx_ok w) by (unfold ctx_ok, w, make_ctx, in_u in *; cbn; lia).
  destruct (register_ok send cut others w (Z.of_nat (length cmds)) cs Ht Ho Hok He) as (s & Es & Hs & Hout); [cbn; lia|].
  unfold worker_run. rewrite (sbind_step _ _ _ _ _ Es).
  pose proof (script_ok send cut others worker cmds s Ht Ho Hh Hs) as (_ & _ & _ & Hst & Hreg & Hlog).
  destruct (script_prints send cut others cmds s) as [out Eout]. rewrite Hout in Eout.
  split_and!; [exact Hlog|exact Hreg|exact Hst|]. exists out. exact Eout.
Qed.

(** A transport that takes a byte at a time and delivers what it has at once, and a
    coordinator that installed a budget. *)
Definition byte_at_a_time (turn : nat) (data : list Z) : Z := 1.
Definition at_once (l : list Z) : stream := match l with [] => [] | _ => [l] end.

Lemma plain_transport : transport_ok byte_at_a_time at_once.
Proof.
  split; [intros turn [|b data] H; [congruence|cbn; unfold byte_at_a_time; lia]|].
  intros [|b l]; split; try constructor; try constructor; try discriminate. cbn. rewrite app_nil_r. reflexivity.
Qed.

Definition script : list string := ["observe 90000 3700"; "reserve 1 60000"; "decision 1 20000"; "hello"].
Definition budgeted : CoordShared := (run_command (CmdInstallBudget 1 0 100 50) (coordinator_start 1 1 1 1 1)).2.

(** Another worker registers before this one, plans a reservation of 30 W before this one
    plans its own, and books it before this one does. *)
Definition rival_work (w : work) (cs : CoordShared) : CoordShared := set_gov (act_section w (gov cs)).2 cs.
Definition rival (k : nat) (cs : CoordShared) : CoordShared :=
  let reserve := ReserveMsg.mk invalid_id (mkId 1) 30000 0 gen_first gen_first gen_first gen_first (mkId 9) 1 (mkId 1) (mkGen 1)
                   (mkId 8) 1000000 5000000000 in
  match k with
  | 0%nat => register (RegisterMsg.mk (mkId 2) (mkId 8) (mkId 1) "rival") cs
  | 5%nat => rival_work (Fenced (ReqReserve reserve)) cs
  | 6%nat => rival_work (Planned reserve (mkId 1)) cs
  | _ => cs
  end.
Definition scripted : @session peer :=
  (worker_run (coordinator_exchange byte_at_a_time at_once rival) script (before (make_ctx (mkId 1) (mkId 7) (mkId 1)) budgeted)).2.

Lemma rival_spares : spares rival (mkId 1).
Proof. intros [|[|[|[|[|[|[|k]]]]]]] cs; split_and!; try reflexivity; apply lookup_insert_ne; discriminate. Qed.

Lemma honest_worker_never_fenced_witness :
  s_out scripted = ["REGISTER ok: 1"; "observe -> ACCEPT"; "reserve -> ACCEPT:2";
                    "decision -> ACCEPT:ALLOW_WITH_LIMIT 8af7939d7537bcca"; "unknown cmd"] /\
  BudgetManager.reserved (Governor.budgets (gov (p_shared (s_peer scripted)))) (mkId 1) = mkQ 90 /\
  length (p_refused (s_peer scripted)) = 3%nat /\
  Forall (fun refused => refused = false) (p_refused (s_peer scripted)) /\
  p_registered (s_peer scripted) = true /\ stands (s_ctx scripted) (p_shared (s_peer scripted)) /\
  exists out, s_out scripted = ("REGISTER ok: " +:+ to_string_int (gen_raw (cs_epoch budgeted))) :: out.
Proof.
  do 3 (split; [vm_compute; reflexivity|]).
  apply (honest_worker_never_fenced byte_at_a_time at_once rival (mkId 1) (mkId 7) (mkId 1) budgeted script).
  - apply plain_transport.
  - apply rival_spares.
  - split; reflexivity || discriminate.
  - split; reflexivity || discriminate.
  - split; reflexivity || discriminate.
  - split; [vm_compute; discriminate|vm_compute; reflexivity].
  - repeat constructor.
  - reflexivity.
Defined.
