(* ===== verification/Console.v ===== *)
(** * The terminal of the coordinator and of the worker (tools/distributed.cpp)

    Standard input as the characters [getchar] returns, cut into lines by [read_line];
    the command of a line, read by [sscanf]; the loop of the coordinator over its lines,
    alone ([control_loop]) and between the steps of the workers' threads
    ([attended_step]); and the two entry points with their arguments. *)
From Stdlib Require Import Ascii.
From S2P Require Import Prelude Binary64 Util Scan Strtod Units Ids Clock Budget.
From S2P Require Import Wire Protocol Persistence Governor GovernorState Coordinator Worker.
Local Open Scope Z_scope.
#[local] Set Warnings "-inexact-float".

(** ** Lines *)
Definition newline : ascii := ascii_of_nat 10.

(** [read_line]: what is returned, the line, and the characters that are left. *)
Fixpoint read_line (line : string) (input : list ascii) : bool * string * list ascii :=
  match input with
  | [] => (negb (bool_decide (line = EmptyString)), line, [])
  | c :: input => if byte_of_char c =? 10 then (true, line, input) else read_line (line +:+ String c EmptyString) input
  end.

(** [while (read_line(...))], over at most [fuel] lines. *)
Fixpoint read_lines (fuel : nat) (input : list ascii) : list string :=
  match fuel with
  | O => []
  | S fuel =>
      match read_line EmptyString input with
      | (true, line, rest) => line :: read_lines fuel rest
      | (false, _, _) => []
      end
  end.
(** A line takes a character or is the last, so this is all of them. *)
Definition input_lines (text : string) : list string :=
  let l := String.list_ascii_of_string text in read_lines (S (length l)) l.

(** ** Control lines *)
Inductive control :=
| InstallBudget (id parent : Z) (hmax soft : double)
| SetPolicy (cap : double)
| RollEpoch
| Snapshot
| Save (file : string)
| Quit
| Unknown
| Bad (what : string).

Definition sscanf_items (word : string) (fmt : list item_conversion) (line : string) : outcome (list item) :=
  scan_items fmt (drop (String.length word) (String.list_ascii_of_string line)).

Definition scan_line (line : string) : outcome control :=
  if starts "install_budget " line then
    let! items := sscanf_items "install_budget" [CLlu; CLlu; CLf; CLf] line in
    Ret (match items with
         | [ItemInt id; ItemInt parent; ItemDouble hmax; ItemDouble soft] => InstallBudget id parent hmax soft
         | _ => Bad "install_budget"
         end)
  else if starts "set_policy " line then
    let! items := sscanf_items "set_policy" [CLf] line in
    Ret (match items with [ItemDouble cap] => SetPolicy cap | _ => Bad "set_policy" end)
  else if starts "roll_epoch" line then Ret RollEpoch
  else if starts "snapshot" line then Ret Snapshot
  else if starts "save " line then Ret (Save (String.substring 5 (String.length line - 5) line))
  else if starts "quit" line then Ret Quit
  else Ret Unknown.

(** The command of a line, in a file system that does what [env] says to a save. *)
Definition command_of (env : io) (fs : files) (c : control) : option command :=
  match c with
  | InstallBudget id parent hmax soft => Some (CmdInstallBudget id parent hmax soft)
  | SetPolicy cap => Some (CmdSetPolicy cap)
  | RollEpoch => Some CmdRollEpoch
  | Snapshot => Some CmdSnapshot
  | Save file => Some (CmdSave file env fs)
  | Unknown => Some CmdUnknown
  | Quit | Bad _ => None
  end.

(** One turn of the loop: what is printed, or nothing when the loop ends. *)
Definition operate (env : io) (fs : files) (line : string) : M CoordShared (option string) :=
  do! c <- slift (scan_line line);
  match c with
  | Quit => sret None
  | Bad what => sret (Some ("BAD " +:+ what))
  | _ =>
      match command_of env fs c with
      | Some cmd => do! out <- run_command cmd; sret (Some out)
      | None => sret None
      end
  end.

(** The files after a line. *)
Definition disk_after (env : io) (fs : files) (line : string) (cs : CoordShared) : files :=
  match scan_line line with
  | Ret (Save file) => match (save never env file fs (gov cs)).1 with Ret (_, states) => default fs (last states) | _ => fs end
  | _ => fs
  end.

Definition option_line (o : option string) : list string := match o with Some s => [s] | None => [] end.

(** The loop, when no worker comes between the lines: the files and what was printed. *)
Fixpoint control_loop (env : io) (lines : list string) (fs : files) (out : list string) : M CoordShared (files * list string) :=
  match lines with
  | [] => sret (fs, out)
  | line :: lines =>
      do! cs <- sget;
      do! o <- operate env fs line;
      match o with
      | Some text => control_loop env lines (disk_after env fs line cs) (out ++ [text])
      | None => sret (fs, out)
      end
  end.

(** [listening] is what binding the port comes to; the exit code, what was printed and the files. *)
Definition coordinator_loop (listening : Z -> bool) (env : io) (port : Z) (input : string) (fs : files)
    (next_gov next_res next_pol next_obs next_dec : Z) : outcome (Z * list string * files) :=
  if negb (listening port) then Ret (1, ["LISTEN_FAIL"], fs)
  else
    let! r := (control_loop env (input_lines input) fs ["READY " +:+ to_string_int port]
                 (coordinator_start next_gov next_res next_pol next_obs next_dec)).1 in
    Ret (0, r.2, r.1).

(** ** The loop between the workers

    A line whose command nothing comes between is one step; so is what a save does
    before it releases the lock of the governor, and the rest of it when the file was
    written.  [env], what the operating system does to a save, is another each time. *)
Record attended := mkAttended { sys : system; pending : list string; disk : files; printed : list string }.

Inductive attended_step (a : attended) : attended -> Prop :=
| attended_worker s : worker_step (sys a) s -> attended_step a (mkAttended s (pending a) (disk a) (printed a))
| attended_line env line rest o cs : saving (sys a) = None -> pending a = line :: rest ->
    operate env (disk a) line (shared (sys a)) = (Ret o, cs) ->
    attended_step a
      (mkAttended (mkSystem cs (threads (sys a)) None) (match o with Some _ => rest | None => [] end)
         (disk_after env (disk a) line (shared (sys a))) (printed a ++ option_line o))
| attended_save env line rest file states : saving (sys a) = None -> pending a = line :: rest ->
    scan_line line = Ret (Save file) -> save_file env file (disk a) (gov (shared (sys a))) = Ret (true, states) ->
    attended_step a
      (mkAttended (mkSystem (shared (sys a)) (threads (sys a)) (Some file)) rest (default (disk a) (last states)) (printed a))
| attended_saved file g : saving (sys a) = Some file -> save_recorded never file (gov (shared (sys a))) = (Ret (), g) ->
    attended_step a
      (mkAttended (mkSystem (set_gov g (shared (sys a))) (threads (sys a)) None) (pending a) (disk a) (printed a ++ ["SAVED"])).

Inductive attended_run (a : attended) : attended -> Prop :=
| attended_refl : attended_run a a
| attended_more a1 a2 : attended_run a a1 -> attended_step a1 a2 -> attended_run a a2.

(** ** The entry points *)

(** [std::stoi]; [int] and [long] have 32 bits. *)
Definition stoi (s : string) : outcome Z :=
  match subject (String.list_ascii_of_string s) with
  | None => Throw (invalid_argument "stoi")
  | Some (neg, v, _) => let z := if neg then - v else v in if in_i32b z then Ret z else Throw (out_of_range "stoi")
  end.

(** The text before the first colon and the text after it. *)
Fixpoint split_colon (v : string) : option (string * string) :=
  match v with
  | EmptyString => None
  | String c v =>
      if byte_of_char c =? 58 then Some (EmptyString, v)
      else match split_colon v with Some (a, b) => Some (String c a, b) | None => None end
  end.

Record worker_args := mkWorkerArgs {
  arg_host : string; arg_port : Z; arg_worker : WorkerId; arg_boot : WorkerBootId; arg_node : NodeId }.
Definition default_worker_args : worker_args := mkWorkerArgs "127.0.0.1" 0 (mkId 1) (mkId 1) (mkId 1).

(** The arguments after the name of the program; an option needs a value after it. *)
Fixpoint parse_worker_args (w : worker_args) (args : list string) : outcome worker_args :=
  match args with
  | a :: ((v :: rest) as tail) =>
      if String.eqb a "--coordinator" then
        match split_colon v with
        | Some (host, p) =>
            let! port := stoi p in
            parse_worker_args (mkWorkerArgs host (wrap 16 port) (arg_worker w) (arg_boot w) (arg_node w)) rest
        | None => parse_worker_args w rest
        end
      else if String.eqb a "--boot" then
        let! n := stoull v in
        parse_worker_args (mkWorkerArgs (arg_host w) (arg_port w) (arg_worker w) (mkId n) (arg_node w)) rest
      else if String.eqb a "--node" then
        let! n := stoull v in
        parse_worker_args (mkWorkerArgs (arg_host w) (arg_port w) (arg_worker w) (arg_boot w) (mkId n)) rest
      else if String.eqb a "--worker" then
        let! n := stoull v in
        parse_worker_args (mkWorkerArgs (arg_host w) (arg_port w) (mkId n) (arg_boot w) (arg_node w)) rest
      else parse_worker_args w tail
  | _ => Ret w
  end.

Section WorkerMain.
(** The peer, and what connecting to a host and a port comes to. *)
Context {P : Type} (exchange : Frame -> P -> exchanged * P) (connect : string -> Z -> option P).

Definition nonempty (line : string) : bool := negb (bool_decide (line = EmptyString)).

(** The exit code and what was printed. *)
Definition run_worker_main (args : list string) (input : string) : outcome (Z * list string) :=
  let! w := parse_worker_args default_worker_args args in
  if arg_port w =? 0 then Ret (1, ["ERROR no port"])
  else
    match connect (arg_host w) (arg_port w) with
    | None => Ret (1, ["ERROR connect"])
    | Some p =>
        let '(o, s) := worker_run exchange (List.filter nonempty (input_lines input))
                         (mkSession (make_ctx (arg_worker w) (arg_boot w) (arg_node w)) p []) in
        let! ok := o in
        Ret (if (ok : bool) then 0 else 1, s_out s)
    end.
End WorkerMain.

Fixpoint parse_coordinator_args (port : Z) (args : list string) : outcome Z :=
  match args with
  | a :: ((v :: rest) as tail) =>
      if String.eqb a "--port" then let! n := stoi v in parse_coordinator_args (wrap 16 n) rest
      else parse_coordinator_args port tail
  | _ => Ret port
  end.

Definition run_coordinator_main (listening : Z -> bool) (env : io) (args : list string) (input : string) (fs : files)
    (next_gov next_res next_pol next_obs next_dec : Z) : outcome (Z * list string * files) :=
  let! port := parse_coordinator_args 0 args in
  if port =? 0 then Ret (1, ["ERROR no port"], fs)
  else coordinator_loop listening env port input fs next_gov next_res next_pol next_obs next_dec.
