(* ===== verification/ConsoleSpec.v ===== *)
(** * Properties of the terminals

    What the operator types is what the coordinator understands
    ([script_understood]), and no text makes it overcommit a budget as long as every
    budget names a parent with a smaller number ([typed_text_never_overcommits]). *)
From Stdlib Require Import Ascii.
From stdpp Require Import pretty.
From S2P Require Import Prelude Rounding Binary64 Util Scan Strtod Units Ids Clock Budget BudgetSpec Authority.
From S2P Require Import WorkloadClass Policy Energy Reservation ReservationFacts ReservationSpec Backend DecisionEngine.
From S2P Require Import Wire Protocol Persistence Governor GovernorSpec GovernorState Coordinator CoordinatorSpec Worker Console.
Local Open Scope Z_scope.
#[local] Set Warnings "-inexact-float".

(** ** Lines *)
Definition plain (s : string) : Prop := Forall (fun c => byte_of_char c <> 10) (String.list_ascii_of_string s).

(** A text whose lines are all ended. *)
Fixpoint unlines (lines : list string) : string :=
  match lines with [] => EmptyString | l :: lines => (l +:+ String newline (unlines lines))%string end.

Lemma chars_app (s t : string) :
  String.list_ascii_of_string (s +:+ t) = String.list_ascii_of_string s ++ String.list_ascii_of_string t.
Proof. induction s as [|c s IH]; [reflexivity|]. change (c :: String.list_ascii_of_string (s +:+ t) = c :: (String.list_ascii_of_string s ++ String.list_ascii_of_string t)). rewrite IH. reflexivity. Qed.

Lemma append_assoc (s t u : string) : ((s +:+ t) +:+ u = s +:+ (t +:+ u))%string.
Proof. induction s as [|c s IH]; [reflexivity|]. change (String c ((s +:+ t) +:+ u) = String c (s +:+ (t +:+ u))). rewrite IH. reflexivity. Qed.

Lemma read_line_plain (line l : string) (rest : list ascii) : plain l ->
  read_line line (String.list_ascii_of_string l ++ newline :: rest) = (true, (line +:+ l)%string, rest).
Proof.
  revert line. induction l as [|c l IH]; intros line Hl.
  { rewrite string_app_empty. reflexivity. }
  apply Forall_cons_1 in Hl as [Hc Hl]. cbn [String.list_ascii_of_string app read_line].
  destruct (Z.eqb_spec (byte_of_char c) 10); [contradiction|]. rewrite IH by exact Hl. rewrite append_assoc. reflexivity.
Qed.

Lemma read_lines_unlines (lines : list string) (fuel : nat) : Forall plain lines -> (length lines < fuel)%nat ->
  read_lines fuel (String.list_ascii_of_string (unlines lines)) = lines.
Proof.
  intros Hl. revert fuel. induction Hl as [|l lines Hp Hl IH]; intros [|fuel] Hf; cbn [length] in Hf; try lia; [reflexivity|].
  cbn [unlines read_lines]. rewrite chars_app. cbn [String.list_ascii_of_string]. rewrite read_line_plain by exact Hp.
  rewrite IH by lia. reflexivity.
Qed.

Lemma unlines_length (lines : list string) : (length lines <= length (String.list_ascii_of_string (unlines lines)))%nat.
Proof.
  induction lines as [|l lines IH]; cbn [unlines length]; [lia|]. rewrite chars_app, length_app. cbn [String.list_ascii_of_string length]. lia.
Qed.

Lemma input_lines_unlines (lines : list string) : Forall plain lines -> input_lines (unlines lines) = lines.
Proof. intros Hl. pose proof (unlines_length lines). apply read_lines_unlines; [exact Hl|lia]. Qed.

(** ** What a script says *)

(** A command with whole numbers, and the line the operator types for it. *)
Inductive typed :=
| TypedBudget (id parent hmax soft : Z)
| TypedPolicy (cap : Z)
| TypedRoll
| TypedSnapshot
| TypedSave (file : string)
| TypedQuit.

Definition spaced (z : Z) (rest : string) : string := (" " +:+ (to_string_int z +:+ rest))%string.

Definition line_of (t : typed) : string :=
  match t with
  | TypedBudget id parent hmax soft =>
      ("install_budget" +:+ spaced id (spaced parent (spaced hmax (spaced soft EmptyString))))%string
  | TypedPolicy cap => ("set_policy" +:+ spaced cap EmptyString)%string
  | TypedRoll => "roll_epoch"
  | TypedSnapshot => "snapshot"
  | TypedSave file => ("save " +:+ file)%string
  | TypedQuit => "quit"
  end.

Definition meaning (t : typed) : control :=
  match t with
  | TypedBudget id parent hmax soft => InstallBudget id parent (double_of_Z hmax) (double_of_Z soft)
  | TypedPolicy cap => SetPolicy (double_of_Z cap)
  | TypedRoll => RollEpoch
  | TypedSnapshot => Snapshot
  | TypedSave file => Save file
  | TypedQuit => Quit
  end.

Definition typed_ok (t : typed) : Prop :=
  match t with
  | TypedBudget id parent hmax soft => in_u 64 id /\ in_u 64 parent /\ 0 <= hmax /\ 0 <= soft
  | TypedPolicy cap => 0 <= cap
  | TypedSave file => plain file
  | _ => True
  end.

Lemma chars_spaced (z : Z) (rest : string) :
  String.list_ascii_of_string (spaced z rest) = " "%char :: String.list_ascii_of_string (to_string_int z +:+ rest).
Proof. reflexivity. Qed.

Lemma terminated_spaced (z : Z) (rest : string) : terminated (String.list_ascii_of_string (spaced z rest)).
Proof. reflexivity. Qed.

Lemma scan_llu (z : Z) (rest : string) (fmt : list item_conversion) :
  in_u 64 z -> terminated (String.list_ascii_of_string rest) ->
  scan_items (CLlu :: fmt) (String.list_ascii_of_string (spaced z rest)) =
    (let! r := scan_items fmt (String.list_ascii_of_string rest) in Ret (ItemInt z :: r)).
Proof.
  intros Hz Ht. cbn [scan_items]. rewrite chars_spaced, subject_space by reflexivity.
  rewrite subject_text by (exact Ht || apply Hz). unfold convert. destruct (Z.ltb_spec z (2 ^ 64)); [|unfold in_u in Hz; lia].
  cbn [obind]. rewrite (wrap_small 64 z Hz : u64 z = z). reflexivity.
Qed.

Lemma scan_lf (z : Z) (rest : string) (fmt : list item_conversion) :
  0 <= z -> terminated (String.list_ascii_of_string rest) ->
  scan_items (CLf :: fmt) (String.list_ascii_of_string (spaced z rest)) =
    (let! r := scan_items fmt (String.list_ascii_of_string rest) in Ret (ItemDouble (double_of_Z z) :: r)).
Proof.
  intros Hz Ht. cbn [scan_items]. rewrite chars_spaced, number_space by reflexivity.
  rewrite number_text by assumption. reflexivity.
Qed.

Lemma substring_whole (s : string) : String.substring 0 (String.length s) s = s.
Proof. induction s as [|c s IH]; [reflexivity|]. cbn. rewrite IH. reflexivity. Qed.

Lemma starts_app (w s : string) : starts w (w +:+ s) = true.
Proof.
  induction w as [|c w IH]; [destruct s; reflexivity|]. unfold starts in *.
  change (String.prefix (String c w) (String c (w +:+ s)) = true). cbn [String.prefix].
  destruct (ascii_dec c c) as [_|Hc]; [exact IH|]. destruct (Hc eq_refl).
Qed.
Lemma starts_spaced (w : string) (z : Z) (rest : string) : starts (w +:+ " ") (w +:+ spaced z rest) = true.
Proof. unfold spaced. rewrite <- append_assoc. apply starts_app. Qed.

Lemma scan_line_of (t : typed) : typed_ok t -> scan_line (line_of t) = Ret (meaning t).
Proof.
  destruct t as [id parent hmax soft|cap| | |file|]; cbn [typed_ok line_of meaning]; try reflexivity.
  - intros (Hi & Hp & Hh & Hs). unfold scan_line. rewrite (starts_spaced "install_budget" : forall z rest, starts "install_budget " _ = true).
    unfold sscanf_items. rewrite chars_app, drop_app_length'; [|reflexivity].
    rewrite scan_llu, scan_llu, scan_lf, scan_lf by (assumption || reflexivity). reflexivity.
  - intros Hc. unfold scan_line. change (starts "install_budget " _) with false.
    rewrite (starts_spaced "set_policy" : forall z rest, starts "set_policy " _ = true). cbn iota.
    unfold sscanf_items. rewrite chars_app, drop_app_length'; [|reflexivity]. rewrite scan_lf by (assumption || reflexivity). reflexivity.
  - intros _. unfold scan_line. rewrite (starts_app "save " file). do 2 f_equal. change (String.substring 0 (S (S (S (S (S (String.length file))))) - 5) file = file).
    replace (S (S (S (S (S (String.length file))))) - 5)%nat with (String.length file) by lia. apply substring_whole.
Qed.

(** Rendered numbers have no newline. *)
Lemma plain_app (s t : string) : plain s -> plain t -> plain (s +:+ t).
Proof. unfold plain. rewrite chars_app. apply Forall_app_2. Qed.

Lemma plain_pretty (x : N) (s : string) : plain s -> plain (pretty_N_go x s).
Proof.
  revert s. induction (N.lt_wf_0 x) as [x _ IH]; intros s Hs. destruct (decide (x = 0)%N) as [->|Hx].
  { rewrite pretty_N_go_0. exact Hs. }
  rewrite pretty_N_go_step by lia. apply IH; [apply N.div_lt; lia|]. constructor; [|exact Hs].
  pose proof (digit_of_char (x `mod` 10) (N.mod_lt x 10 ltac:(lia))) as H. unfold digit_of in H.
  intros E. rewrite E in H. discriminate.
Qed.

Lemma plain_spaced (z : Z) (rest : string) : 0 <= z -> plain rest -> plain (spaced z rest).
Proof.
  intros Hz Hr. apply plain_app; [constructor; [discriminate|constructor]|]. apply plain_app; [|exact Hr].
  destruct z as [|p|p]; [constructor; [discriminate|constructor]| |lia]. apply (plain_pretty (N.pos p)). constructor.
Qed.

Lemma plain_line_of (t : typed) : typed_ok t -> plain (line_of t).
Proof.
  assert (Hw : forall s, forallb (fun c => negb (byte_of_char c =? 10)) (String.list_ascii_of_string s) = true -> plain s).
  { intros s H. apply Forall_forall. rewrite forallb_forall in H. intros c Hc. apply list_elem_of_In, H in Hc. lia. }
  destruct t as [id parent hmax soft|cap| | |file|]; cbn [typed_ok line_of]; try (intros _; apply Hw; reflexivity).
  - unfold in_u. intros (Hi & Hp & Hh & Hs). apply plain_app; [apply Hw; reflexivity|]. repeat (apply plain_spaced; [lia|]).
    constructor.
  - intros Hc. apply plain_app; [apply Hw; reflexivity|]. apply plain_spaced; [lia|constructor].
  - intros Hf. apply plain_app; [apply Hw; reflexivity|exact Hf].
Qed.

(** C30: what the operator types is what the coordinator understands.  A script of
    control lines with whole numbers, read from standard input character by character,
    cut into lines and scanned, gives back its commands, each with its identifiers
    exactly and its watts rounded to the nearest double. *)
Theorem script_understood (script : list typed) : Forall typed_ok script ->
  scan_line <$> input_lines (unlines (line_of <$> script)) = Ret <$> (meaning <$> script).
Proof.
  intros Hs. rewrite input_lines_unlines.
  - induction Hs as [|t script Ht Hs IH]; [reflexivity|]. cbn. rewrite scan_line_of by exact Ht. f_equal. exact IH.
  - apply Forall_fmap. eapply Forall_impl; [exact Hs|]. apply plain_line_of.
Qed.

Definition sample_script : list typed :=
  [TypedBudget 1 0 450 400; TypedPolicy 402; TypedBudget 2 1 402 0; TypedRoll; TypedSave "state file"; TypedQuit].

Lemma script_understood_witness :
  scan_line <$> input_lines (unlines (line_of <$> sample_script)) =
    [Ret (InstallBudget 1 0 450 400); Ret (SetPolicy 402); Ret (InstallBudget 2 1 402 0); Ret RollEpoch;
     Ret (Save "state file"); Ret Quit].
Proof.
  refine (script_understood sample_script _). repeat constructor; try (vm_compute; discriminate); reflexivity.
Defined.

(** ** Budgets that name smaller parents

    [ordered]: every budget is of the first generation, which is the only one the
    operator can install, and its parent has a smaller number than it has.  No call of
    the governor but an installation touches what [ordered] speaks of. *)
Import ReservationManager.

Definition shape (m : BudgetManager.t) : gmap BudgetId PowerBudget.t := BudgetManager.cfg <$> m.

Definition small_parent (id : BudgetId) (c : PowerBudget.t) : Prop :=
  PowerBudget.generation c = gen_first /\ forall p, PowerBudget.parent c = Some p -> id_raw p < id_raw id.

Definition ordered (m : BudgetManager.t) : Prop := forall id c, shape m !! id = Some c -> small_parent id c.

Lemma shape_update (f : BudgetManager.State -> BudgetManager.State) (l : list BudgetId) (m : BudgetManager.t) :
  BudgetFacts.keeps_cfg f -> shape (BudgetManager.update_chain f l m) = shape m.
Proof.
  intros Hf. unfold BudgetManager.update_chain. revert m. induction l as [|b l IH]; intros m; cbn [foldl]; [reflexivity|].
  rewrite IH. apply map_eq. intros id. unfold shape. rewrite !lookup_fmap, lookup_alter. case_decide; [subst|reflexivity].
  destruct (m !! id); cbn; [rewrite Hf|]; reflexivity.
Qed.

Lemma step_shape (power : option Watts) (s s' : rmanager) (id : ReservationId) :
  step_of power s id s' -> shape (budgets s') = shape (budgets s).
Proof.
  intros H. destruct H as [|next|r next _ _ _ _ _|r r' _ _|r g m _ _ Hb|r g now m _ _ _ Hb|r g now m m' _ _ Hb ->]; cbn; try reflexivity.
  - apply BudgetFacts.reserve_true in Hb as (_ & _ & _ & ->). apply shape_update, BudgetFacts.set_reserved_keeps.
  - apply BudgetFacts.activate_true in Hb as (_ & _ & _ & ->). apply shape_update, BudgetFacts.set_used_keeps.
  - apply BudgetFacts.release_true in Hb as (_ & _ & _ & ->).
    assert (Hm : forall l, shape (BudgetManager.update_chain (BudgetManager.set_reserved
      (fun r0 => (r0 - value (Reservation.reserved_power r))%float)) l (budgets s)) = shape (budgets s))
      by (intros; apply shape_update, BudgetFacts.set_reserved_keeps).
    case_bool_decide; [|apply Hm].
    match goal with |- context [BudgetManager.deactivate ?m ?b ?w ?i ?x] =>
      destruct (BudgetManager.deactivate m b w i x) as [[] m'] eqn:Ed end; cbn [snd].
    + apply BudgetFacts.deactivate_true in Ed as (_ & _ & _ & ->). rewrite shape_update by apply BudgetFacts.set_used_keeps. apply Hm.
    + apply BudgetFacts.deactivate_false in Ed as ->. apply Hm.
Qed.

Lemma event_shape (e : event) (g : Governor.t) : installs e = false ->
  shape (Governor.budgets (after e g)) = shape (Governor.budgets g).
Proof.
  intros Hi. unfold Governor.budgets. destruct (event_rm e g) as [->|[(o & _ & ->)|(clock & b & -> & _)]]; [reflexivity| |discriminate].
  eapply step_shape, run_step_of.
Qed.

(** Chains descend, so they do not meet a budget twice. *)
Lemma chain_descends (m : BudgetManager.t) (fuel : nat) (cur : option BudgetId) : ordered m ->
  NoDup (chain_loop (BudgetManager.parent_of m) fuel cur) /\
  forall b, b ∈ chain_loop (BudgetManager.parent_of m) fuel cur -> exists c, cur = Some c /\ id_raw b <= id_raw c.
Proof.
  intros Hm. revert cur. induction fuel as [|fuel IH]; intros [c|]; cbn [chain_loop];
    try (split; [constructor|intros b Hb; inversion Hb]; fail).
  destruct (is_valid c); [|split; [constructor|intros b Hb; inversion Hb]].
  destruct (BudgetManager.parent_of m c) as [p|] eqn:Ep.
  - assert (Hp : forall b, p = Some b -> id_raw b < id_raw c).
    { intros b ->. unfold BudgetManager.parent_of in Ep. destruct (m !! c) as [st|] eqn:Ec; [|discriminate]. injection Ep as Ep.
      apply (Hm c (BudgetManager.cfg st)); [unfold shape; rewrite lookup_fmap, Ec; reflexivity|exact Ep]. }
    destruct (IH p) as [Hn Hle]. split.
    + constructor; [|exact Hn]. intros Hin. destruct (Hle c Hin) as (b & Eb & Hb). specialize (Hp b Eb). lia.
    + intros b Hb. apply elem_of_cons in Hb as [->|Hb]; [exists c; split; [reflexivity|lia]|].
      destruct (Hle b Hb) as (d & Ed & Hd). specialize (Hp d Ed). exists c. split; [reflexivity|lia].
  - split; [constructor; [intros Hb; inversion Hb|constructor]|]. intros b Hb. apply elem_of_cons in Hb as [->|Hb]; [|inversion Hb].
    exists c. split; [reflexivity|lia].
Qed.

(** So a budget whose parent has a smaller number is not above it. *)
Lemma ordered_not_above (m : BudgetManager.t) (b : PowerBudget.t) : ordered m -> small_parent (PowerBudget.id b) b ->
  BudgetFacts.not_above m b.
Proof.
  intros Hm [_ Hb] p Ep Hin. destruct (proj2 (chain_descends m _ (Some p) Hm) _ Hin) as (c & [= <-] & Hle).
  specialize (Hb p Ep). lia.
Qed.

(** What is kept: safe budgets, ordered. *)
Definition ordered_safe (s : rmanager) : Prop := safe s /\ ordered (budgets s).

Lemma ordered_safe_stable : stable ordered_safe.
Proof.
  intros e g Hi He [Hs Ho]. split; [apply event_safe; assumption|]. pose proof (event_shape e g Hi) as Hsh.
  unfold Governor.budgets in Hsh. intros id c. rewrite Hsh. apply Ho.
Qed.

(** An installation is either refused, or adds a budget of a new number. *)
Lemma install_first (m : BudgetManager.t) (b : PowerBudget.t) : ordered m -> PowerBudget.generation b = gen_first ->
  (BudgetManager.install m b).2 = m \/
  m !! PowerBudget.id b = None /\ (BudgetManager.install m b).2 = <[PowerBudget.id b := BudgetManager.mkState b W0 W0]> m.
Proof.
  intros Hm Hb. unfold BudgetManager.install. destruct (m !! PowerBudget.id b) as [st|] eqn:E; [|right; auto].
  left. destruct (Hm (PowerBudget.id b) (BudgetManager.cfg st)) as [Hg _]; [unfold shape; rewrite lookup_fmap, E; reflexivity|].
  rewrite Hb, Hg. reflexivity.
Qed.

Lemma install_ordered (clock : Timestamp) (b : PowerBudget.t) (g : Governor.t) :
  small_parent (PowerBudget.id b) b -> BudgetFacts.valid_budget b -> ordered_safe (Governor.rm g) ->
  ordered_safe (Governor.rm (after (EvInstallBudget clock b) g)).
Proof.
  intros Hb Hv [Hs Ho]. rewrite install_budget_rm. destruct (install_first _ b Ho (proj1 Hb)) as [E|[En E]].
  - unfold Governor.budgets. rewrite E. destruct (Governor.rm g). split; assumption.
  - assert (Ho' : ordered (BudgetManager.install (budgets (Governor.rm g)) b).2).
    { rewrite E. intros id c. unfold shape. rewrite fmap_insert, lookup_insert_Some. intros [[<- <-]|[_ H]]; [exact Hb|apply Ho, H]. }
    split; [|exact Ho']. rewrite <- (install_budget_rm clock b g). apply event_safe; [|exact Hs].
    split; [exact Hv|]. split; [|apply ordered_not_above; assumption]. intros st Est. unfold Governor.budgets in Est. congruence.
Qed.

(** ** What the operator may type *)

(** The line installs no budget, or one whose parent has a smaller number. *)
Definition parents_first (line : string) : bool :=
  match scan_line line with
  | Ret (InstallBudget id parent _ _) => (parent =? 0) || (parent <? id)
  | _ => true
  end.

Lemma command_ordered (id parent : Z) (hmax soft : double) (b : PowerBudget.t) (g : Governor.t) :
  (parent =? 0) || (parent <? id) = true -> command_budget id parent hmax soft = Ret b ->
  ordered_safe (Governor.rm g) -> ordered_safe (Governor.rm (after (EvInstallBudget never b) g)).
Proof.
  intros Hp Eb. pose proof (command_budget_valid _ _ _ _ _ Eb) as Hv. unfold command_budget in Eb.
  apply obind_Ret in Eb as (h & _ & Eb). apply obind_Ret in Eb as (x & _ & [= <-]).
  apply install_ordered; [|exact Hv]. split; [reflexivity|]. cbn. intros p. destruct (parent =? 0); [discriminate|].
  intros [= <-]. cbn in *. lia.
Qed.

Lemma operate_keeps (env : io) (fs : files) (line : string) (cs : CoordShared) : parents_first line = true ->
  ordered_safe (Governor.rm (gov cs)) -> ordered_safe (Governor.rm (gov (operate env fs line cs).2)).
Proof.
  unfold parents_first, operate. intros Hl Hg. unfold sbind at 1, slift. destruct (scan_line line) as [c|e| |]; try exact Hg.
  assert (Hk : forall cmd, (forall id parent hmax soft, cmd = CmdInstallBudget id parent hmax soft -> (parent =? 0) || (parent <? id) = true) ->
    ordered_safe (Governor.rm (gov ((do! out <- run_command cmd; sret (Some out)) cs).2))).
  { intros cmd Hcmd. pose proof (command_keeps ordered_safe ordered_safe_stable cmd cs) as H.
    unfold sbind, sret. destruct (run_command cmd cs) as [[out|e| |] cs']; cbn [fst snd] in *;
      (apply H; [|exact Hg]; intros id parent hmax soft b -> Eb; eapply command_ordered; [eapply Hcmd; reflexivity|exact Eb|exact Hg]). }
  destruct c as [id parent hmax soft|cap| | |file| | |what]; cbn [command_of]; try exact Hg; apply Hk; try discriminate.
  intros ? ? ? ? [= <- <- _ _]. exact Hl.
Qed.

Definition good (a : attended) : Prop :=
  safe_system ordered_safe (sys a) /\ Forall (fun line => parents_first line = true) (pending a).

Lemma attended_good (a a' : attended) : attended_step a a' -> good a -> good a'.
Proof.
  intros H [Hs Hp]. destruct H as [s Hstep|env line rest o cs _ E Eo|env line rest file states _ E _ _|file g _ Er].
  - split; [|exact Hp]. eapply (worker_keeps ordered_safe ordered_safe_stable); eassumption.
  - destruct Hs as [Hg Ht]. rewrite E in Hp. apply Forall_cons_1 in Hp as [Hl Hp]. split; [split|].
    + pose proof (operate_keeps env (disk a) line _ Hl Hg) as H. rewrite Eo in H. exact H.
    + exact Ht.
    + cbn [pending]. destruct o; [exact Hp|constructor].
  - rewrite E in Hp. apply Forall_cons_1 in Hp as [_ Hp]. split; [exact Hs|exact Hp].
  - injection Er as <-. split; [exact Hs|exact Hp].
Qed.

Lemma attended_run_good (a a' : attended) : attended_run a a' -> good a -> good a'.
Proof. induction 1; eauto using attended_good. Qed.

(** The coordinator as it starts, with a text on its standard input. *)
Definition attended_start (ng nr np no nd : Z) (text : string) (fs : files) : attended :=
  mkAttended (mkSystem (coordinator_start ng nr np no nd) ∅ None) (input_lines text) fs [].

(** C5: no text makes the coordinator overcommit.  Whatever characters the operator
    types, misspelt commands, numbers out of range and repeated budgets included, as long
    as each line that installs a budget names no parent or one with a smaller number, and
    whatever the workers send meanwhile, and whatever comes of its saves, no budget is booked beyond its hard maximum (up
    to the tolerance of the accounting).  The lines are run in order between the critical
    sections of the workers' threads, which interleave in any way: others may come
    between the planning and the booking of a reservation, and between the file that a
    save writes and its record. *)
Theorem typed_text_never_overcommits (ng nr np no nd : Z) (text : string) (fs : files) (a : attended)
    (b : BudgetId) (st : BudgetManager.State) :
  forallb parents_first (input_lines text) = true ->
  attended_run (attended_start ng nr np no nd text fs) a ->
  Governor.budgets (gov (shared (sys a))) !! b = Some st ->
  let reserved := value (BudgetManager.reserved_ st) in
  let used := value (BudgetManager.used_ st) in
  nonneg reserved /\ nonneg used /\
  2 ^ 50 * (val reserved + val used)
    <= (2 ^ 50 + 1) * (val (value (PowerBudget.hard_max (BudgetManager.cfg st))) + val eps).
Proof.
  intros Ht Hrun E. apply attended_run_good in Hrun as [[[[[_ Hok] _] _] _] _].
  - destruct (Hok b st E) as [(_ & HR & HU) Hb]. split_and!; assumption.
  - split; [split; [split; [apply make_safe|]|]|]; cbn.
    + intros id c. unfold shape. rewrite lookup_fmap, lookup_empty. discriminate.
    + intros t r. rewrite lookup_empty. discriminate.
    + apply Forall_forall. rewrite forallb_forall in Ht. intros line Hl. apply Ht, list_elem_of_In, Hl.
Qed.

(** The workers' part of a schedule. *)
Lemma attended_execs (l : list move) (a : attended) (s : system) : no_command l = true ->
  execs l (sys a) = Some s -> attended_run a (mkAttended s (pending a) (disk a) (printed a)).
Proof.
  assert (H : forall l s1, no_command l = true -> attended_run a (mkAttended s1 (pending a) (disk a) (printed a)) ->
    forall s, execs l s1 = Some s -> attended_run a (mkAttended s (pending a) (disk a) (printed a))).
  { clear. induction l as [|mv l IH]; intros s1 Hl Hr s; cbn [execs]; [intros [= <-]; exact Hr|].
    cbn in Hl. apply andb_prop in Hl as [Hm Hl]. destruct (exec mv s1) as [s2|] eqn:E; [|discriminate].
    apply (IH s2 Hl). eapply attended_more; [exact Hr|]. apply (attended_worker (mkAttended s1 _ _ _)).
    eapply exec_worker; eassumption. }
  intros Hl. apply H; [exact Hl|]. destruct a. apply attended_refl.
Qed.

Lemma attended_trans (a a1 a2 : attended) : attended_run a a1 -> attended_run a1 a2 -> attended_run a a2.
Proof. intros H. induction 1; [exact H|eapply attended_more; eassumption]. Qed.

(** The next line, executed. *)
Definition next_line (env : io) (a : attended) : option attended :=
  match saving (sys a), pending a with
  | None, line :: rest =>
      match operate env (disk a) line (shared (sys a)) with
      | (Ret o, cs) =>
          Some (mkAttended (mkSystem cs (threads (sys a)) None) (match o with Some _ => rest | None => [] end)
                  (disk_after env (disk a) line (shared (sys a))) (printed a ++ option_line o))
      | _ => None
      end
  | _, _ => None
  end.

Lemma next_line_step (env : io) (a a' : attended) : next_line env a = Some a' -> attended_step a a'.
Proof.
  unfold next_line. destruct (saving (sys a)) eqn:Es; [discriminate|]. destruct (pending a) as [|line rest] eqn:Ep; [discriminate|].
  destruct (operate _ _ _ _) as [[o|e| |] cs] eqn:Eo; try discriminate. intros [= <-]. apply (attended_line a env); assumption.
Qed.

Definition sample_text : string := unlines ["install_budget 1 0 100 80"; "instal_budget"; "install_budget 1 0 5 5"].
Definition sample_env : io := mkIo true [] true true true.
Definition sample_moves : list move := [MoveAccept 1; MoveFrame 1 (register_frame 4 7); MoveFrame 1 (reserve_frame 1 7 60000); MoveAct 1; MoveAct 1].
Definition typed_first : attended := attended_start 1 1 1 1 1 sample_text ∅.
Definition typed_next (a : attended) : attended := default a (next_line sample_env a).
Definition typed_worked : attended :=
  let a := typed_next typed_first in
  mkAttended (after_moves sample_moves (sys a)) (pending a) (disk a) (printed a).
Definition typed_all : attended := typed_next (typed_next typed_worked).

Lemma typed_next_step (a : attended) : is_some (next_line sample_env a) = true -> attended_step a (typed_next a).
Proof.
  intros H. apply (next_line_step sample_env). unfold typed_next. destruct (next_line sample_env a); [reflexivity|discriminate].
Qed.

Lemma typed_text_never_overcommits_witness :
  printed typed_all = ["BUDGET installed"; "unknown control"; "BUDGET rejected"] /\
  nonneg 60 /\ nonneg 0 /\
  2 ^ 50 * (val 60 + val 0)
    <= (2 ^ 50 + 1) * (val (value (PowerBudget.hard_max (BudgetManager.cfg worked_state))) + val eps).
Proof.
  split; [vm_compute; reflexivity|].
  apply (typed_text_never_overcommits 1 1 1 1 1 sample_text ∅ typed_all (mkId 1) worked_state);
    [vm_compute; reflexivity| |vm_compute; reflexivity].
  assert (H1 : attended_run typed_first (typed_next typed_first)).
  { eapply attended_more; [apply attended_refl|]. apply typed_next_step. vm_compute. reflexivity. }
  assert (H2 : attended_run typed_first typed_worked).
  { eapply attended_trans; [exact H1|]. apply (attended_execs sample_moves); [reflexivity|].
    apply after_moves_some. vm_compute. reflexivity. }
  eapply attended_more; [eapply attended_more; [exact H2|]|]; apply typed_next_step; vm_compute; reflexivity.
Defined.
