(* ===== verification/Cli.v ===== *)
(** * The command line (tools/main.cpp)

    [main]: every command of the program over a governor with a synthetic backend that
    it sets up first.  The result is the exit code, the lines printed and the files; an
    exception that leaves [main] is that of the outcome.  The program starts with all
    the allocators of identifiers at one. *)
From S2P Require Import Prelude Binary64 Util Scan Strtod Units Ids Clock Budget Authority WorkloadClass Policy Energy.
From S2P Require Import Reservation ReservationSpec Index Backend DecisionEngine Wire Protocol Persistence Governor GovernorState.
From S2P Require Import Coordinator Worker Console.
Local Open Scope Z_scope.
#[local] Set Warnings "-inexact-float".

(** ** What the programs set up *)
Definition start_time : Timestamp := mkTime 1000000000.

(** [cfg] of the programs, and the governor it makes in a new process. *)
Definition program_config : GovernorConfig := mkConfig (mkId 1) (mkId 1) (mkId 1) gen_first.
Definition program_governor : Governor.t := Governor.make program_config 1 1 1 1.

(** The identifier that the default argument of [defaults] takes. *)
Definition default_policy_id : M Governor.t PolicyId :=
  fun g => let '(pid, next) := allocate (Governor.next_policy g) in (Ret pid, Governor.set_counters next (Governor.next_observation g) g).

(** [PowerPolicy::defaults()] with the caps and the generation the programs assign, installed. *)
Definition install_caps_at (clock : Timestamp) (fleet node device : option Watts) (x : PolicyGeneration) : M Governor.t bool :=
  do! pid <- default_policy_id;
  let p := PowerPolicy.defaults pid "default" in
  Governor.install_policy clock (with_caps (PowerPolicy.name p) x fleet node device None p).
Definition install_caps : option Watts -> option Watts -> option Watts -> PolicyGeneration -> M Governor.t bool :=
  install_caps_at start_time.

(** A budget with an identifier, a domain, a parent, a hard maximum and a name. *)
Definition plain_budget (id domain : Z) (parent : option BudgetId) (hard_max : Watts) (name : string) : PowerBudget.t :=
  let d := PowerBudget.default in
  PowerBudget.mk (mkId id) gen_first (mkId domain) (PowerBudget.policy_generation d) parent name hard_max
    (PowerBudget.soft_target d) (PowerBudget.min_reserve d) (PowerBudget.burst_allowance d) (PowerBudget.burst_window d)
    (PowerBudget.recovery d) (PowerBudget.priority d) (PowerBudget.authoritative d).

(** ** The demonstration of [main] *)
Definition demo_backend : FakeBackend.t :=
  FakeBackend.set_utilization (mkQ 0.13) (FakeBackend.set_temperature (mkQ 37) (FakeBackend.set_power (mkQ 92) FakeBackend.init)).

Definition demo_policy : M Governor.t bool := install_caps (Some (mkQ 5000)) None (Some (mkQ 402)) gen_first.
Definition demo_budgets : M Governor.t unit :=
  do! _ <- Governor.install_budget start_time (plain_budget 1 1 None (mkQ 450) "node-budget");
  do! _ <- Governor.install_budget start_time (plain_budget 2 2 (Some (mkId 1)) (mkQ 402) "acc-budget");
  sret tt.

Definition polls (cmd : string) : bool := existsb (String.eqb cmd) ["power"; "thermal"; "snapshot"; "decision"; "explain"].
Definition demo_poll (cmd : string) : M Governor.t unit :=
  if polls cmd then do! _ <- Governor.poll start_time demo_backend start_time; sret tt else sret tt.

Definition usage : list string :=
  ["usage: powergovernor <command> [args]";
   "commands: devices power thermal policy budgets reserve release decision explain";
   "         energy efficiency burst history snapshot save recover benchmark";
   "         run-worker run-coordinator version team"].

(** The decision the commands ask for. *)
Definition demo_decision (requested : Watts) : M Governor.t Decision.t :=
  Governor.decide_locked (mkId 2) (mkId 1) THROUGHPUT requested J0 1 start_time.

Definition history_line (e : ChangeHistory.ChangeEntry) : string :=
  to_string_int (ChangeHistory.seq_ e) +:+ " " +:+ change_to_string (ChangeHistory.kind e) +:+ " " +:+ ChangeHistory.message e.

(** The argument of [save] and of [recover]. *)
Definition file_argument (args : list string) : string := match args with file :: _ => file | [] => "state.bin" end.

(** The commands that only look or that answer the same text; [None] for any other. *)
Definition show_command (cmd : string) (g : Governor.t) : option (list string) :=
  let caps := capabilities demo_backend in
  if String.eqb cmd "devices" then
    Some ["device: NVIDIA GeForce RTX 5090 (compute_cap 12.0 / sm_120)";
          "power_observe=" +:+ capability_to_string (cap_power_observe caps) +:+ " power_control=" +:+
          capability_to_string (cap_power_control caps) +:+ " temperature=" +:+ capability_to_string (cap_temperature caps) +:+
          " utilization=" +:+ capability_to_string (cap_utilization caps)]
  else if String.eqb cmd "thermal" then Some ["thermal: NORMAL (synthetic)"]
  else if String.eqb cmd "policy" then
    let p := Governor.policy g in
    Some ["policy gen=" +:+ to_string_int (gen_raw (PowerPolicy.generation p)) +:+ " device_cap=" +:+
          match PowerPolicy.device_hard_cap p with Some w => q_to_string w | None => "none" end]
  else if String.eqb cmd "budgets" then
    Some ["budget 1 node-budget hard_max=450W"; "budget 2 acc-budget hard_max=402W (parent=1)"]
  else if String.eqb cmd "energy" then Some ["energy total: " +:+ printf_f 3 (value (Governor.total_energy g)) +:+ " J"]
  else if String.eqb cmd "efficiency" then Some ["efficiency: Joules/request not available without a work counter"]
  else if String.eqb cmd "burst" then Some ["burst: disabled by default policy"]
  else if String.eqb cmd "history" then Some (history_line <$> ChangeHistory.entries (Governor.history g))
  else if String.eqb cmd "benchmark" then Some ["run: powergovernor_bench (see benchmarks/)"]
  else None.

Definition power_lines (s : BackendSample) (g : Governor.t) : list string :=
  match smp_power s with Some w => ["power: " +:+ printf_f 1 (value w) +:+ " W"] | None => [] end
  ++ ["total energy: " +:+ printf_f 3 (value (Governor.total_energy g)) +:+ " J"].

(** A command after the set-up. *)
Definition demo_command (env : io) (fs : files) (cmd : string) (args : list string) : M Governor.t (Z * list string * files) :=
  do! g <- sget;
  match show_command cmd g with
  | Some lines => sret (0, lines, fs)
  | None =>
      if String.eqb cmd "power" then
        do! r <- slift (sample demo_backend); sret (0, power_lines r.1 g, fs)
      else if String.eqb cmd "decision" then
        do! req <- slift (quantity (match args with a :: _ => atof a | [] => 250%float end));
        do! d <- demo_decision req;
        sret (0, ["decision: " +:+ verdict_to_string (Decision.verdict d); "json: " +:+ Decision.json d;
                  "digest: " +:+ Decision.digest d], fs)
      else if String.eqb cmd "explain" then
        do! d <- demo_decision (mkQ 250);
        let ex := Decision.explanation d in
        sret (0, ["why: " +:+ ex_why ex; "what_would_change: " +:+ ex_what_would_change ex;
                  "binding_kind: " +:+ ex_binding_kind ex], fs)
      else if String.eqb cmd "snapshot" then do! s <- slift (state_digest g); sret (0, ["state digest: " +:+ s], fs)
      else if String.eqb cmd "save" then
        let file := file_argument args in
        do! r <- save start_time env file fs;
        sret (0, ["save " +:+ file +:+ " -> " +:+ (if r.1 then "ok" else "failed")], default fs (last r.2))
      else if String.eqb cmd "recover" then
        let file := file_argument args in
        do! ok <- load start_time file fs;
        sret (0, ["recover " +:+ file +:+ " -> " +:+ (if (ok : bool) then "ok" else "failed")], fs)
      else sret (1, usage, fs)
  end.

Definition demo (env : io) (fs : files) (cmd : string) (args : list string) : M Governor.t (Z * list string * files) :=
  do! ok <- demo_policy;
  if negb ok then sret (1, ["error: policy install failed"], fs)
  else
    do! _ <- demo_budgets;
    do! _ <- demo_poll cmd;
    demo_command env fs cmd args.

(** ** [main] *)
Section Main.
(** The sockets: binding a port, connecting, and a peer. *)
Context {P : Type} (listening : Z -> bool) (exchange : Frame -> P -> exchanged * P) (connect : string -> Z -> option P).

(** The arguments after the name of the program, what is on standard input, the files. *)
Definition main (env : io) (args : list string) (input : string) (fs : files) : outcome (Z * list string * files) :=
  match args with
  | [] => Ret (1, usage, fs)
  | cmd :: rest =>
      if String.eqb cmd "run-coordinator" then
        run_coordinator_main listening env args input fs 1 1 1 1 1
      else if String.eqb cmd "run-worker" then
        let! r := run_worker_main exchange connect args input in Ret (r, fs)
      else if String.eqb cmd "version" then Ret (0, ["Power Governor 1.0.0"], fs)
      else if String.eqb cmd "team" then Ret (0, ["Summon Software Labs"], fs)
      else (demo env fs cmd rest program_governor).1
  end.
End Main.
