(* ===== verification/CliSpec.v ===== *)
(** * Properties of the command line

    [decision_command]: what the command [decision] answers, for every argument; and
    [recover_refuses_saved]: what [save] writes, [recover] does not take back. *)
From S2P Require Import Prelude Rounding Binary64 Util Strtod Units Ids Clock Budget BudgetSpec Authority WorkloadClass Thermal Policy Energy.
From S2P Require Import Reservation Backend DecisionEngine DecisionSpec Wire Protocol Persistence Governor GovernorState.
From S2P Require Import Coordinator Worker Console Cli.
Local Open Scope Z_scope.
#[local] Set Warnings "-inexact-float".

(** ** After the set-up *)
Definition demo_ready (cmd : string) : M Governor.t unit := do! _ <- demo_policy; do! _ <- demo_budgets; demo_poll cmd.
Definition demo_state : Governor.t := (demo_ready "decision" program_governor).2.

Definition demo_accel : AcceleratorId * DeviceState.t :=
  match Governor.device_ptr demo_state with Some p => p | None => (invalid_id, DeviceState.init) end.

(** ** The decision of the demonstration *)
Definition demo_cap : option Watts := Some (mkQ 402).
Definition demo_facts (x : double) : M Governor.t Governor.DeviceFacts :=
  Governor.device_facts demo_accel.1 demo_accel.2 (Governor.policy demo_state) demo_cap (mkQ x) 1 start_time.
Definition known_facts : Governor.DeviceFacts :=
  match (demo_facts 0 demo_state).1 with Ret f => f | _ => Governor.no_device end.

(** What is asked does not change what the device says: its burst budget is off. *)
Lemma demo_facts_known (x : double) : quantity (Tag := JoulesTag) (x * 1) = Ret (mkQ x) ->
  demo_facts x demo_state = (Ret known_facts, (demo_facts 0 demo_state).2).
Proof.
  intros H. unfold demo_facts, Governor.device_facts. cbn [value]. change (Governor.fmax0 1) with 1%float. rewrite H.
  vm_compute. reflexivity.
Qed.

Definition demo_input (x : double) : DecisionInput.t :=
  Governor.decision_input (Governor.policy demo_state) THROUGHPUT (mkQ x) J0 1 demo_cap known_facts true (Some (mkQ 402))
    (Some (mkId 2)) [mkId 2; mkId 1] 0.

(** The ceiling is 402 W, nothing else restricts. *)
Lemma demo_constrained (x : double) : exists limit kind,
  DecisionEngine.ceiling_of (demo_input x) = (limit, kind) /\
  if (402 + eps <? x)%float
  then exists reasons, DecisionEngine.constrained_verdict (demo_input x) limit kind = Some (ALLOW_WITH_LIMIT, reasons, limit, kind)
  else DecisionEngine.constrained_verdict (demo_input x) limit kind = None.
Proof.
  exists (Some (mkQ 402)), "device_hard_cap"%string. split; [vm_compute; reflexivity|].
  unfold DecisionEngine.constrained_verdict.
  replace (DecisionInput.thermal_known (demo_input x)) with true by (vm_compute; reflexivity).
  replace (DecisionInput.thermal_state (demo_input x)) with COOL by (vm_compute; reflexivity).
  replace (DecisionInput.soft_target (demo_input x)) with (@None Watts) by (vm_compute; reflexivity).
  replace (DecisionEngine.energy_exceeded (demo_input x)) with false by (vm_compute; reflexivity).
  change (value (DecisionInput.requested_power (demo_input x))) with x.
  change (DecisionEngine.ceiling_value (Some (mkQ 402))) with 402%float.
  change (402 <=? eps)%float with false. rewrite andb_false_r. rewrite !bool_decide_false by discriminate. cbn [andb].
  rewrite andb_false_r. destruct (402 + eps <? x)%float; [eexists|]; reflexivity.
Qed.

Lemma demo_evaluates (x : double) (e : DecisionEngine.t) : DecisionEngine.last_ e = None ->
  exists d e', DecisionEngine.evaluate (demo_input x) start_time e = (Ret d, e') /\
    Decision.verdict d = (if (402 + eps <? x)%float then ALLOW_WITH_LIMIT else ALLOW) /\
    Decision.digest d = digest_hex (Decision.json d).
Proof.
  intros He. destruct (demo_constrained x) as (limit & kind & Ec & Hc). unfold DecisionEngine.evaluate.
  replace (negb (DecisionInput.policy_current (demo_input x)) || DecisionEngine.is_stale (DecisionInput.power_freshness (demo_input x)))
    with false by (vm_compute; reflexivity).
  rewrite Ec. destruct (402 + eps <? x)%float.
  - destruct Hc as [reasons ->]. edestruct make_verdict_Ret as (d & e' & Em & Hd & _ & _ & _ & Hg & _). eauto 6.
  - rewrite Hc. unfold DecisionEngine.default_verdict. rewrite sbind_sget, He.
    edestruct make_verdict_Ret as (d & e' & Em & Hd & _ & _ & _ & Hg & _). eauto 6.
Qed.

(** The decision exists, and is ALLOW up to 402 W. *)
Lemma demo_decides (x : double) : quantity (Tag := JoulesTag) (x * 1) = Ret (mkQ x) ->
  exists d g, demo_decision (mkQ x) demo_state = (Ret d, g) /\
    Decision.verdict d = (if (402 + eps <? x)%float then ALLOW_WITH_LIMIT else ALLOW) /\
    Decision.digest d = digest_hex (Decision.json d).
Proof.
  intros Hx. unfold demo_decision, Governor.decide_locked. rewrite sbind_sget.
  replace (Governor.device_ptr demo_state) with (Some demo_accel) by (vm_compute; reflexivity).
  destruct demo_accel as [a dev] eqn:Ea.
  replace (Governor.hard_ceiling (Governor.policy demo_state) (DeviceState.hardware_cap dev)) with (Ret demo_cap)
    by (replace dev with demo_accel.2 by (rewrite Ea; reflexivity); vm_compute; reflexivity).
  rewrite sbind_lift. pose proof (demo_facts_known x Hx) as Hf. unfold demo_facts in Hf. rewrite Ea in Hf. cbn [fst snd] in Hf.
  rewrite (sbind_step _ _ _ _ _ Hf).
  replace (is_valid (mkId (Tag := BudgetIdTag) 2) && BudgetManager.has (Governor.budgets demo_state) (mkId 2)) with true
    by (vm_compute; reflexivity).
  replace (BudgetManager.available (Governor.budgets demo_state) (mkId 2)) with (Ret (mkQ (Tag := WattsTag) 402))
    by (vm_compute; reflexivity).
  cbn [obind]. rewrite sbind_lift.
  replace (BudgetManager.chain (Governor.budgets demo_state) (mkId 2)) with [mkId (Tag := BudgetIdTag) 2; mkId 1] by (vm_compute; reflexivity).
  change (is_some (Some (a, dev))) with true.
  replace (ReservationManager.active_count (Governor.rm demo_state)) with 0%nat by (vm_compute; reflexivity).
  fold (demo_input x). set (g1 := (Governor.device_facts _ _ _ _ _ _ _ _).2).
  assert (He : DecisionEngine.last_ (Governor.engine g1) = None).
  { unfold g1. replace a with demo_accel.1 by (rewrite Ea; reflexivity). replace dev with demo_accel.2 by (rewrite Ea; reflexivity).
    vm_compute. reflexivity. }
  destruct (demo_evaluates x _ He) as (d & e' & Ev & Hd & Hg).
  rewrite (sbind_step _ _ _ _ _ (zoom_step _ _ _ _ _ _ Ev)).
  destruct (Governor.is_more_restrictive _); do 2 eexists; (split; [reflexivity|split; [exact Hd|exact Hg]]).
Qed.

Lemma watts_cases (v : double) : quantity (Tag := WattsTag) v = Ret (mkQ v) \/ exists e, quantity (Tag := WattsTag) v = Throw e.
Proof.
  unfold quantity, validate_unit, reject_non_finite. destruct (isfinite v); cbn [negb obind]; [|right; eexists; reflexivity].
  cbn [dim Watts_traits]. destruct (v <? 0)%float; [right; eexists; reflexivity|left; reflexivity].
Qed.

Section Commands.
Context {P : Type} (listening : Z -> bool) (exchange : Frame -> P -> exchanged * P) (connect : string -> Z -> option P).
Let run := main listening exchange connect.

(** The set-up, once for all the commands that poll. *)
Lemma demo_polled (env : io) (fs : files) (args : list string) :
  demo env fs "decision" args program_governor = demo_command env fs "decision" args demo_state.
Proof.
  unfold demo, demo_state, demo_ready.
  destruct (demo_policy program_governor) as [o g] eqn:E.
  assert (Eo : o = Ret true) by (change o with (o, g).1; rewrite <- E; vm_compute; reflexivity). subst o.
  rewrite !(sbind_step _ _ _ _ _ E). cbn [negb].
  destruct (demo_budgets g) as [o g1] eqn:E1.
  assert (Eo : o = Ret tt).
  { change o with (o, g1).1. rewrite <- E1. change g with (Ret true, g).2. rewrite <- E. vm_compute. reflexivity. }
  subst o. rewrite !(sbind_step _ _ _ _ _ E1).
  destruct (demo_poll "decision" g1) as [o g2] eqn:E2.
  assert (Eo : o = Ret tt).
  { change o with (o, g2).1. rewrite <- E2. change g1 with (Ret tt, g1).2. rewrite <- E1. change g with (Ret true, g).2. rewrite <- E.
    vm_compute. reflexivity. }
  subst o. rewrite (sbind_step _ _ _ _ _ E2). reflexivity.
Qed.

(** C19: the command [decision] answers every argument.  An argument that reads as a
    number of watts is decided: ALLOW up to the hard cap of 402 W and its tolerance,
    ALLOW_WITH_LIMIT above, with a digest of the JSON document printed; an argument that
    reads as a negative number, an infinity or a NaN ends the program with an
    exception. *)
Theorem decision_command (env : io) (a input : string) (rest : list string) (fs : files) :
  (nonneg (atof a) ->
     exists json, run env ("decision" :: a :: rest)%string input fs =
       Ret (0, ["decision: " +:+ verdict_to_string (if (402 + eps <? atof a)%float then ALLOW_WITH_LIMIT else ALLOW);
                "json: " +:+ json; "digest: " +:+ digest_hex json], fs)) /\
  (~ nonneg (atof a) -> exists e, run env ("decision" :: a :: rest)%string input fs = Throw e).
Proof.
  assert (Hrun : run env ("decision" :: a :: rest)%string input fs = (demo_command env fs "decision" (a :: rest) demo_state).1)
    by (unfold run; rewrite <- demo_polled; reflexivity).
  rewrite Hrun. unfold demo_command. rewrite sbind_sget. change (show_command "decision" demo_state) with (@None (list string)).
  cbn iota. change (String.eqb "decision" "power") with false. change (String.eqb "decision" "decision") with true. cbn iota.
  split; intros Hx.
  - assert (Hw : quantity (Tag := WattsTag) (atof a) = Ret (mkQ (atof a))) by (apply quantity_watts, Hx).
    rewrite Hw, sbind_lift. destruct (demo_decides (atof a)) as (d & g & Ed & Hv & Hg).
    { rewrite mul_one by apply Hx. apply quantity_joules, Hx. }
    rewrite (sbind_step _ _ _ _ _ Ed), Hv, Hg. eexists. reflexivity.
  - destruct (watts_cases (atof a)) as [Hw|[e Hw]]; [|exists e; rewrite Hw; reflexivity]. exfalso.
    apply quantity_valid in Hw as [_ Hv]. apply (valid_nonneg (Tag := WattsTag)) in Hv; [|apply nonneg_Watts]. auto.
Qed.

(** ** Saving and recovering *)
Definition saved_state : Governor.t := (demo_ready "save" program_governor).2.
Definition saved_blob : list Z := match encode_state saved_state with Ret b => b | _ => [] end.
Definition saved_bytes : list Z :=
  match encode_envelope (Persistence.mkEnvelope PERSIST_SCHEMA saved_blob) with Ret b => b | _ => [] end.

(** Before a command that does not poll, every run is in the same state. *)
Lemma demo_unpolled (env : io) (fs : files) (cmd : string) (args : list string) : polls cmd = false ->
  demo env fs cmd args program_governor = demo_command env fs cmd args saved_state.
Proof.
  intros Hp. unfold demo, saved_state, demo_ready. destruct (demo_policy program_governor) as [o g] eqn:E.
  assert (Eo : o = Ret true) by (change o with (o, g).1; rewrite <- E; vm_compute; reflexivity). subst o.
  rewrite !(sbind_step _ _ _ _ _ E). cbn [negb].
  destruct (demo_budgets g) as [o g1] eqn:E1.
  assert (Eo : o = Ret tt).
  { change o with (o, g1).1. rewrite <- E1. change g with (Ret true, g).2. rewrite <- E. vm_compute. reflexivity. }
  subst o. rewrite !(sbind_step _ _ _ _ _ E1). unfold demo_poll. rewrite Hp. reflexivity.
Qed.

Lemma saved_valid : decode_envelope saved_bytes = envelope_ok (Persistence.mkEnvelope PERSIST_SCHEMA saved_blob).
Proof. vm_compute. reflexivity. Qed.

(** The record is sound, but the budgets in it are those the program has just installed. *)
Lemma saved_refused (path : string) (fs : files) : fs !! path = Some saved_bytes ->
  exists g, load start_time path fs saved_state = (Ret false, g).
Proof.
  intros Hp. unfold load, persist_read. rewrite Hp, saved_valid. cbn [blob].
  destruct (decode_state start_time saved_blob saved_state) as [o g] eqn:E.
  assert (Eo : o = Ret false) by (change o with (o, g).1; rewrite <- E; vm_compute; reflexivity). subst o.
  rewrite (sbind_step _ _ _ _ _ E). eexists. reflexivity.
Qed.

(** Into a governor without budgets it is read back. *)
Lemma saved_recovers (path : string) (fs : files) : fs !! path = Some saved_bytes ->
  exists g, load start_time path fs program_governor = (Ret true, g).
Proof.
  intros Hp. unfold load, persist_read. rewrite Hp, saved_valid. cbn [blob].
  destruct (decode_state start_time saved_blob program_governor) as [o g] eqn:E.
  assert (Eo : o = Ret true) by (change o with (o, g).1; rewrite <- E; vm_compute; reflexivity). subst o.
  rewrite (sbind_step _ _ _ _ _ E). eexists. reflexivity.
Qed.

Definition sample_io : io := mkIo true [] true true true.
Definition answer_of (ok : bool) : string := if ok then "ok" else "failed".

Lemma save_writes (env : io) (file : string) (fs : files) : exists states g,
  save start_time env file fs saved_state = (Ret (works env, states), g) /\
  exists final, last states = Some final /\ final !! file = if works env then Some saved_bytes else fs !! file.
Proof.
  unfold save. rewrite sbind_sget. unfold save_file.
  replace (encode_state saved_state) with (Ret saved_blob) by (vm_compute; reflexivity). cbn [obind].
  replace (encode_envelope (Persistence.mkEnvelope PERSIST_SCHEMA saved_blob)) with (Ret saved_bytes) by (vm_compute; reflexivity).
  cbn [obind]. destruct (persist_last env file saved_bytes fs) as (states & err & final & -> & El & Ef).
  rewrite sbind_lift. cbn [fst]. destruct (works env), Ef; do 2 eexists; (split; [reflexivity|eauto]).
Qed.

(** C20: no run of [recover] takes back what a run of [save] wrote.  Under any file name
    and in any file system, [save] answers ok exactly when the file system does its part,
    and the file then holds a valid record; but [recover] reads it into a governor in
    which the program has already installed the same budgets, whose generation the record
    does not supersede, and answers failed.  When [save] answers failed, the file is what
    it was. *)
Theorem recover_refuses_saved (env env' : io) (file input input' : string) (rest rest' : list string) (fs : files) :
  exists fs', run env ("save" :: file :: rest)%string input fs =
      Ret (0, ["save " +:+ file +:+ " -> " +:+ answer_of (works env)], fs') /\
    if works env
    then fs' !! file = Some saved_bytes /\
      run env' ("recover" :: file :: rest')%string input' fs' = Ret (0, ["recover " +:+ file +:+ " -> failed"], fs')
    else fs' !! file = fs !! file.
Proof.
  assert (Hs : run env ("save" :: file :: rest)%string input fs = (demo_command env fs "save" (file :: rest) saved_state).1)
    by (unfold run; rewrite <- demo_unpolled by reflexivity; reflexivity).
  assert (Hr : forall fs', run env' ("recover" :: file :: rest')%string input' fs' = (demo_command env' fs' "recover" (file :: rest') saved_state).1)
    by (intros fs'; unfold run; rewrite <- demo_unpolled by reflexivity; reflexivity).
  destruct (save_writes env file fs) as (states & g & Es & final & El & Ef). exists final.
  assert (Hsave : (demo_command env fs "save" (file :: rest) saved_state).1 =
    Ret (0, ["save " +:+ file +:+ " -> " +:+ answer_of (works env)], final)).
  { unfold demo_command. rewrite sbind_sget. change (show_command "save" saved_state) with (@None (list string)).
    cbn iota. change (file_argument (file :: rest)) with file. cbn [String.eqb]. cbv zeta.
    change (((do! r <- save start_time env file fs;
      sret (0, ["save " +:+ file +:+ " -> " +:+ (if r.1 then "ok" else "failed")], default fs (last r.2))) saved_state).1 =
      Ret (0, ["save " +:+ file +:+ " -> " +:+ answer_of (works env)], final)).
    rewrite (sbind_step _ _ _ _ _ Es). cbn [fst snd sret]. rewrite El. reflexivity. }
  rewrite Hs, Hsave. split; [reflexivity|]. destruct (works env); [|exact Ef]. split; [exact Ef|].
  rewrite Hr. destruct (saved_refused file final Ef) as [g' Eg].
  change (((do! ok <- load start_time file final;
    sret (0, ["recover " +:+ file +:+ " -> " +:+ (if (ok : bool) then "ok" else "failed")], final)) saved_state).1 =
    Ret (0, ["recover " +:+ file +:+ " -> failed"], final)).
  rewrite (sbind_step _ _ _ _ _ Eg). reflexivity.
Qed.
End Commands.

Definition silent (f : Frame) (p : unit) : exchanged * unit := (NoReply, p).
Definition run_alone : io -> list string -> string -> files -> outcome (Z * list string * files) :=
  main (fun _ => false) silent (fun _ _ => None).

Lemma decision_command_witness :
  (exists json, run_alone sample_io ["decision"; "402.5"]%string EmptyString ∅ =
     Ret (0, ["decision: ALLOW_WITH_LIMIT"; "json: " +:+ json; "digest: " +:+ digest_hex json], ∅)) /\
  exists e, run_alone sample_io ["decision"; "-1"]%string EmptyString ∅ = Throw e.
Proof.
  split.
  - apply (proj1 (decision_command (fun _ => false) silent (fun _ _ => None) sample_io "402.5" EmptyString [] ∅)).
    apply nonnegb. vm_compute. reflexivity.
  - apply (proj2 (decision_command (fun _ => false) silent (fun _ _ => None) sample_io "-1" EmptyString [] ∅)).
    intros [_ H]. vm_compute in H. apply H. reflexivity.
Defined.
