(* ===== verification/Examples.v ===== *)
(** * The example programs (examples/)

    Each program as the lines it prints, composed from the same operations as the
    development's components; its lines are computed below it.  The programs that build a
    governor run in a new process ([program_governor]). *)
From S2P Require Import Prelude Binary64 Util Units Ids Clock Budget Authority WorkloadClass Thermal Policy Energy.
From S2P Require Import Reservation ReservationSpec Index Backend DecisionEngine Wire Protocol Persistence Governor GovernorState.
From S2P Require Import Equality Coordinator Worker Console Cli.
Local Open Scope Z_scope.
#[local] Set Warnings "-inexact-float".

(** ** What the programs share *)

(** A run of a program on its governor. *)
Definition run_program (m : M Governor.t (list string)) : outcome (list string) := (m program_governor).1.

Definition poll_at (b : FakeBackend.t) (now : Timestamp) : M Governor.t unit :=
  do! _ <- Governor.poll start_time b now; sret tt.

(** The decision the programs ask for: budget 2, one workload, for one second. *)
Definition ask (cls : WorkloadPowerClass) (w : double) (now : Timestamp) : M Governor.t Decision.t :=
  Governor.decide_locked (mkId 2) (mkId 1) cls (mkQ w) J0 1 now.

Definition device_capped (w : double) : M Governor.t bool := install_caps None None (Some (mkQ w)) gen_first.
Definition observing (power temp : double) : FakeBackend.t :=
  FakeBackend.set_temperature (mkQ temp) (FakeBackend.set_power (mkQ power) FakeBackend.init).
Definition limit_text (d : Decision.t) : string :=
  match Decision.recommended_limit d with Some w => q_to_string w | None => "n/a" end.
Definition verdict_text (d : Decision.t) : string := verdict_to_string (Decision.verdict d).

(** ** Governor programs *)

(** The governor it constructs, and what it prints. *)
Definition example_basic : Governor.t * list string :=
  (Governor.make (mkConfig invalid_id invalid_id (mkId 1) gen_first) 1 1 1 1, ["Power Governor basic example ok"]).
Definition example_device_power_budget : M Governor.t (list string) :=
  do! _ <- install_caps (Some (mkQ 5000)) None (Some (mkQ 300)) gen_first;
  do! _ <- Governor.install_budget start_time (plain_budget 1 1 None (mkQ 300) "device");
  do! _ <- poll_at (observing 130 42) start_time;
  do! d <- Governor.decide_locked (mkId 1) (mkId 1) THROUGHPUT (mkQ 250) J0 1 start_time;
  sret ["=== Device power budget ===";
        "requested 250 W under a 300 W device budget -> " +:+ verdict_text d +:+ " limit=" +:+ limit_text d].

Definition plan_of (workload : Z) (cls : WorkloadPowerClass) (w : double) (energy : double) (seconds : Z)
  : M Governor.t ReservationManager.Result :=
  do! validity <- slift (duration_seconds seconds);
  Governor.plan_reservation (mkId workload) cls (mkId 2) (mkId 2) (mkQ w) (mkQ energy) gen_first gen_first start_time validity.

Definition example_hierarchical_budget : M Governor.t (list string) :=
  do! _ <- install_caps (Some (mkQ 5000)) (Some (mkQ 450)) (Some (mkQ 402)) gen_first;
  do! _ <- Governor.install_budget start_time (plain_budget 1 1 None (mkQ 450) "node");
  do! _ <- Governor.install_budget start_time (plain_budget 2 2 (Some (mkId 1)) (mkQ 402) "acc");
  do! plan <- plan_of 1 THROUGHPUT 250 0 5;
  if negb (ReservationManager.ok plan) then sret ["plan failed: " +:+ ReservationManager.reason plan]
  else
    do! _ <- Governor.reserve_reservation (ReservationManager.res_id plan) gen_first start_time;
    do! g <- sget;
    do! room <- slift (Governor.budget_available g (mkId 1));
    do! plan2 <- plan_of 2 BACKGROUND 300 0 5;
    do! r2 <- Governor.reserve_reservation (ReservationManager.res_id plan2) gen_first start_time;
    sret ["=== Hierarchical budget (node -> accelerator) ===";
          "acc reserved 250 W of 402; node available " +:+ q_to_string room;
          "second 300 W reservation -> " +:+ (if ReservationManager.ok r2 then "OK" else "REJECTED")
            +:+ " (parent budget prevents overflow)"].

Definition example_recovery_decision : M Governor.t (list string) :=
  do! _ <- device_capped 402;
  let hot := FakeBackend.set_temperature (mkQ 90) FakeBackend.init in
  do! _ <- poll_at hot start_time;
  do! _ <- poll_at hot start_time;
  do! d1 <- ask THROUGHPUT 250 start_time;
  do! _ <- poll_at (FakeBackend.set_temperature (mkQ 50) hot) start_time;
  do! d2 <- ask THROUGHPUT 250 start_time;
  sret ["=== Recovery from thermally constrained state ===";
        "at 90 C: " +:+ verdict_text d1 +:+ " (thermal recovery gates execution)";
        "after cooling to 50 C: " +:+ verdict_text d2 +:+ " (normal eligibility returns)"].

Definition example_stale_telemetry : M Governor.t (list string) :=
  do! _ <- device_capped 402;
  do! _ <- poll_at (observing 120 45) start_time;
  do! d1 <- ask THROUGHPUT 250 start_time;
  do! ten <- slift (duration_seconds 10);
  do! clk <- slift (TestClock.advance (TestClock.mk start_time) ten);
  do! d2 <- ask THROUGHPUT 250 (TestClock.now clk);
  sret ["=== Stale telemetry must not drive authoritative decisions ===";
        "fresh: " +:+ verdict_text d1;
        "after 10 s with no telemetry: " +:+ verdict_text d2].

Definition example_thermal_constraint : M Governor.t (list string) :=
  do! _ <- device_capped 402;
  do! _ <- poll_at (observing 120 88) start_time;
  do! _ <- poll_at (observing 120 88) start_time;
  do! d <- ask THROUGHPUT 250 start_time;
  sret ["=== Thermal constraint -> governor decision ===";
        "device at 88 C (constrained): requested 250 W -> " +:+ verdict_text d].

Definition example_throttling_decision : M Governor.t (list string) :=
  do! _ <- device_capped 60;
  do! _ <- poll_at (observing 55 50) start_time;
  do! d <- ask THROUGHPUT 250 start_time;
  sret ["=== Throttling decision under a constrained budget ===";
        "60 W hard cap vs 250 W request -> " +:+ verdict_text d +:+ " limit=" +:+ limit_text d;
        "why: " +:+ ex_why (Decision.explanation d)].

Fixpoint class_lines (l : list WorkloadPowerClass) : M Governor.t (list string) :=
  match l with
  | [] => sret []
  | c :: l =>
      do! d <- ask c 200 start_time;
      do! rest <- class_lines l;
      sret (("class " +:+ class_to_string c +:+ " request 200 W -> " +:+ verdict_text d) :: rest)
  end.

Definition example_workload_classes : M Governor.t (list string) :=
  do! _ <- device_capped 150;
  do! _ <- poll_at (observing 90 45) start_time;
  do! lines <- class_lines [LATENCY_CRITICAL; THROUGHPUT; BATCH; BACKGROUND; ENERGY_OPTIMIZED];
  sret ("=== Workload power classes -> governor decisions ===" :: lines).

Definition count_text (g : Governor.t) : string := to_string_int (Z.of_nat (Governor.active_reservations g)).

Definition example_workload_reservation : M Governor.t (list string) :=
  do! _ <- device_capped 402;
  do! _ <- Governor.install_budget start_time (plain_budget 2 2 None (mkQ 402) "acc");
  do! plan <- plan_of 7 BATCH 80 2000 4;
  let id := ReservationManager.res_id plan in
  do! _ <- Governor.validate_reservation id gen_first start_time;
  do! _ <- Governor.reserve_reservation id gen_first start_time;
  do! _ <- Governor.admit_reservation id start_time;
  do! _ <- Governor.activate_reservation id gen_first start_time;
  do! g1 <- sget;
  do! _ <- Governor.release_reservation id gen_first start_time;
  do! g2 <- sget;
  sret ["=== Transactional workload reservation ===";
        "plan -> " +:+ (if ReservationManager.ok plan then "ok" else ReservationManager.reason plan) +:+ " (id=" +:+ to_string_int (id_raw id) +:+ ")";
        "reservation " +:+ to_string_int (id_raw id) +:+ " active; active count=" +:+ count_text g1;
        "released; active count=" +:+ count_text g2].

(** The second governor of the process: the allocators go on from the first. *)
Definition next_governor (g : Governor.t) : Governor.t :=
  Governor.make program_config (ReservationManager.next_id (Governor.rm g)) (Governor.next_policy g) (Governor.next_observation g)
    (DecisionEngine.next_decision (Governor.engine g)).

Definition example_persistence_recovery (env : io) (fs : files) : M Governor.t (list string) :=
  do! _ <- device_capped 402;
  do! _ <- Governor.install_budget start_time (plain_budget 2 2 None (mkQ 402) "acc");
  do! _ <- poll_at (observing 120 45) start_time;
  do! g <- sget;
  do! saved <- slift (state_digest g);
  do! r <- save start_time env "example_state.bin" fs;
  do! g <- sget;
  do! _ <- sput (next_governor g);
  do! _ <- load start_time "example_state.bin" (default fs (last r.2));
  do! g2 <- sget;
  do! loaded <- slift (state_digest g2);
  do! d <- ask THROUGHPUT 250 start_time;
  sret ["=== Persistence / recovery ==="; "saved digest: " +:+ saved; "loaded digest: " +:+ loaded;
        "recovered telemetry is not CURRENT -> " +:+ verdict_text d].

(** ** Programs without a governor *)
Definition example_energy_accounting : outcome (list string) :=
  let! m := EnergyMeter.add EnergyMeter.init (mkQ 5) MEASURED (mkTime 1) in
  let! m := EnergyMeter.add m (mkQ 2) Energy.REPORTED (mkTime 2) in
  let! m := EnergyMeter.add m (mkQ 1) ESTIMATED (mkTime 3) in
  let text p := printf_f 2 (value (EnergyMeter.by_ m p)) in
  let! capacity := duration_seconds 1 in
  let '(o, w) := (do! _ <- PowerWindow.record (mkTime 0) (mkQ 100); PowerWindow.record (mkTime 500000000) (mkQ 300)) (PowerWindow.init capacity) in
  let! _ := o in
  let! avg := PowerWindow.average_power w in
  let! e := PowerWindow.integrated_energy_us w in
  Ret ["=== Energy accounting with provenance ===";
       "total=" +:+ printf_f 2 (value (EnergyMeter.total m)) +:+ " J  measured=" +:+ text MEASURED +:+ "  reported=" +:+ text Energy.REPORTED
         +:+ "  estimated=" +:+ text ESTIMATED;
       "estimated energy is never presented as measured (provenance kept separate)";
       "peak=" +:+ printf_f 1 (value (PowerWindow.peak w)) +:+ " W average=" +:+ printf_f 1 avg +:+ " W integrated="
         +:+ printf_f 2 (value e) +:+ " J"].

Definition yes_no (ok : bool) : string := if ok then "ok" else "denied".

Definition example_burst_allowance : outcome (list string) :=
  let! two := duration_seconds 2 in
  let! ten_ms := duration_milliseconds 10 in
  let! t := TestClock.advance (TestClock.mk never) ten_ms in
  let bb := BurstBudget.make (mkBurstLimits (mkQ 60) two (refill default_burst_limits) true) in
  let! cap := BurstBudget.capacity bb in
  let now := TestClock.now t in
  let! three := duration_seconds 3 in
  let! later := TestClock.advance t three in
  ((do! a <- BurstBudget.consume (mkQ 80) now;
   do! b <- BurstBudget.consume (mkQ 40) now;
   do! av <- BurstBudget.available now;
   do! u <- BurstBudget.utilization now;
   do! av2 <- BurstBudget.available (TestClock.now later);
   sret ["=== Bounded burst allowance ===";
         "capacity=" +:+ printf_f 1 (value cap) +:+ " J";
         "consume 80 J -> " +:+ yes_no a;
         "consume 40 J -> " +:+ yes_no b +:+ " (would overrun, denied)";
         "available=" +:+ printf_f 1 (value av) +:+ " J utilization=" +:+ printf_f 2 u;
         "after window refill: available=" +:+ printf_f 1 (value av2) +:+ " J"] : M BurstBudget.t (list string)) bb).1.

Definition example_policy_rollover : list string :=
  let cap w p := with_caps (PowerPolicy.name p) (PowerPolicy.generation p) None None (Some (mkQ w)) None p in
  let gen p := to_string_int (gen_raw (PowerPolicy.generation p)) in
  let p := PowerPolicy.defaults (mkId 1) "default" in
  let p1 := PowerPolicy.bump_generation (cap 300%float p) in
  let p2 := PowerPolicy.bump_generation (cap 500%float p1) in
  ["=== Policy generation rollover ==="; "gen=" +:+ gen p; "after cap 300 & bump: gen=" +:+ gen p1;
   "after cap 500 & bump: gen=" +:+ gen p2;
   "policy != generation differently: " +:+ (if PolicyEquality.eqb p2 p2 then "same" else "different")].

(** ** What the programs print *)
Example device_power_budget_prints :
  run_program example_device_power_budget =
  Ret ["=== Device power budget ==="; "requested 250 W under a 300 W device budget -> ALLOW limit=300.000000W"]%string.
Proof. vm_compute. reflexivity. Qed.

Example hierarchical_budget_prints :
  run_program example_hierarchical_budget =
  Ret ["=== Hierarchical budget (node -> accelerator) ==="; "acc reserved 250 W of 402; node available 200.000000W";
       "second 300 W reservation -> REJECTED (parent budget prevents overflow)"]%string.
Proof. vm_compute. reflexivity. Qed.

(** Neither verdict is the one its text announces: a sample with a temperature and no
    power never counts as an observation. *)
Example recovery_decision_prints :
  run_program example_recovery_decision =
  Ret ["=== Recovery from thermally constrained state ===";
       "at 90 C: REVALIDATION_REQUIRED (thermal recovery gates execution)";
       "after cooling to 50 C: REVALIDATION_REQUIRED (normal eligibility returns)"]%string.
Proof. vm_compute. reflexivity. Qed.

Example stale_telemetry_prints :
  run_program example_stale_telemetry =
  Ret ["=== Stale telemetry must not drive authoritative decisions ==="; "fresh: ALLOW";
       "after 10 s with no telemetry: REVALIDATION_REQUIRED"]%string.
Proof. vm_compute. reflexivity. Qed.

Example thermal_constraint_prints :
  run_program example_thermal_constraint =
  Ret ["=== Thermal constraint -> governor decision ===";
       "device at 88 C (constrained): requested 250 W -> THROTTLE"]%string.
Proof. vm_compute. reflexivity. Qed.

Example throttling_decision_prints :
  run_program example_throttling_decision =
  Ret ["=== Throttling decision under a constrained budget ===";
       "60 W hard cap vs 250 W request -> ALLOW_WITH_LIMIT limit=60.000000W";
       "why: requested power 250.000000W exceeds available ceiling 60.000000W; hard ceiling constrains execution"]%string.
Proof. vm_compute. reflexivity. Qed.

Example workload_reservation_prints :
  run_program example_workload_reservation =
  Ret ["=== Transactional workload reservation ==="; "plan -> ok (id=1)"; "reservation 1 active; active count=1";
       "released; active count=0"]%string.
Proof. vm_compute. reflexivity. Qed.

(** The governor that loads the file has the digest of the one that saved it, and trusts
    none of its telemetry. *)
Example persistence_recovery_prints :
  run_program (example_persistence_recovery (mkIo true [] true true true) ∅) =
  Ret ["=== Persistence / recovery ==="; "saved digest: 1ff81c333ea4aeb2"; "loaded digest: 1ff81c333ea4aeb2";
       "recovered telemetry is not CURRENT -> REVALIDATION_REQUIRED"]%string.
Proof. vm_compute. reflexivity. Qed.

Example energy_accounting_prints :
  example_energy_accounting =
  Ret ["=== Energy accounting with provenance ===";
       "total=8.00 J  measured=5.00  reported=2.00  estimated=1.00";
       "estimated energy is never presented as measured (provenance kept separate)";
       "peak=300.0 W average=200.0 W integrated=100.00 J"]%string.
Proof. vm_compute. reflexivity. Qed.

(** The text announces a denial: the 40 J are what is left of the 120 J. *)
Example burst_allowance_prints :
  example_burst_allowance =
  Ret ["=== Bounded burst allowance ==="; "capacity=120.0 J"; "consume 80 J -> ok";
       "consume 40 J -> ok (would overrun, denied)"; "available=0.0 J utilization=1.00";
       "after window refill: available=120.0 J"]%string.
Proof. vm_compute. reflexivity. Qed.
