(* ===== verification/Conformance.v ===== *)
(** * The test-suite of the repository (tests/), run on the model

    The assertions of the tests, each test a boolean that is computed: the model answers
    what the tests expect of the program.  The last one is the distributed test, with two
    workers over framed connections to one coordinator and its operator.  The frame of 20 MB
    is refused by a proof, not a computation; the test of eight threads is in
    [GovernorThreads.v]. *)
From S2P Require Import Prelude Binary64 Util Units Ids Clock Budget Authority WorkloadClass Thermal Policy Energy.
From S2P Require Import Reservation ReservationSpec Index Backend DecisionEngine Crc Wire Cursor Protocol Net Persistence Governor GovernorState.
From S2P Require Import Equality Coordinator Worker WorkerSpec Console Cli Examples.
Local Open Scope Z_scope.
#[local] Set Warnings "-inexact-float".
#[local] Existing Instance AuthorityGate.Verdict_eq_dec.

(** ** What the tests share *)
Definition passes (o : outcome bool) : bool := match o with Ret b => b | _ => false end.
Definition throws {A : Type} (o : outcome A) : bool := match o with Throw _ => true | _ => false end.
Definition near (x lo hi : double) : bool := (lo <=? x)%float && (x <=? hi)%float.
Definition value_of {Tag : Set} (o : outcome (Quantity Tag)) : double := match o with Ret q => value q | _ => nan end.
Definition all_of (l : list bool) : bool := forallb id l.

(** ** Units, identifiers, generations *)
Definition test_typed_units : bool :=
  let nan := (0 / 0)%float in
  all_of [passes (let! w := quantity (Tag := WattsTag) 1 in let! m := q_to MilliwattsTag w in Ret (value m =? 1000)%float);
          throws (quantity (Tag := WattsTag) (-1)); throws (quantity (Tag := WattsTag) nan);
          throws (quantity (Tag := WattsTag) PrimFloat.infinity); throws (quantity (Tag := UtilizationTag) 1.5);
          passes (let! u := quantity (Tag := UtilizationTag) 1 in Ret (value u =? 1)%float);
          passes (let! u := quantity (Tag := UtilizationTag) 0 in Ret (is_zero u));
          passes (let! d := duration_milliseconds 1000 in Ret (ns d =? 1000000000));
          throws (duration (-1)); throws (duration_seconds 5000000000000000000)].

Definition test_identities : bool :=
  all_of [is_valid (allocate (Tag := GovernorIdTag) 1).1; negb (is_valid (invalid_id (Tag := GovernorIdTag)));
          gen_raw (gen_next (gen_first (Tag := PolicyGenerationTag))) =? 2;
          gen_ltb gen_null (mkGen (Tag := DeviceGenerationTag) 9); is_null (gen_null (Tag := PolicyGenerationTag));
          passes (let! u := Uuid.from_hex "00112233-4455-6677-8899-aabbccddeeff" in
                  Ret (String.eqb (Uuid.to_hex u) "00112233-4455-6677-8899-aabbccddeeff"));
          negb (Uuid.all_zero (Uuid.from_counter 7)); throws (Uuid.from_hex "zz")].

(** ** Budgets and reservations *)
Definition with_generation (g : BudgetGeneration) (b : PowerBudget.t) : PowerBudget.t :=
  PowerBudget.mk (PowerBudget.id b) g (PowerBudget.domain b) (PowerBudget.policy_generation b) (PowerBudget.parent b)
    (PowerBudget.name b) (PowerBudget.hard_max b) (PowerBudget.soft_target b) (PowerBudget.min_reserve b)
    (PowerBudget.burst_allowance b) (PowerBudget.burst_window b) (PowerBudget.recovery b) (PowerBudget.priority b)
    (PowerBudget.authoritative b).

Definition two_budgets (root node : double) : BudgetManager.t :=
  (BudgetManager.install (BudgetManager.install ∅ (plain_budget 1 1 None (mkQ root) "node")).2
     (plain_budget 2 2 (Some (mkId 1)) (mkQ node) "gpu")).2.

Definition test_budget_hierarchy : bool :=
  let '(r1, m) := BudgetManager.reserve (two_budgets 400 300) (mkId 2) (mkQ 100) (mkId 1) gen_first in
  let '(i2, m) := BudgetManager.install m (with_generation (gen_next gen_first) (plain_budget 2 2 (Some (mkId 1)) (mkQ 300) "node")) in
  let '(r2, m) := BudgetManager.reserve m (mkId 2) (mkQ 10) (mkId 2) gen_first in
  all_of [r1; i2; negb r2; near (value_of (BudgetManager.available m (mkId 2))) 0 (200 + eps); BudgetManager.accounting_consistent m].

Definition test_parent_child_overflow : bool :=
  let '(r1, m) := BudgetManager.reserve (two_budgets 300 200) (mkId 2) (mkQ 150) (mkId 1) gen_first in
  let '(r2, m) := BudgetManager.reserve m (mkId 2) (mkQ 60) (mkId 2) gen_first in
  let '(r3, m) := BudgetManager.reserve m (mkId 2) (mkQ 200) (mkId 3) gen_first in
  all_of [r1; negb r2; negb r3; near (value_of (BudgetManager.available m (mkId 2))) 0 (50 + eps); BudgetManager.accounting_consistent m].

Definition one_budget (hard_max : double) : ReservationManager.t BudgetManager.t :=
  ReservationManager.mk ∅ 1 (BudgetManager.install ∅ (plain_budget 1 1 None (mkQ hard_max) "b")).2.

Definition test_envelope : AuthorityEnvelope :=
  Authority.mkEnvelope gen_first (mkId 1) gen_null gen_null gen_null gen_null gen_null gen_null.

Definition plan_test (w e : double) (now : Timestamp) (seconds : Z) : M (ReservationManager.t BudgetManager.t) ReservationManager.Result :=
  do! validity <- slift (duration_seconds seconds);
  ReservationManager.plan (mkId 10) THROUGHPUT (mkId 1) (mkId 1) (mkQ w) (mkQ e) gen_first gen_first test_envelope now validity.

(** The calls of a test, each checked for its success. *)
Fixpoint expect {S A : Type} (ok : A -> bool) (l : list (M S A * bool)) : M S bool :=
  match l with
  | [] => sret true
  | (m, b) :: l => do! r <- m; do! rest <- expect ok l; sret (Bool.eqb (ok r) b && rest)
  end.
Definition expect_results (l : list (M (ReservationManager.t BudgetManager.t) ReservationManager.Result * bool)) := expect ReservationManager.ok l.

Definition test_reservation_lifecycle : bool :=
  let id := mkId 1 in
  passes ((do! p <- plan_test 60 50 start_time 3;
           do! a <- expect_results [(ReservationManager.validate id gen_first, true); (ReservationManager.reserve id gen_first start_time, true);
                             (ReservationManager.admit_ id start_time, true); (ReservationManager.activate id gen_first start_time, true)];
           do! s <- sget;
           do! audit <- slift (ReservationManager.audit_no_leaks s start_time);
           do! b <- expect_results [(ReservationManager.release id gen_first start_time, true); (ReservationManager.release id gen_first start_time, false)];
           do! s2 <- sget;
           sret (ReservationManager.ok p && a && bool_decide (ReservationManager.state s id = ACTIVE)
                 && (59 <=? value (BudgetManager.used (ReservationManager.budgets s) (mkId 1)))%float && audit && b
                 && BudgetManager.accounting_consistent (ReservationManager.budgets s2))) (one_budget 200)).1.

Definition test_double_reserve : bool :=
  passes ((do! p <- plan_test 50 0 never 2;
           do! a <- expect_results [(ReservationManager.reserve (mkId 1) gen_first never, true); (ReservationManager.reserve (mkId 1) gen_first never, false)];
           sret (ReservationManager.ok p && a)) (one_budget 100)).1.

Definition test_stale_activation : bool :=
  passes ((do! p <- plan_test 50 0 never 2;
           do! a <- expect_results [(ReservationManager.reserve (mkId 1) gen_first never, true); (ReservationManager.admit_ (mkId 1) never, true)];
           do! s <- sget;
           let '(i, m) := BudgetManager.install (ReservationManager.budgets s)
                            (with_generation (gen_next gen_first) (plain_budget 1 1 None (mkQ 200) "b")) in
           do! _ <- sput (ReservationManager.set_budgets m s);
           do! b <- expect_results [(ReservationManager.activate (mkId 1) gen_first never, false)];
           sret (ReservationManager.ok p && a && i && b)) (one_budget 200)).1.

(** ** Temperatures, energy, freshness *)
Fixpoint thermal_states (l : list (double * Z)) (g : ThermalGovernor.t) : list ThermalState :=
  match l with
  | [] => []
  | (c, t) :: l => let '(s, g) := ThermalGovernor.observe (Some (mkQ c)) (mkTime t) g in s :: thermal_states l g
  end.

Definition test_thermal_hysteresis : bool :=
  bool_decide (thermal_states [(50%float, 1); (80%float, 2); (88%float, 3); (88%float, 4); (79%float, 5); (55%float, 6); (70%float, 7)]
                 (ThermalGovernor.make default_thresholds invalid_id)
               = [NORMAL; HOT; HOT; THERMALLY_CONSTRAINED; RECOVERING; NORMAL; WARM]).

Definition test_provenance : bool :=
  passes (let! m := EnergyMeter.add EnergyMeter.init (mkQ 5) MEASURED (mkTime 1) in
          let! m := EnergyMeter.add m (mkQ 3) ESTIMATED (mkTime 2) in
          Ret (all_of [(value (EnergyMeter.total m) =? 8)%float; (value (EnergyMeter.by_ m MEASURED) =? 5)%float;
                       (value (EnergyMeter.by_ m ESTIMATED) =? 3)%float; throws (quantity (Tag := JoulesTag) (-1))])).

Definition test_power_window : bool :=
  let '(o, w) := (do! _ <- PowerWindow.record (mkTime 0) (mkQ 100); do! _ <- PowerWindow.record (mkTime 500000000) (mkQ 300);
                  PowerWindow.record (mkTime 1000000000) (mkQ 200)) (PowerWindow.init (mkDuration 1000000000)) in
  passes (let! _ := o in let! avg := PowerWindow.average_power w in let! e := PowerWindow.integrated_energy_us w in
          Ret (all_of [(value (PowerWindow.peak w) =? 300)%float; near avg 220 230; near (value e) 220 230])).

Definition test_burst_bounded : bool :=
  let t := mkTime 10000000 in
  let bb := BurstBudget.make (mkBurstLimits (mkQ 50) (mkDuration 2000000000) (mkDuration 1000000000) true) in
  passes (let! c := BurstBudget.capacity bb in
          let! r := ((do! r <- expect (fun b : bool => b)
                               [(BurstBudget.can_burst (mkQ 60) t, true); (BurstBudget.consume (mkQ 60) t, true);
                                (BurstBudget.can_burst (mkQ 60) t, false); (BurstBudget.exhausted t, false);
                                (BurstBudget.consume (mkQ 40) t, true); (BurstBudget.exhausted t, true)];
                      do! a <- BurstBudget.available (mkTime 3010000000);
                      sret (r && (value a =? 100)%float)) bb).1 in
          Ret ((value c =? 100)%float && r)).

Definition test_freshness : bool :=
  let at_ ns f :=
    match FreshnessClassifier.classify default_freshness (mkTime 10000000000) (mkTime ns) with
    | Ret g => bool_decide (f = g)
    | _ => false
    end in
  all_of [at_ 9900000000 CURRENT; at_ 9500000000 AGING; at_ 5000000000 STALE; at_ 0 Policy.EXPIRED].

(** ** Authority, index, history *)
Definition envelope_of (epoch : CoordinatorEpoch) (boot : Z) : AuthorityEnvelope :=
  Authority.mkEnvelope epoch (mkId boot) gen_null gen_null gen_null gen_null gen_null gen_null.

Definition test_authority_fencing : bool :=
  let gate := AuthorityGate.make gen_first (mkId 1) in
  let says (g : AuthorityGate.t) (e : AuthorityEnvelope) (v : AuthorityGate.Verdict) : bool := bool_decide (AuthorityGate.check g e = v) in
  all_of [says gate (envelope_of gen_first 1) AuthorityGate.ACCEPT;
          says gate (envelope_of (gen_next gen_first) 1) AuthorityGate.STALE_EPOCH;
          says gate (envelope_of gen_first 2) AuthorityGate.STALE_BOOT;
          says (AuthorityGate.set_boot (mkId 9) gate) (envelope_of gen_first 1) AuthorityGate.STALE_BOOT].

Definition test_index_lookup : bool :=
  let x := ReservationIndex.add ReservationIndex.empty (mkId 1) (mkId 10) (mkId 100) RESERVED in
  let x := ReservationIndex.add x (mkId 2) (mkId 10) (mkId 100) ACTIVE in
  let y := ReservationIndex.set_state x (mkId 1) (mkId 10) (mkId 100) RELEASED in
  all_of [(length (ReservationIndex.by_budget x (mkId 10)) =? 2)%nat; (length (ReservationIndex.by_state x ACTIVE) =? 1)%nat;
          (length (ReservationIndex.by_state y RESERVED) =? 0)%nat;
          (size (ReservationIndex.members (ReservationIndex.remove y (mkId 2))) =? 1)%nat].

Definition test_history_append_only : bool :=
  let h := ChangeHistory.append (ChangeHistory.make ChangeHistory.default_max) POLICY_CHANGED "a" (mkTime 1) in
  let h := ChangeHistory.append h BUDGET_CHANGED "b" (mkTime 2) in
  bool_decide (ChangeHistory.seq_ <$> ChangeHistory.entries h = [1; 2]).

(** ** Decisions *)
Definition decision_base (cap avail : double) (th : ThermalState) (fresh : FreshnessState) (p : PowerPolicy.t) (used energy : double)
  : DecisionInput.t :=
  DecisionInput.mk W0 true W0 false (mkQ used) false (mkQ 150) (mkQ energy) 0 (Some (mkQ cap)) (Some (mkQ avail)) None None th true
    (mkQ 0) false THROUGHPUT (default_rule_for THROUGHPUT) p true fresh MEASURED false false false 0 PERFORMANCE None [] 0.

Definition base_policy : PowerPolicy.t := PowerPolicy.defaults (mkId 1) "default".
Definition decide_test (inp : DecisionInput.t) : outcome Decision.t := (DecisionEngine.evaluate inp never (DecisionEngine.init 1)).1.
Definition verdict_is (v : DecisionVerdict) (o : outcome Decision.t) : bool :=
  match o with Ret d => bool_decide (Decision.verdict d = v) | _ => false end.

Definition enforced_policy : PowerPolicy.t :=
  let p := base_policy in
  PowerPolicy.mk (PowerPolicy.id p) (PowerPolicy.generation p) (PowerPolicy.name p) None None None None
    (mkEnergyWindow (mkQ 10) (mkDuration 1000000000) true) (PowerPolicy.burst_limits p) (PowerPolicy.thermal_thresholds p)
    (PowerPolicy.default_priority p) (PowerPolicy.min_reserve_fraction p) (PowerPolicy.oversubscription p)
    (PowerPolicy.degraded_mode p) (PowerPolicy.hardware_controls p) (PowerPolicy.observation_freshness p)
    (PowerPolicy.observation_stale p) (PowerPolicy.observation_expired p) (PowerPolicy.min_stable_duration p)
    (PowerPolicy.decision_hysteresis p) (PowerPolicy.recovery_threshold p) (PowerPolicy.class_rules p).

Definition test_decisions : bool :=
  let capped := decide_test (decision_base 100 200 NORMAL CURRENT base_policy 0 0) in
  all_of [verdict_is ALLOW (decide_test (decision_base 300 200 NORMAL CURRENT base_policy 0 0));
          verdict_is ALLOW_WITH_LIMIT capped;
          match capped with
          | Ret d => match Decision.recommended_limit d with Some w => (value w =? 100)%float | None => false end
                     && String.eqb (ex_binding_kind (Decision.explanation d)) "device_hard_cap"
                     && ex_telemetry_current (Decision.explanation d) && (String.length (Decision.digest d) =? 16)%nat
          | _ => false
          end;
          verdict_is REJECT (decide_test (decision_base 0 0 NORMAL CURRENT base_policy 0 0));
          verdict_is THROTTLE (decide_test (decision_base 300 200 THERMALLY_CONSTRAINED CURRENT base_policy 0 0));
          verdict_is REVALIDATION_REQUIRED (decide_test (decision_base 300 200 NORMAL Policy.EXPIRED base_policy 0 0));
          verdict_is THROTTLE (decide_test (decision_base 300 200 NORMAL CURRENT enforced_policy 9 5))].

Definition test_decision_hysteresis : bool :=
  let ask inp ns := DecisionEngine.evaluate inp (mkTime ns) in
  passes ((do! d1 <- ask (decision_base 100 200 NORMAL CURRENT base_policy 0 0) 1000000000;
           do! d2 <- ask (decision_base 1000 1000 NORMAL CURRENT base_policy 0 0) 1050000000;
           do! d3 <- ask (decision_base 1000 1000 NORMAL CURRENT base_policy 0 0) 2050000000;
           sret (bool_decide ((Decision.verdict d1, Decision.verdict d2, Decision.verdict d3)
                              = (ALLOW_WITH_LIMIT, ALLOW_WITH_LIMIT, ALLOW)))) (DecisionEngine.init 1)).1.

Definition test_decision_digest : bool :=
  let inp := decision_base 300 200 NORMAL CURRENT base_policy 0 0 in
  passes ((do! d1 <- DecisionEngine.evaluate inp never;
           do! d2 <- DecisionEngine.evaluate inp never;
           sret (bool_decide (Decision.verdict d1 = Decision.verdict d2) && negb (String.eqb (Decision.json d1) (Decision.json d2))
                 && (String.length (Decision.digest d1) =? 16)%nat)) (DecisionEngine.init 1)).1.

Definition test_policy_rollover : bool :=
  let p := PowerPolicy.bump_generation (PowerPolicy.bump_generation base_policy) in
  all_of [gen_raw (PowerPolicy.generation p) =? 3; PolicyEquality.eqb p p; negb (PolicyEquality.eqb (PowerPolicy.bump_generation p) p)].

(** ** Protocol *)
Definition roundtrips {A : Type} `{EqDecision A} (ty : MsgType) (enc : A -> outcome (list Z)) (dec : Frame -> option A) (m : A) : bool :=
  match enc m with Ret l => bool_decide (dec (mkFrame ty l) = Some m) | _ => false end.

#[local] Instance RegisterMsg_eq_dec : EqDecision RegisterMsg.t.
Proof. solve_decision. Defined.
#[local] Instance PowerObsMsg_eq_dec : EqDecision PowerObsMsg.t.
Proof. solve_decision. Defined.
#[local] Instance AckMsg_eq_dec : EqDecision AckMsg.t.
Proof. solve_decision. Defined.

Definition test_protocol_roundtrips : bool :=
  all_of [roundtrips REGISTER RegisterMsg.encode_register RegisterMsg.decode_register (RegisterMsg.mk (mkId 7) (mkId 9) (mkId 11) "w0");
          roundtrips POWER_OBSERVATION PowerObsMsg.encode_power_obs PowerObsMsg.decode_power_obs
            (PowerObsMsg.mk (mkId 1) (mkId 2) gen_first (mkId 3) (mkGen 4) (mkGen 5) 123 true 92000 true 3700 0 0 true 1300 false 0 false 1 "fake");
          roundtrips ACK AckMsg.encode_ack AckMsg.decode_ack (AckMsg.mk 5 true "accepted");
          match ThermalObsMsg.encode_thermal_obs (ThermalObsMsg.mk (mkId 1) (mkId 2) gen_first (mkId 3) (mkGen 4) (mkGen 5) 0 false 0 9) with
          | Ret l => match ThermalObsMsg.decode_thermal_obs (mkFrame THERMAL_OBSERVATION l) with None => true | Some _ => false end
          | _ => false
          end].

(** A test of the bytes of a frame, or of a record, changed by [f]. *)
Definition on_bytes (o : outcome (list Z)) (f : list Z -> list Z) (test : list Z -> bool) : bool :=
  match o with Ret l => test (f l) | _ => false end.
Definition test_frame : outcome (list Z) := serialize_frame (mkFrame REGISTER [1; 2; 3; 4]).
Definition frame_rejected (data : list Z) : bool := match deserialize_frame data with frame_error _ => true | frame_ok _ _ => false end.

Definition test_protocol_rejections : bool :=
  all_of [on_bytes test_frame <[0%nat := 0]> frame_rejected;
          on_bytes test_frame (alter (Z.lxor 255) 19%nat) frame_rejected;
          on_bytes test_frame (fun l => <[4%nat := 0]> (<[5%nat := 119]> l)) frame_rejected;
          frame_rejected [0x50; 0x47; 0x54; 0x43; 0; 0; 1; 0; 255; 255; 255; 127];
          on_bytes test_frame (fun l => l ++ [0])
            (fun l => match deserialize_frame l with frame_ok _ n => n =? Z.of_nat (length l) - 1 | frame_error _ => false end)].

(** ** Persistence *)
Definition test_record : outcome (list Z) := encode_envelope (mkEnvelope PERSIST_SCHEMA [1; 2; 3; 4; 5]).
Definition record_rejected (data : list Z) : bool := match decode_envelope data with envelope_error _ => true | envelope_ok _ => false end.

Definition test_persistence : bool :=
  all_of [on_bytes test_record id (fun l =>
            match decode_envelope l with
            | envelope_ok e => bool_decide (blob e = [1; 2; 3; 4; 5]) && (schema e =? PERSIST_SCHEMA)
            | envelope_error _ => false
            end);
          on_bytes test_record (alter (Z.lxor 255) 10%nat) record_rejected;
          on_bytes test_record (fun l => take (length l - 2) l) record_rejected;
          on_bytes test_record (fun l => l ++ [0]) record_rejected;
          on_bytes test_record (fun l => <[4%nat := 255]> (<[5%nat := 255]> (<[6%nat := 255]> (<[7%nat := 255]> l)))) record_rejected;
          match persist_read "no_such_file_xyz.bin" ∅ with None => true | Some _ => false end].

Definition test_bin_writer_reader : bool :=
  match BinWriter.str "hello" (BinWriter.bool_ true (BinWriter.i32 (-42) (BinWriter.u64 0x1234567890ABCDEF (BinWriter.u32 0xDEADBEEF [])))) with
  | Ret buf =>
      match ((do! a <- BinReader.u32; do! b <- BinReader.u64; do! c <- BinReader.i32; do! d <- BinReader.bool_; do! e <- BinReader.str;
              sret (a, b, c, d, e)) : M WireReader.t _) (BinReader.of_vector buf) with
      | (Ret r, rest) =>
          bool_decide (r = (Some 0xDEADBEEF, Some 0x1234567890ABCDEF, Some (-42), Some true, Some "hello"%string)) && BinReader.at_end rest
      | _ => false
      end
  | _ => false
  end.

Definition test_bin_reader_truncated : bool :=
  match BinWriter.str "hello" (BinWriter.u64 123 []) with
  | Ret buf =>
      match (BinReader.u64 (BinReader.of_vector buf)).1, (BinReader.str (BinReader.of_vector (take 8 buf))).1 with
      | Ret (Some _), Ret None => true
      | _, _ => false
      end
  | _ => false
  end.

(** ** Governor *)
Definition init_gov : M Governor.t bool :=
  do! a <- install_caps (Some (mkQ 5000)) None (Some (mkQ 402)) gen_first;
  do! b <- Governor.install_budget start_time (plain_budget 1 1 None (mkQ 450) "node");
  do! c <- Governor.install_budget start_time (plain_budget 2 2 (Some (mkId 1)) (mkQ 402) "acc");
  sret (a && b && c).

Definition on_governor (m : M Governor.t bool) : bool :=
  passes ((do! ok <- init_gov; do! r <- m; sret (ok && r)) program_governor).1.

(** The state of a reservation, the reservations that are active, the consistency of the books. *)
Definition stands_at (id : ReservationId) (s : ReservationState) (active : nat) : M Governor.t bool :=
  do! g <- sget;
  do! sound <- slift (Governor.accounting_consistent start_time g);
  sret (bool_decide (Governor.reservation_state g id = s) && (Governor.active_reservations g =? active)%nat && sound).

Definition test_governor_lifecycle : bool := on_governor (
  do! plan <- plan_of 10 THROUGHPUT 60 50 5;
  let id := ReservationManager.res_id plan in
  do! v <- Governor.validate_reservation id gen_first start_time;
  do! r <- Governor.reserve_reservation id gen_first start_time;
  do! s1 <- stands_at id RESERVED 0;
  do! m <- Governor.admit_reservation id start_time;
  do! a <- Governor.activate_reservation id gen_first start_time;
  do! s2 <- stands_at id ACTIVE 1;
  do! l <- Governor.release_reservation id gen_first start_time;
  do! s3 <- stands_at id RELEASED 0;
  sret (forallb ReservationManager.ok [plan; v; r; m; a; l] && s1 && s2 && s3)).

Definition ask_two (now : Timestamp) : M Governor.t Decision.t := ask THROUGHPUT 100 now.

Definition test_governor_decision_path : bool := on_governor (
  do! _ <- poll_at (observing 120 55) start_time;
  do! d1 <- ask_two start_time;
  do! p2 <- install_caps (Some (mkQ 5000)) None (Some (mkQ 50)) (mkGen 2);
  do! d2 <- ask_two start_time;
  do! p3 <- install_caps (Some (mkQ 5000)) None (Some (mkQ 402)) (mkGen 3);
  do! d3 <- ask_two (mkTime 1220000000);
  sret (all_of [bool_decide (Decision.verdict d1 = ALLOW); p2;
                bool_decide (Decision.verdict d2 = ALLOW_WITH_LIMIT) || bool_decide (Decision.verdict d2 = THROTTLE);
                match Decision.recommended_limit d2 with Some w => (value w <=? 50)%float | None => false end; p3;
                bool_decide (Decision.verdict d3 = ALLOW)])).

Definition test_governor_persistence : bool := on_governor (
  do! plan <- plan_of 10 THROUGHPUT 60 0 2;
  do! r <- Governor.reserve_reservation (ReservationManager.res_id plan) gen_first start_time;
  do! _ <- poll_at (observing 120 55) start_time;
  do! g <- sget;
  do! before <- slift (state_digest g);
  do! saved <- save start_time (mkIo true [] true true true) "test_state.bin" ∅;
  do! g <- sget;
  do! _ <- sput (next_governor g);
  do! loaded <- load start_time "test_state.bin" (default ∅ (last saved.2));
  do! g <- sget;
  do! after <- slift (state_digest g);
  do! d <- ask_two start_time;
  do! g <- sget;
  do! sound <- slift (Governor.accounting_consistent start_time g);
  sret (all_of [ReservationManager.ok plan; ReservationManager.ok r; saved.1; loaded; String.eqb before after;
                bool_decide (Decision.verdict d = REVALIDATION_REQUIRED); sound])).

Definition test_governor_budget_rollback : bool := on_governor (
  let b := plain_budget 3 3 None (mkQ 100) "b3" in
  do! new <- Governor.install_budget never b;
  do! old <- Governor.install_budget never (with_generation gen_null b);
  sret (new && negb old)).

(** ** The distributed proof: a coordinator, its operator, and two workers *)
Definition exchange : Frame -> peer -> exchanged * peer := coordinator_exchange byte_at_a_time at_once (fun _ => id).

(** A worker process: it registers, and later reads lines.  Between its turns the shared
    state is where the others left it. *)
Definition worker_starts (worker boot : Z) : M CoordShared (@session peer) :=
  fun cs => let '(o, s) := worker_register exchange (before (make_ctx (mkId worker) (mkId boot) (mkId 1)) cs) in
            (let! ok := o in if (ok : bool) then Ret s else Undefined, p_shared (s_peer s)).
Definition worker_reads (lines : list string) (s : @session peer) : M CoordShared (@session peer) :=
  fun cs => let s := mkSession (s_ctx s) (mkPeer cs (p_registered (s_peer s)) (p_refused (s_peer s)) (p_turn (s_peer s))) (s_out s) in
            let '(o, s) := worker_script exchange lines s in
            (let! _ := o in Ret s, p_shared (s_peer s)).
Definition operator (line : string) : M CoordShared (option string) := operate (mkIo true [] true true true) ∅ line.

Definition distributed_proof : M CoordShared (list (option string) * list (list string)) :=
  do! a <- worker_starts 1 1;
  do! b <- worker_starts 2 2;
  do! a <- worker_reads ["observe 150000 4000"] a;
  do! b <- worker_reads ["observe 120000 3800"] b;
  do! o1 <- operator "install_budget 1 0 450 450";
  do! o2 <- operator "install_budget 2 1 402 402";
  do! o3 <- operator "set_policy 402";
  do! a <- worker_reads ["reserve 2 60000"] a;
  do! b <- worker_reads ["reserve 2 50000"; "quit"] b;
  do! o4 <- operator "roll_epoch";
  do! a2 <- worker_starts 1 99;
  do! a2 <- worker_reads ["stale_observe 1 1 90000"; "stale_reserve 1 1 2 40000"; "stale_release 1 1 1 2 60000"; "quit"] a2;
  do! b2 <- worker_starts 2 2;
  do! b2 <- worker_reads ["observe 110000 3700"; "quit"] b2;
  do! o5 <- operator "snapshot";
  do! o6 <- operator "save mp_state.bin";
  do! o7 <- operator "quit";
  sret ([o1; o2; o3; o4; o5; o6; o7], [s_out a; s_out b; s_out a2; s_out b2]).

(** ** Every assertion holds of the model *)

(** A frame of 20 MB. *)
Definition oversized_frame : Frame := mkFrame REGISTER (replicate (Z.to_nat (20 * 1024 * 1024)) 0).
Lemma oversized_frame_refused : throws (serialize_frame oversized_frame) = true.
Proof.
  unfold serialize_frame, oversized_frame. cbn [payload]. rewrite length_replicate, Z2Nat.id by lia. reflexivity.
Qed.

Lemma core_tests_pass :
  forallb id [test_typed_units; test_identities; test_budget_hierarchy; test_parent_child_overflow; test_reservation_lifecycle;
              test_double_reserve; test_stale_activation; test_thermal_hysteresis; test_provenance; test_power_window;
              test_burst_bounded; test_freshness; test_authority_fencing; test_index_lookup; test_history_append_only] = true.
Proof. vm_compute. reflexivity. Qed.

Lemma decision_tests_pass : forallb id [test_decisions; test_decision_digest; test_decision_hysteresis; test_policy_rollover] = true.
Proof. vm_compute. reflexivity. Qed.

Lemma wire_tests_pass :
  forallb id [test_protocol_roundtrips; test_protocol_rejections; test_persistence; test_bin_writer_reader; test_bin_reader_truncated] = true.
Proof. vm_compute. reflexivity. Qed.

Lemma governor_tests_pass :
  forallb id [test_governor_lifecycle; test_governor_decision_path; test_governor_persistence; test_governor_budget_rollback] = true.
Proof. vm_compute. reflexivity. Qed.

(** The restarted worker replays the authority of its former boot and epoch, and is
    refused; the other worker goes on. *)
Lemma distributed_proof_passes :
  (distributed_proof (coordinator_start 1 1 1 1 1)).1 =
  Ret ([Some "BUDGET installed"; Some "BUDGET installed"; Some "POLICY installed"; Some "EPOCH 2";
        Some "SNAPSHOT 23b03a5bfe9055a4"; Some "SAVED"; None],
       [["REGISTER ok: 1"; "observe -> ACCEPT"; "reserve -> ACCEPT:1"];
        ["REGISTER ok: 1"; "observe -> ACCEPT"; "reserve -> ACCEPT:2"];
        ["REGISTER ok: 2"; "stale_observe -> ERROR:STALE_EPOCH"; "stale_reserve -> ERROR:STALE_EPOCH";
         "stale_release -> ERROR:STALE_EPOCH"];
        ["REGISTER ok: 2"; "observe -> ACCEPT"]])%string.
Proof. vm_compute. reflexivity. Qed.
