(* ===== verification/GovernorThreads.v ===== *)
(** * Threads that share a governor

    Any number of threads run the life cycle of reservations on one governor, each call a
    section under its lock, in any interleaving: the scenario of the concurrency test
    (tests/test_governor.cpp).  [GovernorThreads] gives the threads as a step function over a
    schedule; with room for twice what the threads ask for on every budget of the chain, no
    call is ever refused, every thread finishes, and the books end where they began. *)
From S2P Require Import Prelude Rounding Binary64 Util Units Ids Clock Budget Ledger BudgetSpec Authority.
From S2P Require Import WorkloadClass Reservation ReservationFacts ReservationSpec Index Governor GovernorSpec GovernorIndex.
From S2P Require Import Cli Conformance.
Local Open Scope Z_scope.
#[local] Set Warnings "-inexact-float".
#[local] Arguments Z.mul : simpl never.
#[local] Arguments Z.add : simpl never.
#[local] Arguments Z.pow : simpl never.
Import ReservationManager.

(** ** The threads *)
Module Threads.
(** What a thread is about to call: for a new reservation, or the next step of the one it
    planned. *)
Inductive phase :=
| Start
| Planned (id : ReservationId)
| Validated (id : ReservationId)
| Reserved (id : ReservationId)
| Active (id : ReservationId).

Record thread := mkThread { ph : phase; rounds : nat }.
Record pool := mkPool { gov : Governor.t; workers : list thread; errors : nat }.

(** What the threads ask for, the same for all but the workload. *)
Record job := mkJob {
  j_workload : nat -> WorkloadId;
  j_class : WorkloadPowerClass;
  j_scope : PowerDomainId;
  j_budget : BudgetId;
  j_power : Watts;
  j_energy : Joules;
  j_policy : PolicyGeneration;
  j_device : DeviceGeneration;
  j_generation : BudgetGeneration;
  j_now : Timestamp;
  j_validity : Duration }.

Section Job.
Context (j : job).

(** The call of thread [i] in its phase. *)
Definition call_of (i : nat) (p : phase) : M Governor.t Result :=
  match p with
  | Start => Governor.plan_reservation (j_workload j i) (j_class j) (j_scope j) (j_budget j) (j_power j) (j_energy j)
               (j_policy j) (j_device j) (j_now j) (j_validity j)
  | Planned id => Governor.validate_reservation id (j_policy j) (j_now j)
  | Validated id => Governor.reserve_reservation id (j_generation j) (j_now j)
  | Reserved id => Governor.activate_reservation id (j_generation j) (j_now j)
  | Active id => Governor.release_reservation id (j_generation j) (j_now j)
  end.

(** After a call that succeeded. *)
Definition advance (t : thread) (r : Result) : thread :=
  match ph t with
  | Start => mkThread (Planned (res_id r)) (rounds t)
  | Planned id => mkThread (Validated id) (rounds t)
  | Validated id => mkThread (Reserved id) (rounds t)
  | Reserved id => mkThread (Active id) (rounds t)
  | Active _ => mkThread Start (pred (rounds t))
  end.

(** One turn of thread [i].  A call that is refused counts an error and goes to the next
    round; an exception ends the process. *)
Definition turn (i : nat) (p : pool) : outcome pool :=
  match workers p !! i with
  | Some t =>
      if bool_decide (rounds t = O) then Ret p
      else
        match call_of i (ph t) (gov p) with
        | (Ret r, g) =>
            if ok r then Ret (mkPool g (<[i := advance t r]> (workers p)) (errors p))
            else Ret (mkPool g (<[i := mkThread Start (pred (rounds t))]> (workers p)) (S (errors p)))
        | (Undefined, _) => Undefined
        | _ => Terminate
        end
  | None => Ret p
  end.

Fixpoint turns (schedule : list nat) (p : pool) : outcome pool :=
  match schedule with
  | [] => Ret p
  | i :: schedule => let! p := turn i p in turns schedule p
  end.

Definition start (k n : nat) (g : Governor.t) : pool := mkPool g (replicate k (mkThread Start n)) 0.
End Job.
End Threads.
Import Threads.

(** ** The ledger with something booked on a chain *)
Definition booked (h s : Z) (a : Ledger.account) : Ledger.account := Ledger.add_spent s (Ledger.add_held h a).
Definition shifted (c : list BudgetId) (h s : Z) (l : Ledger.t) : Ledger.t :=
  map_imap (fun b a => Some (if decide (b ∈ c) then booked h s a else a)) l.

Lemma shifted_lookup (c : list BudgetId) (h s : Z) (l : Ledger.t) (b : BudgetId) :
  shifted c h s l !! b = (fun a => if decide (b ∈ c) then booked h s a else a) <$> l !! b.
Proof. unfold shifted. rewrite map_lookup_imap. destruct (l !! b); reflexivity. Qed.

Lemma booked_zero (a : Ledger.account) : booked 0 0 a = a.
Proof. destruct a. unfold booked, Ledger.add_held, Ledger.add_spent. cbn. f_equal; lia. Qed.

Lemma booked_booked (h s h' s' : Z) (a : Ledger.account) : booked h' s' (booked h s a) = booked (h + h') (s + s') a.
Proof. destruct a. unfold booked, Ledger.add_held, Ledger.add_spent. cbn. f_equal; lia. Qed.

Lemma shifted_zero (c : list BudgetId) (l : Ledger.t) : shifted c 0 0 l = l.
Proof.
  apply map_eq. intros b. rewrite shifted_lookup. destruct (l !! b); [|reflexivity]. cbn. f_equal.
  case_decide; [apply booked_zero|reflexivity].
Qed.

Lemma shifted_chain (c : list BudgetId) (h s : Z) (l : Ledger.t) (b : BudgetId) :
  Ledger.chain (shifted c h s l) b = Ledger.chain l b.
Proof.
  apply chain_loop_ext. intros b'. unfold Ledger.parent_of. rewrite shifted_lookup.
  destruct (l !! b'); [|reflexivity]. cbn. case_decide; reflexivity.
Qed.

(** Booking on the chain once more. *)
Lemma book_shifted (test : Ledger.account -> bool) (f : Ledger.account -> Ledger.account) (h s dh ds : Z) (l : Ledger.t) (b : BudgetId) :
  let c := Ledger.chain l b in
  NoDup c -> (forall x, x ∈ c -> exists a, l !! x = Some a /\ test (booked h s a) = true) ->
  (forall a, f a = booked dh ds a) ->
  Ledger.book test f (shifted c h s l) b = (true, shifted c (h + dh) (s + ds) l).
Proof.
  intros c Hnd Ht Hf. apply book_true; rewrite shifted_chain; [exact Hnd|]. fold c. split.
  - intros x Hx. destruct (Ht x Hx) as (a & E & Ha). exists (booked h s a). rewrite shifted_lookup, E. cbn.
    rewrite decide_True by exact Hx. auto.
  - intros x. rewrite !shifted_lookup. destruct (l !! x) as [a|]; cbn; case_decide; try reflexivity.
    rewrite Hf, booked_booked. reflexivity.
Qed.

(** ** The budgets, while the threads run *)
Section Budgets.
Context (j : job) (m0 : BudgetManager.t) (k : nat).
Let b := j_budget j.
Let w := j_power j.
Let z := steps (value w).
Let c := BudgetManager.chain m0 b.

(** Room for [k] reservations on every budget of the chain, both as reserved and as used
    power: an active reservation counts twice. *)
Record roomy : Prop := mkRoomy {
  room_gridded : Refinement.gridded m0;
  room_grid : grid (value w);
  room_leaf : exists st, m0 !! b = Some st /\ PowerBudget.generation (BudgetManager.cfg st) = j_generation j /\
                PowerBudget.authoritative (BudgetManager.cfg st) = true;
  room_chain : forall x, x ∈ c -> exists a, Refinement.abs m0 !! x = Some a /\
                 Ledger.held a + Ledger.spent a + 2 * Z.of_nat k * z <= Ledger.capacity a }.
Hypothesis Hroom : roomy.

(** [h] threads hold a reservation, [s] of them are active. *)
Definition holding (h s : nat) (m : BudgetManager.t) : Prop :=
  Refinement.gridded m /\ Refinement.abs m = shifted c (z * Z.of_nat h) (z * Z.of_nat s) (Refinement.abs m0).

Lemma z_nonneg : 0 <= z.
Proof. destruct (Refinement.grid_steps _ (room_grid Hroom)) as (_ & _ & H). unfold z. lia. Qed.

Lemma leaf_account : exists a, Refinement.abs m0 !! b = Some a /\ Ledger.acc_generation a = j_generation j /\ Ledger.acc_authoritative a = true.
Proof.
  destruct (room_leaf Hroom) as (st & E & Hg & Ha). eexists. rewrite Refinement.abs_lookup, E. split; [reflexivity|]. auto.
Qed.

(** A booking of the ledger on the chain, done by the manager. *)
Lemma call_booked (cl : Refinement.call) (test : Ledger.account -> bool) (f : Ledger.account -> Ledger.account)
    (h s h' s' : nat) (m : BudgetManager.t) :
  (forall l, Ledger.run (Refinement.abs_call cl) l =
     Ledger.at_generation l b (j_generation j) (fun a => if Ledger.acc_authoritative a then Ledger.book test f l b else (false, l)) \/
   Ledger.run (Refinement.abs_call cl) l = Ledger.at_generation l b (j_generation j) (fun a => Ledger.book test f l b)) ->
  Refinement.call_ok m cl ->
  (forall a, f a = booked (z * (Z.of_nat h' - Z.of_nat h)) (z * (Z.of_nat s' - Z.of_nat s)) a) ->
  (forall a, Ledger.account_ok a -> Ledger.held a + Ledger.spent a + 2 * Z.of_nat k * z <= Ledger.capacity a ->
     test (booked (z * Z.of_nat h) (z * Z.of_nat s) a) = true) ->
  holding h s m ->
  exists m', Refinement.run cl m = (true, m') /\ holding h' s' m'.
Proof.
  intros Hrun Hok Hf Ht (Hg & Habs). destruct (Refinement.run_refines m cl Hg Hok) as [Hr Hg'].
  destruct leaf_account as (a0 & E0 & Eg & Ea).
  assert (Hb : Ledger.book test f (Refinement.abs m) b
               = (true, shifted c (z * Z.of_nat h') (z * Z.of_nat s') (Refinement.abs m0))).
  { rewrite Habs. unfold c. rewrite <- (Refinement.chain_abs m0 b).
    rewrite (book_shifted test f _ _ (z * (Z.of_nat h' - Z.of_nat h)) (z * (Z.of_nat s' - Z.of_nat s))).
    - do 2 f_equal; lia.
    - apply (proj1 (proj2 (room_gridded Hroom))).
    - intros x Hx. rewrite Refinement.chain_abs in Hx. destruct (room_chain Hroom x Hx) as (a & E & Hcap). exists a.
      split; [exact E|]. apply Ht; [|exact Hcap]. apply (proj2 (proj2 (room_gridded Hroom)) x a E).
    - exact Hf. }
  assert (Hlk : Refinement.abs m !! b = Some (if decide (b ∈ c) then booked (z * Z.of_nat h) (z * Z.of_nat s) a0 else a0))
    by (rewrite Habs, shifted_lookup, E0; reflexivity).
  assert (Hgen : forall a, a = a0 \/ a = booked (z * Z.of_nat h) (z * Z.of_nat s) a0 ->
            Ledger.acc_generation a = j_generation j /\ Ledger.acc_authoritative a = true) by (intros a [->| ->]; auto).
  assert (Hd : (if decide (b ∈ c) then booked (z * Z.of_nat h) (z * Z.of_nat s) a0 else a0) = a0 \/
               (if decide (b ∈ c) then booked (z * Z.of_nat h) (z * Z.of_nat s) a0 else a0) = booked (z * Z.of_nat h) (z * Z.of_nat s) a0)
    by (case_decide; auto).
  destruct (Hgen _ Hd) as [G1 G2].
  assert (Hrun' : Ledger.run (Refinement.abs_call cl) (Refinement.abs m)
                  = (true, shifted c (z * Z.of_nat h') (z * Z.of_nat s') (Refinement.abs m0))).
  { destruct (Hrun (Refinement.abs m)) as [->| ->]; unfold Ledger.at_generation; rewrite Hlk, G1;
      (rewrite (proj2 (gen_eqb_eq _ _) eq_refl)); [rewrite G2|]; exact Hb. }
  rewrite Hr in Hrun'. injection Hrun' as H1 H2. exists (Refinement.run cl m).2.
  split; [rewrite <- H1; destruct (Refinement.run cl m); reflexivity|]. split; [exact Hg'|exact H2].
Qed.

Lemma reservation_held (h s : nat) (rid : ReservationId) (m : BudgetManager.t) : (h < k)%nat -> (s <= h)%nat -> holding h s m ->
  exists m', BudgetManager.reserve m b w rid (j_generation j) = (true, m') /\ holding (S h) s m'.
Proof.
  intros Hh Hs Hm. pose proof z_nonneg as Hz.
  apply (call_booked (Refinement.Reserve b w rid (j_generation j)) (Ledger.fits z) (Ledger.add_held z) h s); auto.
  - apply (room_grid Hroom).
  - intros a. unfold booked, Ledger.add_held, Ledger.add_spent. cbn. f_equal; lia.
  - intros a (H1 & H2 & H3) Hcap. unfold Ledger.fits, booked, Ledger.add_held, Ledger.add_spent. cbn. apply Z.leb_le. nia.
Qed.

Lemma activation_held (h s : nat) (rid : ReservationId) (m : BudgetManager.t) : (h <= k)%nat -> (s < h)%nat -> holding h s m ->
  exists m', BudgetManager.activate m b w rid (j_generation j) = (true, m') /\ holding h (S s) m'.
Proof.
  intros Hh Hs Hm. pose proof z_nonneg as Hz.
  apply (call_booked (Refinement.Activate b w rid (j_generation j)) (Ledger.fits z) (Ledger.add_spent z) h s); auto.
  - apply (room_grid Hroom).
  - intros a. unfold booked, Ledger.add_held, Ledger.add_spent. cbn. f_equal; lia.
  - intros a (H1 & H2 & H3) Hcap. unfold Ledger.fits, booked, Ledger.add_held, Ledger.add_spent. cbn. apply Z.leb_le. nia.
Qed.

Lemma release_held (h s : nat) (rid : ReservationId) (m : BudgetManager.t) : holding (S h) s m ->
  exists m', BudgetManager.release m b w rid (j_generation j) = (true, m') /\ holding h s m'.
Proof.
  intros Hm. pose proof z_nonneg as Hz.
  apply (call_booked (Refinement.Release b w rid (j_generation j)) (fun a => z <=? Ledger.held a) (Ledger.add_held (- z)) (S h) s); auto.
  - apply (room_grid Hroom).
  - intros a. unfold booked, Ledger.add_held, Ledger.add_spent. cbn. f_equal; lia.
  - intros a (H1 & H2 & H3) Hcap. unfold booked, Ledger.add_held, Ledger.add_spent. cbn. apply Z.leb_le. nia.
Qed.

Lemma deactivation_held (h s : nat) (rid : ReservationId) (m : BudgetManager.t) : holding h (S s) m ->
  exists m', BudgetManager.deactivate m b w rid (j_generation j) = (true, m') /\ holding h s m'.
Proof.
  intros Hm. pose proof z_nonneg as Hz.
  apply (call_booked (Refinement.Deactivate b w rid (j_generation j)) (fun a => z <=? Ledger.spent a) (Ledger.add_spent (- z)) h (S s)); auto.
  - apply (room_grid Hroom).
  - intros a. unfold booked, Ledger.add_held, Ledger.add_spent. cbn. f_equal; lia.
  - intros a (H1 & H2 & H3) Hcap. unfold booked, Ledger.add_held, Ledger.add_spent. cbn. apply Z.leb_le. nia.
Qed.
End Budgets.

(** ** One call of a thread on its reservation *)
Definition phase_id (p : phase) : option ReservationId :=
  match p with Start => None | Planned id | Validated id | Reserved id | Active id => Some id end.
Definition holds (p : phase) : nat := match p with Reserved _ | Active _ => 1 | _ => 0 end.
Definition acts (p : phase) : nat := match p with Active _ => 1 | _ => 0 end.
Definition next_phase (p : phase) : phase :=
  match p with
  | Start | Active _ => Start
  | Planned id => Validated id
  | Validated id => Reserved id
  | Reserved id => Active id
  end.

Section Calls.
Context (j : job).

(** The reservation of a thread in phase [p]. *)
Definition fits_phase (p : phase) (r : Reservation.t) : Prop :=
  Reservation.budget r = j_budget j /\ Reservation.requested_power r = j_power j /\
  Reservation.policy_generation r = j_policy j /\ Reservation.created r = j_now j /\ Reservation.validity r = j_validity j /\
  match p with
  | Start => Reservation.state r = RELEASED
  | Planned _ => Reservation.state r = PLANNED
  | Validated _ => Reservation.state r = VALIDATED
  | Reserved _ => Reservation.state r = RESERVED /\ Reservation.budget_generation r = j_generation j /\ Reservation.reserved_power r = j_power j
  | Active _ => Reservation.state r = ACTIVE /\ Reservation.budget_generation r = j_generation j /\ Reservation.reserved_power r = j_power j
  end.

(** The clock does not move while the threads run, and no reservation expires. *)
Lemma not_expired (r : Reservation.t) :
  Reservation.created r = j_now j -> Reservation.validity r = j_validity j -> 0 <= ns (j_validity j) -> expired r (j_now j) = Ret false.
Proof.
  intros Hc Hv Hns. unfold expired. rewrite Hc, Hv. destruct (time_is_zero _); [reflexivity|].
  unfold elapsed_since. rewrite Z.ltb_irrefl. cbn [obind]. rewrite duration_ok by (unfold kMaxNs; lia). cbn.
  unfold duration_ltb. cbn [ns]. destruct (Z.ltb_spec (ns (j_validity j)) 0); [lia|reflexivity].
Qed.

Lemma step_returns (id : ReservationId) (target : ReservationState) m (g : Governor.t) (res : Result) (s' : rmanager) :
  m (Governor.rm g) = (Ret res, s') -> ok res = true -> is_Some (map_ s' !! id) ->
  exists g', Governor.reservation_step id target m g = (Ret res, g') /\ Governor.rm g' = s'.
Proof.
  intros Em Hok [r Er]. unfold Governor.reservation_step. rewrite (sbind_step _ _ _ _ _ (zoom_step _ _ _ _ _ _ Em)), Hok.
  unfold Governor.update_index_state. eexists. split.
  - unfold sbind, sget, slift, smodify, sret. cbn [Governor.rm Governor.set_rm]. unfold ReservationManager.get. rewrite Er. reflexivity.
  - reflexivity.
Qed.

Context (m0 : BudgetManager.t) (k : nat).
Hypothesis Hroom : roomy j m0 k.
Hypothesis Hvalid : 0 <= ns (j_validity j).
Hypothesis Hgen : is_null (j_generation j) = false.

(** What a call leaves: the reservation one phase further, and its power booked. *)
Definition moved (p : phase) (h s : nat) (id : ReservationId) (g g' : Governor.t) : Prop :=
  exists r', map_ (Governor.rm g') = <[id := r']> (map_ (Governor.rm g)) /\ next_id (Governor.rm g') = next_id (Governor.rm g) /\
    holding j m0 (h + holds (next_phase p)) (s + acts (next_phase p)) (budgets (Governor.rm g')) /\ fits_phase (next_phase p) r'.

(** The manager's operation, with the test of expiry out of the way. *)
Lemma moved_intro (p : phase) (h s : nat) (id : ReservationId) (target : ReservationState) m (g : Governor.t) (res : Result)
    (r' : Reservation.t) (b' : BudgetManager.t) :
  m (Governor.rm g) = (Ret res, mk (<[id := r']> (map_ (Governor.rm g))) (next_id (Governor.rm g)) b') -> ok res = true ->
  holding j m0 (h + holds (next_phase p)) (s + acts (next_phase p)) b' -> fits_phase (next_phase p) r' ->
  exists res g', Governor.reservation_step id target m g = (Ret res, g') /\ ok res = true /\ moved p h s id g g'.
Proof.
  intros Em Hok Hb Hr. destruct (step_returns id target m g res _ Em Hok) as (g' & Eg & Erm).
  { cbn. rewrite lookup_insert_eq. eauto. }
  exists res, g'. split; [exact Eg|]. split; [exact Hok|]. exists r'. rewrite Erm. auto.
Qed.

Lemma call_moves (i : nat) (p : phase) (h s : nat) (id : ReservationId) (r : Reservation.t) (g : Governor.t) :
  phase_id p = Some id -> map_ (Governor.rm g) !! id = Some r -> fits_phase p r ->
  (h < k)%nat -> (s <= h)%nat -> holding j m0 (h + holds p) (s + acts p) (budgets (Governor.rm g)) ->
  exists res g', call_of j i p g = (Ret res, g') /\ ok res = true /\ moved p h s id g g'.
Proof.
  intros Hid Er (Hb & Hw & Hp & Hc & Hv & Hst) Hh Hs Hhold. set (rs := Governor.rm g) in *.
  assert (Hexp : expired r (j_now j) = Ret false) by (apply not_expired; assumption).
  destruct p as [|id'|id'|id'|id']; try discriminate; injection Hid as ->; cbn [call_of holds acts] in *.
  - eapply moved_intro with (res := result true "validated") (b' := budgets rs); [|reflexivity|exact Hhold|].
    + unfold validate. rewrite mutable_get_bind. fold rs. rewrite Er, Hst, Hp. cbn [negb bool_decide].
      rewrite bool_decide_true by reflexivity. rewrite (proj2 (gen_eqb_eq _ _) eq_refl). reflexivity.
    + split_and!; try assumption. reflexivity.
  - rewrite !Nat.add_0_r in Hhold.
    destruct (reservation_held j m0 k Hroom h s id (budgets rs) Hh Hs Hhold) as (b' & Eb & Hb').
    eapply moved_intro with (res := result true "reserved") (b' := b'); [|reflexivity|cbn; rewrite Nat.add_1_r, Nat.add_0_r; exact Hb'|].
    + unfold reserve. rewrite mutable_get_bind. fold rs. rewrite Er, Hst. rewrite bool_decide_true by reflexivity. cbn [negb andb].
      rewrite Hexp, sbind_lift. cbv beta iota. rewrite call_bind, Hb, Hw. change (b_reserve (budgets rs)) with (BudgetManager.reserve (budgets rs)).
      rewrite Eb. reflexivity.
    + repeat split; assumption || reflexivity.
  - destruct Hst as (Hst & Hbg & Hrp). rewrite Nat.add_1_r, Nat.add_0_r in Hhold.
    destruct (activation_held j m0 k Hroom (S h) s id (budgets rs) Hh ltac:(lia) Hhold) as (b' & Eb & Hb').
    eapply moved_intro with (res := result true "active") (b' := b'); [|reflexivity|cbn; rewrite !Nat.add_1_r; exact Hb'|].
    + unfold activate. rewrite mutable_get_bind. fold rs. rewrite Er, Hst. rewrite (bool_decide_true (RESERVED = RESERVED)) by reflexivity.
      rewrite andb_false_r. rewrite Hexp, sbind_lift. cbv beta iota. rewrite Hbg, (proj2 (gen_eqb_eq _ _) eq_refl). cbn [negb].
      rewrite call_bind, Hb, Hw. change (b_activate (budgets rs)) with (BudgetManager.activate (budgets rs)). rewrite Eb. reflexivity.
    + repeat split; assumption || reflexivity.
  - destruct Hst as (Hst & Hbg & Hrp). rewrite !Nat.add_1_r in Hhold.
    destruct (release_held j m0 k Hroom h (S s) id (budgets rs) Hhold) as (b1 & Eb1 & Hb1).
    destruct (deactivation_held j m0 k Hroom h s id b1 Hb1) as (b' & Eb & Hb').
    eapply moved_intro with (res := result true "released") (b' := b'); [|reflexivity|cbn; rewrite !Nat.add_0_r; exact Hb'|].
    + unfold release. rewrite mutable_get_bind. fold rs. rewrite Er, Hst, Hbg, Hgen.
      rewrite !(bool_decide_false (ACTIVE = _)) by discriminate. cbn [andb negb].
      rewrite call_bind, Hb, Hrp. change (b_release (budgets rs)) with (BudgetManager.release (budgets rs)). rewrite Eb1. cbn [fst snd negb].
      rewrite (bool_decide_true (ACTIVE = ACTIVE)) by reflexivity. cbn [orb].
      unfold sbind at 1. rewrite call_bind. cbn [budgets].
      change (b_deactivate b1) with (BudgetManager.deactivate b1). rewrite Eb. reflexivity.
    + repeat split; assumption || reflexivity.
Qed.
End Calls.

(** ** Counting over the threads *)
Definition tally {A : Type} (f : A -> nat) (ws : list A) : nat := sum_list_with f ws.

Lemma tally_at {A : Type} (f : A -> nat) (ws : list A) (i : nat) (t : A) :
  ws !! i = Some t -> tally f ws = (tally f (delete i ws) + f t)%nat.
Proof.
  unfold tally. revert i. induction ws as [|x ws IH]; intros [|i] E; try discriminate E; cbn in E.
  - injection E as ->. change (delete 0%nat (t :: ws)) with ws. cbn [sum_list_with]. lia.
  - change (delete (S i) (x :: ws)) with (x :: delete i ws). cbn [sum_list_with]. rewrite (IH i E). lia.
Qed.

Lemma tally_set {A : Type} (f : A -> nat) (ws : list A) (i : nat) (t t' : A) :
  ws !! i = Some t -> tally f (<[i := t']> ws) = (tally f (delete i ws) + f t')%nat.
Proof.
  unfold tally. revert i. induction ws as [|x ws IH]; intros [|i] E; try discriminate E; cbn in E.
  - change (delete 0%nat (x :: ws)) with ws. change (<[0%nat:=t']> (x :: ws)) with (t' :: ws). cbn [sum_list_with]. lia.
  - change (delete (S i) (x :: ws)) with (x :: delete i ws). change (<[S i:=t']> (x :: ws)) with (x :: <[i:=t']> ws).
    cbn [sum_list_with]. rewrite (IH i E). lia.
Qed.

Lemma tally_le {A : Type} (f f' : A -> nat) (ws : list A) : (forall t, (f t <= f' t)%nat) -> (tally f ws <= tally f' ws)%nat.
Proof. intros H. unfold tally. induction ws as [|x ws IH]; cbn; [lia|]. specialize (H x). lia. Qed.

Lemma tally_const {A : Type} (f : A -> nat) (n : nat) (ws : list A) : (forall t, t ∈ ws -> f t = n) -> tally f ws = (length ws * n)%nat.
Proof.
  intros H. unfold tally. induction ws as [|x ws IH]; cbn; [lia|].
  rewrite (H x) by left. rewrite IH; [lia|]. intros t Ht. apply H. right. exact Ht.
Qed.

Lemma tally_length {A : Type} (f : A -> nat) (ws : list A) : (forall t, (f t <= 1)%nat) -> (tally f ws <= length ws)%nat.
Proof. intros H. unfold tally. induction ws as [|x ws IH]; cbn; [lia|]. specialize (H x). lia. Qed.

(** The reservations a thread has still to plan, and how far it is in its [n] rounds. *)
Definition pending (t : thread) : nat := match ph t with Start => rounds t | _ => pred (rounds t) end.
Definition rank (p : phase) : nat :=
  match p with Start => 0 | Planned _ => 1 | Validated _ => 2 | Reserved _ => 3 | Active _ => 4 end.
Definition progress (n : nat) (t : thread) : nat := (5 * (n - rounds t) + rank (ph t))%nat.

(** ** The table of reservations, and whose they are *)
Section Table.
Context (j : job) (t0 : gmap ReservationId Reservation.t).

Definition owns (ws : list thread) (i : nat) (id : ReservationId) : Prop :=
  exists t, ws !! i = Some t /\ phase_id (ph t) = Some id.

Record table_ok (tbl : gmap ReservationId Reservation.t) (ws : list thread) : Prop := mkTable {
  tab_base : forall id r, t0 !! id = Some r -> tbl !! id = Some r;
  tab_own : forall i t id, ws !! i = Some t -> phase_id (ph t) = Some id ->
              t0 !! id = None /\ exists r, tbl !! id = Some r /\ fits_phase j (ph t) r;
  tab_rest : forall id r, tbl !! id = Some r ->
              t0 !! id = Some r \/ Reservation.state r = RELEASED \/ exists i, owns ws i id;
  tab_once : forall i i' id, owns ws i id -> owns ws i' id -> i = i' }.

Lemma owns_set (ws : list thread) (i i' : nat) (t t' : thread) (id : ReservationId) :
  ws !! i = Some t -> owns (<[i := t']> ws) i' id <-> (i' = i /\ phase_id (ph t') = Some id) \/ (i' <> i /\ owns ws i' id).
Proof.
  intros E. pose proof (lookup_lt_Some _ _ _ E) as Hlt. unfold owns. destruct (decide (i' = i)) as [->|Hne].
  - rewrite list_lookup_insert_eq by exact Hlt. split; [intros (x & [= <-] & H); auto|intros [[_ H]|[H _]]; [eauto|congruence]].
  - rewrite list_lookup_insert_ne by congruence. split; [auto|]. intros [[H _]|[_ H]]; [congruence|exact H].
Qed.

Lemma next_phase_id (p : phase) (id : ReservationId) :
  phase_id p = Some id -> phase_id (next_phase p) = Some id \/ next_phase p = Start.
Proof. destruct p; cbn; intros [= ->]; auto. Qed.

(** One phase further. *)
Lemma table_move (tbl : gmap ReservationId Reservation.t) (ws : list thread) (i n : nat) (t : thread) (id : ReservationId) (r' : Reservation.t) :
  table_ok tbl ws -> ws !! i = Some t -> phase_id (ph t) = Some id -> fits_phase j (next_phase (ph t)) r' ->
  table_ok (<[id := r']> tbl) (<[i := mkThread (next_phase (ph t)) n]> ws).
Proof.
  intros [Hb Ho Hr H1] E Eid Hf. destruct (Ho i t id E Eid) as (Hnone & r & Er & _).
  assert (Hown : owns ws i id) by (exists t; auto).
  assert (Hsame : forall i' id', owns (<[i := mkThread (next_phase (ph t)) n]> ws) i' id' -> owns ws i' id').
  { intros i' id'. rewrite (owns_set _ _ _ _ _ _ E). cbn [ph]. intros [[-> H]|[_ H]]; [|exact H].
    destruct (next_phase_id _ _ Eid) as [H'|H']; rewrite H' in H; [injection H as <-; exact Hown|discriminate]. }
  split.
  - intros id' r1 E1. rewrite lookup_insert_ne by congruence. apply Hb, E1.
  - intros i' t1 id' E1 Eid1. assert (Hs : owns ws i' id') by (apply Hsame; exists t1; auto).
    destruct (decide (i' = i)) as [->|Hne].
    + rewrite list_lookup_insert_eq in E1 by exact (lookup_lt_Some _ _ _ E). injection E1 as <-. cbn [ph] in *.
      destruct (next_phase_id _ _ Eid) as [H'|H']; rewrite H' in Eid1; [|discriminate]. injection Eid1 as <-.
      split; [exact Hnone|]. exists r'. rewrite lookup_insert_eq. auto.
    + rewrite list_lookup_insert_ne in E1 by congruence. destruct (Ho i' t1 id' E1 Eid1) as (Hn' & r1 & Er1 & Hf1).
      split; [exact Hn'|]. exists r1. rewrite lookup_insert_ne; [auto|]. intros ->. apply Hne, (H1 i' i id'); assumption.
  - intros id' r1. rewrite lookup_insert. case_decide as Ed.
    + subst id'. intros [= <-]. right. destruct (next_phase_id _ _ Eid) as [H'|H'].
      * right. exists i. rewrite (owns_set _ _ _ _ _ _ E). auto.
      * left. rewrite H' in Hf. apply Hf.
    + intros E1. destruct (Hr id' r1 E1) as [H|[H|[i' H]]]; auto. right. right. exists i'.
      rewrite (owns_set _ _ _ _ _ _ E). right. split; [|exact H]. intros ->. destruct H as (t1 & E1' & Eid1). congruence.
  - intros i1 i2 id' Ho1 Ho2. apply (H1 i1 i2 id'); apply Hsame; assumption.
Qed.

(** A new reservation. *)
Lemma table_plan (tbl : gmap ReservationId Reservation.t) (ws : list thread) (i n : nat) (t : thread) (id : ReservationId) (r' : Reservation.t) :
  table_ok tbl ws -> ws !! i = Some t -> phase_id (ph t) = None -> tbl !! id = None -> fits_phase j (Planned id) r' ->
  table_ok (<[id := r']> tbl) (<[i := mkThread (Planned id) n]> ws).
Proof.
  intros [Hb Ho Hr H1] E Eid Enone Hf.
  assert (Hnew : forall i', ~ owns ws i' id).
  { intros i' (t1 & E1 & Eid1). destruct (Ho i' t1 id E1 Eid1) as (_ & r & Er & _). congruence. }
  assert (H0 : t0 !! id = None) by (destruct (t0 !! id) as [r|] eqn:E0; [rewrite (Hb id r E0) in Enone; discriminate|reflexivity]).
  split.
  - intros id' r1 E1. rewrite lookup_insert_ne by congruence. apply Hb, E1.
  - intros i' t1 id' E1 Eid1. destruct (decide (i' = i)) as [->|Hne].
    + rewrite list_lookup_insert_eq in E1 by exact (lookup_lt_Some _ _ _ E). injection E1 as <-. cbn in Eid1. injection Eid1 as <-.
      split; [exact H0|]. exists r'. rewrite lookup_insert_eq. auto.
    + rewrite list_lookup_insert_ne in E1 by congruence. destruct (Ho i' t1 id' E1 Eid1) as (Hn' & r1 & Er1 & Hf1).
      split; [exact Hn'|]. exists r1. rewrite lookup_insert_ne; [auto|]. intros ->. congruence.
  - intros id' r1. rewrite lookup_insert. case_decide as Ed.
    + subst id'. intros [= <-]. right. right. exists i. rewrite (owns_set _ _ _ _ _ _ E). auto.
    + intros E1. destruct (Hr id' r1 E1) as [H|[H|[i' H]]]; auto. right. right. exists i'.
      rewrite (owns_set _ _ _ _ _ _ E). right. split; [|exact H]. intros ->. destruct H as (t1 & E1' & Eid1). congruence.
  - intros i1 i2 id' Ho1 Ho2. apply (owns_set _ _ _ _ _ _ E) in Ho1, Ho2. cbn in Ho1, Ho2.
    destruct Ho1 as [[-> Hi1]|[Hn1 Ho1]], Ho2 as [[-> Hi2]|[Hn2 Ho2]]; auto.
    + injection Hi1 as <-. contradiction (Hnew i2 Ho2).
    + injection Hi2 as <-. contradiction (Hnew i1 Ho1).
    + apply (H1 i1 i2 id'); assumption.
Qed.

Lemma filter_snd_length {K A : Type} (P : A -> Prop) `{!forall a, Decision (P a)} (l : list (K * A)) :
  length (filter P l.*2) = length (filter (fun x => P x.2) l).
Proof. induction l as [|[k a] l IH]; [reflexivity|]. cbn [fmap list_fmap snd]. rewrite !filter_cons. cbn [snd]. case_decide; cbn; auto. Qed.

(** When no thread owns one, the active reservations are those of the start. *)
Lemma active_settled (tbl : gmap ReservationId Reservation.t) (ws : list thread) :
  table_ok tbl ws -> (forall i id, ~ owns ws i id) ->
  length (filter (fun r => Reservation.state r = ACTIVE) (map_to_list tbl).*2)
  = length (filter (fun r => Reservation.state r = ACTIVE) (map_to_list t0).*2).
Proof.
  intros [Hb Ho Hr H1] Hno. rewrite !filter_snd_length. apply Permutation_length, NoDup_Permutation.
  - apply NoDup_filter, NoDup_map_to_list.
  - apply NoDup_filter, NoDup_map_to_list.
  - intros [id r]. rewrite !list_elem_of_filter, !elem_of_map_to_list. cbn. split; intros [Hs E]; (split; [exact Hs|]).
    + destruct (Hr id r E) as [H|[H|[i H]]]; [exact H|congruence|contradiction (Hno i id H)].
    + apply Hb, E.
Qed.
End Table.

(** ** The pool *)
Section Pool.
Context (j : job) (g0 : Governor.t) (k n : nat).
Let m0 := budgets (Governor.rm g0).
Hypothesis Hroom : roomy j m0 k.
Hypothesis Hvalid : 0 <= ns (j_validity j).
Hypothesis Hgen : is_null (j_generation j) = false.

Record pool_ok (p : pool) : Prop := mkPoolOk {
  pool_errors : errors p = 0%nat;
  pool_threads : length (workers p) = k;
  pool_rounds : forall t, t ∈ workers p -> (rounds t <= n)%nat /\ (ph t <> Start -> rounds t <> 0%nat);
  pool_budgets : holding j m0 (tally (fun t => holds (ph t)) (workers p)) (tally (fun t => acts (ph t)) (workers p))
                   (budgets (Governor.rm (gov p)));
  pool_table : table_ok j (map_ (Governor.rm g0)) (map_ (Governor.rm (gov p))) (workers p);
  pool_ids : allocated (map_ (Governor.rm (gov p))) (next_id (Governor.rm (gov p)));
  pool_fresh : next_id (Governor.rm (gov p)) + Z.of_nat (tally pending (workers p)) < 2 ^ 64 }.

(** A turn that sets thread [i] to [t']. *)
Definition turned (i : nat) (p p' : pool) : Prop :=
  (forall i', i' <> i -> workers p' !! i' = workers p !! i') /\
  (forall t, workers p !! i = Some t -> exists t', workers p' !! i = Some t' /\ progress n t' = Nat.min (5 * n) (S (progress n t))).

Lemma turned_set (i : nat) (p : pool) (t t' : thread) (g : Governor.t) (e : nat) :
  workers p !! i = Some t -> progress n t' = Nat.min (5 * n) (S (progress n t)) ->
  turned i p (mkPool g (<[i := t']> (workers p)) e).
Proof.
  intros E Hp. split; cbn [workers].
  - intros i' Hne. apply list_lookup_insert_ne. congruence.
  - intros t1 E1. rewrite E in E1. injection E1 as <-. exists t'. split; [|exact Hp].
    apply list_lookup_insert_eq. exact (lookup_lt_Some _ _ _ E).
Qed.

Lemma rounds_set (i : nat) (t' : thread) (ws : list thread) :
  (forall t, t ∈ ws -> (rounds t <= n)%nat /\ (ph t <> Start -> rounds t <> 0%nat)) ->
  (rounds t' <= n)%nat /\ (ph t' <> Start -> rounds t' <> 0%nat) ->
  forall t, t ∈ <[i := t']> ws -> (rounds t <= n)%nat /\ (ph t <> Start -> rounds t <> 0%nat).
Proof.
  intros H Ht' t (i' & E)%list_elem_of_lookup. apply list_lookup_insert_Some in E as [(_ & <- & _)|(_ & E)]; [exact Ht'|].
  apply H, list_elem_of_lookup. eauto.
Qed.

(** A plan takes a new identifier, and answers it. *)
Lemma plan_returns (i : nat) (g : Governor.t) :
  allocated (map_ (Governor.rm g)) (next_id (Governor.rm g)) -> next_id (Governor.rm g) < 2 ^ 64 - 1 ->
  let id := mkId (next_id (Governor.rm g)) in
  exists r' g', call_of j i Start g = (Ret (mkResult true "planned" id), g') /\ map_ (Governor.rm g) !! id = None /\
    map_ (Governor.rm g') = <[id := r']> (map_ (Governor.rm g)) /\ next_id (Governor.rm g') = next_id (Governor.rm g) + 1 /\
    budgets (Governor.rm g') = budgets (Governor.rm g) /\ fits_phase j (Planned id) r' /\ Reservation.reserved_power r' = W0.
Proof.
  intros [Hn Hids] Hlt id.
  assert (Enone : map_ (Governor.rm g) !! id = None).
  { destruct (map_ (Governor.rm g) !! id) eqn:E; [|reflexivity]. specialize (Hids id (ex_intro _ _ E)). cbn in Hids. lia. }
  set (r' := Reservation.mk id gen_first (j_workload j i) invalid_id (j_class j) (j_scope j) (j_budget j) (j_power j) (j_energy j)
               (j_policy j) (j_device j) gen_null (Governor.make_envelope g) (j_now j) (j_validity j) PLANNED W0 J0 never never).
  assert (Ep : plan (j_workload j i) (j_class j) (j_scope j) (j_budget j) (j_power j) (j_energy j) (j_policy j) (j_device j)
                 (Governor.make_envelope g) (j_now j) (j_validity j) (Governor.rm g)
               = (Ret (mkResult true "planned" id),
                  mk (<[id := r']> (map_ (Governor.rm g))) (next_id (Governor.rm g) + 1) (budgets (Governor.rm g)))).
  { unfold plan. rewrite sbind_sget. unfold allocate. rewrite sbind_sput. fold id. rewrite Enone, store_bind.
    unfold u64. rewrite wrap_small by (unfold in_u; lia). reflexivity. }
  exists r'. eexists. split.
  - cbn [call_of]. unfold Governor.plan_reservation. rewrite sbind_sget, (sbind_step _ _ _ _ _ (zoom_step _ _ _ _ _ _ Ep)). reflexivity.
  - split_and!; try reflexivity; try assumption. repeat split.
Qed.

Lemma progress_step (t : thread) (p' : phase) (r' : nat) :
  (rounds t <= n)%nat -> rounds t <> 0%nat ->
  ((r' = rounds t /\ rank p' = S (rank (ph t)) /\ (rank p' <= 4)%nat) \/ (r' = pred (rounds t) /\ rank p' = 0%nat /\ rank (ph t) = 4%nat)) ->
  progress n (mkThread p' r') = Nat.min (5 * n) (S (progress n t)).
Proof. unfold progress. cbn [ph rounds]. lia. Qed.

Lemma turn_plans (i : nat) (t : thread) (p : pool) :
  pool_ok p -> workers p !! i = Some t -> rounds t <> 0%nat -> ph t = Start ->
  exists p', turn j i p = Ret p' /\ pool_ok p' /\ turned i p p'.
Proof.
  intros [He Hk Hr Hb Ht Hi Hf] E Hr0 Eph. destruct (Hr t) as [Hle _]; [apply list_elem_of_lookup; eauto|].
  assert (Hp : pending t = rounds t) by (unfold pending; rewrite Eph; reflexivity).
  rewrite (tally_at pending _ _ _ E), Hp in Hf.
  destruct (plan_returns i (gov p) Hi ltac:(lia)) as (r' & g' & Ec & Enone & Emap & Enext & Ebud & Hfit & _).
  set (id := mkId (next_id (Governor.rm (gov p)))) in *. set (t' := mkThread (Planned id) (rounds t)).
  exists (mkPool g' (<[i := t']> (workers p)) (errors p)).
  split; [|split].
  - unfold turn. rewrite E, bool_decide_false by exact Hr0. rewrite Eph, Ec. cbn [ok]. unfold advance. rewrite Eph. reflexivity.
  - assert (Hh : forall f, f Start = 0%nat -> f (Planned id) = 0%nat ->
              tally (fun t => f (ph t)) (<[i := t']> (workers p)) = tally (fun t => f (ph t)) (workers p)).
    { intros f H1 H2. rewrite (tally_set _ _ _ _ t' E), (tally_at _ _ _ _ E), Eph, H1. cbn [ph t']. rewrite H2. reflexivity. }
    split; cbn [errors workers gov].
    + exact He.
    + rewrite length_insert. exact Hk.
    + apply rounds_set; [exact Hr|]. split; [exact Hle|]. intros _. exact Hr0.
    + rewrite !Hh by reflexivity. rewrite Ebud. exact Hb.
    + rewrite Emap. apply (table_plan j _ _ (workers p) i _ t); try assumption. rewrite Eph. reflexivity.
    + rewrite Emap, Enext. destruct Hi as [Hn Hids]. split; [lia|]. intros x. rewrite lookup_insert.
      case_decide as Ex; [subst x; cbn; lia|]. intros Hx. specialize (Hids x Hx). lia.
    + rewrite Enext, (tally_set _ _ _ _ t' E). unfold pending at 2. cbn [ph rounds t']. lia.
  - apply (turned_set i p t); [exact E|]. apply progress_step; [exact Hle|exact Hr0|]. left. rewrite Eph. cbn. lia.
Qed.

Lemma turn_moves (i : nat) (t : thread) (id : ReservationId) (p : pool) :
  pool_ok p -> workers p !! i = Some t -> rounds t <> 0%nat -> phase_id (ph t) = Some id ->
  exists p', turn j i p = Ret p' /\ pool_ok p' /\ turned i p p'.
Proof.
  intros [He Hk Hr Hb Ht Hi Hf] E Hr0 Eid. destruct (Hr t) as [Hle _]; [apply list_elem_of_lookup; eauto|].
  destruct (tab_own _ _ _ _ Ht i t id E Eid) as (_ & r & Er & Hfit).
  rewrite !(tally_at _ _ _ _ E) in Hb.
  set (h := tally (fun t => holds (ph t)) (delete i (workers p))) in *. set (s := tally (fun t => acts (ph t)) (delete i (workers p))) in *.
  assert (Hh : (h < k)%nat).
  { pose proof (length_delete (workers p) i (ex_intro _ _ E)) as Hl. pose proof (lookup_lt_Some _ _ _ E).
    pose proof (tally_length (fun t => holds (ph t)) (delete i (workers p))) as Ht'.
    assert ((h <= length (delete i (workers p)))%nat) by (apply Ht'; intros [[] ?]; cbn; lia). lia. }
  assert (Hs : (s <= h)%nat) by (apply tally_le; intros [[] ?]; cbn; lia).
  destruct (call_moves j m0 k Hroom Hvalid Hgen i (ph t) h s id r (gov p) Eid Er Hfit Hh Hs Hb)
    as (res & g' & Ec & Hok & r' & Emap & Enext & Hb' & Hfit').
  set (n' := match ph t with Active _ => pred (rounds t) | _ => rounds t end). set (t' := mkThread (next_phase (ph t)) n').
  exists (mkPool g' (<[i := t']> (workers p)) (errors p)).
  assert (Et' : advance t res = t') by (unfold advance, t', n'; destruct (ph t); try discriminate; reflexivity).
  split; [|split].
  - unfold turn. rewrite E, bool_decide_false by exact Hr0. rewrite Ec, Hok, Et'. reflexivity.
  - split; cbn [errors workers gov].
    + exact He.
    + rewrite length_insert. exact Hk.
    + apply rounds_set; [exact Hr|]. unfold t', n'. cbn [rounds ph]. destruct (ph t); cbn; split; try lia; intros H; try exact Hr0; contradiction.
    + rewrite !(tally_set _ _ _ _ t' E). exact Hb'.
    + rewrite Emap. apply (table_move j _ _ (workers p) i n' t id); assumption.
    + rewrite Emap, Enext. eapply allocated_insert; eassumption.
    + rewrite (tally_at _ _ _ _ E) in Hf. rewrite Enext, (tally_set _ _ _ _ t' E).
      replace (pending t') with (pending t); [exact Hf|]. unfold pending, t', n'. cbn [ph rounds]. destruct (ph t); try discriminate; reflexivity.
  - apply (turned_set i p t); [exact E|]. apply progress_step; [exact Hle|exact Hr0|]. unfold n'.
    destruct (ph t); try discriminate; cbn; lia.
Qed.

Lemma turn_ok (i : nat) (p : pool) : pool_ok p -> exists p', turn j i p = Ret p' /\ pool_ok p' /\ turned i p p'.
Proof.
  intros Hp. destruct (workers p !! i) as [t|] eqn:E.
  2: { exists p. unfold turn. rewrite E. split; [reflexivity|]. split; [exact Hp|]. split; [reflexivity|congruence]. }
  destruct (decide (rounds t = 0%nat)) as [Hz|Hz].
  - exists p. unfold turn. rewrite E, bool_decide_true by exact Hz. split; [reflexivity|]. split; [exact Hp|]. split; [reflexivity|].
    intros t1 E1. rewrite E in E1. injection E1 as <-. exists t. split; [exact E|].
    destruct (pool_rounds p Hp t) as [_ Hph]; [apply list_elem_of_lookup; eauto|].
    unfold progress. rewrite Hz. destruct (ph t) eqn:Eph; [|contradiction Hph; congruence..]. cbn. lia.
  - destruct (phase_id (ph t)) as [id|] eqn:Eid; [apply (turn_moves i t id); assumption|].
    apply (turn_plans i t); try assumption. destruct (ph t); [reflexivity|discriminate..].
Qed.

Lemma progress_le (p : pool) (i : nat) (t : thread) : pool_ok p -> workers p !! i = Some t -> (progress n t <= 5 * n)%nat.
Proof.
  intros Hp E. destruct (pool_rounds p Hp t) as [Hle Hz]; [apply list_elem_of_lookup; eauto|].
  unfold progress. destruct (ph t); cbn [rank]; [lia|specialize (Hz ltac:(discriminate)); lia..].
Qed.

Lemma turns_ok (schedule : list nat) (p : pool) :
  pool_ok p -> exists p', turns j schedule p = Ret p' /\ pool_ok p' /\
    forall i t, workers p !! i = Some t -> exists t', workers p' !! i = Some t' /\
      progress n t' = Nat.min (5 * n) (progress n t + count_occ Nat.eq_dec schedule i).
Proof.
  revert p. induction schedule as [|i l IH]; intros p Hp; cbn [turns].
  - exists p. split; [reflexivity|]. split; [exact Hp|]. intros i t E. exists t. split; [exact E|]. pose proof (progress_le p i t Hp E). cbn [count_occ]. lia.
  - destruct (turn_ok i p Hp) as (p1 & E1 & Hp1 & Hoth & Hsame). rewrite E1. cbn [obind].
    destruct (IH p1 Hp1) as (p' & E' & Hp' & Hall). exists p'. split; [exact E'|]. split; [exact Hp'|].
    intros i' t E. cbn [count_occ]. destruct (Nat.eq_dec i i') as [<-|Hne].
    + destruct (Hsame t E) as (t1 & Et1 & Hpr). destruct (Hall i t1 Et1) as (t' & Et' & Hpr'). exists t'. split; [exact Et'|]. lia.
    + rewrite <- (Hoth i' ltac:(congruence)) in E. exact (Hall i' t E).
Qed.

Hypothesis Hids : allocated (map_ (Governor.rm g0)) (next_id (Governor.rm g0)).
Hypothesis Hfresh : next_id (Governor.rm g0) + Z.of_nat (k * n) < 2 ^ 64.

Lemma start_ok : pool_ok (start k n g0).
Proof.
  assert (Hw : forall f : thread -> nat, tally f (replicate k (mkThread Start n)) = (k * f (mkThread Start n))%nat).
  { intros f. rewrite (tally_const f (f (mkThread Start n))); [rewrite length_replicate; reflexivity|].
    intros t Ht. apply elem_of_replicate in Ht as [-> _]. reflexivity. }
  assert (Hno : forall i id, ~ owns (replicate k (mkThread Start n)) i id).
  { intros i id (t & E & Eid). apply lookup_replicate in E as [-> _]. discriminate. }
  split; cbn [errors workers gov start].
  - reflexivity.
  - apply length_replicate.
  - intros t Ht. apply elem_of_replicate in Ht as [-> _]. cbn. split; [lia|congruence].
  - rewrite !Hw. cbn [holds acts ph]. rewrite !Nat.mul_0_r. unfold holding. change (Z.of_nat 0) with 0. rewrite !Z.mul_0_r.
    split; [apply (room_gridded _ _ _ Hroom)|]. rewrite shifted_zero. reflexivity.
  - split.
    + auto.
    + intros i t id E Eid. contradiction (Hno i id). exists t. auto.
    + auto.
    + intros i i' id H. contradiction (Hno i id H).
  - exact Hids.
  - rewrite Hw. cbn. exact Hfresh.
Qed.
End Pool.

(** ** The books at every moment *)

(** The threads that hold reserved power, and those that also use it. *)
Definition holders (p : pool) : Z := Z.of_nat (tally (fun t => holds (ph t)) (workers p)).
Definition active_threads (p : pool) : Z := Z.of_nat (tally (fun t => acts (ph t)) (workers p)).
(** The power a budget has from [count] reservations of the threads. *)
Definition share (j : job) (m0 : BudgetManager.t) (b : BudgetId) (count : Z) : Z :=
  if decide (b ∈ BudgetManager.chain m0 (j_budget j)) then count * val (value (j_power j)) else 0.

Lemma holding_exact (j : job) (m0 m : BudgetManager.t) (k h s : nat) (b : BudgetId) :
  roomy j m0 k -> holding j m0 h s m ->
  val (value (BudgetManager.reserved m b)) = val (value (BudgetManager.reserved m0 b)) + share j m0 b (Z.of_nat h) /\
  val (value (BudgetManager.used m b)) = val (value (BudgetManager.used m0 b)) + share j m0 b (Z.of_nat s).
Proof.
  intros Hroom [Hg Habs]. pose proof (f_equal (lookup b) Habs) as E. rewrite shifted_lookup, !Refinement.abs_lookup in E.
  unfold BudgetManager.reserved, BudgetManager.used, share. destruct (room_gridded _ _ _ Hroom) as [Hg0 _].
  pose proof (room_chain _ _ _ Hroom b) as Hc. rewrite Refinement.abs_lookup in Hc.
  destruct (m !! b) as [st|] eqn:E1, (m0 !! b) as [st0|] eqn:E0; cbn in E; try discriminate.
  - injection E as E. destruct (proj1 Hg b st E1) as (_ & Hr & Hu), (Hg0 b st0 E0) as (_ & Hr0 & Hu0).
    apply (f_equal (fun a => (Ledger.held a, Ledger.spent a))) in E.
    destruct (Refinement.grid_steps _ Hr) as (_ & Vr & _), (Refinement.grid_steps _ Hu) as (_ & Vu & _),
      (Refinement.grid_steps _ Hr0) as (_ & Vr0 & _), (Refinement.grid_steps _ Hu0) as (_ & Vu0 & _),
      (Refinement.grid_steps _ (room_grid _ _ _ Hroom)) as (_ & Vw & _).
    cbn [default from_option id fmap option_fmap option_map]. rewrite Vr, Vu, Vr0, Vu0, Vw.
    case_decide as Hd; cbn in E; injection E as -> ->; [rewrite !decide_True by exact Hd|rewrite !decide_False by exact Hd]; split; ring.
  - cbn. case_decide as Hd; [destruct (Hc Hd) as (a & Ha & _); discriminate|]. split; reflexivity.
Qed.

(** C6: threads that share a governor never interfere, when there is room for them.  [k]
    threads each run [n] life cycles (plan, validate, reserve, activate, release) for the
    same power on the same budget, every call at the same time, interleaved by any schedule.
    The amounts booked, the maxima and the power asked for are on the grid (multiples of
    [2^-28] W below [2^24] W); the budgets form a forest and are booked within their maxima;
    the budget is installed, authoritative, and under the generation the threads give, which
    is not null; every budget of its chain is installed, with room for [k] reservations
    counted twice; the validity is not negative; and the allocator of reservations is past
    the identifiers in use, with [k * n] more before it wraps.  Then no call is refused and
    none throws; a thread that has had five turns for each of its rounds is done; at every
    moment the reserved and used power of each budget is exactly what it was, plus the power
    of the threads that hold it; and when the threads are done the books and the active
    reservations are those of the start. *)
Theorem threads_never_interfere (j : job) (g : Governor.t) (k n : nat) (schedule : list nat) :
  roomy j (budgets (Governor.rm g)) k -> 0 <= ns (j_validity j) -> is_null (j_generation j) = false ->
  allocated (map_ (Governor.rm g)) (next_id (Governor.rm g)) -> next_id (Governor.rm g) + Z.of_nat (k * n) < 2 ^ 64 ->
  exists p, turns j schedule (start k n g) = Ret p /\ errors p = 0%nat /\
    (forall i, (i < k)%nat -> (5 * n <= count_occ Nat.eq_dec schedule i)%nat -> workers p !! i = Some (mkThread Start 0)) /\
    (forall b, let m0 := budgets (Governor.rm g) in let m := budgets (Governor.rm (gov p)) in
       val (value (BudgetManager.reserved m b)) = val (value (BudgetManager.reserved m0 b)) + share j m0 b (holders p) /\
       val (value (BudgetManager.used m b)) = val (value (BudgetManager.used m0 b)) + share j m0 b (active_threads p)) /\
    ((forall t, t ∈ workers p -> t = mkThread Start 0) ->
       holders p = 0 /\ active_threads p = 0 /\ Governor.active_reservations (gov p) = Governor.active_reservations g).
Proof.
  intros Hroom Hv Hgen Hids Hfresh.
  destruct (turns_ok j g k n Hroom Hv Hgen schedule _ (start_ok j g k n Hroom Hids Hfresh)) as (p & E & Hp & Hall).
  exists p. split; [exact E|]. split; [apply (pool_errors _ _ _ _ _ Hp)|]. split; [|split].
  - intros i Hi Hc. assert (E0 : workers (start k n g) !! i = Some (mkThread Start n)) by (apply lookup_replicate; auto).
    destruct (Hall i _ E0) as ([p' r'] & Et & Hpr). rewrite Et. unfold progress in Hpr. cbn [ph rounds rank] in Hpr.
    destruct (pool_rounds _ _ _ _ _ Hp (mkThread p' r')) as [Hle Hz]; [apply list_elem_of_lookup; eauto|].
    cbn [ph rounds] in *. assert (r' = 0%nat) as -> by (destruct p'; cbn [rank] in Hpr; lia).
    destruct p'; [reflexivity|contradiction Hz; congruence..].
  - intros b m0 m. apply (holding_exact j m0 m k); [exact Hroom|exact (pool_budgets _ _ _ _ _ Hp)].
  - intros Hdone. unfold holders, active_threads.
    rewrite (tally_const (fun t => holds (ph t)) 0) by (intros t ->%Hdone; reflexivity).
    rewrite (tally_const (fun t => acts (ph t)) 0) by (intros t ->%Hdone; reflexivity).
    rewrite Nat.mul_0_r. split; [reflexivity|]. split; [reflexivity|].
    apply (active_settled j (map_ (Governor.rm g)) _ (workers p)); [exact (pool_table _ _ _ _ _ Hp)|].
    intros i id (t & Et & Eid). rewrite (Hdone t) in Eid by (apply list_elem_of_lookup; eauto). discriminate.
Qed.

(** The concurrency test: eight threads of 20 W under budgets of 402 W and 450 W. *)
Definition test_governor : Governor.t := (init_gov program_governor).2.
Definition test_job : job :=
  mkJob (fun i => mkId (100 + Z.of_nat i)) THROUGHPUT (mkId 2) (mkId 2) (mkQ 20) J0 gen_first gen_first gen_first
    (mkTime 1000000000) (mkDuration 3000000000).

Lemma test_roomy : roomy test_job (budgets (Governor.rm test_governor)) 8.
Proof.
  split.
  - apply griddedb; vm_compute; reflexivity.
  - apply gridb_spec. vm_compute. reflexivity.
  - eexists. split; [vm_compute; reflexivity|]. split; reflexivity.
  - assert (Hc : BudgetManager.chain (budgets (Governor.rm test_governor)) (j_budget test_job) = [mkId 2; mkId 1]) by (vm_compute; reflexivity).
    rewrite Hc. intros x Hx. rewrite !elem_of_cons, elem_of_nil in Hx.
    destruct Hx as [->|[->|[]]]; (eexists; split; [vm_compute; reflexivity|]); vm_compute; discriminate.
Qed.

Lemma test_allocated : allocated (map_ (Governor.rm test_governor)) (next_id (Governor.rm test_governor)).
Proof. split; [vm_compute; discriminate|]. intros id [r E]. vm_compute in E. discriminate. Qed.

Definition round_robin : list nat := concat (replicate 1000 (seq 0 8)).

Lemma threads_never_interfere_witness :
  exists p, turns test_job round_robin (start 8 200 test_governor) = Ret p /\ errors p = 0%nat /\
    (forall i, (i < 8)%nat -> (5 * 200 <= count_occ Nat.eq_dec round_robin i)%nat -> workers p !! i = Some (mkThread Start 0)) /\
    (forall b, let m0 := budgets (Governor.rm test_governor) in let m := budgets (Governor.rm (gov p)) in
       val (value (BudgetManager.reserved m b)) = val (value (BudgetManager.reserved m0 b)) + share test_job m0 b (holders p) /\
       val (value (BudgetManager.used m b)) = val (value (BudgetManager.used m0 b)) + share test_job m0 b (active_threads p)) /\
    ((forall t, t ∈ workers p -> t = mkThread Start 0) ->
       holders p = 0 /\ active_threads p = 0 /\ Governor.active_reservations (gov p) = Governor.active_reservations test_governor).
Proof.
  apply (threads_never_interfere test_job test_governor 8 200 round_robin).
  - exact test_roomy.
  - discriminate.
  - reflexivity.
  - exact test_allocated.
  - vm_compute. reflexivity.
Defined.

(** Twice the power is needed: eleven threads of 20 W ask for 220 of the 402 W; when all
    have reserved, the tenth and the eleventh are refused their activation. *)
Example crowded_threads_refused :
  match turns test_job (concat (replicate 4 (seq 0 11))) (start 11 1 test_governor) with
  | Ret p => errors p = 2%nat
  | _ => False
  end.
Proof. vm_compute. reflexivity. Qed.
