(* ===== verification/TestFramework.v ===== *)
(** * The framework of the tests, and the consumer of the installed package (tests/)

    test_framework.hpp registers the tests, evaluates their checks, runs those that a filter
    selects and turns their results into the status of the process; test_main.cpp is its
    [main], and downstream/main.cpp the program that checks the installed package.  What a
    test does is a parameter: a step on the state of the program that returns or throws.  A
    test that does not return, or ends the process, is not modelled. *)
From S2P Require Import Prelude Rounding Binary64 Util Units Ids Clock Scan Governor.
Local Open Scope Z_scope.
#[local] Set Warnings "-inexact-float".

(** What leaves a function by an exception: one derived from std::exception, with its
    [what()], or another. *)
Inductive thrown := std_exception (what : string) | other_exception.

(** ** The checks: whether they throw, and what *)
Definition fail (msg : string) : option thrown := Some (std_exception msg).

Definition at_line (file : string) (line : Z) : string := " at " +:+ file +:+ ":" +:+ to_string_int line.

Definition check (cond : bool) (text file : string) (line : Z) : option thrown :=
  if negb cond then fail ("CHECK failed: " +:+ text +:+ at_line file line) else None.

Definition check_eq {A : Type} (eqb : A -> A -> bool) (a b : A) (ta tb file : string) (line : Z) : option thrown :=
  if negb (eqb a b) then fail ("CHECK_EQ failed: " +:+ ta +:+ " == " +:+ tb +:+ at_line file line) else None.

Definition check_near (a b eps : double) (ta tb file : string) (line : Z) : option thrown :=
  if negb ((b - eps <=? a)%float && (a <=? b + eps)%float)
  then fail ("CHECK_NEAR failed: " +:+ ta +:+ " ~ " +:+ tb +:+ at_line file line) else None.

Definition check_throws (result : option thrown) (text : string) : option thrown :=
  match result with Some _ => None | None => fail ("expected exception: " +:+ text) end.

(** ** The seeds *)
Definition test_seed : Z := 0xC0FFEE.

(** The generator of the standard library is the argument. *)
Definition make_rng {R : Type} (mt19937 : Z -> R) (salt : Z) : R := mt19937 (u32 (test_seed + u32 salt)).

(** ** Registering and running *)

(** [name.find(filter) != npos] *)
Fixpoint contains (filter name : string) : bool :=
  String.prefix filter name || match name with EmptyString => false | String _ rest => contains filter rest end.

(** An [int] that is incremented. *)
Definition increment (n : Z) : outcome Z := if in_i32b (n + 1) then Ret (n + 1) else Undefined.

Section Runner.
Context {World : Type}.

Record TestCase := mkTestCase { name : string; fn : World -> option thrown * World }.

Definition registrar (n : string) (f : World -> option thrown * World) (registry : list TestCase) : list TestCase :=
  registry ++ [mkTestCase n f].

Definition selected (filter : option string) (tc : TestCase) : bool :=
  match filter with Some f => contains f (name tc) | None => true end.

Record Progress := mkProgress { passed : Z; failed : Z; lines : list string; world : World }.

(** One turn of the loop. *)
Definition run_one (filter : option string) (tc : TestCase) (p : Progress) : outcome Progress :=
  if negb (selected filter tc) then Ret p
  else
    let started := lines p ++ ["[run] " +:+ name tc] in
    match fn tc (world p) with
    | (None, w) =>
        let! n := increment (passed p) in
        Ret (mkProgress n (failed p) (started ++ ["[ ok ] " +:+ name tc]) w)
    | (Some (std_exception what), w) =>
        let! n := increment (failed p) in
        Ret (mkProgress (passed p) n (started ++ ["[FAIL] " +:+ name tc +:+ " : " +:+ what]) w)
    | (Some other_exception, w) =>
        let! n := increment (failed p) in
        Ret (mkProgress (passed p) n (started ++ ["[FAIL] " +:+ name tc +:+ " : unknown exception"]) w)
    end.

Fixpoint run_loop (filter : option string) (registry : list TestCase) (p : Progress) : outcome Progress :=
  match registry with
  | [] => Ret p
  | tc :: rest => let! p := run_one filter tc p in run_loop filter rest p
  end.

(** The status of the process, and what is printed. *)
Definition run_all (filter : option string) (registry : list TestCase) (w : World) : outcome (Z * Progress) :=
  let! p := run_loop filter registry (mkProgress 0 0 ["Power Governor test runner. fixed seed = 0x00C0FFEE"] w) in
  let total := "passed=" +:+ to_string_int (passed p) +:+ " failed=" +:+ to_string_int (failed p)
    +:+ " total=" +:+ to_string_int (Z.of_nat (length registry)) in
  Ret (if failed p =? 0 then 0 else 1, mkProgress (passed p) (failed p) (lines p ++ [total]) (world p)).

(** [main], over the arguments after the name of the program. *)
Definition test_main (argv : list string) (registry : list TestCase) (w : World) : outcome (Z * Progress) :=
  run_all (head argv) registry w.

(** ** What the status means *)

(** The reference: the results of the selected tests, each on what the others left. *)
Fixpoint results (filter : option string) (registry : list TestCase) (w : World) : list (option thrown) :=
  match registry with
  | [] => []
  | tc :: rest => if selected filter tc then (fn tc w).1 :: results filter rest (fn tc w).2 else results filter rest w
  end.

Definition is_failure (r : option thrown) : bool := match r with Some _ => true | None => false end.
Definition failures (l : list (option thrown)) : Z := Z.of_nat (length (List.filter is_failure l)).

Lemma run_one_counts (filter : option string) (tc : TestCase) (p : Progress) :
  0 <= passed p < 2 ^ 31 - 1 -> 0 <= failed p < 2 ^ 31 - 1 ->
  exists p', run_one filter tc p = Ret p' /\
    (passed p', failed p', world p') =
      (if selected filter tc then
         let '(r, w) := fn tc (world p) in
         (if is_failure r then passed p else passed p + 1, if is_failure r then failed p + 1 else failed p, w)
       else (passed p, failed p, world p)).
Proof.
  intros Hp Hf. unfold run_one, increment. destruct (selected filter tc); cbn [negb]; [|eexists; split; reflexivity].
  assert (E : forall n, 0 <= n < 2 ^ 31 - 1 -> in_i32b (n + 1) = true) by (intros n Hn; unfold in_i32b; lia).
  destruct (fn tc (world p)) as [[[what|]|] w]; rewrite E by assumption; eexists; split; reflexivity.
Qed.

Lemma run_loop_counts (filter : option string) (registry : list TestCase) : forall p,
  0 <= passed p -> 0 <= failed p -> passed p + failed p + Z.of_nat (length registry) < 2 ^ 31 ->
  exists p', run_loop filter registry p = Ret p' /\ failed p' = failed p + failures (results filter registry (world p)) /\
    passed p' + failed p' = passed p + failed p + Z.of_nat (length (results filter registry (world p))).
Proof.
  induction registry as [|tc rest IH]; intros p Hp Hf Hn; cbn [run_loop results length] in *.
  { exists p. split; [reflexivity|]. unfold failures. cbn. lia. }
  destruct (run_one_counts filter tc p) as (p1 & E & Ec); [lia|lia|]. rewrite E. cbn [obind].
  destruct (selected filter tc).
  - destruct (fn tc (world p)) as [r w]. injection Ec as E1 E2 E3. cbn [fst snd] in *.
    destruct (IH p1) as (p' & E' & H1 & H2); [destruct (is_failure r); lia..|]. exists p'. split; [exact E'|].
    rewrite E3 in *. unfold failures in *. cbn [List.filter length]. destruct (is_failure r); cbn [length]; lia.
  - injection Ec as E1 E2 E3. destruct (IH p1) as (p' & E' & H); [lia..|]. exists p'. split; [exact E'|].
    rewrite E3 in H. lia.
Qed.

(** The run ends, with status 0 exactly when no selected test throws, and it counts them. *)
Lemma run_all_verdict (filter : option string) (registry : list TestCase) (w : World) :
  Z.of_nat (length registry) < 2 ^ 31 ->
  exists code p, run_all filter registry w = Ret (code, p) /\
    (code = 0 <-> Forall (fun r => r = None) (results filter registry w)) /\
    failed p = failures (results filter registry w) /\ passed p + failed p = Z.of_nat (length (results filter registry w)).
Proof.
  intros Hn. unfold run_all.
  destruct (run_loop_counts filter registry (mkProgress 0 0 ["Power Governor test runner. fixed seed = 0x00C0FFEE"] w))
    as (p & E & H1 & H2); [cbn; lia..|]. rewrite E. cbn [obind passed failed world] in *. rewrite Z.add_0_l in *.
  eexists _, _. split; [reflexivity|]. cbn [passed failed]. split; [|split; assumption].
  rewrite H1. clear. unfold failures. induction (results filter registry w) as [|[r|] l IH]; cbn; [split; auto|split|].
  - discriminate.
  - intros Hl. inversion Hl. discriminate.
  - rewrite IH, Forall_cons. tauto.
Qed.
End Runner.
Arguments TestCase World : clear implicits.
Arguments Progress World : clear implicits.

(** A filter that selects no test is a success: here of two tests that fail. *)
Definition two_failing : list (TestCase unit) :=
  registrar "decision_allow" (fun w => (check false "a" "f.cpp" 1, w)) (registrar "uuid_roundtrip" (fun w => (Some other_exception, w)) []).

Lemma no_test_selected :
  match test_main ["decision_alow"] two_failing () with
  | Ret (code, p) => code = 0 /\ lines p = ["Power Governor test runner. fixed seed = 0x00C0FFEE"; "passed=0 failed=0 total=2"]
  | _ => False
  end.
Proof. vm_compute. split; reflexivity. Qed.

Example two_fail :
  match test_main [] two_failing () with
  | Ret (code, p) => code = 1 /\ last (lines p) = Some "passed=0 failed=2 total=2" /\
      lines p !! 4%nat = Some "[FAIL] decision_allow : CHECK failed: a at f.cpp:1"
  | _ => False
  end.
Proof. vm_compute. repeat split; reflexivity. Qed.

(** Seeds of salts that are equal modulo [2^32] are equal. *)
Lemma salt_truncated {R : Type} (g : Z -> R) (salt : Z) : make_rng g (salt + 2 ^ 32) = make_rng g salt.
Proof.
  assert (E : u32 (salt + 2 ^ 32) = u32 salt) by (exact (Z_mod_plus_full salt 1 (2 ^ 32))).
  unfold make_rng. rewrite E. reflexivity.
Qed.

(** What is not a number is not near anything. *)
Lemma nan_not_near (b eps : double) (ta tb file : string) (line : Z) : exists e, check_near nan b eps ta tb file line = Some e.
Proof.
  unfold check_near. rewrite FloatAxioms.leb_spec. change (Prim2SF nan) with S754_nan. unfold SFleb, SFcompare.
  destruct (Prim2SF (b - eps)); eexists; reflexivity.
Qed.

(** ** The consumer of the installed package *)

(** The governor it constructs, and what it prints. *)
Definition downstream_main : outcome (Governor.t * string) :=
  let g := Governor.make (mkConfig invalid_id (mkId 1) (mkId 1) gen_first) 1 1 1 1 in
  let! w := quantity (Tag := WattsTag) 250 in
  Ret (g, "downstream consumer OK: " +:+ q_to_string w).

Example downstream_prints : (let! r := downstream_main in Ret r.2) = Ret "downstream consumer OK: 250.000000W".
Proof. vm_compute. reflexivity. Qed.
