(* ===== verification/Rtx5090.v ===== *)
(** * The validation on the hardware (examples/rtx5090.cpp)

    [main]: a bounded workload on the device between two samples, and a governor that
    decides on what was sampled, under its own limits, under a synthetic limit of 60 W
    and under its own again.  What the CUDA runtime answers to each probe, the NVML
    library with its driver, and the times read from the system clock are arguments. *)
From S2P Require Import Prelude Binary64 Util Units Ids Clock Budget Authority WorkloadClass Policy Energy.
From S2P Require Import Reservation Index Backend CudaBackend DecisionEngine Governor Coordinator Cli.
Local Open Scope Z_scope.
#[local] Set Warnings "-inexact-float".

Module Rtx5090.
(** What the program prints when it was built without CUDA, with its exit code. *)
Definition main_without_cuda : Z * list string :=
  (1, ["Power Governor: CUDA backend was not built (rebuild with -DPG_ENABLE_CUDA=ON).";
       "This example exercises the RTX 5090 hardware path and is unavailable here."]).

Definition in_mib (bytes : Z) : string := to_string_int (bytes / (1024 * 1024)).
Definition device_lines (info : CudaProbeResult) : list string :=
  ["device: " +:+ pr_name info +:+ " compute_cap=" +:+ to_string_int (pr_compute_major info) +:+ "."
     +:+ to_string_int (pr_compute_minor info) +:+ " devices=" +:+ to_string_int (pr_device_count info);
   "memory total=" +:+ in_mib (pr_total_bytes info) +:+ " MiB free=" +:+ in_mib (pr_free_bytes info) +:+ " MiB uuid="
     +:+ to_hex (pr_uuid_high info) +:+ to_hex (pr_uuid_low info)].

(** A reading, or zero. *)
Definition reading_or_zero {Tag : Set} (q : option (Quantity Tag)) : double := match q with Some q => value q | None => 0%float end.
Definition baseline_line (base : BackendSample) : string :=
  "baseline: " +:+ printf_f 1 (reading_or_zero (smp_power base)) +:+ " W, " +:+ printf_f 1 (reading_or_zero (smp_temperature base))
    +:+ " C, utilization " +:+ printf_f 2 (reading_or_zero (smp_utilization base)) +:+ " (REAL)".

Definition elements : Z := 8 * 1024 * 1024.
Definition probe_line (probe : CudaProbeResult) : string :=
  "probe: n=" +:+ to_string_int elements +:+ " verified=" +:+ (if pr_verified probe then "yes" else "no") +:+ " elapsed="
    +:+ printf_f 3 (pr_elapsed_seconds probe * 1000)%float +:+ " ms (REAL CUDA)".

(** ** The governor's part *)
Section Clock.
(** [clock k]: the time at the k-th place of the program that reads the clock. *)
Context (clock : nat -> Timestamp).

Definition caps_of_run (k : nat) (device : double) (x : PolicyGeneration) : M Governor.t bool :=
  install_caps_at (clock k) (Some (mkQ 5000)) (Some (mkQ 450)) (Some (mkQ device)) x.
Definition ask_250 (k : nat) (cls : WorkloadPowerClass) : M Governor.t Decision.t :=
  Governor.decide_for (mkId 2) (mkId 1) cls (mkQ 250) J0 1 (clock k).

Definition class_line (k : nat) (cls : WorkloadPowerClass) : M Governor.t string :=
  do! d <- ask_250 k cls;
  sret ("class " +:+ class_to_string cls +:+ " requested 250 W -> " +:+ verdict_to_string (Decision.verdict d) +:+ " (evidence="
          +:+ provenance_to_string (ex_evidence (Decision.explanation d)) +:+ ")").

Definition limited (v : DecisionVerdict) : bool :=
  bool_decide (v = ALLOW_WITH_LIMIT) || bool_decide (v = THROTTLE) || bool_decide (v = DEFER).
Definition constrained_lines (d : Decision.t) : list string :=
  ["SYNTHETIC constrained budget (60 W): requested 250 W -> " +:+ verdict_to_string (Decision.verdict d) +:+ " limit="
     +:+ match Decision.recommended_limit d with Some w => q_to_string w | None => "n/a" end]
  ++ if limited (Decision.verdict d) then [] else ["UNEXPECTED: constrained budget did not limit/throttle/defer"].

(** From the planned reservation to the last decision. *)
Definition constrain_and_restore (id : ReservationId) : M Governor.t (list string) :=
  do! _ <- Governor.reserve_reservation id gen_first (clock 7);
  do! _ <- caps_of_run 8 60 (mkGen 2);
  do! con <- ask_250 9 THROUGHPUT;
  do! _ <- caps_of_run 10 402 (mkGen 3);
  do! _ <- smodify Governor.reset_hysteresis;
  do! again <- ask_250 11 THROUGHPUT;
  do! _ <- Governor.release_reservation id gen_first (clock 12);
  sret (["reservation " +:+ to_string_int (id_raw id) +:+ " reserved 100 W"] ++ constrained_lines con
        ++ ["restored unconstrained policy -> " +:+ verdict_to_string (Decision.verdict again)]).

(** The governor's run on the sample taken after the workload; [after] is the last
    probe. *)
Definition govern {B : Type} `{ControlBackend B} (backend : B) (post : BackendSample) (after : outcome CudaProbeResult)
  : M Governor.t (Z * list string) :=
  do! _ <- caps_of_run 0 402 gen_first;
  do! _ <- Governor.install_budget (clock 1) (plain_budget 1 1 None (mkQ 450) "node");
  do! _ <- Governor.install_budget (clock 2) (plain_budget 2 2 (Some (mkId 1)) (mkQ 402) "acc");
  do! _ <- Governor.observe_backend backend post (clock 3);
  do! critical <- class_line 4 LATENCY_CRITICAL;
  do! throughput <- class_line 5 THROUGHPUT;
  do! validity <- slift (duration_seconds 10);
  do! plan <- Governor.plan_reservation (mkId 40) THROUGHPUT (mkId 2) (mkId 2) (mkQ 100) J0 gen_first gen_first (clock 6) validity;
  if negb (ReservationManager.ok plan)
  then sret (1, [critical; throughput; "reservation plan failed: " +:+ ReservationManager.reason plan])
  else
    do! lines <- constrain_and_restore (ReservationManager.res_id plan);
    do! after <- slift after;
    do! g <- sget;
    do! consistent <- slift (Governor.accounting_consistent (clock 13) g);
    sret (0, [critical; throughput] ++ lines ++
             ["after release: free mem=" +:+ in_mib (pr_free_bytes after) +:+ " MiB (bounded, justifiable delta only)";
              "accounting consistent: " +:+ (if consistent then "yes" else "no")]).
End Clock.

(** ** [main] *)

(** What the CUDA runtime answers to the four probes of the program, with what becomes
    of the transfers of each. *)
Record Hardware {F : Type} := mkHardware {
  hw_constructor : Probe.CudaRuntime * Probe.Transfers F;
  hw_info : Probe.CudaRuntime * Probe.Transfers F;
  hw_workload : Probe.CudaRuntime * Probe.Transfers F;
  hw_after : Probe.CudaRuntime * Probe.Transfers F }.
Arguments Hardware : clear implicits.
Arguments mkHardware {F}.

Section Main.
Context {F : Type} (host_axpy dev_axpy : F -> F -> F) (x_at : Z -> F) (y_at : F) (close : F -> F -> bool).
Context {N D : Type} (is_null : D -> bool) (b : NvidiaCudaBackend.NvmlBinding N D).
Context (hw : Hardware F) (schedule : Z -> list (Z * Z)) (clock : nat -> Timestamp).

Definition probe (rt : Probe.CudaRuntime * Probe.Transfers F) (n : Z) : outcome (bool * CudaProbeResult) :=
  Probe.pg_rtx_probe host_axpy dev_axpy x_at y_at close rt.1 rt.2 schedule n no_probe.

(** The exit code and the lines, with the driver that is left. *)
Definition main (driver : N) : outcome (Z * list string * N) :=
  let! made := probe (hw_constructor hw) 1 in
  let backend := NvidiaCudaBackend.make b made driver in
  let! info := (let! r := probe (hw_info hw) 1 in Ret r.2) in
  let warning := if NvidiaCudaBackend.is_rtx5090 backend then []
                 else ["WARNING: expected RTX 5090 (sm_120); got " +:+ pr_name info] in
  let! base := NvidiaCudaBackend.sample is_null b backend in
  let! ran := Probe.run_probe host_axpy dev_axpy x_at y_at close (hw_workload hw).1 (hw_workload hw).2 schedule elements in
  let! post := NvidiaCudaBackend.sample is_null b base.2 in
  let control := NvidiaCudaBackend.control is_null b in
  let! r := (govern clock (H := control) post.2 post.1 (let! r := probe (hw_after hw) 1 in Ret r.2) program_governor).1 in
  Ret (r.1, device_lines info ++ warning ++ [baseline_line base.1; probe_line ran;
              "post-workload power: " +:+ printf_f 1 (reading_or_zero (smp_power post.1)) +:+ " W (REAL)"] ++ r.2,
       NvidiaCudaBackend.destroy b post.2).
End Main.

(** ** Runs of the program *)

(** A runtime that has a device and memory, and fails no transfer, verifies the workload
    when every element is within the tolerance, whatever the order of the threads. *)
Lemma run_probe_verified {F : Type} (host dev : F -> F -> F) (x_at : Z -> F) (y_at : F) (close : F -> F -> bool)
    (rt : Probe.CudaRuntime) (schedule : Z -> list (Z * Z)) (n : Z) :
  (forall blocks, schedule blocks ≡ₚ Probe.grid blocks) -> 0 < n -> n + 255 < 2 ^ 31 ->
  (forall i, 0 <= i < n -> close (dev (x_at i) y_at) (host (x_at i) y_at) = true) -> Probe.usable rt = true ->
  exists count p, Probe.rt_device_count rt = Some count /\ Probe.rt_properties rt = Some p /\
  Probe.run_probe host dev x_at y_at close rt Probe.delivered schedule n =
  Ret (Probe.set_result (Probe.rt_elapsed_ms rt / 1000)%float true (Probe.set_properties p rt (Probe.set_identity count no_probe))).
Proof.
  intros Hs Hn Hmax Hclose Hu.
  destruct (Probe.probe_usable host dev x_at y_at close rt Probe.delivered schedule n no_probe Hs Hn Hu Hmax)
    as (count & p & Hc & Hp & E).
  exists count, p. split; [exact Hc|]. split; [exact Hp|]. unfold Probe.run_probe. rewrite E. cbn [obind snd]. do 2 f_equal.
  apply forallb_forall. intros i Hi. apply Hclose, Probe.range_elem, list_elem_of_In, Hi.
Qed.

Definition sample_name : string := "NVIDIA GeForce RTX 5090".
Definition sample_prop : Probe.CudaProp := Probe.mkProp 12 0 sample_name (Probe.range 16).
Definition sample_runtime (ms : double) : Probe.CudaRuntime :=
  Probe.mkRuntime (Some 1) (Some sample_prop) (30000 * 2 ^ 20) (32607 * 2 ^ 20) true true ms.
Definition sample_hardware : Hardware Z :=
  let answers ms := (sample_runtime ms, Probe.delivered) in
  mkHardware (answers 0.5%float) (answers 0.5%float) (answers 1.25%float) (answers 0.5%float).
(** A millisecond goes by between two readings of the clock. *)
Definition ticking (k : nat) : Timestamp := mkTime (1000000000 + Z.of_nat k * 1000000).

(** A run over the library of [CudaBackend], or over none. *)
Definition sample_main (library : NvidiaCudaBackend.NvmlBinding Z unit) : outcome (Z * list string * Z) :=
  main (fun x y => 3 * x + 2 * y) (fun x y => 3 * x + 2 * y) (fun i => i mod 97) 1 Z.eqb (fun _ => false) library sample_hardware
    (fun blocks => reverse (Probe.grid blocks)) ticking 575000.
Definition no_library : NvidiaCudaBackend.NvmlBinding Z unit := NvidiaCudaBackend.load None.

Lemma sample_workload :
  Probe.run_probe (fun x y => 3 * x + 2 * y) (fun x y => 3 * x + 2 * y) (fun i => i mod 97) 1 Z.eqb (sample_runtime 1.25) Probe.delivered
    (fun blocks => reverse (Probe.grid blocks)) elements =
  Ret (Probe.set_result (1.25 / 1000)%float true
         (Probe.set_properties sample_prop (sample_runtime 1.25) (Probe.set_identity 1 no_probe))).
Proof.
  destruct (run_probe_verified (fun x y => 3 * x + 2 * y) (fun x y => 3 * x + 2 * y) (fun i => i mod 97) 1 Z.eqb (sample_runtime 1.25)
              (fun blocks => reverse (Probe.grid blocks)) elements) as (count & p & Hc & Hp & E).
  - intros blocks. apply reverse_Permutation.
  - reflexivity.
  - reflexivity.
  - intros i _. apply Z.eqb_refl.
  - reflexivity.
  - injection Hc as <-. injection Hp as <-. exact E.
Qed.
Ltac run_sample_main :=
  unfold sample_main, main; change (hw_workload sample_hardware) with (sample_runtime 1.25, @Probe.delivered Z); cbn [fst snd];
  rewrite sample_workload; vm_compute; reflexivity.

Definition sample_device_lines : list string :=
  ["device: NVIDIA GeForce RTX 5090 compute_cap=12.0 devices=1";
   "memory total=32607 MiB free=30000 MiB uuid=08090a0b0c0d0e0f0001020304050607"].

Example rtx5090_prints :
  sample_main (NvidiaCudaBackend.sample_library 15) =
  Ret (0, sample_device_lines ++
    ["baseline: 92.5 W, 37.0 C, utilization 1.00 (REAL)";
     "probe: n=8388608 verified=yes elapsed=1.250 ms (REAL CUDA)"; "post-workload power: 92.5 W (REAL)";
     "class LATENCY_CRITICAL requested 250 W -> ALLOW (evidence=MEASURED)";
     "class THROUGHPUT requested 250 W -> ALLOW (evidence=MEASURED)"; "reservation 1 reserved 100 W";
     "SYNTHETIC constrained budget (60 W): requested 250 W -> ALLOW_WITH_LIMIT limit=60.000000W";
     "restored unconstrained policy -> ALLOW";
     "after release: free mem=30000 MiB (bounded, justifiable delta only)"; "accounting consistent: yes"]%string, 575000).
Proof. run_sample_main. Qed.

(** Where NVML is not installed the program labels a power of zero as real, and reports
    the constrained budget as unexpected. *)
Lemma rtx5090_without_nvml :
  sample_main no_library =
  Ret (0, sample_device_lines ++
    ["baseline: 0.0 W, 0.0 C, utilization 0.00 (REAL)";
     "probe: n=8388608 verified=yes elapsed=1.250 ms (REAL CUDA)"; "post-workload power: 0.0 W (REAL)";
     "class LATENCY_CRITICAL requested 250 W -> REVALIDATION_REQUIRED (evidence=UNKNOWN)";
     "class THROUGHPUT requested 250 W -> REVALIDATION_REQUIRED (evidence=UNKNOWN)"; "reservation 1 reserved 100 W";
     "SYNTHETIC constrained budget (60 W): requested 250 W -> REVALIDATION_REQUIRED limit=n/a";
     "UNEXPECTED: constrained budget did not limit/throttle/defer"; "restored unconstrained policy -> REVALIDATION_REQUIRED";
     "after release: free mem=30000 MiB (bounded, justifiable delta only)"; "accounting consistent: yes"]%string, 575000).
Proof. run_sample_main. Qed.
End Rtx5090.
