(* ===== verification/Benchmarks.v ===== *)
(** * The benchmark (benchmarks/bench_main.cpp)

    The operations that are measured, repeated and in four threads, and the lines that are
    printed.  The readings of the steady clock and the order in which the threads take the
    lock are arguments.  Whatever that order is, the threads all finish, no exception ends
    the process, and they leave the budgets as they found them. *)
From S2P Require Import Prelude Rounding Binary64 Util Units Ids Clock Budget Authority WorkloadClass Policy Energy.
From S2P Require Import Reservation ReservationFacts ReservationSpec Index Backend DecisionEngine Wire Protocol Governor GovernorSpec GovernorIndex.
From S2P Require Import GovernorThreads GovernorState Cli Examples.
Local Open Scope Z_scope.
#[local] Set Warnings "-inexact-float".

Module Bench.
(** ** Measuring *)

(** The milliseconds between two readings, in nanoseconds, of the steady clock. *)
Definition ms (a b : Z) : double := (double_of_Z (b - a) / 1000000)%float.

Fixpoint repeat_call {S : Type} (n : nat) (f : M S unit) : M S unit :=
  match n with O => sret tt | S n => do! _ <- f; repeat_call n f end.

(** The conversion [%8.0f]. *)
Definition rounded (x : double) : string :=
  match Prim2SF x with
  | S754_zero s => if s then "-0" else "0"
  | S754_infinity s => if s then "-inf" else "inf"
  | S754_nan => "nan"
  | S754_finite s m e =>
      (if s then "-" else EmptyString) +:+ to_string_int (if 0 <=? e then Z.pos m * 2 ^ e else rne (Z.pos m) (- e))
  end.
Fixpoint spaces (n : nat) : string := match n with O => EmptyString | S n => " " +:+ spaces n end.
Definition width_8 (s : string) : string := spaces (8 - String.length s) +:+ s.

Definition result_line (label : string) (n : Z) (what : string) (t : double) : string :=
  label +:+ width_8 (rounded (double_of_Z n / (t / 1000))%float) +:+ " ops/s   (" +:+ to_string_int n +:+ " " +:+ what +:+ ", "
    +:+ printf_f 1 t +:+ " ms)".

(** ** The set-up *)
Definition set_up : M Governor.t unit :=
  do! _ <- install_caps (Some (mkQ 5000)) None (Some (mkQ 402)) gen_first;
  do! _ <- Governor.install_budget start_time (plain_budget 1 1 None (mkQ 450) "node");
  do! _ <- Governor.install_budget start_time (plain_budget 2 2 (Some (mkId 1)) (mkQ 402) "acc");
  poll_at (observing 120 45) start_time.

(** ** The operations *)
Definition plan_for (workload : Z) (w : double) : M Governor.t ReservationManager.Result :=
  do! validity <- slift (duration_seconds 2);
  Governor.plan_reservation (mkId workload) THROUGHPUT (mkId 2) (mkId 2) (mkQ w) J0 gen_first gen_first start_time validity.
Definition let_go (id : ReservationId) : M Governor.t unit :=
  do! _ <- Governor.release_reservation id gen_first start_time; sret tt.

Definition create_and_release : M Governor.t unit :=
  do! p <- plan_for 9 20;
  if ReservationManager.ok p then let_go (ReservationManager.res_id p) else sret tt.

Definition query (g : Governor.t) : outcome unit := let! _ := Governor.budget_available g (mkId 2) in Ret tt.
Definition digest (g : Governor.t) : outcome unit := let! _ := state_digest g in Ret tt.
Definition looking (f : Governor.t -> outcome unit) : M Governor.t unit := do! g <- sget; slift (f g).

Definition observation : PowerObsMsg.t :=
  PowerObsMsg.mk (mkId 1) (mkId 2) gen_first (mkId 3) (mkGen 4) (mkGen 5) 0 true 92000 true 3700 0 0 false 0 false 0 false 1 "fake".
Definition observation_frame : outcome Frame :=
  let! payload := PowerObsMsg.encode_power_obs observation in Ret (mkFrame POWER_OBSERVATION payload).
Definition serialize_and_deserialize (f : Frame) : outcome unit :=
  let! bytes := serialize_frame f in let fr := deserialize_frame bytes in Ret tt.

(** ** Four threads *)

(** A thread: the reservation it has planned, and the pairs it has still to begin. *)
Record pair_thread := mkPair { planned : option ReservationId; pairs : nat }.

(** An exception that leaves a thread ends the process. *)
Definition in_thread {A : Type} (m : M Governor.t A) : M Governor.t A := fun g => let '(o, g) := m g in (noexcept o, g).

(** The next call of thread [i]. *)
Definition pair_turn (i : nat) (l : list pair_thread) : M Governor.t (list pair_thread) :=
  match l !! i with
  | Some (mkPair (Some id) n) => do! _ <- in_thread (let_go id); sret (<[i := mkPair None n]> l)
  | Some (mkPair None (S n)) =>
      do! p <- in_thread (plan_for 55 10);
      sret (<[i := mkPair (if ReservationManager.ok p then Some (ReservationManager.res_id p) else None) n]> l)
  | _ => sret l
  end.
Fixpoint pair_turns (schedule : list nat) (l : list pair_thread) : M Governor.t (list pair_thread) :=
  match schedule with [] => sret l | i :: schedule => do! l <- pair_turn i l; pair_turns schedule l end.

Definition T : nat := 4.
(** [join]: the turns that the schedule leaves, in order. *)
Definition rest_of (m : nat) : list nat := concat (replicate (2 * m) (seq 0 T)).
Definition concurrent (schedule : list nat) (m : nat) : M Governor.t unit :=
  do! _ <- pair_turns (schedule ++ rest_of m) (replicate T (mkPair None m)); sret tt.

(** ** [main] *)
Section Main.
(** The k-th reading of the steady clock, and the counts [N] and [M] of the program. *)
Context (steady : nat -> Z) (schedule : list nat) (N M : Z).

Definition bench (k : nat) (f : Prelude.M Governor.t unit) : Prelude.M Governor.t double :=
  do! _ <- repeat_call (Z.to_nat N) f; sret (ms (steady (2 * k)) (steady (2 * k + 1))).

Definition run_bench : Prelude.M Governor.t (list string) :=
  do! _ <- set_up;
  do! t0 <- bench 0 (poll_at (observing 120 45) start_time);
  do! t1 <- bench 1 (do! _ <- ask THROUGHPUT 250 start_time; sret tt);
  do! t2 <- bench 2 (looking query);
  do! t3 <- bench 3 create_and_release;
  do! t4 <- bench 4 (Governor.account_energy (mkId 1) (mkQ 1) DERIVED start_time);
  do! t5 <- bench 5 (looking digest);
  do! f <- slift observation_frame;
  do! t6 <- bench 6 (slift (serialize_and_deserialize f));
  do! _ <- concurrent schedule (Z.to_nat (M / Z.of_nat T));
  let t7 := ms (steady 14) (steady 15) in
  sret ["Power Governor benchmarks (Release).";
        result_line "observation ingestion     " N "obs" t0;
        result_line "power-decision evaluation " N "decisions" t1;
        result_line "budget allocation (query) " N "queries" t2;
        result_line "reservation create/release " N "pairs" t3;
        result_line "energy accounting         " N "adds" t4;
        result_line "state digest (serialize)  " N "digests" t5;
        result_line "protocol encode/decode     " N "frames" t6;
        result_line "concurrent reservations    " M "ops, 4 threads" t7].
End Main.

Definition main (steady : nat -> Z) (schedule : list nat) : M Governor.t (list string) := run_bench steady schedule 30000 50000.

(** ** The threads, in any order *)
Definition todo (t : pair_thread) : nat := (2 * pairs t + match planned t with Some _ => 1 | None => 0 end)%nat.
Definition to_plan (l : list pair_thread) : nat := tally pairs l.

(** A reservation that was planned and holds nothing. *)
Definition fresh_plan (r : Reservation.t) : Prop :=
  Reservation.state r = PLANNED /\ Reservation.budget r = mkId 2 /\ Reservation.reserved_power r = W0.

Definition table (g : Governor.t) := ReservationManager.map_ (Governor.rm g).
Definition next_reservation (g : Governor.t) : Z := ReservationManager.next_id (Governor.rm g).

Section Pairs.
Context (b0 : BudgetManager.t).
(** What holds nothing is released from the budget without a change. *)
Hypothesis Hrelease : forall rid, BudgetManager.release b0 (mkId 2) W0 rid gen_first = (true, b0).

Record pairs_ok (g : Governor.t) (l : list pair_thread) : Prop := mkPairsOk {
  pairs_budgets : Governor.budgets g = b0;
  pairs_ids : allocated (table g) (next_reservation g);
  pairs_fresh : next_reservation g + Z.of_nat (to_plan l) < 2 ^ 64;
  pairs_planned : forall i t id, l !! i = Some t -> planned t = Some id -> exists r, table g !! id = Some r /\ fresh_plan r;
  pairs_once : forall i i' t t' id, l !! i = Some t -> l !! i' = Some t' -> planned t = Some id -> planned t' = Some id -> i = i' }.

Lemma let_go_returns (g : Governor.t) (id : ReservationId) (r : Reservation.t) :
  Governor.budgets g = b0 -> table g !! id = Some r -> fresh_plan r ->
  exists r' g', let_go id g = (Ret tt, g') /\ table g' = <[id := r']> (table g) /\
    next_reservation g' = next_reservation g /\ Governor.budgets g' = b0.
Proof.
  intros Hb Er (Hs & Hbud & Hp). unfold Governor.budgets, table, next_reservation in *.
  set (r' := Reservation.with_times (Reservation.activated_at r) start_time (Reservation.with_state RELEASED r)).
  assert (Em : ReservationManager.release id gen_first start_time (Governor.rm g) =
    (Ret (ReservationManager.result true "released"),
     ReservationManager.mk (<[id := r']> (ReservationManager.map_ (Governor.rm g))) (ReservationManager.next_id (Governor.rm g)) b0)).
  { unfold ReservationManager.release. rewrite mutable_get_bind, Er, Hs. rewrite !(bool_decide_false (PLANNED = _)) by discriminate.
    rewrite andb_false_r. rewrite call_bind, Hb, Hbud, Hp. change (b_release b0) with (BudgetManager.release b0). rewrite Hrelease.
    reflexivity. }
  destruct (step_returns id RELEASED _ g _ _ Em eq_refl) as (g' & Eg & Erm); [cbn; rewrite lookup_insert_eq; eauto|].
  exists r', g'. split; [unfold let_go, Governor.release_reservation; rewrite (sbind_step _ _ _ _ _ Eg); reflexivity|].
  rewrite Erm. auto.
Qed.

Definition pair_job : Threads.job :=
  Threads.mkJob (fun _ => mkId 55) THROUGHPUT (mkId 2) (mkId 2) (mkQ 10) J0 gen_first gen_first gen_first start_time (mkDuration 2000000000).

Lemma plan_for_returns (g : Governor.t) : allocated (table g) (next_reservation g) -> next_reservation g < 2 ^ 64 - 1 ->
  let id := mkId (next_reservation g) in
  exists r' g', plan_for 55 10 g = (Ret (ReservationManager.mkResult true "planned" id), g') /\ table g !! id = None /\
    table g' = <[id := r']> (table g) /\ next_reservation g' = next_reservation g + 1 /\
    Governor.budgets g' = Governor.budgets g /\ fresh_plan r'.
Proof.
  intros Hi Hlt id. destruct (plan_returns pair_job 0 g Hi Hlt) as (r' & g' & Ec & Hnone & Emap & Enext & Eb & (Hbud & _ & _ & _ & _ & Hs) & Hp).
  exists r', g'. unfold plan_for. split_and!; try assumption.
  split; [exact Hs|]. split; [exact Hbud|exact Hp].
Qed.

Lemma in_thread_returns {A : Type} (m : M Governor.t A) (g g' : Governor.t) (a : A) : m g = (Ret a, g') -> in_thread m g = (Ret a, g').
Proof. intros E. unfold in_thread. rewrite E. reflexivity. Qed.

(** One turn of thread [i]. *)
Definition turned_pair (i : nat) (l l' : list pair_thread) : Prop :=
  length l' = length l /\
  forall i' t, l !! i' = Some t -> exists t', l' !! i' = Some t' /\ todo t' = if decide (i' = i) then pred (todo t) else todo t.

Lemma turned_pair_set (i : nat) (l : list pair_thread) (t t' : pair_thread) :
  l !! i = Some t -> todo t' = pred (todo t) -> turned_pair i l (<[i := t']> l).
Proof.
  intros E Ht. split; [apply length_insert|]. intros i' x Ex. case_decide as Hi.
  - subst i'. exists t'. rewrite E in Ex. injection Ex as <-. split; [|exact Ht].
    apply list_lookup_insert_eq. exact (lookup_lt_Some _ _ _ E).
  - exists x. rewrite list_lookup_insert_ne by congruence. auto.
Qed.

(** The threads after one has changed, with the table changed at its reservation. *)
Lemma pairs_ok_set (g g' : Governor.t) (l : list pair_thread) (i : nat) (t t' : pair_thread) (id : ReservationId) (r' : Reservation.t) :
  pairs_ok g l -> l !! i = Some t -> table g' = <[id := r']> (table g) -> Governor.budgets g' = b0 ->
  allocated (table g') (next_reservation g') ->
  next_reservation g' + Z.of_nat (pairs t') <= next_reservation g + Z.of_nat (pairs t) ->
  (forall i' x, i' <> i -> l !! i' = Some x -> planned x <> Some id) ->
  (planned t' = None \/ planned t' = Some id /\ fresh_plan r') -> pairs_ok g' (<[i := t']> l).
Proof.
  intros [Hb Hi Hf Hp H1] E Etab Hb' Hi' Hn Hother Ht'.
  assert (Hat : forall i' x id', <[i := t']> l !! i' = Some x -> planned x = Some id' ->
            (i' = i /\ id' = id /\ fresh_plan r') \/ (i' <> i /\ l !! i' = Some x /\ id' <> id)).
  { intros i' x id' Ex Hx. apply list_lookup_insert_Some in Ex as [(-> & <- & _)|(Hne & Ex)].
    - left. destruct Ht' as [H|[H Hr]]; rewrite H in Hx; [discriminate|]. injection Hx as <-. auto.
    - right. split; [congruence|]. split; [exact Ex|]. intros ->. apply (Hother i' x); congruence. }
  split; [exact Hb'|exact Hi'| | |].
  - unfold to_plan in *. rewrite (tally_at _ _ _ _ E) in Hf. rewrite (tally_set _ _ _ _ _ E). lia.
  - intros i' x id' Ex Hx. rewrite Etab. destruct (Hat i' x id' Ex Hx) as [(_ & -> & Hr)|(_ & Ex' & Hne)].
    + exists r'. rewrite lookup_insert_eq. auto.
    + rewrite lookup_insert_ne by congruence. apply (Hp i' x); assumption.
  - intros i1 i2 x1 x2 id' E1 E2 Hx1 Hx2.
    destruct (Hat _ _ _ E1 Hx1) as [(-> & -> & _)|(_ & E1' & N1)], (Hat _ _ _ E2 Hx2) as [(-> & H & _)|(_ & E2' & N2)]; try congruence.
    apply (H1 i1 i2 x1 x2 id'); assumption.
Qed.

Lemma pair_turn_ok (i : nat) (g : Governor.t) (l : list pair_thread) : pairs_ok g l ->
  exists l' g', pair_turn i l g = (Ret l', g') /\ pairs_ok g' l' /\ turned_pair i l l'.
Proof.
  intros Hok. pose proof Hok as [Hb Hi Hf Hp H1]. unfold pair_turn. destruct (l !! i) as [[[id|] [|n]]|] eqn:E.
  1, 2: destruct (Hp i _ id E eq_refl) as (r & Er & Hr);
    destruct (let_go_returns g id r Hb Er Hr) as (r' & g' & Eg & Etab & Enext & Eb);
    rewrite (sbind_step _ _ _ _ _ (in_thread_returns _ _ _ _ Eg)); eexists _, g'; split; [reflexivity|]; split;
    [eapply pairs_ok_set; [exact Hok|exact E|exact Etab|exact Eb| |rewrite Enext; cbn; lia| |left; reflexivity]
    |apply (turned_pair_set i l _ _ E); cbn; lia].
  1, 3: rewrite Etab, Enext; eapply allocated_insert; eassumption.
  1, 2: intros i' x Hne Ex Hx; apply Hne, (H1 i' i x _ id Ex E Hx eq_refl).
  - exists l, g. split; [reflexivity|]. split; [exact Hok|]. split; [reflexivity|]. intros i' t Et. exists t. split; [exact Et|].
    case_decide as Hd; [subst i'; rewrite E in Et; injection Et as <-|]; reflexivity.
  - unfold to_plan in Hf. rewrite (tally_at _ _ _ _ E) in Hf. cbn [pairs] in Hf.
    destruct (plan_for_returns g Hi ltac:(lia)) as (r' & g' & Eg & Hnone & Etab & Enext & Eb & Hr').
    rewrite (sbind_step _ _ _ _ _ (in_thread_returns _ _ _ _ Eg)). eexists _, g'. split; [reflexivity|].
    cbn [ReservationManager.ok ReservationManager.res_id]. split; [|apply (turned_pair_set i l _ _ E); cbn; lia].
    eapply pairs_ok_set; [exact Hok|exact E|exact Etab|congruence| |cbn [pairs]; lia| |right; split; [reflexivity|exact Hr']].
    + rewrite Etab, Enext. destruct Hi as [Hn Hids]. split; [lia|]. intros x. rewrite lookup_insert.
      case_decide as Ex; [subst x; cbn; lia|]. intros Hx. specialize (Hids x Hx). lia.
    + intros i' x _ Ex Hx. destruct (Hp i' x _ Ex Hx) as (r & Er & _). congruence.
  - exists l, g. split; [reflexivity|]. split; [exact Hok|]. split; [reflexivity|]. intros i' t Et. exists t. split; [exact Et|].
    case_decide as Hd; [congruence|reflexivity].
Qed.

Lemma pair_turns_ok (schedule : list nat) (g : Governor.t) (l : list pair_thread) : pairs_ok g l ->
  exists l' g', pair_turns schedule l g = (Ret l', g') /\ pairs_ok g' l' /\ length l' = length l /\
    forall i t, l !! i = Some t -> exists t', l' !! i = Some t' /\ todo t' = (todo t - count_occ Nat.eq_dec schedule i)%nat.
Proof.
  revert g l. induction schedule as [|i schedule IH]; intros g l Hok; cbn [pair_turns].
  - exists l, g. split; [reflexivity|]. split; [exact Hok|]. split; [reflexivity|]. intros i t E. exists t. cbn [count_occ]. split; [exact E|lia].
  - destruct (pair_turn_ok i g l Hok) as (l1 & g1 & E1 & Hok1 & Hlen1 & H1). rewrite (sbind_step _ _ _ _ _ E1).
    destruct (IH g1 l1 Hok1) as (l' & g' & E' & Hok' & Hlen' & H'). exists l', g'. split; [exact E'|]. split; [exact Hok'|].
    split; [congruence|]. intros i' t E. destruct (H1 i' t E) as (t1 & Et1 & Ht1). destruct (H' i' t1 Et1) as (t' & Et' & Ht').
    exists t'. split; [exact Et'|]. rewrite Ht', Ht1. cbn [count_occ]. destruct (Nat.eq_dec i i'); case_decide; try congruence; lia.
Qed.
End Pairs.

Lemma rest_turns (m i : nat) : (i < T)%nat -> count_occ Nat.eq_dec (rest_of m) i = (2 * m)%nat.
Proof.
  intros Hi. unfold rest_of. generalize (2 * m)%nat. intros k. induction k as [|k IH]; [reflexivity|].
  cbn [replicate concat]. rewrite count_occ_app, IH. destruct i as [|[|[|[|i]]]]; cbn; unfold T in Hi; lia.
Qed.

(** The four threads: whatever the order of their calls, the program goes on after
    [join], every thread has begun all its pairs and ended them, and the budgets are as
    they were. *)
Lemma concurrent_pairs_finish (schedule : list nat) (m : nat) (g : Governor.t) :
  (forall rid, BudgetManager.release (Governor.budgets g) (mkId 2) W0 rid gen_first = (true, Governor.budgets g)) ->
  allocated (table g) (next_reservation g) -> next_reservation g + Z.of_nat (4 * m) < 2 ^ 64 ->
  exists g', pair_turns (schedule ++ rest_of m) (replicate T (mkPair None m)) g = (Ret (replicate T (mkPair None 0)), g') /\
    concurrent schedule m g = (Ret tt, g') /\ Governor.budgets g' = Governor.budgets g.
Proof.
  intros Hr Hi Hf. assert (Hok : pairs_ok (Governor.budgets g) g (replicate T (mkPair None m))).
  { split; [reflexivity|exact Hi| | |].
    - unfold to_plan. rewrite (tally_const _ m) by (intros t [-> _]%elem_of_replicate; reflexivity). rewrite length_replicate. exact Hf.
    - intros i t id [-> _]%lookup_replicate. discriminate.
    - intros i i' t t' id [-> _]%lookup_replicate. discriminate. }
  destruct (pair_turns_ok _ Hr (schedule ++ rest_of m) g _ Hok) as (l' & g' & E & Hok' & Hlen & Hall).
  assert (El : l' = replicate T (mkPair None 0)).
  { apply list_eq_same_length with (n := T); [reflexivity|rewrite Hlen; apply length_replicate|].
    intros i x y Hlt Ex Ey. apply lookup_replicate in Ey as [-> _].
    destruct (Hall i (mkPair None m)) as (t' & Et' & Ht'); [apply lookup_replicate; auto|]. rewrite Ex in Et'. injection Et' as <-.
    rewrite count_occ_app, (rest_turns m i Hlt) in Ht'. destruct x as [[id|] n]; unfold todo in Ht'; cbn in Ht'; [lia|]. f_equal. lia. }
  subst l'. exists g'. split; [exact E|]. split; [unfold concurrent; rewrite (sbind_step _ _ _ _ _ E); reflexivity|].
  apply Hok'.
Qed.

(** The governor as the program sets it up, with its 12500 pairs for each thread. *)
Lemma bench_threads_finish (schedule : list nat) :
  let g := (set_up program_governor).2 in
  exists g', concurrent schedule (Z.to_nat (50000 / Z.of_nat T)) g = (Ret tt, g') /\ Governor.budgets g' = Governor.budgets g.
Proof.
  intros g. destruct (concurrent_pairs_finish schedule (Z.to_nat (50000 / Z.of_nat T)) g) as (g' & _ & H).
  - intros rid. vm_compute. reflexivity.
  - split; [vm_compute; discriminate|]. intros id [r E]. vm_compute in E. discriminate.
  - vm_compute. reflexivity.
  - exists g'. exact H.
Qed.

(** A benchmark of 2 rounds, and 8 pairs that four threads take in turn; the printed
    rates are those of a clock that takes a millisecond and a half per section. *)
Example bench_prints :
  run_program (run_bench (fun k => Z.of_nat k * 1500000) [0; 1; 3; 3; 2]%nat 2 8) =
  Ret ["Power Governor benchmarks (Release).";
       "observation ingestion         1333 ops/s   (2 obs, 1.5 ms)";
       "power-decision evaluation     1333 ops/s   (2 decisions, 1.5 ms)";
       "budget allocation (query)     1333 ops/s   (2 queries, 1.5 ms)";
       "reservation create/release     1333 ops/s   (2 pairs, 1.5 ms)";
       "energy accounting             1333 ops/s   (2 adds, 1.5 ms)";
       "state digest (serialize)      1333 ops/s   (2 digests, 1.5 ms)";
       "protocol encode/decode         1333 ops/s   (2 frames, 1.5 ms)";
       "concurrent reservations        5333 ops/s   (8 ops, 4 threads, 1.5 ms)"]%string.
Proof. vm_compute. reflexivity. Qed.
End Bench.
